(** * Boolector expression core: the node arena, the unique table and the
    reference-counting engine of [src/btorexp.c], as a shallow embedding.

    Nodes live in the id table; a node pointer is the machine word obtained
    from the node's id by shifting it left by two bits, so that the two low
    bits are free for the tags the source packs into pointers (the inversion
    bit and the child position of a parent link).  The null pointer is [0],
    which is also the address of the reserved slot [0] of the id table.

    Every function that dereferences a pointer is partial: it returns [None]
    where the C code would dereference null or freed storage, or where it
    calls [BTOR_ABORT].  Debug-only [assert]s are not part of the model; the
    theorems take what they need of them as hypotheses. *)

From Stdlib Require Import ZArith Lia List Bool String.
From stdpp Require Import base option list gmap strings.

Local Open Scope Z_scope.
Set Warnings "-register-all".

(** ** Tagged pointers (the macros of btorexp.h) *)

(** Modelled from the spec: section 3.3 (edge encoding) and the way the
    source uses the macros of the absent header btorexp.h.  The low bit of a
    handle is the inversion tag; a parent link stores the child position in
    the two low bits; the real address masks both. *)
Definition BTOR_INVERT_NODE (exp : Z) : Z := Z.lxor 1 exp.
Definition BTOR_IS_INVERTED_NODE (exp : Z) : bool := Z.testbit exp 0.
Definition BTOR_IS_REGULAR_NODE (exp : Z) : bool := negb (Z.testbit exp 0).
Definition BTOR_REAL_ADDR_NODE (exp : Z) : Z := Z.land (Z.lnot 3) exp.
Definition BTOR_COND_INVERT_NODE (cond_exp exp : Z) : Z :=
  Z.lxor (Z.land cond_exp 1) exp.
Definition BTOR_TAG_NODE (exp : Z) (tag : nat) : Z := Z.lor (Z.of_nat tag) exp.
Definition btor_exp_get_tag (exp : Z) : nat := Z.to_nat (Z.land 3 exp).

(** The address of the node stored in slot [i] of the id table, and back. *)
Definition ptr_of_id (i : nat) : Z := Z.shiftl (Z.of_nat i) 2.
Definition id_of_ptr (p : Z) : nat := Z.to_nat (Z.shiftr p 2).

Definition INT_MAX : Z := 2147483647.
Definition UINT_MOD : Z := 2 ^ 32.

(** Unsigned 32-bit arithmetic, as the hash functions use it. *)
Definition u32 (x : Z) : Z := x mod UINT_MOD.

(** ** Node kinds *)

Inductive BtorNodeKind :=
  | BTOR_INVALID_NODE | BTOR_BV_CONST_NODE | BTOR_BV_VAR_NODE
  | BTOR_PARAM_NODE | BTOR_SLICE_NODE | BTOR_AND_NODE | BTOR_BV_EQ_NODE
  | BTOR_FUN_EQ_NODE | BTOR_ADD_NODE | BTOR_MUL_NODE | BTOR_ULT_NODE
  | BTOR_SLL_NODE | BTOR_SRL_NODE | BTOR_UDIV_NODE | BTOR_UREM_NODE
  | BTOR_CONCAT_NODE | BTOR_APPLY_NODE | BTOR_LAMBDA_NODE | BTOR_COND_NODE
  | BTOR_ARGS_NODE | BTOR_UF_NODE | BTOR_UPDATE_NODE | BTOR_PROXY_NODE.

#[global] Instance BtorNodeKind_eq_dec : EqDecision BtorNodeKind.
Proof. solve_decision. Defined.

(** The numeric value of a kind (the order of the enumeration, which is the
    order of [g_btor_op2str]). *)
Definition kind_code (k : BtorNodeKind) : Z :=
  match k with
  | BTOR_INVALID_NODE => 0 | BTOR_BV_CONST_NODE => 1 | BTOR_BV_VAR_NODE => 2
  | BTOR_PARAM_NODE => 3 | BTOR_SLICE_NODE => 4 | BTOR_AND_NODE => 5
  | BTOR_BV_EQ_NODE => 6 | BTOR_FUN_EQ_NODE => 7 | BTOR_ADD_NODE => 8
  | BTOR_MUL_NODE => 9 | BTOR_ULT_NODE => 10 | BTOR_SLL_NODE => 11
  | BTOR_SRL_NODE => 12 | BTOR_UDIV_NODE => 13 | BTOR_UREM_NODE => 14
  | BTOR_CONCAT_NODE => 15 | BTOR_APPLY_NODE => 16 | BTOR_LAMBDA_NODE => 17
  | BTOR_COND_NODE => 18 | BTOR_ARGS_NODE => 19 | BTOR_UF_NODE => 20
  | BTOR_UPDATE_NODE => 21 | BTOR_PROXY_NODE => 22
  end.

(** Modelled from the spec: the kind predicates of the absent header; the
    commutative binary kinds are the range And .. Mul of section 3.2. *)
Definition btor_is_binary_commutative_node_kind (k : BtorNodeKind) : bool :=
  (kind_code BTOR_AND_NODE <=? kind_code k)
  && (kind_code k <=? kind_code BTOR_MUL_NODE).

(** ** Sorts *)

(** Modelled from the spec: section 4.1, the sort registry of the absent
    btorsort.c.  Sorts are interned, so a sort id stands for its descriptor
    and two ids are equal exactly when the descriptors are; the model uses
    the descriptor itself as the id and [None] for the id 0.  The reference
    counts of sorts are not modelled. *)
Inductive BtorSort :=
  | BoolSort
  | BitVecSort (width : Z)
  | TupleSort (elements : list BtorSort)
  | FunSort (domain codomain : BtorSort).

Abbreviation BtorSortId := (option BtorSort).

Fixpoint sort_eqb (a b : BtorSort) {struct a} : bool :=
  match a, b with
  | BoolSort, BoolSort => true
  | BitVecSort w, BitVecSort w' => Z.eqb w w'
  | TupleSort l, TupleSort l' =>
      (fix go (l l' : list BtorSort) {struct l} : bool :=
         match l, l' with
         | [], [] => true
         | x :: l, y :: l' => sort_eqb x y && go l l'
         | _, _ => false
         end) l l'
  | FunSort d c, FunSort d' c' => sort_eqb d d' && sort_eqb c c'
  | _, _ => false
  end.

Definition sort_id_eqb (a b : BtorSortId) : bool :=
  match a, b with
  | None, None => true
  | Some x, Some y => sort_eqb x y
  | _, _ => false
  end.

Definition btor_bitvec_sort (w : Z) : BtorSortId := Some (BitVecSort w).
Definition btor_bool_sort : BtorSortId := Some BoolSort.
Definition btor_is_bitvec_sort (s : BtorSortId) : bool :=
  match s with Some (BitVecSort _) => true | _ => false end.
Definition btor_is_fun_sort (s : BtorSortId) : bool :=
  match s with Some (FunSort _ _) => true | _ => false end.
Definition btor_get_width_bitvec_sort (s : BtorSortId) : option Z :=
  match s with
  | Some (BitVecSort w) => Some w
  | Some BoolSort => Some 1
  | _ => None
  end.
Definition btor_get_codomain_fun_sort (s : BtorSortId) : BtorSortId :=
  match s with Some (FunSort _ c) => Some c | _ => None end.
Definition btor_get_domain_fun_sort (s : BtorSortId) : BtorSortId :=
  match s with Some (FunSort d _) => Some d | _ => None end.
Definition tuple_sort_elements (s : BtorSortId) : list BtorSort :=
  match s with Some (TupleSort l) => l | _ => [] end.
Definition btor_tuple_sort (l : list BtorSort) : BtorSortId :=
  Some (TupleSort l).
Definition btor_fun_sort (d c : BtorSortId) : BtorSortId :=
  match d, c with Some d, Some c => Some (FunSort d c) | _, _ => None end.

(** ** Bit-vector values *)

(** Modelled from the spec: section 4.2, the bit-vector library of the
    absent btorbitvec.c: a width and an unsigned value below [2^width]. *)
Record BtorBitVector := mkBV { bv_width : Z; bv_bits : Z }.

#[global] Instance BtorBitVector_eq_dec : EqDecision BtorBitVector.
Proof. solve_decision. Defined.

Definition btor_get_bit_bv (bv : BtorBitVector) (pos : Z) : bool :=
  Z.testbit (bv_bits bv) pos.
Definition btor_not_bv (bv : BtorBitVector) : BtorBitVector :=
  mkBV (bv_width bv) (Z.lxor (bv_bits bv) (Z.ones (bv_width bv))).
Definition btor_copy_bv (bv : BtorBitVector) : BtorBitVector := bv.
(** [btor_compare_bv] is zero exactly on equal values. *)
Definition btor_compare_bv (a b : BtorBitVector) : Z :=
  if Z.eqb (bv_width a) (bv_width b) then
    if Z.ltb (bv_bits a) (bv_bits b) then -1
    else if Z.ltb (bv_bits b) (bv_bits a) then 1 else 0
  else -1.

(** ** Nodes *)

(** The three child slots of a node, and its three pairs of parent links. *)
Record arr3 := A3 { a3_0 : Z; a3_1 : Z; a3_2 : Z }.

Definition get3 (a : arr3) (i : nat) : Z :=
  match i with
  | O => a3_0 a | S O => a3_1 a | S (S O) => a3_2 a | _ => 0
  end.
Definition set3 (a : arr3) (i : nat) (v : Z) : arr3 :=
  match i with
  | O => A3 v (a3_1 a) (a3_2 a)
  | S O => A3 (a3_0 a) v (a3_2 a)
  | S (S O) => A3 (a3_0 a) (a3_1 a) v
  | _ => a
  end.
Definition null3 : arr3 := A3 0 0 0.

(** The node structure: the common fields of [BtorNode], then the fields of
    the kind-specific extensions (constant, slice, lambda, parameter).  The
    collision chain link [next] is represented by the order of the chain in
    the unique table. *)
Record BtorNode := mkNode {
  n_kind : BtorNodeKind;
  n_id : Z;
  n_refs : Z;
  n_ext_refs : Z;
  n_parents : Z;
  n_arity : nat;
  n_e : arr3;
  n_sort_id : BtorSortId;
  n_simplified : Z;
  n_unique : bool;
  n_erased : bool;
  n_disconnected : bool;
  n_parameterized : bool;
  n_lambda_below : bool;
  n_apply_below : bool;
  n_is_array : bool;
  n_first_parent : Z;
  n_last_parent : Z;
  n_prev_parent : arr3;
  n_next_parent : arr3;
  n_av : option (list Z);
  n_rho : option (list (Z * Z));
  n_bits : option BtorBitVector;
  n_invbits : option BtorBitVector;
  n_upper : Z;
  n_lower : Z;
  n_body : Z;
  n_static_rho : option (list (Z * Z));
  n_lambda_exp : Z
}.

Definition wr_kind (v : BtorNodeKind) (n : BtorNode) : BtorNode :=
  mkNode (v) (n_id n) (n_refs n) (n_ext_refs n) (n_parents n) (n_arity n) (n_e
    n) (n_sort_id n) (n_simplified n) (n_unique n) (n_erased n)
    (n_disconnected n) (n_parameterized n) (n_lambda_below n) (n_apply_below
    n) (n_is_array n) (n_first_parent n) (n_last_parent n) (n_prev_parent n)
    (n_next_parent n) (n_av n) (n_rho n) (n_bits n) (n_invbits n) (n_upper n)
    (n_lower n) (n_body n) (n_static_rho n) (n_lambda_exp n).
Definition wr_id (v : Z) (n : BtorNode) : BtorNode :=
  mkNode (n_kind n) (v) (n_refs n) (n_ext_refs n) (n_parents n) (n_arity n)
    (n_e n) (n_sort_id n) (n_simplified n) (n_unique n) (n_erased n)
    (n_disconnected n) (n_parameterized n) (n_lambda_below n) (n_apply_below
    n) (n_is_array n) (n_first_parent n) (n_last_parent n) (n_prev_parent n)
    (n_next_parent n) (n_av n) (n_rho n) (n_bits n) (n_invbits n) (n_upper n)
    (n_lower n) (n_body n) (n_static_rho n) (n_lambda_exp n).
Definition wr_refs (v : Z) (n : BtorNode) : BtorNode :=
  mkNode (n_kind n) (n_id n) (v) (n_ext_refs n) (n_parents n) (n_arity n) (n_e
    n) (n_sort_id n) (n_simplified n) (n_unique n) (n_erased n)
    (n_disconnected n) (n_parameterized n) (n_lambda_below n) (n_apply_below
    n) (n_is_array n) (n_first_parent n) (n_last_parent n) (n_prev_parent n)
    (n_next_parent n) (n_av n) (n_rho n) (n_bits n) (n_invbits n) (n_upper n)
    (n_lower n) (n_body n) (n_static_rho n) (n_lambda_exp n).
Definition wr_ext_refs (v : Z) (n : BtorNode) : BtorNode :=
  mkNode (n_kind n) (n_id n) (n_refs n) (v) (n_parents n) (n_arity n) (n_e n)
    (n_sort_id n) (n_simplified n) (n_unique n) (n_erased n) (n_disconnected
    n) (n_parameterized n) (n_lambda_below n) (n_apply_below n) (n_is_array n)
    (n_first_parent n) (n_last_parent n) (n_prev_parent n) (n_next_parent n)
    (n_av n) (n_rho n) (n_bits n) (n_invbits n) (n_upper n) (n_lower n)
    (n_body n) (n_static_rho n) (n_lambda_exp n).
Definition wr_parents (v : Z) (n : BtorNode) : BtorNode :=
  mkNode (n_kind n) (n_id n) (n_refs n) (n_ext_refs n) (v) (n_arity n) (n_e n)
    (n_sort_id n) (n_simplified n) (n_unique n) (n_erased n) (n_disconnected
    n) (n_parameterized n) (n_lambda_below n) (n_apply_below n) (n_is_array n)
    (n_first_parent n) (n_last_parent n) (n_prev_parent n) (n_next_parent n)
    (n_av n) (n_rho n) (n_bits n) (n_invbits n) (n_upper n) (n_lower n)
    (n_body n) (n_static_rho n) (n_lambda_exp n).
Definition wr_arity (v : nat) (n : BtorNode) : BtorNode :=
  mkNode (n_kind n) (n_id n) (n_refs n) (n_ext_refs n) (n_parents n) (v) (n_e
    n) (n_sort_id n) (n_simplified n) (n_unique n) (n_erased n)
    (n_disconnected n) (n_parameterized n) (n_lambda_below n) (n_apply_below
    n) (n_is_array n) (n_first_parent n) (n_last_parent n) (n_prev_parent n)
    (n_next_parent n) (n_av n) (n_rho n) (n_bits n) (n_invbits n) (n_upper n)
    (n_lower n) (n_body n) (n_static_rho n) (n_lambda_exp n).
Definition wr_e (v : arr3) (n : BtorNode) : BtorNode :=
  mkNode (n_kind n) (n_id n) (n_refs n) (n_ext_refs n) (n_parents n) (n_arity
    n) (v) (n_sort_id n) (n_simplified n) (n_unique n) (n_erased n)
    (n_disconnected n) (n_parameterized n) (n_lambda_below n) (n_apply_below
    n) (n_is_array n) (n_first_parent n) (n_last_parent n) (n_prev_parent n)
    (n_next_parent n) (n_av n) (n_rho n) (n_bits n) (n_invbits n) (n_upper n)
    (n_lower n) (n_body n) (n_static_rho n) (n_lambda_exp n).
Definition wr_sort_id (v : BtorSortId) (n : BtorNode) : BtorNode :=
  mkNode (n_kind n) (n_id n) (n_refs n) (n_ext_refs n) (n_parents n) (n_arity
    n) (n_e n) (v) (n_simplified n) (n_unique n) (n_erased n) (n_disconnected
    n) (n_parameterized n) (n_lambda_below n) (n_apply_below n) (n_is_array n)
    (n_first_parent n) (n_last_parent n) (n_prev_parent n) (n_next_parent n)
    (n_av n) (n_rho n) (n_bits n) (n_invbits n) (n_upper n) (n_lower n)
    (n_body n) (n_static_rho n) (n_lambda_exp n).
Definition wr_simplified (v : Z) (n : BtorNode) : BtorNode :=
  mkNode (n_kind n) (n_id n) (n_refs n) (n_ext_refs n) (n_parents n) (n_arity
    n) (n_e n) (n_sort_id n) (v) (n_unique n) (n_erased n) (n_disconnected n)
    (n_parameterized n) (n_lambda_below n) (n_apply_below n) (n_is_array n)
    (n_first_parent n) (n_last_parent n) (n_prev_parent n) (n_next_parent n)
    (n_av n) (n_rho n) (n_bits n) (n_invbits n) (n_upper n) (n_lower n)
    (n_body n) (n_static_rho n) (n_lambda_exp n).
Definition wr_unique (v : bool) (n : BtorNode) : BtorNode :=
  mkNode (n_kind n) (n_id n) (n_refs n) (n_ext_refs n) (n_parents n) (n_arity
    n) (n_e n) (n_sort_id n) (n_simplified n) (v) (n_erased n) (n_disconnected
    n) (n_parameterized n) (n_lambda_below n) (n_apply_below n) (n_is_array n)
    (n_first_parent n) (n_last_parent n) (n_prev_parent n) (n_next_parent n)
    (n_av n) (n_rho n) (n_bits n) (n_invbits n) (n_upper n) (n_lower n)
    (n_body n) (n_static_rho n) (n_lambda_exp n).
Definition wr_erased (v : bool) (n : BtorNode) : BtorNode :=
  mkNode (n_kind n) (n_id n) (n_refs n) (n_ext_refs n) (n_parents n) (n_arity
    n) (n_e n) (n_sort_id n) (n_simplified n) (n_unique n) (v) (n_disconnected
    n) (n_parameterized n) (n_lambda_below n) (n_apply_below n) (n_is_array n)
    (n_first_parent n) (n_last_parent n) (n_prev_parent n) (n_next_parent n)
    (n_av n) (n_rho n) (n_bits n) (n_invbits n) (n_upper n) (n_lower n)
    (n_body n) (n_static_rho n) (n_lambda_exp n).
Definition wr_disconnected (v : bool) (n : BtorNode) : BtorNode :=
  mkNode (n_kind n) (n_id n) (n_refs n) (n_ext_refs n) (n_parents n) (n_arity
    n) (n_e n) (n_sort_id n) (n_simplified n) (n_unique n) (n_erased n) (v)
    (n_parameterized n) (n_lambda_below n) (n_apply_below n) (n_is_array n)
    (n_first_parent n) (n_last_parent n) (n_prev_parent n) (n_next_parent n)
    (n_av n) (n_rho n) (n_bits n) (n_invbits n) (n_upper n) (n_lower n)
    (n_body n) (n_static_rho n) (n_lambda_exp n).
Definition wr_parameterized (v : bool) (n : BtorNode) : BtorNode :=
  mkNode (n_kind n) (n_id n) (n_refs n) (n_ext_refs n) (n_parents n) (n_arity
    n) (n_e n) (n_sort_id n) (n_simplified n) (n_unique n) (n_erased n)
    (n_disconnected n) (v) (n_lambda_below n) (n_apply_below n) (n_is_array n)
    (n_first_parent n) (n_last_parent n) (n_prev_parent n) (n_next_parent n)
    (n_av n) (n_rho n) (n_bits n) (n_invbits n) (n_upper n) (n_lower n)
    (n_body n) (n_static_rho n) (n_lambda_exp n).
Definition wr_lambda_below (v : bool) (n : BtorNode) : BtorNode :=
  mkNode (n_kind n) (n_id n) (n_refs n) (n_ext_refs n) (n_parents n) (n_arity
    n) (n_e n) (n_sort_id n) (n_simplified n) (n_unique n) (n_erased n)
    (n_disconnected n) (n_parameterized n) (v) (n_apply_below n) (n_is_array
    n) (n_first_parent n) (n_last_parent n) (n_prev_parent n) (n_next_parent
    n) (n_av n) (n_rho n) (n_bits n) (n_invbits n) (n_upper n) (n_lower n)
    (n_body n) (n_static_rho n) (n_lambda_exp n).
Definition wr_apply_below (v : bool) (n : BtorNode) : BtorNode :=
  mkNode (n_kind n) (n_id n) (n_refs n) (n_ext_refs n) (n_parents n) (n_arity
    n) (n_e n) (n_sort_id n) (n_simplified n) (n_unique n) (n_erased n)
    (n_disconnected n) (n_parameterized n) (n_lambda_below n) (v) (n_is_array
    n) (n_first_parent n) (n_last_parent n) (n_prev_parent n) (n_next_parent
    n) (n_av n) (n_rho n) (n_bits n) (n_invbits n) (n_upper n) (n_lower n)
    (n_body n) (n_static_rho n) (n_lambda_exp n).
Definition wr_is_array (v : bool) (n : BtorNode) : BtorNode :=
  mkNode (n_kind n) (n_id n) (n_refs n) (n_ext_refs n) (n_parents n) (n_arity
    n) (n_e n) (n_sort_id n) (n_simplified n) (n_unique n) (n_erased n)
    (n_disconnected n) (n_parameterized n) (n_lambda_below n) (n_apply_below
    n) (v) (n_first_parent n) (n_last_parent n) (n_prev_parent n)
    (n_next_parent n) (n_av n) (n_rho n) (n_bits n) (n_invbits n) (n_upper n)
    (n_lower n) (n_body n) (n_static_rho n) (n_lambda_exp n).
Definition wr_first_parent (v : Z) (n : BtorNode) : BtorNode :=
  mkNode (n_kind n) (n_id n) (n_refs n) (n_ext_refs n) (n_parents n) (n_arity
    n) (n_e n) (n_sort_id n) (n_simplified n) (n_unique n) (n_erased n)
    (n_disconnected n) (n_parameterized n) (n_lambda_below n) (n_apply_below
    n) (n_is_array n) (v) (n_last_parent n) (n_prev_parent n) (n_next_parent
    n) (n_av n) (n_rho n) (n_bits n) (n_invbits n) (n_upper n) (n_lower n)
    (n_body n) (n_static_rho n) (n_lambda_exp n).
Definition wr_last_parent (v : Z) (n : BtorNode) : BtorNode :=
  mkNode (n_kind n) (n_id n) (n_refs n) (n_ext_refs n) (n_parents n) (n_arity
    n) (n_e n) (n_sort_id n) (n_simplified n) (n_unique n) (n_erased n)
    (n_disconnected n) (n_parameterized n) (n_lambda_below n) (n_apply_below
    n) (n_is_array n) (n_first_parent n) (v) (n_prev_parent n) (n_next_parent
    n) (n_av n) (n_rho n) (n_bits n) (n_invbits n) (n_upper n) (n_lower n)
    (n_body n) (n_static_rho n) (n_lambda_exp n).
Definition wr_prev_parent (v : arr3) (n : BtorNode) : BtorNode :=
  mkNode (n_kind n) (n_id n) (n_refs n) (n_ext_refs n) (n_parents n) (n_arity
    n) (n_e n) (n_sort_id n) (n_simplified n) (n_unique n) (n_erased n)
    (n_disconnected n) (n_parameterized n) (n_lambda_below n) (n_apply_below
    n) (n_is_array n) (n_first_parent n) (n_last_parent n) (v) (n_next_parent
    n) (n_av n) (n_rho n) (n_bits n) (n_invbits n) (n_upper n) (n_lower n)
    (n_body n) (n_static_rho n) (n_lambda_exp n).
Definition wr_next_parent (v : arr3) (n : BtorNode) : BtorNode :=
  mkNode (n_kind n) (n_id n) (n_refs n) (n_ext_refs n) (n_parents n) (n_arity
    n) (n_e n) (n_sort_id n) (n_simplified n) (n_unique n) (n_erased n)
    (n_disconnected n) (n_parameterized n) (n_lambda_below n) (n_apply_below
    n) (n_is_array n) (n_first_parent n) (n_last_parent n) (n_prev_parent n)
    (v) (n_av n) (n_rho n) (n_bits n) (n_invbits n) (n_upper n) (n_lower n)
    (n_body n) (n_static_rho n) (n_lambda_exp n).
Definition wr_av (v : option (list Z)) (n : BtorNode) : BtorNode :=
  mkNode (n_kind n) (n_id n) (n_refs n) (n_ext_refs n) (n_parents n) (n_arity
    n) (n_e n) (n_sort_id n) (n_simplified n) (n_unique n) (n_erased n)
    (n_disconnected n) (n_parameterized n) (n_lambda_below n) (n_apply_below
    n) (n_is_array n) (n_first_parent n) (n_last_parent n) (n_prev_parent n)
    (n_next_parent n) (v) (n_rho n) (n_bits n) (n_invbits n) (n_upper n)
    (n_lower n) (n_body n) (n_static_rho n) (n_lambda_exp n).
Definition wr_rho (v : option (list (Z * Z))) (n : BtorNode) : BtorNode :=
  mkNode (n_kind n) (n_id n) (n_refs n) (n_ext_refs n) (n_parents n) (n_arity
    n) (n_e n) (n_sort_id n) (n_simplified n) (n_unique n) (n_erased n)
    (n_disconnected n) (n_parameterized n) (n_lambda_below n) (n_apply_below
    n) (n_is_array n) (n_first_parent n) (n_last_parent n) (n_prev_parent n)
    (n_next_parent n) (n_av n) (v) (n_bits n) (n_invbits n) (n_upper n)
    (n_lower n) (n_body n) (n_static_rho n) (n_lambda_exp n).
Definition wr_bits (v : option BtorBitVector) (n : BtorNode) : BtorNode :=
  mkNode (n_kind n) (n_id n) (n_refs n) (n_ext_refs n) (n_parents n) (n_arity
    n) (n_e n) (n_sort_id n) (n_simplified n) (n_unique n) (n_erased n)
    (n_disconnected n) (n_parameterized n) (n_lambda_below n) (n_apply_below
    n) (n_is_array n) (n_first_parent n) (n_last_parent n) (n_prev_parent n)
    (n_next_parent n) (n_av n) (n_rho n) (v) (n_invbits n) (n_upper n)
    (n_lower n) (n_body n) (n_static_rho n) (n_lambda_exp n).
Definition wr_invbits (v : option BtorBitVector) (n : BtorNode) : BtorNode :=
  mkNode (n_kind n) (n_id n) (n_refs n) (n_ext_refs n) (n_parents n) (n_arity
    n) (n_e n) (n_sort_id n) (n_simplified n) (n_unique n) (n_erased n)
    (n_disconnected n) (n_parameterized n) (n_lambda_below n) (n_apply_below
    n) (n_is_array n) (n_first_parent n) (n_last_parent n) (n_prev_parent n)
    (n_next_parent n) (n_av n) (n_rho n) (n_bits n) (v) (n_upper n) (n_lower
    n) (n_body n) (n_static_rho n) (n_lambda_exp n).
Definition wr_upper (v : Z) (n : BtorNode) : BtorNode :=
  mkNode (n_kind n) (n_id n) (n_refs n) (n_ext_refs n) (n_parents n) (n_arity
    n) (n_e n) (n_sort_id n) (n_simplified n) (n_unique n) (n_erased n)
    (n_disconnected n) (n_parameterized n) (n_lambda_below n) (n_apply_below
    n) (n_is_array n) (n_first_parent n) (n_last_parent n) (n_prev_parent n)
    (n_next_parent n) (n_av n) (n_rho n) (n_bits n) (n_invbits n) (v) (n_lower
    n) (n_body n) (n_static_rho n) (n_lambda_exp n).
Definition wr_lower (v : Z) (n : BtorNode) : BtorNode :=
  mkNode (n_kind n) (n_id n) (n_refs n) (n_ext_refs n) (n_parents n) (n_arity
    n) (n_e n) (n_sort_id n) (n_simplified n) (n_unique n) (n_erased n)
    (n_disconnected n) (n_parameterized n) (n_lambda_below n) (n_apply_below
    n) (n_is_array n) (n_first_parent n) (n_last_parent n) (n_prev_parent n)
    (n_next_parent n) (n_av n) (n_rho n) (n_bits n) (n_invbits n) (n_upper n)
    (v) (n_body n) (n_static_rho n) (n_lambda_exp n).
Definition wr_body (v : Z) (n : BtorNode) : BtorNode :=
  mkNode (n_kind n) (n_id n) (n_refs n) (n_ext_refs n) (n_parents n) (n_arity
    n) (n_e n) (n_sort_id n) (n_simplified n) (n_unique n) (n_erased n)
    (n_disconnected n) (n_parameterized n) (n_lambda_below n) (n_apply_below
    n) (n_is_array n) (n_first_parent n) (n_last_parent n) (n_prev_parent n)
    (n_next_parent n) (n_av n) (n_rho n) (n_bits n) (n_invbits n) (n_upper n)
    (n_lower n) (v) (n_static_rho n) (n_lambda_exp n).
Definition wr_static_rho (v : option (list (Z * Z))) (n : BtorNode) : BtorNode :=
  mkNode (n_kind n) (n_id n) (n_refs n) (n_ext_refs n) (n_parents n) (n_arity
    n) (n_e n) (n_sort_id n) (n_simplified n) (n_unique n) (n_erased n)
    (n_disconnected n) (n_parameterized n) (n_lambda_below n) (n_apply_below
    n) (n_is_array n) (n_first_parent n) (n_last_parent n) (n_prev_parent n)
    (n_next_parent n) (n_av n) (n_rho n) (n_bits n) (n_invbits n) (n_upper n)
    (n_lower n) (n_body n) (v) (n_lambda_exp n).
Definition wr_lambda_exp (v : Z) (n : BtorNode) : BtorNode :=
  mkNode (n_kind n) (n_id n) (n_refs n) (n_ext_refs n) (n_parents n) (n_arity
    n) (n_e n) (n_sort_id n) (n_simplified n) (n_unique n) (n_erased n)
    (n_disconnected n) (n_parameterized n) (n_lambda_below n) (n_apply_below
    n) (n_is_array n) (n_first_parent n) (n_last_parent n) (n_prev_parent n)
    (n_next_parent n) (n_av n) (n_rho n) (n_bits n) (n_invbits n) (n_upper n)
    (n_lower n) (n_body n) (n_static_rho n) (v).

Record Btor := mkBtor {
  nodes_id_table : list (option BtorNode);
  ut_num_elements : Z;
  ut_chains : list (list Z);
  bv_vars : gset Z;
  ufs : gset Z;
  feqs : gmap Z Z;
  lambdas : gmap Z Z;
  parameterized : gmap Z (gset Z);
  node2symbol : gmap Z string;
  symbols : gmap string Z;
  opt_sort_exp : Z;
  opt_rewrite_level : Z;
  external_refs : Z
}.

Definition wb_nodes_id_table (v : list (option BtorNode)) (s : Btor) : Btor :=
  mkBtor (v) (ut_num_elements s) (ut_chains s) (bv_vars s) (ufs s) (feqs s)
    (lambdas s) (parameterized s) (node2symbol s) (symbols s) (opt_sort_exp s)
    (opt_rewrite_level s) (external_refs s).
Definition wb_ut_num_elements (v : Z) (s : Btor) : Btor :=
  mkBtor (nodes_id_table s) (v) (ut_chains s) (bv_vars s) (ufs s) (feqs s)
    (lambdas s) (parameterized s) (node2symbol s) (symbols s) (opt_sort_exp s)
    (opt_rewrite_level s) (external_refs s).
Definition wb_ut_chains (v : list (list Z)) (s : Btor) : Btor :=
  mkBtor (nodes_id_table s) (ut_num_elements s) (v) (bv_vars s) (ufs s) (feqs
    s) (lambdas s) (parameterized s) (node2symbol s) (symbols s) (opt_sort_exp
    s) (opt_rewrite_level s) (external_refs s).
Definition wb_bv_vars (v : gset Z) (s : Btor) : Btor :=
  mkBtor (nodes_id_table s) (ut_num_elements s) (ut_chains s) (v) (ufs s)
    (feqs s) (lambdas s) (parameterized s) (node2symbol s) (symbols s)
    (opt_sort_exp s) (opt_rewrite_level s) (external_refs s).
Definition wb_ufs (v : gset Z) (s : Btor) : Btor :=
  mkBtor (nodes_id_table s) (ut_num_elements s) (ut_chains s) (bv_vars s) (v)
    (feqs s) (lambdas s) (parameterized s) (node2symbol s) (symbols s)
    (opt_sort_exp s) (opt_rewrite_level s) (external_refs s).
Definition wb_feqs (v : gmap Z Z) (s : Btor) : Btor :=
  mkBtor (nodes_id_table s) (ut_num_elements s) (ut_chains s) (bv_vars s) (ufs
    s) (v) (lambdas s) (parameterized s) (node2symbol s) (symbols s)
    (opt_sort_exp s) (opt_rewrite_level s) (external_refs s).
Definition wb_lambdas (v : gmap Z Z) (s : Btor) : Btor :=
  mkBtor (nodes_id_table s) (ut_num_elements s) (ut_chains s) (bv_vars s) (ufs
    s) (feqs s) (v) (parameterized s) (node2symbol s) (symbols s)
    (opt_sort_exp s) (opt_rewrite_level s) (external_refs s).
Definition wb_parameterized (v : gmap Z (gset Z)) (s : Btor) : Btor :=
  mkBtor (nodes_id_table s) (ut_num_elements s) (ut_chains s) (bv_vars s) (ufs
    s) (feqs s) (lambdas s) (v) (node2symbol s) (symbols s) (opt_sort_exp s)
    (opt_rewrite_level s) (external_refs s).
Definition wb_node2symbol (v : gmap Z string) (s : Btor) : Btor :=
  mkBtor (nodes_id_table s) (ut_num_elements s) (ut_chains s) (bv_vars s) (ufs
    s) (feqs s) (lambdas s) (parameterized s) (v) (symbols s) (opt_sort_exp s)
    (opt_rewrite_level s) (external_refs s).
Definition wb_symbols (v : gmap string Z) (s : Btor) : Btor :=
  mkBtor (nodes_id_table s) (ut_num_elements s) (ut_chains s) (bv_vars s) (ufs
    s) (feqs s) (lambdas s) (parameterized s) (node2symbol s) (v)
    (opt_sort_exp s) (opt_rewrite_level s) (external_refs s).
Definition wb_opt_sort_exp (v : Z) (s : Btor) : Btor :=
  mkBtor (nodes_id_table s) (ut_num_elements s) (ut_chains s) (bv_vars s) (ufs
    s) (feqs s) (lambdas s) (parameterized s) (node2symbol s) (symbols s) (v)
    (opt_rewrite_level s) (external_refs s).
Definition wb_opt_rewrite_level (v : Z) (s : Btor) : Btor :=
  mkBtor (nodes_id_table s) (ut_num_elements s) (ut_chains s) (bv_vars s) (ufs
    s) (feqs s) (lambdas s) (parameterized s) (node2symbol s) (symbols s)
    (opt_sort_exp s) (v) (external_refs s).
Definition wb_external_refs (v : Z) (s : Btor) : Btor :=
  mkBtor (nodes_id_table s) (ut_num_elements s) (ut_chains s) (bv_vars s) (ufs
    s) (feqs s) (lambdas s) (parameterized s) (node2symbol s) (symbols s)
    (opt_sort_exp s) (opt_rewrite_level s) (v).

(** A freshly allocated, zero-initialised node ([BTOR_CNEW]). *)
Definition calloc_node : BtorNode :=
  mkNode BTOR_INVALID_NODE 0 0 0 0 0%nat null3 None 0 false false false false
    false false false 0 0 null3 null3 None None None None 0 0 0 None 0.

(** ** The heap of nodes *)

(** [p->field] for a node pointer [p]: the node in the slot [p] addresses.
    Null, a freed slot, a slot beyond the table and a misaligned (tagged)
    pointer have no node. *)
Definition node_at (s : Btor) (p : Z) : option BtorNode :=
  if (0 <? p) && (Z.land 3 p =? 0)
  then mjoin (nodes_id_table s !! id_of_ptr p)
  else None.

(** [BTOR_REAL_ADDR_NODE (exp)->field]. *)
Definition real_node (s : Btor) (exp : Z) : option BtorNode :=
  node_at s (BTOR_REAL_ADDR_NODE exp).

Definition store_node (s : Btor) (p : Z) (n : BtorNode) : Btor :=
  wb_nodes_id_table (<[id_of_ptr p := Some n]> (nodes_id_table s)) s.

(** [p->field = ...]: an update of the node at [p] in place. *)
Definition upd_node (s : Btor) (p : Z) (f : BtorNode -> BtorNode) : option Btor :=
  n ← node_at s p; Some (store_node s p (f n)).

(** [BTOR_COUNT_STACK (btor->nodes_id_table)]. *)
Definition count_id_table (s : Btor) : Z := Z.of_nat (length (nodes_id_table s)).

(** [BTOR_PEEK_STACK (btor->nodes_id_table, id)]: the pointer in slot [id],
    null when the slot has been freed. *)
Definition peek_id_table (s : Btor) (i : Z) : Z :=
  match nodes_id_table s !! Z.to_nat i with
  | Some (Some _) => ptr_of_id (Z.to_nat i)
  | _ => 0
  end.

(** The children [e[0] .. e[arity-1]] of a node. *)
Definition children (n : BtorNode) : list Z :=
  map (get3 (n_e n)) (seq 0 (n_arity n)).

(** Kind tests of the header; they look through the tags. *)
Definition kind_of (s : Btor) (exp : Z) : option BtorNodeKind :=
  n ← real_node s exp; Some (n_kind n).
Definition is_kind (k : BtorNodeKind) (n : BtorNode) : bool :=
  bool_decide (n_kind n = k).

Definition btor_exp_get_sort_id (s : Btor) (exp : Z) : option BtorSortId :=
  n ← real_node s exp; Some (n_sort_id n).

(** [btor_exp_get_id]: the id, negated on an inverted handle. *)
Definition btor_exp_get_id (s : Btor) (exp : Z) : option Z :=
  n ← real_node s exp;
  Some (if BTOR_IS_INVERTED_NODE exp then - n_id n else n_id n).

Definition btor_is_fun_cond_node_n (n : BtorNode) : bool :=
  is_kind BTOR_COND_NODE n && btor_is_fun_sort (n_sort_id n).

Definition btor_is_bv_cond_node_n (n : BtorNode) : bool :=
  is_kind BTOR_COND_NODE n && btor_is_bitvec_sort (n_sort_id n).

(** Modelled from the spec: [btor_is_fun_node] of the absent header: the
    function-typed node kinds of section 3.1 (lambda, uninterpreted function,
    update, and conditionals of function sort). *)
Definition btor_is_fun_node_n (n : BtorNode) : bool :=
  is_kind BTOR_LAMBDA_NODE n || is_kind BTOR_UF_NODE n
  || is_kind BTOR_UPDATE_NODE n || btor_is_fun_cond_node_n n.

Definition btor_get_exp_width (s : Btor) (exp : Z) : option Z :=
  n ← real_node s exp; btor_get_width_bitvec_sort (n_sort_id n).

(** ** Reference counts *)

(** [inc_exp_ref_counter]; [BTOR_ABORT] on overflow ends the run. *)
Definition inc_exp_ref_counter (s : Btor) (exp : Z) : option Btor :=
  let real_exp := BTOR_REAL_ADDR_NODE exp in
  n ← node_at s real_exp;
  if n_refs n =? INT_MAX then None
  else Some (store_node s real_exp (wr_refs (n_refs n + 1) n)).

Definition btor_inc_exp_ext_ref_counter (s : Btor) (exp : Z) : option Btor :=
  let real_exp := BTOR_REAL_ADDR_NODE exp in
  n ← node_at s real_exp;
  if n_ext_refs n =? INT_MAX then None
  else Some (wb_external_refs (external_refs s + 1)
               (store_node s real_exp (wr_ext_refs (n_ext_refs n + 1) n))).

Definition btor_dec_exp_ext_ref_counter (s : Btor) (exp : Z) : option Btor :=
  let real_exp := BTOR_REAL_ADDR_NODE exp in
  n ← node_at s real_exp;
  Some (wb_external_refs (external_refs s - 1)
          (store_node s real_exp (wr_ext_refs (n_ext_refs n - 1) n))).

Definition btor_copy_exp (s : Btor) (exp : Z) : option (Btor * Z) :=
  s' ← inc_exp_ref_counter s exp; Some (s', exp).

(** ** Lookup by id and by symbol *)

Definition btor_match_node_by_id (s : Btor) (id : Z) : option (Btor * Z) :=
  if count_id_table s <=? id then Some (s, 0)
  else btor_copy_exp s (peek_id_table s id).

Definition btor_get_node_by_id (s : Btor) (id : Z) : Z :=
  let is_inverted := id <? 0 in
  let id := Z.abs id in
  if count_id_table s <=? id then 0
  else
    let p := peek_id_table s id in
    if is_inverted then BTOR_INVERT_NODE p else p.

(** Modelled from the spec: the pointer hash tables of the absent
    utils/btorhashptr.c are finite maps; [symbols] maps a name to its node
    and [node2symbol] a node to its name. *)
Definition btor_get_symbol_exp (s : Btor) (exp : Z) : option string :=
  node2symbol s !! BTOR_REAL_ADDR_NODE exp.

Definition btor_set_symbol_exp (s : Btor) (exp : Z) (symbol : string) : Btor :=
  let exp := BTOR_REAL_ADDR_NODE exp in
  let s1 := wb_symbols (<[symbol := exp]> (symbols s)) s in
  match node2symbol s1 !! exp with
  | Some old =>
      wb_node2symbol (<[exp := symbol]> (node2symbol s1))
        (wb_symbols (delete old (symbols s1)) s1)
  | None => wb_node2symbol (<[exp := symbol]> (node2symbol s1)) s1
  end.

Definition btor_get_node_by_symbol (s : Btor) (sym : string) : Z :=
  match symbols s !! sym with Some p => p | None => 0 end.

Definition btor_match_node_by_symbol (s : Btor) (sym : string) : option (Btor * Z) :=
  btor_copy_exp s (btor_get_node_by_symbol s sym).

Definition btor_match_node (s : Btor) (exp : Z) : option (Btor * Z) :=
  n ← real_node s exp;
  let id := n_id n in
  if count_id_table s <=? id then Some (s, 0)
  else
    '(s', res) ← btor_copy_exp s (peek_id_table s id);
    Some (s', if BTOR_IS_INVERTED_NODE exp then BTOR_INVERT_NODE res else res).

(** ** Forwarding through [simplified] *)

(** Modelled from the spec: [btor_simplify_exp] of the absent btorcore.c,
    section 4.5 step 1: an input is forwarded through its [simplified] chain
    until the terminal node, the one whose [simplified] is null; an inverted
    handle stays inverted relative to its target.  The chain is acyclic
    (section 3.4, invariant 5), so it is no longer than the id table. *)
Fixpoint pointer_chase_simplified_exp (fuel : nat) (s : Btor) (exp : Z) : option Z :=
  match fuel with
  | O => None
  | S fuel =>
      n ← real_node s exp;
      if n_simplified n =? 0 then Some exp
      else pointer_chase_simplified_exp fuel s
             (BTOR_COND_INVERT_NODE exp (n_simplified n))
  end.

Definition btor_simplify_exp (s : Btor) (exp : Z) : option Z :=
  pointer_chase_simplified_exp (length (nodes_id_table s)) s exp.

(** ** Allocation of primitive nodes *)

(** [set_kind] without the operator statistics. *)
Definition set_kind (kind : BtorNodeKind) (exp : BtorNode) : BtorNode :=
  wr_kind kind exp.

(** [setup_node_and_add_to_id_table]: the new node takes the next id. *)
Definition setup_node_and_add_to_id_table (s : Btor) (exp : BtorNode)
  : option (Btor * Z) :=
  let id := count_id_table s in
  if id =? INT_MAX then None
  else
    let exp := wr_id id (wr_refs 1 exp) in
    let exp := if is_kind BTOR_APPLY_NODE exp then wr_apply_below true exp else exp in
    Some (wb_nodes_id_table (nodes_id_table s ++ [Some exp]) s,
          ptr_of_id (length (nodes_id_table s))).

Definition set_symbol_opt (s : Btor) (exp : Z) (symbol : option string) : Btor :=
  match symbol with
  | Some sym => btor_set_symbol_exp s exp sym
  | None => s
  end.

(** The assertion of the declarations on their symbol: it is null or not
    yet a key of [btor->symbols]. *)
Definition symbol_is_free (s : Btor) (symbol : option string) : bool :=
  match symbol with
  | Some sym => match symbols s !! sym with Some _ => false | None => true end
  | None => true
  end.

(** The declaration of a symbol that is in use violates the assertion at
    the start of the constructor: the call does not return. *)
Definition btor_var_exp (s : Btor) (sort : BtorSortId) (symbol : option string)
  : option (Btor * Z) :=
  if symbol_is_free s symbol then
    let exp := set_kind BTOR_BV_VAR_NODE calloc_node in
    '(s, p) ← setup_node_and_add_to_id_table s exp;
    s ← upd_node s p (wr_sort_id sort);
    let s := wb_bv_vars ({[p]} ∪ bv_vars s) s in
    Some (set_symbol_opt s p symbol, p)
  else None.

Definition btor_param_exp (s : Btor) (sort : BtorSortId) (symbol : option string)
  : option (Btor * Z) :=
  if symbol_is_free s symbol then
    let exp := set_kind BTOR_PARAM_NODE calloc_node in
    let exp := wr_sort_id sort (wr_parameterized true exp) in
    '(s, p) ← setup_node_and_add_to_id_table s exp;
    Some (set_symbol_opt s p symbol, p)
  else None.

Definition btor_uf_exp (s : Btor) (sort : BtorSortId) (symbol : option string)
  : option (Btor * Z) :=
  if symbol_is_free s symbol then
    let exp := set_kind BTOR_UF_NODE calloc_node in
    let exp := wr_sort_id sort exp in
    '(s, p) ← setup_node_and_add_to_id_table s exp;
    let s := wb_ufs ({[p]} ∪ ufs s) s in
    Some (set_symbol_opt s p symbol, p)
  else None.

Definition btor_array_exp (s : Btor) (sort : BtorSortId) (symbol : option string)
  : option (Btor * Z) :=
  '(s, p) ← btor_uf_exp s sort symbol;
  s ← upd_node s p (wr_is_array true);
  Some (s, p).


(** ** The unique table *)

Section ExpressionCore.

(** The hash of a bit-vector value, from the absent bit-vector library; the
    model is parametric in it. *)
Variable btor_hash_bv : BtorBitVector -> Z.

Definition hash_primes : list Z := [333444569; 76891121; 456790003].

(** [btor->nodes_unique_table.size]: the number of chains. *)
Definition ut_size (s : Btor) : Z := Z.of_nat (length (ut_chains s)).

(** [hash & (size - 1)], as an index into [chains]. *)
Definition bucket_of (size : Z) (hash : Z) : nat := Z.to_nat (Z.land hash (size - 1)).

(** [BTOR_FULL_UNIQUE_TABLE]. *)
Definition BTOR_UNIQUE_TABLE_LIMIT : Z := 30.
Definition BTOR_FULL_UNIQUE_TABLE (s : Btor) : bool :=
  (ut_size s <=? ut_num_elements s) && (Z.log2 (ut_size s) <? BTOR_UNIQUE_TABLE_LIMIT).

(** A [BtorNode **] into the table: the link at position [lk_pos] of the
    chain of bucket [lk_bucket]; position [0] is the chain head, position
    [k + 1] the [next] field of the [k]-th node of the chain. *)
Record lookup := mkLookup { lk_bucket : nat; lk_pos : nat }.

(** [*lookup]. *)
Definition deref_lookup (s : Btor) (lk : lookup) : Z :=
  match ut_chains s !! lk_bucket lk with
  | Some chain => match chain !! lk_pos lk with Some p => p | None => 0 end
  | None => 0
  end.

(** [*lookup = exp] for a fresh node [exp], whose [next] is null: the chain
    ends with [exp] at that link. *)
Definition write_lookup (s : Btor) (lk : lookup) (exp : Z) : Btor :=
  match ut_chains s !! lk_bucket lk with
  | Some chain =>
      wb_ut_chains (<[lk_bucket lk := take (lk_pos lk) chain ++ [exp]]> (ut_chains s)) s
  | None => s
  end.

(** The walk along a collision chain that all [find_*_exp] share: the
    position of the first node that passes [test], or the end of the chain. *)
Fixpoint find_chain (s : Btor) (test : Z -> BtorNode -> option bool)
    (chain : list Z) (pos : nat) : option nat :=
  match chain with
  | [] => Some pos
  | cur :: rest =>
      n ← node_at s cur;
      b ← test cur n;
      if b : bool then Some pos else find_chain s test rest (S pos)
  end.

Definition find_in_bucket (s : Btor) (hash : Z)
    (test : Z -> BtorNode -> option bool) : option lookup :=
  let b := bucket_of (ut_size s) hash in
  chain ← ut_chains s !! b;
  pos ← find_chain s test chain 0;
  Some (mkLookup b pos).

Definition hash_slice_exp (s : Btor) (e : Z) (upper lower : Z) : option Z :=
  n ← real_node s e;
  Some (u32 (nth 0 hash_primes 0 * u32 (n_id n)
             + nth 1 hash_primes 0 * upper + nth 2 hash_primes 0 * lower)).

Fixpoint hash_bv_exp_loop (s : Btor) (primes e : list Z) (hash : Z) : option Z :=
  match e with
  | [] => Some hash
  | x :: e =>
      match primes with
      | [] => None
      | p :: primes =>
          n ← real_node s x;
          hash_bv_exp_loop s primes e (u32 (hash + p * u32 (n_id n)))
      end
  end.

Definition hash_bv_exp (s : Btor) (e : list Z) : option Z :=
  hash_bv_exp_loop s hash_primes e 0.

Definition compute_hash_exp (s : Btor) (exp : Z) (table_size : Z) : option Z :=
  n ← node_at s exp;
  hash ← match n_kind n with
          | BTOR_BV_CONST_NODE => bits ← n_bits n; Some (btor_hash_bv bits)
          | BTOR_LAMBDA_NODE => lambdas s !! exp
          | BTOR_SLICE_NODE => hash_slice_exp s (get3 (n_e n) 0) (n_upper n) (n_lower n)
          | _ => hash_bv_exp s (children n)
          end;
  Some (Z.land hash (table_size - 1)).

(** [remove_from_nodes_unique_table_exp]: unlink [exp] from its chain. *)
Fixpoint remove_first (exp : Z) (chain : list Z) : option (list Z) :=
  match chain with
  | [] => None
  | cur :: rest =>
      if cur =? exp then Some rest
      else rest' ← remove_first exp rest; Some (cur :: rest')
  end.

Definition remove_from_nodes_unique_table_exp (s : Btor) (exp : Z) : option Btor :=
  n ← node_at s exp;
  if negb (n_unique n) then Some s
  else
    hash ← compute_hash_exp s exp (ut_size s);
    let b := Z.to_nat hash in
    chain ← ut_chains s !! b;
    chain' ← remove_first exp chain;
    let s := wb_ut_chains (<[b := chain']> (ut_chains s)) s in
    let s := wb_ut_num_elements (ut_num_elements s - 1) s in
    upd_node s exp (wr_unique false).

(** [enlarge_nodes_unique_table]: every node moves to the head of its chain
    in the table of twice the size. *)
Fixpoint rehash_chain (s : Btor) (new_size : Z) (chain : list Z)
    (new_chains : list (list Z)) : option (list (list Z)) :=
  match chain with
  | [] => Some new_chains
  | cur :: rest =>
      hash ← compute_hash_exp s cur new_size;
      old ← new_chains !! Z.to_nat hash;
      rehash_chain s new_size rest (<[Z.to_nat hash := cur :: old]> new_chains)
  end.

Fixpoint rehash_chains (s : Btor) (new_size : Z) (chains : list (list Z))
    (new_chains : list (list Z)) : option (list (list Z)) :=
  match chains with
  | [] => Some new_chains
  | chain :: rest =>
      new_chains ← rehash_chain s new_size chain new_chains;
      rehash_chains s new_size rest new_chains
  end.

Definition enlarge_nodes_unique_table (s : Btor) : option Btor :=
  let size := ut_size s in
  let new_size := if size =? 0 then 1 else 2 * size in
  new_chains ← rehash_chains s new_size (ut_chains s)
                  (replicate (Z.to_nat new_size) []);
  Some (wb_ut_chains new_chains s).

(** ** Parent lists *)

(** [connect_child_exp]: the flags, the counts, then the splice of the
    parent link [(parent, pos)] into the child's parent list. *)
Definition connect_child_exp (s : Btor) (parent child : Z) (pos : nat) : option Btor :=
  let real_child := BTOR_REAL_ADDR_NODE child in
  p ← node_at s parent;
  c ← node_at s real_child;
  s ← (if negb (is_kind BTOR_LAMBDA_NODE p) && n_parameterized c
        then upd_node s parent (wr_parameterized true) else Some s);
  p ← node_at s parent;
  c ← node_at s real_child;
  s ← (if btor_is_fun_cond_node_n p && n_is_array c
        then upd_node s parent (wr_is_array true) else Some s);
  c ← node_at s real_child;
  s ← (if n_lambda_below c then upd_node s parent (wr_lambda_below true) else Some s);
  c ← node_at s real_child;
  s ← (if n_apply_below c then upd_node s parent (wr_apply_below true) else Some s);
  s ← upd_node s real_child (fun c => wr_parents (n_parents c + 1) c);
  s ← inc_exp_ref_counter s child;
  p ← node_at s parent;
  let insert_beginning := negb (is_kind BTOR_APPLY_NODE p) in
  s ← upd_node s parent (fun p => wr_e (set3 (n_e p) pos child) p);
  let tagged_parent := BTOR_TAG_NODE parent pos in
  c ← node_at s real_child;
  if n_first_parent c =? 0 then
    upd_node s real_child
      (fun c => wr_last_parent tagged_parent (wr_first_parent tagged_parent c))
  else if insert_beginning then
    let first_parent := n_first_parent c in
    s ← upd_node s parent
          (fun p => wr_next_parent (set3 (n_next_parent p) pos first_parent) p);
    let tag := btor_exp_get_tag first_parent in
    s ← upd_node s (BTOR_REAL_ADDR_NODE first_parent)
          (fun f => wr_prev_parent (set3 (n_prev_parent f) tag tagged_parent) f);
    upd_node s real_child (wr_first_parent tagged_parent)
  else
    let last_parent := n_last_parent c in
    s ← upd_node s parent
          (fun p => wr_prev_parent (set3 (n_prev_parent p) pos last_parent) p);
    let tag := btor_exp_get_tag last_parent in
    s ← upd_node s (BTOR_REAL_ADDR_NODE last_parent)
          (fun l => wr_next_parent (set3 (n_next_parent l) tag tagged_parent) l);
    upd_node s real_child (wr_last_parent tagged_parent).

(** [for (i = 0; i < arity; i++) connect_child_exp (btor, exp, e[i], i)]. *)
Fixpoint connect_children (s : Btor) (exp : Z) (e : list Z) (i : nat) : option Btor :=
  match e with
  | [] => Some s
  | x :: e => s ← connect_child_exp s exp x i; connect_children s exp e (S i)
  end.

(** [disconnect_child_exp]. *)
Definition disconnect_child_exp (s : Btor) (parent : Z) (pos : nat) : option Btor :=
  let tagged_parent := BTOR_TAG_NODE parent pos in
  p ← node_at s parent;
  let child := get3 (n_e p) pos in
  let real_child := BTOR_REAL_ADDR_NODE child in
  s ← upd_node s real_child (fun c => wr_parents (n_parents c - 1) c);
  c ← node_at s real_child;
  let first_parent := n_first_parent c in
  let last_parent := n_last_parent c in
  p ← node_at s parent;
  s ← (if is_kind BTOR_LAMBDA_NODE p && (pos =? 0)%nat then
          prm ← real_node s (get3 (n_e p) 0);
          if n_lambda_exp prm =? parent
          then upd_node s (BTOR_REAL_ADDR_NODE (get3 (n_e p) 0)) (wr_lambda_exp 0)
          else Some s
        else Some s);
  p ← node_at s parent;
  s ← (if (first_parent =? tagged_parent) && (first_parent =? last_parent) then
          upd_node s real_child (fun c => wr_last_parent 0 (wr_first_parent 0 c))
        else if first_parent =? tagged_parent then
          let nxt := get3 (n_next_parent p) pos in
          s ← upd_node s real_child (wr_first_parent nxt);
          upd_node s (BTOR_REAL_ADDR_NODE nxt)
            (fun f => wr_prev_parent (set3 (n_prev_parent f) (btor_exp_get_tag nxt) 0) f)
        else if last_parent =? tagged_parent then
          let prv := get3 (n_prev_parent p) pos in
          s ← upd_node s real_child (wr_last_parent prv);
          upd_node s (BTOR_REAL_ADDR_NODE prv)
            (fun l => wr_next_parent (set3 (n_next_parent l) (btor_exp_get_tag prv) 0) l)
        else
          let nxt := get3 (n_next_parent p) pos in
          let prv := get3 (n_prev_parent p) pos in
          s ← upd_node s (BTOR_REAL_ADDR_NODE nxt)
                (fun f => wr_prev_parent (set3 (n_prev_parent f) (btor_exp_get_tag nxt) prv) f);
          p ← node_at s parent;
          let nxt := get3 (n_next_parent p) pos in
          let prv := get3 (n_prev_parent p) pos in
          upd_node s (BTOR_REAL_ADDR_NODE prv)
            (fun l => wr_next_parent (set3 (n_next_parent l) (btor_exp_get_tag prv) nxt) l));
  upd_node s parent
    (fun p => wr_e (set3 (n_e p) pos 0)
                (wr_prev_parent (set3 (n_prev_parent p) pos 0)
                   (wr_next_parent (set3 (n_next_parent p) pos 0) p))).

Fixpoint disconnect_children_loop (s : Btor) (exp : Z) (i n : nat) : option Btor :=
  match n with
  | O => Some s
  | S n => s ← disconnect_child_exp s exp i; disconnect_children_loop s exp (S i) n
  end.

Definition disconnect_children_exp (s : Btor) (exp : Z) : option Btor :=
  n ← node_at s exp;
  s ← disconnect_children_loop s exp 0 (n_arity n);
  upd_node s exp (wr_disconnected true).

(** ** Allocation of compound nodes *)

Definition new_const_exp_node (s : Btor) (bits : BtorBitVector) : option (Btor * Z) :=
  let exp := set_kind BTOR_BV_CONST_NODE calloc_node in
  let exp := wr_sort_id (btor_bitvec_sort (bv_width bits)) exp in
  '(s, p) ← setup_node_and_add_to_id_table s exp;
  s ← upd_node s p (wr_bits (Some (btor_copy_bv bits)));
  s ← upd_node s p (wr_invbits (Some (btor_not_bv bits)));
  Some (s, p).

Definition new_slice_exp_node (s : Btor) (e0 : Z) (upper lower : Z) : option (Btor * Z) :=
  let exp := set_kind BTOR_SLICE_NODE calloc_node in
  let exp := wr_lower lower (wr_upper upper (wr_arity 1%nat exp)) in
  let exp := wr_sort_id (btor_bitvec_sort (upper - lower + 1)) exp in
  '(s, p) ← setup_node_and_add_to_id_table s exp;
  s ← connect_child_exp s p e0 0;
  Some (s, p).

(** The tuple sort of an args node: the sorts of its arguments, an args
    child contributing the elements of its own tuple. *)
Fixpoint args_sorts (s : Btor) (e : list Z) : option (list BtorSort) :=
  match e with
  | [] => Some []
  | x :: e =>
      n ← real_node s x;
      rest ← args_sorts s e;
      if is_kind BTOR_ARGS_NODE n
      then Some (tuple_sort_elements (n_sort_id n) ++ rest)
      else srt ← n_sort_id n; Some (srt :: rest)
  end.

Definition new_args_exp_node (s : Btor) (e : list Z) : option (Btor * Z) :=
  let exp := set_kind BTOR_ARGS_NODE calloc_node in
  let exp := wr_arity (length e) exp in
  '(s, p) ← setup_node_and_add_to_id_table s exp;
  s ← connect_children s p e 0;
  sorts ← args_sorts s e;
  s ← upd_node s p (wr_sort_id (btor_tuple_sort sorts));
  Some (s, p).

Definition new_node_sort (s : Btor) (kind : BtorNodeKind) (e : list Z) : option BtorSortId :=
  match kind with
  | BTOR_COND_NODE => btor_exp_get_sort_id s (nth 1 e 0)
  | BTOR_UPDATE_NODE => btor_exp_get_sort_id s (nth 0 e 0)
  | BTOR_CONCAT_NODE =>
      w0 ← btor_get_exp_width s (nth 0 e 0);
      w1 ← btor_get_exp_width s (nth 1 e 0);
      Some (btor_bitvec_sort (w0 + w1))
  | BTOR_FUN_EQ_NODE | BTOR_BV_EQ_NODE | BTOR_ULT_NODE => Some btor_bool_sort
  | BTOR_APPLY_NODE =>
      srt ← btor_exp_get_sort_id s (nth 0 e 0);
      Some (btor_get_codomain_fun_sort srt)
  | _ => btor_exp_get_sort_id s (nth 0 e 0)
  end.

Definition new_node (s : Btor) (kind : BtorNodeKind) (e : list Z) : option (Btor * Z) :=
  let exp := set_kind kind calloc_node in
  let exp := wr_arity (length e) exp in
  '(s, p) ← setup_node_and_add_to_id_table s exp;
  sort ← new_node_sort s kind e;
  s ← upd_node s p (wr_sort_id sort);
  s ← connect_children s p e 0;
  let s := if bool_decide (kind = BTOR_FUN_EQ_NODE)
           then wb_feqs (<[p := 0]> (feqs s)) s else s in
  Some (s, p).

Definition new_lambda_exp_node (s : Btor) (e_param e_exp : Z) : option (Btor * Z) :=
  let exp := set_kind BTOR_LAMBDA_NODE calloc_node in
  let exp := wr_lambda_below true (wr_arity 2%nat exp) in
  '(s, p) ← setup_node_and_add_to_id_table s exp;
  s ← connect_child_exp s p e_param 0;
  s ← connect_child_exp s p e_exp 1;
  prm ← node_at s e_param;
  psort ← n_sort_id prm;
  b ← real_node s e_exp;
  '(s, param_sorts) ←
    (if is_kind BTOR_LAMBDA_NODE b then
       b ← node_at s e_exp;
       body ← btor_simplify_exp s (n_body b);
       s ← upd_node s p (wr_body body);
       let sorts := psort :: tuple_sort_elements (btor_get_domain_fun_sort (n_sort_id b)) in
       s ← match parameterized s !! e_exp with
            | Some params =>
                let params := params ∖ {[n_id prm]} in
                let s := wb_parameterized (delete e_exp (parameterized s)) s in
                if bool_decide (params = ∅) then Some s
                else upd_node (wb_parameterized (<[p := params]> (parameterized s)) s)
                       p (wr_parameterized true)
            | None => Some s
            end;
       Some (s, sorts)
     else
       s ← upd_node s p (wr_body e_exp);
       Some (s, [psort]));
  l ← node_at s p;
  codomain ← btor_exp_get_sort_id s (n_body l);
  s ← upd_node s p (wr_sort_id (btor_fun_sort (btor_tuple_sort param_sorts) codomain));
  let s := wb_lambdas (<[p := 0]> (lambdas s)) s in
  s ← upd_node s (BTOR_REAL_ADDR_NODE e_param) (wr_lambda_exp p);
  Some (s, p).

(** ** Lookup in the unique table *)

Definition find_const_exp (s : Btor) (bits : BtorBitVector) : option lookup :=
  find_in_bucket s (btor_hash_bv bits)
    (fun cur n =>
       if is_kind BTOR_BV_CONST_NODE n then
         w ← btor_get_width_bitvec_sort (n_sort_id n);
         if w =? bv_width bits then
           cbits ← n_bits n; Some (btor_compare_bv cbits bits =? 0)
         else Some false
       else Some false).

Definition find_slice_exp (s : Btor) (e0 : Z) (upper lower : Z) : option lookup :=
  hash ← hash_slice_exp s e0 upper lower;
  find_in_bucket s hash
    (fun cur n =>
       Some (is_kind BTOR_SLICE_NODE n && (get3 (n_e n) 0 =? e0)
             && (n_upper n =? upper) && (n_lower n =? lower))).

Definition is_sorted_bv_exp (s : Btor) (kind : BtorNodeKind) (e : list Z) : option bool :=
  if opt_sort_exp s =? 0 then Some true
  else if negb (btor_is_binary_commutative_node_kind kind) then Some true
  else
    let e0 := nth 0 e 0 in
    let e1 := nth 1 e 0 in
    if e0 =? e1 then Some true
    else if (BTOR_INVERT_NODE e0 =? e1) && BTOR_IS_INVERTED_NODE e1 then Some true
    else
      n0 ← real_node s e0;
      n1 ← real_node s e1;
      Some (n_id n0 <=? n_id n1).

(** [sort_bv_exp] swaps [e[0]] and [e[1]] in the caller's array. *)
Definition sort_bv_exp (s : Btor) (kind : BtorNodeKind) (e : list Z) : option (list Z) :=
  b ← is_sorted_bv_exp s kind e;
  if b : bool then Some e
  else match e with
       | e0 :: e1 :: rest => Some (e1 :: e0 :: rest)
       | _ => None
       end.

Fixpoint children_equal (ce : arr3) (e : list Z) (i : nat) : bool :=
  match e with
  | [] => true
  | x :: e => (get3 ce i =? x) && children_equal ce e (S i)
  end.

Definition find_bv_exp_test (kind : BtorNodeKind) (e : list Z) (n : BtorNode) : bool :=
  if is_kind kind n && (n_arity n =? length e)%nat then
    if bool_decide (kind = BTOR_BV_EQ_NODE)
       && (get3 (n_e n) 0 =? BTOR_INVERT_NODE (nth 0 e 0))
       && (get3 (n_e n) 1 =? BTOR_INVERT_NODE (nth 1 e 0))
    then true
    else children_equal (n_e n) e 0
  else false.

(** [find_bv_exp]: the array [e] is sorted in place, so the model returns it
    with the link. *)
Definition find_bv_exp (s : Btor) (kind : BtorNodeKind) (e : list Z)
  : option (list Z * lookup) :=
  e ← sort_bv_exp s kind e;
  hash ← hash_bv_exp s e;
  lk ← find_in_bucket s hash (fun cur n => Some (find_bv_exp_test kind e n));
  Some (e, lk).

(** ** Lambdas: the alpha-invariant hash and the comparison *)

(** [hash_lambda_exp]: one traversal of the body with an explicit stack.
    [params], when given, collects the ids of the parameters other than
    [param] that the body contains. *)
Fixpoint hash_lambda_loop (fuel : nat) (s : Btor) (param : Z)
    (visit : list Z) (marked : gset Z) (params : option (gset Z)) (hash : Z)
  : option (Z * option (gset Z)) :=
  match visit with
  | [] => Some (hash, params)
  | cur :: visit =>
      match fuel with
      | O => None
      | S fuel =>
          let real_cur := BTOR_REAL_ADDR_NODE cur in
          n ← node_at s real_cur;
          if bool_decide (n_id n ∈ marked) then
            hash_lambda_loop fuel s param visit marked params hash
          else if negb (n_parameterized n) then
            id ← btor_exp_get_id s cur;
            hash_lambda_loop fuel s param visit marked params (u32 (hash + id))
          else if is_kind BTOR_LAMBDA_NODE n then
            h ← lambdas s !! real_cur;
            e0 ← node_at s (get3 (n_e n) 0);
            hash_lambda_loop fuel s param visit marked params
              (u32 (hash + h + kind_code (n_kind n) + kind_code (n_kind e0)))
          else
            let params :=
              if is_kind BTOR_PARAM_NODE n && negb (real_cur =? param)
              then (fun ps => {[n_id n]} ∪ ps) <$> params else params in
            let marked := {[n_id n]} ∪ marked in
            let k := kind_code (n_kind n) in
            let hash := u32 (hash + (if BTOR_IS_INVERTED_NODE cur then - k else k)) in
            hash_lambda_loop fuel s param (rev (children n) ++ visit) marked params hash
      end
  end.

(** Every marked node pushes at most three children, so the traversal makes
    at most [3 * nodes + 1] steps. *)
Definition traversal_fuel (s : Btor) : nat := (3 * length (nodes_id_table s) + 2)%nat.

Definition hash_lambda_exp (s : Btor) (param body : Z) (params : option (gset Z))
  : option (Z * option (gset Z)) :=
  hash_lambda_loop (traversal_fuel s) s param [body] ∅ params 0.

(** [find_lambda_exp]; [compare] is [compare_lambda_exp] when
    [compare_lambdas] is set and absent otherwise. *)
Definition find_lambda_exp_with (compare : option (Btor -> Z -> Z -> Z -> option bool))
    (s : Btor) (param body : Z) (params : option (gset Z))
  : option (lookup * Z * option (gset Z)) :=
  '(hash, params) ← hash_lambda_exp s param body params;
  lk ← find_in_bucket s hash
         (fun cur n =>
            if is_kind BTOR_LAMBDA_NODE n then
              if (param =? get3 (n_e n) 0) && (body =? get3 (n_e n) 1) then Some true
              else if n_parameterized n then Some false
              else match compare with
                   | Some cmp => cmp s param body cur
                   | None => Some false
                   end
            else Some false);
  Some (lk, hash, params).

(** Modelled from the spec: the lambda iterator of the absent
    utils/btorexpiter.h: it walks the chain of curried lambdas, from a lambda
    to its body while the body is a lambda.  [lambda_chain_params] pairs the
    parameters of two such chains (section 4.5.3, the extended map); it fails
    when the first chain is longer or a pair of sorts differs. *)
Fixpoint lambda_chain_params (fuel : nat) (s : Btor) (it iit : Z)
    (param_map : gmap Z Z) : option (option (gmap Z Z)) :=
  match fuel with
  | O => None
  | S fuel =>
      l0 ← real_node s it;
      if negb (is_kind BTOR_LAMBDA_NODE l0) then Some (Some param_map)
      else
        l1 ← real_node s iit;
        if negb (is_kind BTOR_LAMBDA_NODE l1) then Some None
        else if negb (sort_id_eqb (n_sort_id l0) (n_sort_id l1)) then Some None
        else
          let param := get3 (n_e l0) 0 in
          let subst_param := get3 (n_e l1) 0 in
          sp ← btor_exp_get_sort_id s param;
          ss ← btor_exp_get_sort_id s subst_param;
          if negb (sort_id_eqb sp ss) then Some None
          else lambda_chain_params fuel s (get3 (n_e l0) 1) (get3 (n_e l1) 1)
                 (<[param := subst_param]> param_map)
  end.

(** The comparison loop: a post-order walk of the query body that rebuilds
    each parameterized node over the candidate's parameters by lookup in the
    unique table.  [cache] maps a visited node to its image, null while its
    children are being processed; [args] is the stack of images, top first.
    The result is the final [args] stack. *)
Fixpoint compare_lambda_loop (fuel : nat) (s : Btor) (param_map : gmap Z Z)
    (stack args : list Z) (cache : gmap Z Z) : option (list Z) :=
  match stack with
  | [] => Some args
  | cur :: stack =>
      match fuel with
      | O => None
      | S fuel =>
          let real_cur := BTOR_REAL_ADDR_NODE cur in
          n ← node_at s real_cur;
          if negb (n_parameterized n) then
            compare_lambda_loop fuel s param_map stack (cur :: args) cache
          else
            match cache !! real_cur with
            | None =>
                compare_lambda_loop fuel s param_map
                  (children n ++ cur :: stack) args (<[real_cur := 0]> cache)
            | Some 0 =>
                if (length args <? n_arity n)%nat then None
                else
                  let e := rev (take (n_arity n) args) in
                  let args := drop (n_arity n) args in
                  result ←
                    (if is_kind BTOR_SLICE_NODE n then
                       lk ← find_slice_exp s (nth 0 e 0) (n_upper n) (n_lower n);
                       Some (deref_lookup s lk)
                     else if is_kind BTOR_LAMBDA_NODE n then
                       '(lk, _, _) ← find_lambda_exp_with None s (nth 0 e 0) (nth 1 e 0) None;
                       Some (deref_lookup s lk)
                     else if is_kind BTOR_PARAM_NODE n then
                       match param_map !! real_cur with
                       | Some sp => Some sp
                       | None => Some real_cur
                       end
                     else
                       '(_, lk) ← find_bv_exp s (n_kind n) e;
                       Some (deref_lookup s lk));
                  if result =? 0 then Some []
                  else
                    compare_lambda_loop fuel s param_map stack
                      (BTOR_COND_INVERT_NODE cur result :: args)
                      (<[real_cur := result]> cache)
            | Some data =>
                compare_lambda_loop fuel s param_map stack
                  (BTOR_COND_INVERT_NODE cur data :: args) cache
            end
      end
  end.

Definition compare_lambda_exp (s : Btor) (param body lambda : Z) : option bool :=
  l ← node_at s lambda;
  let subst_param := get3 (n_e l) 0 in
  sp ← btor_exp_get_sort_id s subst_param;
  pp ← btor_exp_get_sort_id s param;
  sb ← btor_exp_get_sort_id s body;
  sl ← btor_exp_get_sort_id s (get3 (n_e l) 1);
  if negb (sort_id_eqb sp pp) || negb (sort_id_eqb sb sl) then Some false
  else
    let param_map : gmap Z Z := {[param := subst_param]} in
    b ← real_node s body;
    lb ← real_node s (get3 (n_e l) 1);
    pm ← (if is_kind BTOR_LAMBDA_NODE b && is_kind BTOR_LAMBDA_NODE lb then
             lambda_chain_params (length (nodes_id_table s)) s body (get3 (n_e l) 1) param_map
           else if is_kind BTOR_LAMBDA_NODE b || is_kind BTOR_LAMBDA_NODE lb then Some None
           else Some (Some param_map));
    match pm with
    | None => Some false
    | Some param_map =>
        args ← compare_lambda_loop (2 * traversal_fuel s) s param_map [body] [] ∅;
        match args with
        | [] => Some false
        | top :: _ => Some (top =? get3 (n_e l) 1)
        end
    end.

Definition find_lambda_exp (s : Btor) (param body : Z) (params : option (gset Z))
    (compare_lambdas : bool) : option (lookup * Z * option (gset Z)) :=
  find_lambda_exp_with (if compare_lambdas then Some compare_lambda_exp else None)
    s param body params.

(** [find_exp]: the link, the array as sorted by the lookup, the lambda hash
    and the collected parameters. *)
Definition find_exp (s : Btor) (kind : BtorNodeKind) (e : list Z)
    (params : option (gset Z)) : option (lookup * list Z * Z * option (gset Z)) :=
  if bool_decide (kind = BTOR_LAMBDA_NODE) then
    '(lk, hash, params) ← find_lambda_exp s (nth 0 e 0) (nth 1 e 0) params true;
    Some (lk, e, hash, params)
  else
    '(e, lk) ← find_bv_exp s kind e;
    Some (lk, e, 0, params).

(** ** The constructors *)

Fixpoint simplify_all (s : Btor) (e : list Z) : option (list Z) :=
  match e with
  | [] => Some []
  | x :: e => x' ← btor_simplify_exp s x; e' ← simplify_all s e; Some (x' :: e')
  end.

(** The allocation on a miss, common to the constructors: grow the table
    when it is full and look the link up again, allocate, store the node at
    the link and mark it unique. *)
Definition enlarge_if_full {A : Type} (s : Btor) (found : A)
    (find : Btor -> option A) : option (Btor * A) :=
  if BTOR_FULL_UNIQUE_TABLE s then
    s ← enlarge_nodes_unique_table s;
    r ← find s;
    Some (s, r)
  else Some (s, found).

Definition insert_unique (s : Btor) (lk : lookup) (p : Z) : option Btor :=
  let s := write_lookup s lk p in
  let s := wb_ut_num_elements (ut_num_elements s + 1) s in
  upd_node s p (wr_unique true).

Definition create_exp (s : Btor) (kind : BtorNodeKind) (e : list Z) : option (Btor * Z) :=
  simp_e ← simplify_all s e;
  params ← (if bool_decide (kind = BTOR_LAMBDA_NODE) then
               n ← real_node s (nth 1 e 0);
               Some (if is_kind BTOR_LAMBDA_NODE n then None else Some (∅ : gset Z))
             else Some None);
  '(lk, simp_e, lambda_hash, params) ← find_exp s kind simp_e params;
  if deref_lookup s lk =? 0 then
    '(s, (lk, simp_e, lambda_hash, _)) ←
      enlarge_if_full s (lk, simp_e, lambda_hash, params)
        (fun s => find_exp s kind simp_e None);
    '(s, p) ←
      match kind with
      | BTOR_LAMBDA_NODE =>
          '(s, p) ← new_lambda_exp_node s (nth 0 simp_e 0) (nth 1 simp_e 0);
          let s := wb_lambdas (<[p := lambda_hash]> (lambdas s)) s in
          match params with
          | Some ps =>
              if bool_decide (ps = ∅) then Some (s, p)
              else
                s ← upd_node (wb_parameterized (<[p := ps]> (parameterized s)) s)
                      p (wr_parameterized true);
                Some (s, p)
          | None => Some (s, p)
          end
      | BTOR_ARGS_NODE => new_args_exp_node s simp_e
      | _ => new_node s kind simp_e
      end;
    s ← insert_unique s lk p;
    Some (s, p)
  else
    s ← inc_exp_ref_counter s (deref_lookup s lk);
    Some (s, deref_lookup s lk).

Definition btor_const_exp (s : Btor) (bits : BtorBitVector) : option (Btor * Z) :=
  let '(lookupbits, inv) :=
    if btor_get_bit_bv bits 0 then (btor_not_bv bits, true)
    else (btor_copy_bv bits, false) in
  lk ← find_const_exp s lookupbits;
  '(s, p) ←
    (if deref_lookup s lk =? 0 then
       '(s, lk) ← enlarge_if_full s lk (fun s => find_const_exp s lookupbits);
       '(s, p) ← new_const_exp_node s lookupbits;
       s ← insert_unique s lk p;
       Some (s, p)
     else
       s ← inc_exp_ref_counter s (deref_lookup s lk);
       Some (s, deref_lookup s lk));
  Some (s, if inv : bool then BTOR_INVERT_NODE p else p).

Definition unary_exp_slice_exp (s : Btor) (exp : Z) (upper lower : Z) : option (Btor * Z) :=
  exp ← btor_simplify_exp s exp;
  let '(inv, exp) :=
    if (0 <? opt_rewrite_level s) && BTOR_IS_INVERTED_NODE exp
    then (true, BTOR_INVERT_NODE exp) else (false, exp) in
  lk ← find_slice_exp s exp upper lower;
  '(s, p) ←
    (if deref_lookup s lk =? 0 then
       '(s, lk) ← enlarge_if_full s lk (fun s => find_slice_exp s exp upper lower);
       '(s, p) ← new_slice_exp_node s exp upper lower;
       s ← insert_unique s lk p;
       Some (s, p)
     else
       s ← inc_exp_ref_counter s (deref_lookup s lk);
       Some (s, deref_lookup s lk));
  Some (s, if inv : bool then BTOR_INVERT_NODE p else p).

Definition btor_slice_exp_node (s : Btor) (exp : Z) (upper lower : Z) : option (Btor * Z) :=
  exp ← btor_simplify_exp s exp;
  unary_exp_slice_exp s exp upper lower.

(** The binary constructors forward their inputs and call [create_exp]. *)
Definition binary_exp_node (kind : BtorNodeKind) (s : Btor) (e0 e1 : Z) : option (Btor * Z) :=
  e0 ← btor_simplify_exp s e0;
  e1 ← btor_simplify_exp s e1;
  create_exp s kind [e0; e1].

Definition btor_and_exp_node := binary_exp_node BTOR_AND_NODE.
Definition btor_add_exp_node := binary_exp_node BTOR_ADD_NODE.
Definition btor_mul_exp_node := binary_exp_node BTOR_MUL_NODE.
Definition btor_ult_exp_node := binary_exp_node BTOR_ULT_NODE.
Definition btor_sll_exp_node := binary_exp_node BTOR_SLL_NODE.
Definition btor_srl_exp_node := binary_exp_node BTOR_SRL_NODE.
Definition btor_udiv_exp_node := binary_exp_node BTOR_UDIV_NODE.
Definition btor_urem_exp_node := binary_exp_node BTOR_UREM_NODE.
Definition btor_concat_exp_node := binary_exp_node BTOR_CONCAT_NODE.
Definition btor_lambda_exp_node := binary_exp_node BTOR_LAMBDA_NODE.

Definition btor_eq_exp_node (s : Btor) (e0 e1 : Z) : option (Btor * Z) :=
  e0 ← btor_simplify_exp s e0;
  e1 ← btor_simplify_exp s e1;
  n0 ← real_node s e0;
  let kind := if btor_is_fun_node_n n0 then BTOR_FUN_EQ_NODE else BTOR_BV_EQ_NODE in
  create_exp s kind [e0; e1].

(** ** Release *)

(** [erase_local_data_exp].  A lambda releases the keys and values of its
    [static_rho] through [btor_release_exp], which the model receives as
    [release]. *)
Fixpoint release_static_rho (release : Btor -> Z -> option Btor) (s : Btor)
    (entries : list (Z * Z)) : option Btor :=
  match entries with
  | [] => Some s
  | (key, data) :: entries =>
      s ← release s data;
      s ← release s key;
      release_static_rho release s entries
  end.

Definition erase_local_data_exp (release : Btor -> Z -> option Btor) (s : Btor)
    (exp : Z) (free_sort : bool) : option Btor :=
  n ← node_at s exp;
  s ← match n_kind n with
       | BTOR_BV_CONST_NODE =>
           upd_node s exp (fun n => wr_invbits None (wr_bits None n))
       | BTOR_LAMBDA_NODE =>
           s ← match n_static_rho n with
                | Some entries =>
                    s ← release_static_rho release s entries;
                    upd_node s exp (wr_static_rho None)
                | None => Some s
                end;
           upd_node s exp (wr_rho None)
       | BTOR_UPDATE_NODE | BTOR_UF_NODE => upd_node s exp (wr_rho None)
       | BTOR_COND_NODE =>
           if btor_is_fun_cond_node_n n then upd_node s exp (wr_rho None) else Some s
       | _ => Some s
       end;
  s ← (if free_sort then upd_node s exp (wr_sort_id None) else Some s);
  upd_node s exp (fun n => wr_erased true (wr_av None n)).

(** [remove_from_hash_tables]. *)
Definition remove_from_hash_tables (s : Btor) (exp : Z) (keep_symbol : bool) : option Btor :=
  n ← node_at s exp;
  let s :=
    match n_kind n with
    | BTOR_BV_VAR_NODE => wb_bv_vars (bv_vars s ∖ {[exp]}) s
    | BTOR_LAMBDA_NODE => wb_lambdas (delete exp (lambdas s)) s
    | BTOR_UF_NODE => wb_ufs (ufs s ∖ {[exp]}) s
    | BTOR_FUN_EQ_NODE => wb_feqs (delete exp (feqs s)) s
    | _ => s
    end in
  let s :=
    if keep_symbol then s
    else match node2symbol s !! exp with
         | Some str =>
             let s := wb_node2symbol (delete exp (node2symbol s)) s in
             if bool_decide (str = EmptyString) then s
             else wb_symbols (delete str (symbols s)) s
         | None => s
         end in
  Some (wb_parameterized (delete exp (parameterized s)) s).

(** [really_deallocate_exp]: the slot of the node is cleared and its storage
    freed; the slot is the one the node's id names. *)
Definition really_deallocate_exp (s : Btor) (exp : Z) : option Btor :=
  n ← node_at s exp;
  Some (wb_nodes_id_table (<[id_of_ptr exp := None]> (nodes_id_table s)) s).

(** The body of the sweep for a node whose last reference is dropped; the
    result is the state and the work stack, top first. *)
Definition release_node (release : Btor -> Z -> option Btor) (s : Btor)
    (cur : Z) (stack : list Z) : option (Btor * list Z) :=
  n ← node_at s cur;
  let stack := children n ++ stack in
  '(s, stack) ←
    (if n_simplified n =? 0 then Some (s, stack)
     else s ← upd_node s cur (wr_simplified 0);
          Some (s, n_simplified n :: stack));
  s ← remove_from_nodes_unique_table_exp s cur;
  s ← erase_local_data_exp release s cur true;
  s ← remove_from_hash_tables s cur false;
  s ← disconnect_children_exp s cur;
  s ← really_deallocate_exp s cur;
  Some (s, stack).

Fixpoint release_loop (release : Btor -> Z -> option Btor) (fuel : nat) (s : Btor)
    (stack : list Z) : option Btor :=
  match stack with
  | [] => Some s
  | top :: stack =>
      match fuel with
      | O => None
      | S fuel =>
          let cur := BTOR_REAL_ADDR_NODE top in
          n ← node_at s cur;
          if 1 <? n_refs n then
            s ← upd_node s cur (fun n => wr_refs (n_refs n - 1) n);
            release_loop release fuel s stack
          else
            '(s, stack) ← release_node release s cur stack;
            release_loop release fuel s stack
      end
  end.

Definition recursively_release_exp (release : Btor -> Z -> option Btor) (fuel : nat)
    (s : Btor) (root : Z) : option Btor :=
  '(s, stack) ← release_node release s root [];
  release_loop release fuel s stack.

(** [btor_release_exp], with [depth] bounding the nesting of the releases
    that [erase_local_data_exp] makes and [fuel] the steps of one sweep. *)
Fixpoint btor_release_exp_rec (depth fuel : nat) (s : Btor) (root : Z) : option Btor :=
  match depth with
  | O => None
  | S depth =>
      let root := BTOR_REAL_ADDR_NODE root in
      n ← node_at s root;
      if 1 <? n_refs n then upd_node s root (fun n => wr_refs (n_refs n - 1) n)
      else recursively_release_exp (btor_release_exp_rec depth fuel) fuel s root
  end.

(** A sweep frees a node or pops an entry at every step and a freed node
    pushes at most four entries; a nested release frees a lambda first. *)
Definition release_fuel (s : Btor) : nat := (4 * length (nodes_id_table s) + 1)%nat.
Definition release_depth (s : Btor) : nat := S (length (nodes_id_table s)).

Definition btor_release_exp (s : Btor) (root : Z) : option Btor :=
  btor_release_exp_rec (release_depth s) (release_fuel s) s root.

(** ** Proxies *)

Fixpoint release_all (s : Btor) (e : list Z) : option Btor :=
  match e with
  | [] => Some s
  | x :: e => s ← btor_release_exp s x; release_all s e
  end.

Definition btor_set_to_proxy_exp (s : Btor) (exp : Z) : option Btor :=
  s ← remove_from_nodes_unique_table_exp s exp;
  s ← erase_local_data_exp btor_release_exp s exp false;
  n ← node_at s exp;
  let e := children n in
  s ← remove_from_hash_tables s exp true;
  s ← disconnect_children_exp s exp;
  s ← release_all s e;
  upd_node s exp
    (fun n => wr_parameterized false
                (wr_arity 0%nat
                   (wr_erased false (wr_disconnected false (set_kind BTOR_PROXY_NODE n))))).

(** ** Argument lists *)

Definition ARGS_MAX_NUM_CHILDREN : nat := 3.

(** The loop of [btor_args_exp], over the arguments from the last to the
    first; [e] is the local array, [cnt_args] the next free slot. *)
Fixpoint btor_args_loop (s : Btor) (rargs : list Z) (e : arr3) (cnt_args : Z)
    (cur_argc : nat) (result last : Z) : option (Btor * Z) :=
  match rargs with
  | [] => Some (s, result)
  | a :: rargs =>
      a ← btor_simplify_exp s a;
      let e := set3 e (Z.to_nat cnt_args) a in
      let cnt_args := cnt_args - 1 in
      if cnt_args <? 0 then
        '(s, result) ← create_exp s BTOR_ARGS_NODE (map (get3 e) (seq 0 cur_argc));
        let cur_argc := ARGS_MAX_NUM_CHILDREN in
        let cnt_args := Z.of_nat cur_argc - 1 in
        let e := set3 e (Z.to_nat cnt_args) result in
        let cnt_args := cnt_args - 1 in
        s ← (if last =? 0 then Some s else btor_release_exp s last);
        btor_args_loop s rargs e cnt_args cur_argc result result
      else btor_args_loop s rargs e cnt_args cur_argc result last
  end.

Definition btor_args_exp (s : Btor) (args : list Z) : option (Btor * Z) :=
  let argc := length args in
  let max := ARGS_MAX_NUM_CHILDREN in
  let cur_argc :=
    if (argc <=? max)%nat then argc
    else
      let rem_free := (argc mod (max - 1))%nat in
      let num_args := (argc / (max - 1))%nat in
      let num_args := if (1 <? rem_free)%nat then (num_args + 1)%nat else num_args in
      (argc - (num_args - 1) * (max - 1))%nat in
  btor_args_loop s (rev args) null3 (Z.of_nat cur_argc - 1) cur_argc 0 0.



(** ** The initial state *)

(** Modelled from the spec: [new_context()] of section 6 (the absent
    btorcore.c): an id table whose slot 0 is reserved, an empty unique table
    of one chain, empty side tables; expressions are sorted by default. *)
Definition btor_new_btor : Btor :=
  mkBtor [None] 0 [[]] ∅ ∅ ∅ ∅ ∅ ∅ ∅ 1 0 0.

(** ** The parent list of a node, as a list of links *)

(** [BTOR_NEXT_PARENT (link)] and [BTOR_PREV_PARENT (link)]: the link
    fields of the parent edge that the tagged pointer [link] names. *)
Definition next_link (s : Btor) (link : Z) : option Z :=
  n ← real_node s link; Some (get3 (n_next_parent n) (btor_exp_get_tag link)).
Definition prev_link (s : Btor) (link : Z) : option Z :=
  n ← real_node s link; Some (get3 (n_prev_parent n) (btor_exp_get_tag link)).

(** The links [l], in order, form a doubly linked chain that starts after
    [prev] and ends with a null [next]; a link carries a child position. *)
Fixpoint is_parent_chain (s : Btor) (prev : Z) (l : list Z) : Prop :=
  match l with
  | [] => True
  | x :: rest =>
      (btor_exp_get_tag x < 3)%nat
      /\ prev_link s x = Some prev /\ next_link s x = Some (hd 0 rest)
      /\ is_parent_chain s x rest
  end.

(** [l] is the parent list of the node [c]: the chain from
    [c->first_parent] to [c->last_parent]. *)
Definition parent_list (s : Btor) (c : BtorNode) (l : list Z) : Prop :=
  n_first_parent c = hd 0 l /\ n_last_parent c = List.last l 0
  /\ is_parent_chain s 0 l /\ NoDup l.

(** The same list read by a walk along the [next] links. *)
Fixpoint walk_parents (fuel : nat) (s : Btor) (link : Z) : option (list Z) :=
  if link =? 0 then Some []
  else match fuel with
       | O => None
       | S fuel =>
           nxt ← next_link s link;
           rest ← walk_parents fuel s nxt;
           Some (link :: rest)
       end.

(** * Notions used to state the properties *)



(** A declaration of a bit-vector variable or of an uninterpreted function. *)
Definition declare_exp (uf : bool) (s : Btor) (sort : BtorSortId)
    (symbol : option string) : option (Btor * Z) :=
  if uf then btor_uf_exp s sort symbol else btor_var_exp s sort symbol.

(** A field of the node at a pointer. *)
Definition fld {A : Type} (proj : BtorNode -> A) (s : Btor) (p : Z) : option A :=
  proj <$> node_at s p.

(** The part of a node that connecting, disconnecting, reference counting
    and linking in the unique table leave alone: everything but the counts,
    the parent links and the unique flag. *)
Definition stable (n : BtorNode) : BtorNode :=
  wr_unique false (wr_refs 0 (wr_ext_refs 0 (wr_parents 0 (wr_first_parent 0
    (wr_last_parent 0 (wr_prev_parent null3 (wr_next_parent null3 n))))))).

(** The part that stays the same while a new node is given its children:
    the stable part without the child slots and the inherited flags. *)
Definition shape (n : BtorNode) : BtorNode :=
  wr_e null3 (wr_parameterized false (wr_is_array false
    (wr_lambda_below false (wr_apply_below false (stable n))))).

(** Two states with the same unique table and side tables. *)
Definition same_tables (s s' : Btor) : Prop :=
  s' = wb_nodes_id_table (nodes_id_table s') s.

(** The first part of [connect_child_exp]: flags, counts and the child slot. *)
Definition connect_prefix (s : Btor) (parent child : Z) : option Btor :=
  let real_child := BTOR_REAL_ADDR_NODE child in
  p ← node_at s parent;
  c ← node_at s real_child;
  s ← (if negb (is_kind BTOR_LAMBDA_NODE p) && n_parameterized c
        then upd_node s parent (wr_parameterized true) else Some s);
  p ← node_at s parent;
  c ← node_at s real_child;
  s ← (if btor_is_fun_cond_node_n p && n_is_array c
        then upd_node s parent (wr_is_array true) else Some s);
  c ← node_at s real_child;
  s ← (if n_lambda_below c then upd_node s parent (wr_lambda_below true) else Some s);
  c ← node_at s real_child;
  s ← (if n_apply_below c then upd_node s parent (wr_apply_below true) else Some s);
  s ← upd_node s real_child (fun c => wr_parents (n_parents c + 1) c);
  inc_exp_ref_counter s child.

Record same_links (s s' : Btor) : Prop := {
  sl_live : forall x, is_Some (node_at s' x) <-> is_Some (node_at s x);
  sl_next : forall x, fld n_next_parent s' x = fld n_next_parent s x;
  sl_prev : forall x, fld n_prev_parent s' x = fld n_prev_parent s x;
  sl_first : forall x, fld n_first_parent s' x = fld n_first_parent s x;
  sl_last : forall x, fld n_last_parent s' x = fld n_last_parent s x;
  sl_kind : forall x, fld n_kind s' x = fld n_kind s x;
  sl_e : forall x, fld n_e s' x = fld n_e s x;
  sl_shape : forall x, fld shape s' x = fld shape s x;
  sl_tables : same_tables s s';
}.

Definition connect_suffix (s : Btor) (parent child : Z) (pos : nat)
    (insert_beginning : bool) : option Btor :=
  let real_child := BTOR_REAL_ADDR_NODE child in
  let tagged_parent := BTOR_TAG_NODE parent pos in
  c ← node_at s real_child;
  if n_first_parent c =? 0 then
    upd_node s real_child
      (fun c => wr_last_parent tagged_parent (wr_first_parent tagged_parent c))
  else if insert_beginning then
    let first_parent := n_first_parent c in
    s ← upd_node s parent
          (fun p => wr_next_parent (set3 (n_next_parent p) pos first_parent) p);
    let tag := btor_exp_get_tag first_parent in
    s ← upd_node s (BTOR_REAL_ADDR_NODE first_parent)
          (fun f => wr_prev_parent (set3 (n_prev_parent f) tag tagged_parent) f);
    upd_node s real_child (wr_first_parent tagged_parent)
  else
    let last_parent := n_last_parent c in
    s ← upd_node s parent
          (fun p => wr_prev_parent (set3 (n_prev_parent p) pos last_parent) p);
    let tag := btor_exp_get_tag last_parent in
    s ← upd_node s (BTOR_REAL_ADDR_NODE last_parent)
          (fun l => wr_next_parent (set3 (n_next_parent l) tag tagged_parent) l);
    upd_node s real_child (wr_last_parent tagged_parent).

(** The ends of every non-empty parent list are live nodes. *)
Definition links_live (s : Btor) : Prop :=
  forall x n, node_at s x = Some n -> n_first_parent n <> 0 ->
    is_Some (real_node s (n_first_parent n)) /\ is_Some (real_node s (n_last_parent n)).

(** [s'] has every node of [s], with the same stable part. *)
Definition extends (s s' : Btor) : Prop :=
  forall x n, node_at s x = Some n ->
    exists n', node_at s' x = Some n' /\ stable n' = stable n.

(** The hash of a node before it is reduced to the table size. *)
Definition raw_hash (s : Btor) (exp : Z) : option Z :=
  n ← node_at s exp;
  match n_kind n with
  | BTOR_BV_CONST_NODE => bits ← n_bits n; Some (btor_hash_bv bits)
  | BTOR_LAMBDA_NODE => lambdas s !! exp
  | BTOR_SLICE_NODE => hash_slice_exp s (get3 (n_e n) 0) (n_upper n) (n_lower n)
  | _ => hash_bv_exp s (children n)
  end.

(** ** The unique table as a set of nodes *)

(** [p] is linked in one of the collision chains. *)
Definition linked (chains : list (list Z)) (p : Z) : Prop :=
  exists b chain, chains !! b = Some chain /\ p ∈ chain.

Definition in_table (s : Btor) (p : Z) : Prop := linked (ut_chains s) p.

(** The chains [chains] of a table of [size] chains hold every node in the
    chain of its hash. *)
Definition placed (s : Btor) (size : Z) (chains : list (list Z)) : Prop :=
  length chains = Z.to_nat size
  /\ forall b chain p, chains !! b = Some chain -> p ∈ chain ->
       exists h, raw_hash s p = Some h /\ b = bucket_of size h.

(** The lookup with the kind and the children of [np] accepts [nq]. *)
Definition key_match (np nq : BtorNode) : bool :=
  find_bv_exp_test (n_kind np) (children np) nq.

(** The kinds that [find_bv_exp] looks up, by kind and children. *)
Definition hashed_by_children (k : BtorNodeKind) : bool :=
  match k with
  | BTOR_BV_CONST_NODE | BTOR_LAMBDA_NODE | BTOR_SLICE_NODE => false
  | _ => true
  end.

(** The invariant of the unique table: every linked node is live, not
    forwarded, and linked in the chain of its hash; a constant has its sort
    and its bits; no two linked nodes have the same kind and children. *)
Record table_ok (s : Btor) : Prop := {
  tk_nonempty : ut_chains s <> [];
  tk_live : forall p, in_table s p -> is_Some (node_at s p);
  tk_terminal : forall p n, in_table s p -> node_at s p = Some n -> n_simplified n = 0;
  tk_const : forall p n, in_table s p -> node_at s p = Some n ->
    n_kind n = BTOR_BV_CONST_NODE ->
    is_Some (btor_get_width_bitvec_sort (n_sort_id n)) /\ is_Some (n_bits n);
  tk_bucket : forall b chain p, ut_chains s !! b = Some chain -> p ∈ chain ->
    exists h, raw_hash s p = Some h /\ b = bucket_of (ut_size s) h;
  tk_canon : forall p q np nq, in_table s p -> in_table s q ->
    node_at s p = Some np -> node_at s q = Some nq ->
    hashed_by_children (n_kind np) = true -> key_match np nq = true -> p = q
}.

(** The reference counts of the live nodes lie between [1] and [bound]. *)
Definition refs_within (bound : Z) (s : Btor) : Prop :=
  forall x n, node_at s x = Some n -> 1 <= n_refs n <= bound.

(** ** Tests of a lookup *)

(** The test gives an answer on every linked node. *)
Definition total_on (s : Btor) (T : Z -> BtorNode -> option bool) : Prop :=
  forall p, in_table s p -> exists n b, node_at s p = Some n /\ T p n = Some b.

(** The test accepts only nodes of hash [h]. *)
Definition keyed (s : Btor) (T : Z -> BtorNode -> option bool) (h : Z) : Prop :=
  forall p n, in_table s p -> node_at s p = Some n -> T p n = Some true ->
    raw_hash s p = Some h.

(** The test reads only the stable part of a node. *)
Definition stable_test (T : Z -> BtorNode -> option bool) : Prop :=
  forall p n n', stable n' = stable n -> T p n' = T p n.

(** The test rejects every linked node. *)
Definition rejects_all (s : Btor) (T : Z -> BtorNode -> option bool) : Prop :=
  forall q, in_table s q -> exists n, node_at s q = Some n /\ T q n = Some false.

(** The id table with one more node. *)
Definition alloc_node (s : Btor) (n : BtorNode) : Btor :=
  wb_nodes_id_table (nodes_id_table s ++ [Some n]) s.

(** The test of [find_const_exp]. *)
Definition const_test (bits : BtorBitVector) (cur : Z) (n : BtorNode) : option bool :=
  if is_kind BTOR_BV_CONST_NODE n then
    w ← btor_get_width_bitvec_sort (n_sort_id n);
    if w =? bv_width bits then
      cbits ← n_bits n; Some (btor_compare_bv cbits bits =? 0)
    else Some false
  else Some false.

(** The lookup or allocation in [btor_const_exp], for the bits that are
    looked up. *)
Definition const_node (s : Btor) (lookupbits : BtorBitVector) : option (Btor * Z) :=
  lk ← find_const_exp s lookupbits;
  if deref_lookup s lk =? 0 then
    '(s, lk) ← enlarge_if_full s lk (fun s => find_const_exp s lookupbits);
    '(s, p) ← new_const_exp_node s lookupbits;
    s ← insert_unique s lk p;
    Some (s, p)
  else
    s ← inc_exp_ref_counter s (deref_lookup s lk);
    Some (s, deref_lookup s lk).

(** The node that [new_const_exp_node] allocates. *)
Definition new_const_node (s : Btor) (bits : BtorBitVector) : BtorNode :=
  wr_invbits (Some (btor_not_bv bits))
    (wr_bits (Some (btor_copy_bv bits))
       (wr_id (count_id_table s)
          (wr_refs 1
             (wr_sort_id (btor_bitvec_sort (bv_width bits))
                (set_kind BTOR_BV_CONST_NODE calloc_node))))).

(** ** The arguments of a constructor *)

(** The number of handles of [e] that address the node [x]. *)
Fixpoint occurrences (x : Z) (e : list Z) : Z :=
  match e with
  | [] => 0
  | c :: e => (if decide (x = BTOR_REAL_ADDR_NODE c) then 1 else 0) + occurrences x e
  end.

(** The child slots after [connect_children] has stored [e] from slot [i]. *)
Fixpoint fill3 (a : arr3) (i : nat) (e : list Z) : arr3 :=
  match e with
  | [] => a
  | c :: e => fill3 (set3 a i c) (S i) e
  end.

(** A handle that an args node takes as a child: its node is live and not
    forwarded, and has a sort or is an args node. *)
Definition arg_ok (s : Btor) (x : Z) : Prop :=
  exists n, real_node s x = Some n /\ n_simplified n = 0
            /\ (is_Some (n_sort_id n) \/ n_kind n = BTOR_ARGS_NODE).

(** The invariant of the states between constructor calls. *)
Record state_ok (bound : Z) (s : Btor) : Prop := {
  so_table : table_ok s;
  so_links : links_live s;
  so_refs : refs_within bound s;
  so_count : 1 <= count_id_table s
}.

(** The node that [new_args_exp_node] starts from. *)
Definition new_args_node (s : Btor) (e : list Z) : BtorNode :=
  wr_id (count_id_table s)
    (wr_refs 1 (wr_arity (length e) (set_kind BTOR_ARGS_NODE calloc_node))).

(** No linked args node has [t] as a child. *)
Definition orphan (s : Btor) (t : Z) : Prop :=
  forall q nq, in_table s q -> node_at s q = Some nq ->
    n_kind nq = BTOR_ARGS_NODE -> t ∉ children nq.

(** The caller's reference to [t] is not the only thing that keeps a parent
    of [t] alive: [t] has a second reference, or no parent in the table. *)
Definition owned (s : Btor) (t : Z) : Prop :=
  exists n, node_at s t = Some n /\ (2 <= n_refs n \/ orphan s t).

(** The children of a linked args node are older than the node: their
    slots in the id table come before its own. *)
Definition dag (s : Btor) : Prop :=
  forall p n, in_table s p -> node_at s p = Some n -> n_kind n = BTOR_ARGS_NODE ->
    forall c, c ∈ children n -> BTOR_REAL_ADDR_NODE c < p.

(** ** Executable checks of the invariants *)

(** The linked nodes, each with the index of its chain. *)
Fixpoint entries_from (b : nat) (chains : list (list Z)) : list (nat * Z) :=
  match chains with
  | [] => []
  | chain :: rest => map (pair b) chain ++ entries_from (S b) rest
  end.

Definition table_entries (s : Btor) : list (nat * Z) := entries_from 0 (ut_chains s).

Definition const_okb (n : BtorNode) : bool :=
  if is_kind BTOR_BV_CONST_NODE n
  then bool_decide (is_Some (btor_get_width_bitvec_sort (n_sort_id n)))
       && bool_decide (is_Some (n_bits n))
  else true.

Definition entry_okb (s : Btor) (entry : nat * Z) : bool :=
  match node_at s (snd entry) with
  | Some n =>
      (n_simplified n =? 0) && const_okb n
      && match raw_hash s (snd entry) with
         | Some h => bool_decide (fst entry = bucket_of (ut_size s) h)
         | None => false
         end
      && forallb (fun other : nat * Z =>
                    match node_at s (snd other) with
                    | Some nq =>
                        implb (hashed_by_children (n_kind n) && key_match n nq)
                          (snd entry =? snd other)
                    | None => false
                    end) (table_entries s)
  | None => false
  end.

(** [table_ok], decided. *)
Definition table_okb (s : Btor) : bool :=
  negb (bool_decide (ut_chains s = [])) && forallb (entry_okb s) (table_entries s).

(** A test on all live nodes. *)
Definition all_nodes (P : BtorNode -> bool) (s : Btor) : bool :=
  forallb (fun slot => match slot with Some n => P n | None => true end)
    (nodes_id_table s).

(** [dag], decided. *)
Definition dagb (s : Btor) : bool :=
  forallb (fun entry : nat * Z =>
             match node_at s (snd entry) with
             | Some n =>
                 implb (is_kind BTOR_ARGS_NODE n)
                   (forallb (fun c => BTOR_REAL_ADDR_NODE c <? snd entry) (children n))
             | None => true
             end) (table_entries s).

(** [links_live], decided. *)
Definition links_liveb (s : Btor) : bool :=
  all_nodes (fun n => (n_first_parent n =? 0)
                      || bool_decide (is_Some (real_node s (n_first_parent n)))
                         && bool_decide (is_Some (real_node s (n_last_parent n)))) s.

(** [state_ok], decided. *)
Definition state_okb (bound : Z) (s : Btor) : bool :=
  table_okb s && links_liveb s
  && all_nodes (fun n => (1 <=? n_refs n) && (n_refs n <=? bound)) s
  && (1 <=? count_id_table s).

(** [arg_ok], decided. *)
Definition arg_okb (s : Btor) (x : Z) : bool :=
  match real_node s x with
  | Some n =>
      (n_simplified n =? 0)
      && (bool_decide (is_Some (n_sort_id n)) || is_kind BTOR_ARGS_NODE n)
  | None => false
  end.

(** [in_table], decided. *)
Definition in_tableb (s : Btor) (p : Z) : bool :=
  existsb (fun entry : nat * Z => snd entry =? p) (table_entries s).

(** ** Disconnecting *)

(** The part of a node that [disconnect_child_exp] leaves alone. *)
Definition apart (n : BtorNode) : BtorNode :=
  wr_lambda_exp 0 (wr_e null3 (wr_parents 0 (wr_first_parent 0 (wr_last_parent 0
    (wr_prev_parent null3 (wr_next_parent null3 n)))))).

(** The first part of [disconnect_child_exp]: the parent count of the
    child and the binding of a parameter; the result carries the child and
    the ends of its parent list as they are read. *)
Definition disconnect_prefix (s : Btor) (parent : Z) (pos : nat)
  : option (Btor * Z * Z * Z) :=
  p ← node_at s parent;
  let real_child := BTOR_REAL_ADDR_NODE (get3 (n_e p) pos) in
  s ← upd_node s real_child (fun c => wr_parents (n_parents c - 1) c);
  c ← node_at s real_child;
  p ← node_at s parent;
  s ← (if is_kind BTOR_LAMBDA_NODE p && (pos =? 0)%nat then
          prm ← real_node s (get3 (n_e p) 0);
          if n_lambda_exp prm =? parent
          then upd_node s (BTOR_REAL_ADDR_NODE (get3 (n_e p) 0)) (wr_lambda_exp 0)
          else Some s
        else Some s);
  Some (s, real_child, n_first_parent c, n_last_parent c).

(** The second part: the link is taken out of the list and cleared. *)
Definition disconnect_suffix (s : Btor) (parent : Z) (pos : nat)
    (real_child first_parent last_parent : Z) : option Btor :=
  let tagged_parent := BTOR_TAG_NODE parent pos in
  p ← node_at s parent;
  s ← (if (first_parent =? tagged_parent) && (first_parent =? last_parent) then
          upd_node s real_child (fun c => wr_last_parent 0 (wr_first_parent 0 c))
        else if first_parent =? tagged_parent then
          let nxt := get3 (n_next_parent p) pos in
          s ← upd_node s real_child (wr_first_parent nxt);
          upd_node s (BTOR_REAL_ADDR_NODE nxt)
            (fun f => wr_prev_parent (set3 (n_prev_parent f) (btor_exp_get_tag nxt) 0) f)
        else if last_parent =? tagged_parent then
          let prv := get3 (n_prev_parent p) pos in
          s ← upd_node s real_child (wr_last_parent prv);
          upd_node s (BTOR_REAL_ADDR_NODE prv)
            (fun l => wr_next_parent (set3 (n_next_parent l) (btor_exp_get_tag prv) 0) l)
        else
          let nxt := get3 (n_next_parent p) pos in
          let prv := get3 (n_prev_parent p) pos in
          s ← upd_node s (BTOR_REAL_ADDR_NODE nxt)
                (fun f => wr_prev_parent (set3 (n_prev_parent f) (btor_exp_get_tag nxt) prv) f);
          p ← node_at s parent;
          let nxt := get3 (n_next_parent p) pos in
          let prv := get3 (n_prev_parent p) pos in
          upd_node s (BTOR_REAL_ADDR_NODE prv)
            (fun l => wr_next_parent (set3 (n_next_parent l) (btor_exp_get_tag prv) nxt) l));
  upd_node s parent
    (fun p => wr_e (set3 (n_e p) pos 0)
                (wr_prev_parent (set3 (n_prev_parent p) pos 0)
                   (wr_next_parent (set3 (n_next_parent p) pos 0) p))).

(** The middle of [disconnect_child_exp]: the ends of the list and the
    neighbours of the link, for the node [p] read at the parent. *)
Definition unlink_parent (s : Btor) (parent : Z) (pos : nat)
    (real_child first_parent last_parent : Z) (p : BtorNode) : option Btor :=
  let tagged_parent := BTOR_TAG_NODE parent pos in
  if (first_parent =? tagged_parent) && (first_parent =? last_parent) then
    upd_node s real_child (fun c => wr_last_parent 0 (wr_first_parent 0 c))
  else if first_parent =? tagged_parent then
    let nxt := get3 (n_next_parent p) pos in
    s ← upd_node s real_child (wr_first_parent nxt);
    upd_node s (BTOR_REAL_ADDR_NODE nxt)
      (fun f => wr_prev_parent (set3 (n_prev_parent f) (btor_exp_get_tag nxt) 0) f)
  else if last_parent =? tagged_parent then
    let prv := get3 (n_prev_parent p) pos in
    s ← upd_node s real_child (wr_last_parent prv);
    upd_node s (BTOR_REAL_ADDR_NODE prv)
      (fun l => wr_next_parent (set3 (n_next_parent l) (btor_exp_get_tag prv) 0) l)
  else
    let nxt := get3 (n_next_parent p) pos in
    let prv := get3 (n_prev_parent p) pos in
    s ← upd_node s (BTOR_REAL_ADDR_NODE nxt)
          (fun f => wr_prev_parent (set3 (n_prev_parent f) (btor_exp_get_tag nxt) prv) f);
    p ← node_at s parent;
    let nxt := get3 (n_next_parent p) pos in
    let prv := get3 (n_prev_parent p) pos in
    upd_node s (BTOR_REAL_ADDR_NODE prv)
      (fun l => wr_next_parent (set3 (n_next_parent l) (btor_exp_get_tag prv) nxt) l).

(** ** The heap between releases *)

(** The handles of a static_rho, in the order in which
    [erase_local_data_exp] releases them. *)
Definition rho_handles (rho : option (list (Z * Z))) : list Z :=
  match rho with
  | Some entries => flat_map (fun entry => [snd entry; fst entry]) entries
  | None => []
  end.

(** The handles that the node [n] at [p] keeps a reference to besides its
    children: the node it is forwarded to and the entries of its
    static_rho; the nodes of [busy] are being released or converted, and
    their static_rho is left out. *)
Definition kept (busy : list Z) (p : Z) (n : BtorNode) : list Z :=
  (if n_simplified n =? 0 then [] else [n_simplified n])
  ++ (if bool_decide (p ∈ busy) then [] else rho_handles (n_static_rho n)).

(** A sum over the live nodes. *)
Definition over_slots (f : Z -> BtorNode -> Z) (s : Btor) : Z :=
  foldr Z.add 0
    (map (fun i => match node_at s (ptr_of_id i) with
                   | Some n => f (ptr_of_id i) n
                   | None => 0
                   end) (seq 0 (length (nodes_id_table s)))).

(** The term of the sum at a pointer. *)
Definition at_node (f : Z -> BtorNode -> Z) (s : Btor) (p : Z) : Z :=
  default 0 (f p <$> node_at s p).

(** The number of references to [x] that live nodes keep besides edges. *)
Definition kept_in (busy : list Z) (s : Btor) (x : Z) : Z :=
  over_slots (fun p n => occurrences x (kept busy p n)) s.

Definition live_count (s : Btor) : Z := over_slots (fun _ _ => 1) s.

(** The tagged parent [link] names an edge to the node [c]. *)
Definition edge (s : Btor) (link c : Z) : Prop :=
  exists pn, real_node s link = Some pn
    /\ get3 (n_e pn) (btor_exp_get_tag link) <> 0
    /\ BTOR_REAL_ADDR_NODE (get3 (n_e pn) (btor_exp_get_tag link)) = c.

(** The fields of a node that tie it to its children and to its parents. *)
Definition wiring (n : BtorNode) :=
  (n_e n, n_parents n, n_first_parent n, n_last_parent n, n_prev_parent n,
   n_next_parent n).

(** The fields that the hash of a node is computed from. *)
Definition hashed (n : BtorNode) :=
  (n_kind n, n_arity n, n_e n, n_bits n, n_upper n, n_lower n).

(** The invariant of the heap while the handles [held] are owed a release:
    the child slots of a live node hold live nodes, as many as its arity,
    and its parent list holds exactly
    the edges to it; a reference count covers the edges to the node, the
    references that other nodes keep to it and the handles held; the nodes
    marked unique are the nodes of the unique table, each once, in the
    chain of its hash.  The nodes of [busy] are in the middle of a release
    or of a conversion to a proxy. *)
Record heap_ok (busy held : list Z) (s : Btor) : Prop := {
  hk_arity : forall p n, node_at s p = Some n -> (n_arity n <= 3)%nat;
  hk_slots : forall p n i, node_at s p = Some n -> (n_arity n <= i)%nat ->
    get3 (n_e n) i = 0;
  hk_child : forall p n i, node_at s p = Some n ->
    get3 (n_e n) i <> 0 -> is_Some (real_node s (get3 (n_e n) i));
  hk_full : forall p n i, node_at s p = Some n -> (i < n_arity n)%nat ->
    p ∉ busy -> get3 (n_e n) i <> 0;
  hk_parents : forall c cn, node_at s c = Some cn ->
    exists l, parent_list s cn l /\ (forall x, x ∈ l <-> edge s x c)
              /\ n_parents cn = Z.of_nat (length l);
  hk_kept : forall p n x, node_at s p = Some n -> x ∈ kept busy p n ->
    is_Some (real_node s x);
  hk_held : forall x, x ∈ held -> is_Some (real_node s x);
  hk_refs : forall c cn, node_at s c = Some cn ->
    n_parents cn + kept_in busy s c + occurrences c held <= n_refs cn;
  hk_unique : forall p n, node_at s p = Some n -> (n_unique n = true <-> in_table s p);
  hk_bucket : forall b chain p, ut_chains s !! b = Some chain -> p ∈ chain ->
    exists h, raw_hash s p = Some h /\ b = bucket_of (ut_size s) h;
  hk_chains : forall b chain, ut_chains s !! b = Some chain -> NoDup chain
}.

(** The part of a node that a release leaves alone in the nodes that stay:
    everything but the counts, the parent links and the binding of a
    parameter. *)
Definition core (n : BtorNode) : BtorNode :=
  wr_refs 0 (wr_lambda_exp 0 (wr_parents 0 (wr_first_parent 0 (wr_last_parent 0
    (wr_prev_parent null3 (wr_next_parent null3 n)))))).

(** [s'] is [s] after releases: the nodes that are left were there, with
    the same core and no more references, and so were the nodes that are
    left in the unique table. *)
Record shrinks (s s' : Btor) : Prop := {
  sh_length : length (nodes_id_table s') = length (nodes_id_table s);
  sh_nodes : forall x n', node_at s' x = Some n' ->
    exists n, node_at s x = Some n /\ core n' = core n /\ n_refs n' <= n_refs n;
  sh_table : forall p, in_table s' p -> in_table s p
}.

(** The same while the node at [cur] is taken apart: no promise is made
    for its fields. *)
Record shrinks_but (cur : Z) (s s' : Btor) : Prop := {
  sb_length : length (nodes_id_table s') = length (nodes_id_table s);
  sb_live : forall x, is_Some (node_at s' x) -> is_Some (node_at s x);
  sb_nodes : forall x n', x <> cur -> node_at s' x = Some n' ->
    exists n, node_at s x = Some n /\ core n' = core n /\ n_refs n' <= n_refs n;
  sb_table : forall p, in_table s' p -> in_table s p
}.

(** Two states with the same side tables. *)
Definition same_side (s s' : Btor) : Prop :=
  s' = wb_ut_chains (ut_chains s')
         (wb_ut_num_elements (ut_num_elements s')
            (wb_nodes_id_table (nodes_id_table s') s)).

(** The state after the slot of the node at [p] has been cleared. *)
Definition free_node (s : Btor) (p : Z) : Btor :=
  wb_nodes_id_table (<[id_of_ptr p := None]> (nodes_id_table s)) s.

(** The releases that [erase_local_data_exp] makes for the node [old]. *)
Definition erase_releases (release : Btor -> Z -> option Btor) (s : Btor)
    (old : BtorNode) : option Btor :=
  match n_kind old, n_static_rho old with
  | BTOR_LAMBDA_NODE, Some entries => release_static_rho release s entries
  | _, _ => Some s
  end.

(** The fields that [erase_local_data_exp] clears, for the node [old] as
    it is read at the start. *)
Definition erase_fields (old : BtorNode) (free_sort : bool) (n : BtorNode) : BtorNode :=
  let n :=
    match n_kind old with
    | BTOR_BV_CONST_NODE => wr_invbits None (wr_bits None n)
    | BTOR_LAMBDA_NODE =>
        wr_rho None
          (match n_static_rho old with Some _ => wr_static_rho None n | None => n end)
    | BTOR_UPDATE_NODE | BTOR_UF_NODE => wr_rho None n
    | BTOR_COND_NODE => if btor_is_fun_cond_node_n old then wr_rho None n else n
    | _ => n
    end in
  let n := if free_sort then wr_sort_id None n else n in
  wr_erased true (wr_av None n).

(** The handles of a list, released one after the other. *)
Fixpoint release_each (release : Btor -> Z -> option Btor) (s : Btor)
    (handles : list Z) : option Btor :=
  match handles with
  | [] => Some s
  | x :: handles => s ← release s x; release_each release s handles
  end.

(** The number of live nodes outside [busy] that own a static_rho. *)
Definition rho_count (busy : list Z) (s : Btor) : Z :=
  over_slots (fun p n => if bool_decide (p ∈ busy) then 0
                         else match n_static_rho n with Some _ => 1 | None => 0 end) s.

(** ** The sweep of a release, step by step *)

(** What the sweep pushes for a node that it frees, top first. *)
Definition pushed (n : BtorNode) : list Z :=
  (if n_simplified n =? 0 then [] else [n_simplified n]) ++ children n.

(** The node at [cur] is no longer forwarded and has left the unique
    table; nothing else has changed. *)
Record unhooks (s : Btor) (cur : Z) (s' : Btor) : Prop := {
  uh_cur : node_at s' cur
           = (fun n => wr_unique false (wr_simplified 0 n)) <$> node_at s cur;
  uh_nodes : forall x, x <> cur -> node_at s' x = node_at s x;
  uh_length : length (nodes_id_table s') = length (nodes_id_table s);
  uh_table : forall p, in_table s' p <-> in_table s p /\ p <> cur;
  uh_side : same_side s s'
}.

(** The node at [cur], of kind [k], is in no side table. *)
Definition out_of_side_tables (k : BtorNodeKind) (s : Btor) (cur : Z) : Prop :=
  (k = BTOR_BV_VAR_NODE -> cur ∉ bv_vars s)
  /\ (k = BTOR_LAMBDA_NODE -> lambdas s !! cur = None)
  /\ (k = BTOR_UF_NODE -> cur ∉ ufs s)
  /\ (k = BTOR_FUN_EQ_NODE -> feqs s !! cur = None)
  /\ parameterized s !! cur = None
  /\ node2symbol s !! cur = None.

(** The node [n] at [cur] is gone: it is in no side table, its slot is
    free, and every other node is as it was but for the edges from [cur],
    which its parent count no longer covers. *)
Record drops (s : Btor) (cur : Z) (n : BtorNode) (s' : Btor) : Prop := {
  dr_gone : node_at s' cur = None;
  dr_length : length (nodes_id_table s') = length (nodes_id_table s);
  dr_apart : forall x, x <> cur -> fld apart s' x = fld apart s x;
  dr_e : forall x, x <> cur -> fld n_e s' x = fld n_e s x;
  dr_parents : forall x, x <> cur ->
    fld n_parents s' x = (fun v => v - occurrences x (children n)) <$> fld n_parents s x;
  dr_chains : ut_chains s' = ut_chains s;
  dr_side : out_of_side_tables (n_kind n) s' cur
}.

(** The sweep of [recursively_release_exp] from the state [s] with the
    work stack [stack], top first, to the state in which the stack is
    empty.  A node with another reference loses one; a node without is
    taken out of the unique table, the handles of the static_rho of a
    lambda are released, each by a sweep of its own, the node is dropped,
    and the sweep goes on with the target of its forwarding and its
    children on the stack. *)
Inductive sweep : Btor -> list Z -> Btor -> Prop :=
| sweep_done : forall s, sweep s [] s
| sweep_shared : forall s top stack n s',
    real_node s top = Some n -> 1 < n_refs n ->
    sweep (store_node s (BTOR_REAL_ADDR_NODE top) (wr_refs (n_refs n - 1) n)) stack s' ->
    sweep s (top :: stack) s'
| sweep_last : forall s top stack n s2 s3 s4 s',
    real_node s top = Some n -> n_refs n = 1 -> n_parents n = 0 ->
    unhooks s (BTOR_REAL_ADDR_NODE top) s2 ->
    sweep s2 (if is_kind BTOR_LAMBDA_NODE n then rho_handles (n_static_rho n) else []) s3 ->
    drops s3 (BTOR_REAL_ADDR_NODE top) n s4 ->
    sweep s4 (pushed n ++ stack) s' ->
    sweep s (top :: stack) s'.

(** ** The nodes that the handles of the caller keep alive *)

(** The node at [p] owns a reference to the node at [x]: [x] is a child of
    [p], the target of its forwarding or an entry of its static_rho. *)
Definition owns (busy : list Z) (s : Btor) (p x : Z) : Prop :=
  exists n, node_at s p = Some n
    /\ ((exists i, get3 (n_e n) i <> 0 /\ BTOR_REAL_ADDR_NODE (get3 (n_e n) i) = x)
        \/ exists r, r ∈ kept busy p n /\ BTOR_REAL_ADDR_NODE r = x).

(** The handles [held] keep the node at [x] alive: one of them is a handle
    of [x], or a node that they keep alive owns a reference to [x]. *)
Inductive anchored (busy : list Z) (s : Btor) (held : list Z) : Z -> Prop :=
| anchored_held : forall x, 1 <= occurrences x held -> anchored busy s held x
| anchored_owned : forall p x,
    owns busy s p x -> anchored busy s held p -> anchored busy s held x.

(** [release] releases a handle of a well-formed heap in which fewer than
    [depth] nodes own a static_rho, with [fuel] steps for a sweep; the
    handles that stay held keep the busy nodes alive. *)
Definition releases_ok (depth : Z) (fuel : nat)
    (release : Btor -> Z -> option Btor) : Prop :=
  forall busy held s x,
    heap_ok busy (x :: held) s ->
    (forall b, b ∈ busy -> anchored busy s held b) ->
    rho_count busy s < depth -> 4 * live_count s < Z.of_nat fuel ->
    exists s', release s x = Some s' /\ heap_ok busy held s' /\ shrinks s s'
               /\ sweep s [x] s'.

(** ** The invariant of the heap, decided *)

(** A test on the live nodes and their pointers. *)
Definition all_slots (P : Z -> BtorNode -> bool) (s : Btor) : bool :=
  forallb (fun i => match node_at s (ptr_of_id i) with
                    | Some n => P (ptr_of_id i) n
                    | None => true
                    end) (seq 0 (length (nodes_id_table s))).

Fixpoint chainb (s : Btor) (prev : Z) (l : list Z) : bool :=
  match l with
  | [] => true
  | x :: rest =>
      (btor_exp_get_tag x <? 3)%nat
      && bool_decide (prev_link s x = Some prev)
      && bool_decide (next_link s x = Some (hd 0 rest))
      && chainb s x rest
  end.

Definition parent_listb (s : Btor) (c : BtorNode) (l : list Z) : bool :=
  (n_first_parent c =? hd 0 l) && (n_last_parent c =? List.last l 0)
  && chainb s 0 l && bool_decide (NoDup l).

Definition edgeb (s : Btor) (link c : Z) : bool :=
  match real_node s link with
  | Some pn =>
      negb (get3 (n_e pn) (btor_exp_get_tag link) =? 0)
      && (BTOR_REAL_ADDR_NODE (get3 (n_e pn) (btor_exp_get_tag link)) =? c)
  | None => false
  end.

(** The parent list of the node [cn] at [c], read along its links, holds
    the edges to [c] and nothing else. *)
Definition parents_okb (s : Btor) (c : Z) (cn : BtorNode) : bool :=
  match walk_parents (3 * length (nodes_id_table s) + 1) s (n_first_parent cn) with
  | Some l =>
      parent_listb s cn l
      && forallb (fun x => edgeb s x c) l
      && all_slots (fun p n =>
           forallb (fun i =>
             implb (edgeb s (BTOR_TAG_NODE p i) c) (bool_decide (BTOR_TAG_NODE p i ∈ l)))
             (seq 0 3)) s
      && (n_parents cn =? Z.of_nat (length l))
  | None => false
  end.

Definition node_okb (busy held : list Z) (s : Btor) (p : Z) (n : BtorNode) : bool :=
  (n_arity n <=? 3)%nat
  && forallb (fun i => implb (n_arity n <=? i)%nat (get3 (n_e n) i =? 0)) (seq 0 3)
  && forallb (fun i => (get3 (n_e n) i =? 0)
                       || bool_decide (is_Some (real_node s (get3 (n_e n) i)))) (seq 0 3)
  && (bool_decide (p ∈ busy)
      || forallb (fun i => implb (i <? n_arity n)%nat (negb (get3 (n_e n) i =? 0)))
           (seq 0 3))
  && parents_okb s p n
  && forallb (fun x => bool_decide (is_Some (real_node s x))) (kept busy p n)
  && (n_parents n + kept_in busy s p + occurrences p held <=? n_refs n)
  && eqb (n_unique n) (in_tableb s p).

(** [heap_ok], decided. *)
Definition heap_okb (busy held : list Z) (s : Btor) : bool :=
  all_slots (node_okb busy held s) s
  && forallb (fun x => bool_decide (is_Some (real_node s x))) held
  && forallb (fun entry : nat * Z =>
                match raw_hash s (snd entry) with
                | Some h => bool_decide (fst entry = bucket_of (ut_size s) h)
                | None => false
                end) (table_entries s)
  && forallb (fun chain => bool_decide (NoDup chain)) (ut_chains s).

(** [owns] and [anchored], decided: the ownership is followed back for at
    most [fuel] steps. *)
Definition ownsb (busy : list Z) (s : Btor) (p x : Z) : bool :=
  match node_at s p with
  | Some n =>
      existsb (fun i => negb (get3 (n_e n) i =? 0)
                        && (BTOR_REAL_ADDR_NODE (get3 (n_e n) i) =? x)) (seq 0 3)
      || existsb (fun r => BTOR_REAL_ADDR_NODE r =? x) (kept busy p n)
  | None => false
  end.

Fixpoint anchoredb (fuel : nat) (busy : list Z) (s : Btor) (held : list Z) (x : Z) : bool :=
  (1 <=? occurrences x held)
  || match fuel with
     | O => false
     | S fuel =>
         existsb (fun i => ownsb busy s (ptr_of_id i) x
                           && anchoredb fuel busy s held (ptr_of_id i))
           (seq 0 (length (nodes_id_table s)))
     end.

(** ** Chains of static_rho tables *)

(** The static_rho tables chain [k] lambdas from [l] on: each is a lambda
    with no reference besides the one that is released, and the value of
    the first entry of its static_rho is the next. *)
Inductive rho_linked (s : Btor) : nat -> Z -> Prop :=
| rho_linked_end : forall l, rho_linked s 0 l
| rho_linked_step : forall k l n key data rest,
    node_at s (BTOR_REAL_ADDR_NODE l) = Some n -> n_refs n <= 1 ->
    n_kind n = BTOR_LAMBDA_NODE -> n_static_rho n = Some ((key, data) :: rest) ->
    rho_linked s k data -> rho_linked s (S k) l.

Fixpoint rho_linkedb (s : Btor) (k : nat) (l : Z) : bool :=
  match k with
  | O => true
  | S k =>
      match node_at s (BTOR_REAL_ADDR_NODE l) with
      | Some n =>
          (n_refs n <=? 1) && is_kind BTOR_LAMBDA_NODE n
          && match n_static_rho n with
             | Some ((_, data) :: _) => rho_linkedb s k data
             | _ => false
             end
      | None => false
      end
  end.

(** ** Proxies *)

(** The header that [btor_set_to_proxy_exp] leaves in the node. *)
Definition proxy_node (n : BtorNode) : BtorNode :=
  wr_parameterized false
    (wr_arity 0%nat
       (wr_erased false (wr_disconnected false (set_kind BTOR_PROXY_NODE n)))).

(** The node [n] at [cur] is taken apart but not freed: its local data is
    erased but for its sort, it is in none of the tables of its kind, its
    child slots are null, and every other node is as it was but for the
    edges from [cur], which its parent count no longer covers.  The symbol
    of the node stays. *)
Record detaches (s : Btor) (cur : Z) (n : BtorNode) (s' : Btor) : Prop := {
  dt_cur : exists m m', node_at s cur = Some m /\ node_at s' cur = Some m'
             /\ apart m' = apart (wr_disconnected true (erase_fields n false m))
             /\ forall j, get3 (n_e m') j = 0;
  dt_length : length (nodes_id_table s') = length (nodes_id_table s);
  dt_apart : forall x, x <> cur -> fld apart s' x = fld apart s x;
  dt_e : forall x, x <> cur -> fld n_e s' x = fld n_e s x;
  dt_parents : forall x, x <> cur ->
    fld n_parents s' x = (fun v => v - occurrences x (children n)) <$> fld n_parents s x;
  dt_chains : ut_chains s' = ut_chains s;
  dt_tables : (n_kind n = BTOR_BV_VAR_NODE -> cur ∉ bv_vars s')
              /\ (n_kind n = BTOR_LAMBDA_NODE -> lambdas s' !! cur = None)
              /\ (n_kind n = BTOR_UF_NODE -> cur ∉ ufs s')
              /\ (n_kind n = BTOR_FUN_EQ_NODE -> feqs s' !! cur = None)
              /\ parameterized s' !! cur = None;
  dt_symbol : node2symbol s' = node2symbol s /\ symbols s' = symbols s
}.

(** ** Orders and hashes by id *)

(** The ids are [int]s; a signed overflow is undefined in C and a fault of
    the model. *)
Definition INT_MIN : Z := - INT_MAX - 1.
Definition int_sub (a b : Z) : option Z :=
  let r := a - b in
  if (INT_MIN <=? r) && (r <=? INT_MAX) then Some r else None.

(** [btor_compare_exp_by_id]: the ids are those of [btor_exp_get_id],
    negative on inverted handles. *)
Definition btor_compare_exp_by_id (s : Btor) (exp0 exp1 : Z) : option Z :=
  id0 ← btor_exp_get_id s exp0;
  id1 ← btor_exp_get_id s exp1;
  Some (if id0 <? id1 then -1 else if id1 <? id0 then 1 else 0).

(** The [qsort] orders read the ids of the real nodes. *)
Definition btor_compare_exp_by_id_qsort_desc (s : Btor) (p q : Z) : option Z :=
  a ← real_node s p; b ← real_node s q; int_sub (n_id b) (n_id a).

Definition btor_compare_exp_by_id_qsort_asc (s : Btor) (p q : Z) : option Z :=
  a ← real_node s p; b ← real_node s q; int_sub (n_id a) (n_id b).

Definition btor_hash_exp_by_id (s : Btor) (exp : Z) : option Z :=
  id ← btor_exp_get_id s exp; Some (u32 (u32 id * 7334147)).

(** ** Pairs of expressions *)

Record BtorNodePair := mkPair { pair_exp1 : Z; pair_exp2 : Z }.

(** [btor_new_exp_pair]: the handle of the smaller id comes first; the pair
    owns a reference to each. *)
Definition btor_new_exp_pair (s : Btor) (exp1 exp2 : Z) : option (Btor * BtorNodePair) :=
  id1 ← btor_exp_get_id s exp1;
  id2 ← btor_exp_get_id s exp2;
  if id2 <? id1 then
    '(s, e1) ← btor_copy_exp s exp2;
    '(s, e2) ← btor_copy_exp s exp1;
    Some (s, mkPair e1 e2)
  else
    '(s, e1) ← btor_copy_exp s exp1;
    '(s, e2) ← btor_copy_exp s exp2;
    Some (s, mkPair e1 e2).

Definition btor_delete_exp_pair (s : Btor) (pair : BtorNodePair) : option Btor :=
  s ← btor_release_exp s (pair_exp1 pair);
  btor_release_exp s (pair_exp2 pair).

Definition btor_hash_exp_pair (s : Btor) (pair : BtorNodePair) : option Z :=
  n1 ← real_node s (pair_exp1 pair);
  n2 ← real_node s (pair_exp2 pair);
  Some (u32 (u32 (u32 (n_id n1) + u32 (n_id n2)) * 7334147)).

Definition btor_compare_exp_pair (s : Btor) (pair1 pair2 : BtorNodePair) : option Z :=
  a1 ← btor_exp_get_id s (pair_exp1 pair1);
  b1 ← btor_exp_get_id s (pair_exp1 pair2);
  result ← int_sub a1 b1;
  if negb (result =? 0) then Some result
  else
    a2 ← btor_exp_get_id s (pair_exp2 pair1);
    b2 ← btor_exp_get_id s (pair_exp2 pair2);
    int_sub a2 b2.

(** ** Ids and slots *)

(** A handle: a node pointer with at most the inversion tag. *)
Definition is_handle (h : Z) : Prop := Z.testbit h 1 = false.

(** Every live node carries the index of its slot as its id, which
    [setup_node_and_add_to_id_table] gives it. *)
Definition ids_ok (s : Btor) : Prop :=
  forall p n, node_at s p = Some n -> n_id n = Z.of_nat (id_of_ptr p).

Definition ids_okb (s : Btor) : bool :=
  all_slots (fun p n => n_id n =? Z.of_nat (id_of_ptr p)) s.

(** ** Names across a release *)

(** The names and the live nodes of two states are the same. *)
Definition same_names (s s' : Btor) : Prop :=
  symbols s' = symbols s /\ node2symbol s' = node2symbol s
  /\ forall x, is_Some (node_at s' x) <-> is_Some (node_at s x).

(** Only live nodes have a name. *)
Definition names_live (s : Btor) : Prop :=
  forall x, node_at s x = None -> node2symbol s !! x = None.

Definition names_liveb (s : Btor) : bool :=
  forallb (fun entry : Z * string => bool_decide (is_Some (node_at s (fst entry))))
    (map_to_list (node2symbol s)).

(** [s'] is [s] after releases, as far as names go: no name is added and
    no node comes to life; a node that has lost its name has lost it in
    both maps, unless the name is empty. *)
Record names_shrink (s s' : Btor) : Prop := {
  ns_symbols : forall sym x, symbols s' !! sym = Some x -> symbols s !! sym = Some x;
  ns_nodes : forall x sym, node2symbol s' !! x = Some sym -> node2symbol s !! x = Some sym;
  ns_empty : symbols s' !! EmptyString = symbols s !! EmptyString;
  ns_dropped : forall x sym, node2symbol s !! x = Some sym -> node2symbol s' !! x = None ->
    sym <> EmptyString -> symbols s' !! sym = None;
  ns_dead : forall x, node_at s x = None -> node_at s' x = None;
  ns_live : names_live s -> names_live s'
}.

(** ** Constants of a sort *)

(** Modelled from the spec: the constructors of bit-vector values of the
    absent btorbv.c (section 4.2): the value zero, the value of all ones
    and the value one of a width, and the update of one bit. *)
Definition btor_new_bv (width : Z) : BtorBitVector := mkBV width 0.
Definition btor_ones_bv (width : Z) : BtorBitVector := mkBV width (Z.ones width).
Definition btor_one_bv (width : Z) : BtorBitVector := mkBV width 1.
Definition btor_set_bit_bv (bv : BtorBitVector) (pos : Z) (bit : bool) : BtorBitVector :=
  mkBV (bv_width bv)
    (if bit then Z.setbit (bv_bits bv) pos else Z.clearbit (bv_bits bv) pos).

Definition int_min_exp (s : Btor) (width : Z) : option (Btor * Z) :=
  btor_const_exp s (btor_set_bit_bv (btor_new_bv width) (width - 1) true).

Definition btor_zero_exp (s : Btor) (sort : BtorSortId) : option (Btor * Z) :=
  width ← btor_get_width_bitvec_sort sort;
  btor_const_exp s (btor_new_bv width).

Definition btor_ones_exp (s : Btor) (sort : BtorSortId) : option (Btor * Z) :=
  width ← btor_get_width_bitvec_sort sort;
  btor_const_exp s (btor_ones_bv width).

Definition btor_one_exp (s : Btor) (sort : BtorSortId) : option (Btor * Z) :=
  width ← btor_get_width_bitvec_sort sort;
  btor_const_exp s (btor_one_bv width).

Definition btor_true_exp (s : Btor) : option (Btor * Z) :=
  btor_one_exp s (btor_bitvec_sort 1).

Definition btor_false_exp (s : Btor) : option (Btor * Z) :=
  btor_zero_exp s (btor_bitvec_sort 1).

(** ** The static_rho of a lambda *)

(** [btor_lambda_get_static_rho] and [btor_lambda_set_static_rho]. *)
Definition btor_lambda_get_static_rho (s : Btor) (lambda : Z) : option (option (list (Z * Z))) :=
  n ← node_at s lambda; Some (n_static_rho n).

Definition btor_lambda_set_static_rho (s : Btor) (lambda : Z)
    (static_rho : option (list (Z * Z))) : option Btor :=
  upd_node s lambda (wr_static_rho static_rho).

(** The loop of [btor_lambda_copy_static_rho]: the value and the key of
    every entry are copied. *)
Fixpoint copy_static_rho (s : Btor) (entries : list (Z * Z)) : option Btor :=
  match entries with
  | [] => Some s
  | (key, data) :: entries =>
      '(s, _) ← btor_copy_exp s data;
      '(s, _) ← btor_copy_exp s key;
      copy_static_rho s entries
  end.

(** [btor_lambda_copy_static_rho]: a new table with the same entries; the
    lambda must have a static_rho. *)
Definition btor_lambda_copy_static_rho (s : Btor) (lambda : Z)
  : option (Btor * list (Z * Z)) :=
  n ← node_at s lambda;
  entries ← n_static_rho n;
  s ← copy_static_rho s entries;
  Some (s, entries).

(** [btor_lambda_delete_static_rho]. *)
Definition btor_lambda_delete_static_rho (s : Btor) (lambda : Z) : option Btor :=
  n ← node_at s lambda;
  match n_static_rho n with
  | None => Some s
  | Some entries =>
      s ← release_static_rho btor_release_exp s entries;
      btor_lambda_set_static_rho s lambda None
  end.

(** The handles of [hs], each with one more reference. *)
Fixpoint inc_each (s : Btor) (hs : list Z) : option Btor :=
  match hs with
  | [] => Some s
  | h :: hs => s ← inc_exp_ref_counter s h; inc_each s hs
  end.

(** ** Binary operators *)

(** The kinds of the binary bit-vector operators that [new_node] allocates
    and that [find_bv_exp] looks up by their kind and children alone. *)
Definition binary_bv_kind (k : BtorNodeKind) : bool :=
  match k with
  | BTOR_AND_NODE | BTOR_ADD_NODE | BTOR_MUL_NODE | BTOR_ULT_NODE
  | BTOR_SLL_NODE | BTOR_SRL_NODE | BTOR_UDIV_NODE | BTOR_UREM_NODE
  | BTOR_CONCAT_NODE => true
  | _ => false
  end.

(** The node that [new_node] has stored in the id table when it starts to
    connect the children. *)
Definition new_bv_node (s : Btor) (kind : BtorNodeKind) (e : list Z)
    (sort : BtorSortId) : BtorNode :=
  wr_sort_id sort
    (wr_id (count_id_table s)
       (wr_refs 1 (wr_arity (length e) (set_kind kind calloc_node)))).

End ExpressionCore.

(** * Example runs

    States reached from [btor_new_btor] through the functions above, with a
    concrete hash of bit-vector values. *)

Definition example_hash_bv (bv : BtorBitVector) : Z := bv_bits bv + 7 * bv_width bv.

(** The state and the handle of a run; the initial state and null where the
    run faults. *)
Definition run_state (r : option (Btor * Z)) : Btor :=
  match r with Some (s, _) => s | None => btor_new_btor end.
Definition run_handle (r : option (Btor * Z)) : Z :=
  match r with Some (_, p) => p | None => 0 end.
Definition run_unit (r : option Btor) : Btor :=
  match r with Some s => s | None => btor_new_btor end.

(** One variable [x] of width 8, with symbol [x]: node 1. *)
Definition example_x : Btor :=
  run_state (btor_var_exp btor_new_btor (btor_bitvec_sort 8) (Some "x"%string)).
Definition x_ptr : Z := ptr_of_id 1.

(** [x] released: slot 1 is freed. *)
Definition example_x_released : Btor :=
  run_unit (btor_release_exp example_hash_bv example_x x_ptr).

(** Two variables [x] and [y] of width 8: nodes 1 and 2. *)
Definition example_xy : Btor :=
  run_state (btor_var_exp example_x (btor_bitvec_sort 8) (Some "y"%string)).
Definition y_ptr : Z := ptr_of_id 2.


(** [x], [y] and a fresh [and] node, node 3, that has no children yet. *)
Definition example_and_unconnected : Btor :=
  run_state (setup_node_and_add_to_id_table example_xy
               (wr_arity 2%nat (set_kind BTOR_AND_NODE calloc_node))).
Definition and_ptr : Z := ptr_of_id 3.

(** The [and] node with [x] connected as its first child. *)
Definition example_and_x : Btor :=
  run_unit (connect_child_exp example_and_unconnected and_ptr x_ptr 0).

(** The node stored at a pointer, for a pointer that is live. *)
Definition node_of (s : Btor) (p : Z) : BtorNode :=
  match node_at s p with Some n => n | None => calloc_node end.

(** [k] more variables of width 8. *)
Fixpoint declare_vars (k : nat) (s : Btor) : Btor :=
  match k with
  | O => s
  | S k => declare_vars k (run_state (btor_var_exp s (btor_bitvec_sort 8) None))
  end.

(** Seven variables, nodes 1 to 7, and their handles. *)
Definition example_vars7 : Btor := declare_vars 7 btor_new_btor.
Definition vars7 : list Z := map (fun i => ptr_of_id i) (seq 1 7).

(** The equality of [x] and [y]: node 3, linked in the unique table. *)
Definition example_eq : Btor :=
  run_state (btor_eq_exp_node example_hash_bv example_xy x_ptr y_ptr).
Definition eq_ptr : Z := ptr_of_id 3.

(** The value [0b10101010] of width 8. *)
Definition example_bits : BtorBitVector := mkBV 8 170.

(** The equality rewritten to [x]: the forwarding owns a reference to [x]. *)
Definition example_eq_forwarded : Btor :=
  run_unit (s ← inc_exp_ref_counter example_eq x_ptr;
            upd_node s eq_ptr (wr_simplified x_ptr)).

(** The variable [x] and its slice [x[3:0]]: node 2, linked in the unique
    table. *)
Definition example_slice : Btor :=
  run_state (btor_slice_exp_node example_hash_bv example_x x_ptr 3 0).
Definition slice_ptr : Z := ptr_of_id 2.

(** [x], [y] and the conjunction of [x] and its complement: node 3. *)
Definition example_and_not : Btor :=
  run_state (btor_and_exp_node example_hash_bv example_xy x_ptr (BTOR_INVERT_NODE x_ptr)).

(** One variable of width 8 whose symbol is the empty string: node 1. *)
Definition example_anonymous : Btor :=
  run_state (btor_var_exp btor_new_btor (btor_bitvec_sort 8) (Some ""%string)).

(** [x], [y], a parameter [p] (node 3), the body [p & x] (node 4) and the
    lambda of [p] and that body (node 5), which is closed. *)
Definition example_lambda : Btor :=
  let r1 := btor_param_exp example_xy (btor_bitvec_sort 8) None in
  let r2 := btor_and_exp_node example_hash_bv (run_state r1) (run_handle r1) x_ptr in
  run_state (btor_lambda_exp_node example_hash_bv (run_state r2)
               (run_handle r1) (run_handle r2)).

(** After [example_lambda], a second parameter [q] (node 6) and the body
    [q & x] (node 7): the body of the first lambda with [p] renamed. *)
Definition example_variant : Btor :=
  let r1 := btor_param_exp example_lambda (btor_bitvec_sort 8) None in
  run_state (btor_and_exp_node example_hash_bv (run_state r1) (run_handle r1) x_ptr).

(** The lookup of the lambda of [q] and [q & x] in [example_variant]. *)
Definition example_variant_lookup : lookup * Z * option (gset Z) :=
  match find_lambda_exp example_variant (ptr_of_id 6) (ptr_of_id 7) (Some ∅) true with
  | Some r => r
  | None => (mkLookup 0 0, 0, None)
  end.

(** After [example_lambda], a second parameter [q] (node 6), the body
    [q & y] (node 7) and its lambda (node 8); the first lambda has the
    static_rho that maps [x] to [y]. *)
Definition example_two_lambdas : Btor :=
  let r1 := btor_param_exp example_lambda (btor_bitvec_sort 8) None in
  let r2 := btor_and_exp_node example_hash_bv (run_state r1) (run_handle r1) y_ptr in
  let r3 := btor_lambda_exp_node example_hash_bv (run_state r2)
              (run_handle r1) (run_handle r2) in
  run_unit (s ← inc_exp_ref_counter (run_state r3) y_ptr;
            s ← inc_exp_ref_counter s x_ptr;
            btor_lambda_set_static_rho s (ptr_of_id 5) (Some [(x_ptr, y_ptr)])).

(** Two parameters [p] and [q] (nodes 1 and 2), the body [p & q] (node 3)
    and the lambda of [p] and that body (node 4), in which [q] is free;
    then a parameter [r] (node 5) and the body [r & q] (node 6). *)
Definition example_open : Btor :=
  let r1 := btor_param_exp btor_new_btor (btor_bitvec_sort 8) None in
  let r2 := btor_param_exp (run_state r1) (btor_bitvec_sort 8) None in
  let r3 := btor_and_exp_node example_hash_bv (run_state r2)
              (run_handle r1) (run_handle r2) in
  let r4 := btor_lambda_exp_node example_hash_bv (run_state r3)
              (run_handle r1) (run_handle r3) in
  let r5 := btor_param_exp (run_state r4) (btor_bitvec_sort 8) None in
  run_state (btor_and_exp_node example_hash_bv (run_state r5) (run_handle r5) (run_handle r2)).

(** After [example_eq], a variable [z] of width 1 (node 4) and the
    conjunction of the equality and [z] (node 5); the caller has released
    its handle of the equality, which only its parent keeps alive, and the
    equality is rewritten to [z]: the forwarding owns a reference to [z]. *)
Definition z_ptr : Z := ptr_of_id 4.
Definition example_eq_in_parent : Btor :=
  let r1 := btor_var_exp example_eq (btor_bitvec_sort 1) (Some "z"%string) in
  let r2 := btor_and_exp_node example_hash_bv (run_state r1) eq_ptr z_ptr in
  run_unit (s ← btor_release_exp example_hash_bv (run_state r2) eq_ptr;
            s ← inc_exp_ref_counter s z_ptr;
            upd_node s eq_ptr (wr_simplified z_ptr)).

(** A closed lambda [λp. p & v] of a new parameter [p] and a new variable
    [v]; the caller keeps the handle of the lambda only. *)
Definition new_lambda (s : Btor) : option (Btor * Z) :=
  '(s, v) ← btor_var_exp s (btor_bitvec_sort 8) None;
  '(s, p) ← btor_param_exp s (btor_bitvec_sort 8) None;
  '(s, b) ← btor_and_exp_node example_hash_bv s p v;
  '(s, l) ← btor_lambda_exp_node example_hash_bv s p b;
  s ← btor_release_exp example_hash_bv s b;
  s ← btor_release_exp example_hash_bv s p;
  s ← btor_release_exp example_hash_bv s v;
  Some (s, l).

(** A chain of [S k] such lambdas over [example_x]: the static_rho of each
    but the last maps [x] to the next lambda and holds the only reference
    to it.  The result is the state and the handle of the first lambda,
    the only one that the caller holds. *)
Fixpoint rho_chain (k : nat) : option (Btor * Z) :=
  match k with
  | O => new_lambda example_x
  | S k =>
      '(s, next) ← rho_chain k;
      '(s, l) ← new_lambda s;
      '(s, key) ← btor_copy_exp s x_ptr;
      s ← btor_lambda_set_static_rho s l (Some [(key, next)]);
      Some (s, l)
  end.

(** The release of the first lambda of the chain with a nesting of at most
    [depth] calls of [btor_release_exp]. *)
Definition release_rho_chain (k depth : nat) : option Btor :=
  let s := run_state (rho_chain k) in
  btor_release_exp_rec example_hash_bv depth (release_fuel s) s (run_handle (rho_chain k)).

(** The body [(~(p * x) + y) & ((p * x) / y)] over a new parameter [p]: the
    product, then the sum and the quotient, in the order that [sum_first]
    tells, then their conjunction.  The result is the state, the parameter
    and the body. *)
Definition build_body (sum_first : bool) (s : Btor) : option (Btor * Z * Z) :=
  '(s, p) ← btor_param_exp s (btor_bitvec_sort 8) None;
  '(s, n) ← btor_mul_exp_node example_hash_bv s p x_ptr;
  '(s, a, b) ←
    (if sum_first then
       '(s, a) ← btor_add_exp_node example_hash_bv s (BTOR_INVERT_NODE n) y_ptr;
       '(s, b) ← btor_udiv_exp_node example_hash_bv s n y_ptr;
       Some (s, a, b)
     else
       '(s, b) ← btor_udiv_exp_node example_hash_bv s n y_ptr;
       '(s, a) ← btor_add_exp_node example_hash_bv s (BTOR_INVERT_NODE n) y_ptr;
       Some (s, a, b));
  '(s, body) ← btor_and_exp_node example_hash_bv s a b;
  Some (s, p, body).

Definition body_state (r : option (Btor * Z * Z)) : Btor :=
  match r with Some (s, _, _) => s | None => btor_new_btor end.
Definition body_param (r : option (Btor * Z * Z)) : Z :=
  match r with Some (_, p, _) => p | None => 0 end.
Definition body_handle (r : option (Btor * Z * Z)) : Z :=
  match r with Some (_, _, b) => b | None => 0 end.

(** After [example_xy]: the body over the parameter [p1] (node 3), with the
    sum made first (nodes 4 to 7), and its lambda (node 8). *)
Definition example_alpha : option (Btor * Z) :=
  let r := build_body true example_xy in
  btor_lambda_exp_node example_hash_bv (body_state r) (body_param r) (body_handle r).

(** Then the body over a second parameter [p2] (node 9), with the quotient
    made first or with the sum made first (nodes 10 to 13). *)
Definition example_alpha_swapped : option (Btor * Z * Z) :=
  build_body false (run_state example_alpha).
Definition example_alpha_again : option (Btor * Z * Z) :=
  build_body true (run_state example_alpha).

(** * The command line of [synthebtor] ([src/synthebtor.c])

    The loop over [argv] at the start of [main].  The file system is a
    parameter: [can_read] and [can_write] say which names [fopen] opens
    with the modes r and w.  The state holds the local variables of [main]
    that the loop assigns and, oldest first, the files it has opened. *)

Module Synthebtor.

Record Main := mkMain {
  verbosity : Z;
  close_input : bool;
  close_output : bool;
  input_name : string;
  output_name : string;
  opened : list (string * string)
}.

(** The ways the loop leaves the program: [exit (0)] after the usage line,
    and [die] with a message on [stderr] and [exit (1)]. *)
Inductive Exit :=
  | ExitUsage
  | ExitDie (message : string).

Definition initial : Main :=
  mkMain 0 false false "<stdin>" "<stdout>" [].

(** [argv[i][0] == '-'] *)
Definition starts_with_dash (a : string) : bool := String.prefix "-" a.

Section Arguments.

Variable can_read can_write : string -> bool.

(** The body of the loop, over [argv[1]] to [argv[argc - 1]].  The counter
    [verbosity] is an [int]; it is incremented at most [argc - 1] times and
    [argc] is an [int], so that it does not overflow. *)
Fixpoint arguments (st : Main) (argv : list string) : Main * option Exit :=
  match argv with
  | [] => (st, None)
  | a :: argv =>
      if String.eqb a "-h" then (st, Some ExitUsage)
      else if String.eqb a "-v" then
        arguments (mkMain (verbosity st + 1) (close_input st) (close_output st)
                     (input_name st) (output_name st) (opened st)) argv
      else if starts_with_dash a then
        (st, Some (ExitDie (String.append "invalid command line option '"
                              (String.append a "'"))))
      else if close_output st then (st, Some (ExitDie "too many files"))
      else if close_input st then
        if String.eqb a (input_name st) then
          (st, Some (ExitDie "input and output are the same"))
        else if negb (can_write a) then
          (st, Some (ExitDie (String.append "can not write '" (String.append a "'"))))
        else
          arguments (mkMain (verbosity st) (close_input st) true
                       (input_name st) a (opened st ++ [(a, "w"%string)])) argv
      else if negb (can_read a) then
        (st, Some (ExitDie (String.append "can not read '" (String.append a "'"))))
      else
        arguments (mkMain (verbosity st) true (close_output st)
                     a (output_name st) (opened st ++ [(a, "r"%string)])) argv
  end.

End Arguments.

(** The files that are open in a state of the loop: none, the input, or
    the input and then the output, under different names. *)
Definition files_ok (st : Main) : Prop :=
  (close_input st = false /\ close_output st = false /\ opened st = []
   /\ input_name st = "<stdin>"%string /\ output_name st = "<stdout>"%string)
  \/ (close_input st = true /\ close_output st = false
      /\ opened st = [(input_name st, "r"%string)]
      /\ output_name st = "<stdout>"%string)
  \/ (close_input st = true /\ close_output st = true
      /\ opened st = [(input_name st, "r"%string); (output_name st, "w"%string)]
      /\ input_name st <> output_name st).

End Synthebtor.

(** * Properties *)

Section Properties.

Variable btor_hash_bv : BtorBitVector -> Z.

Local Abbreviation compute_hash_exp := (compute_hash_exp btor_hash_bv).
Local Abbreviation remove_from_nodes_unique_table_exp := (remove_from_nodes_unique_table_exp btor_hash_bv).
Local Abbreviation rehash_chain := (rehash_chain btor_hash_bv).
Local Abbreviation rehash_chains := (rehash_chains btor_hash_bv).
Local Abbreviation enlarge_nodes_unique_table := (enlarge_nodes_unique_table btor_hash_bv).
Local Abbreviation find_const_exp := (find_const_exp btor_hash_bv).
Local Abbreviation enlarge_if_full := (enlarge_if_full btor_hash_bv).
Local Abbreviation create_exp := (create_exp btor_hash_bv).
Local Abbreviation btor_const_exp := (btor_const_exp btor_hash_bv).
Local Abbreviation unary_exp_slice_exp := (unary_exp_slice_exp btor_hash_bv).
Local Abbreviation btor_slice_exp_node := (btor_slice_exp_node btor_hash_bv).
Local Abbreviation binary_exp_node := (binary_exp_node btor_hash_bv).
Local Abbreviation btor_and_exp_node := (btor_and_exp_node btor_hash_bv).
Local Abbreviation btor_add_exp_node := (btor_add_exp_node btor_hash_bv).
Local Abbreviation btor_mul_exp_node := (btor_mul_exp_node btor_hash_bv).
Local Abbreviation btor_ult_exp_node := (btor_ult_exp_node btor_hash_bv).
Local Abbreviation btor_sll_exp_node := (btor_sll_exp_node btor_hash_bv).
Local Abbreviation btor_srl_exp_node := (btor_srl_exp_node btor_hash_bv).
Local Abbreviation btor_udiv_exp_node := (btor_udiv_exp_node btor_hash_bv).
Local Abbreviation btor_urem_exp_node := (btor_urem_exp_node btor_hash_bv).
Local Abbreviation btor_concat_exp_node := (btor_concat_exp_node btor_hash_bv).
Local Abbreviation btor_lambda_exp_node := (btor_lambda_exp_node btor_hash_bv).
Local Abbreviation btor_eq_exp_node := (btor_eq_exp_node btor_hash_bv).
Local Abbreviation release_node := (release_node btor_hash_bv).
Local Abbreviation release_loop := (release_loop btor_hash_bv).
Local Abbreviation recursively_release_exp := (recursively_release_exp btor_hash_bv).
Local Abbreviation btor_release_exp_rec := (btor_release_exp_rec btor_hash_bv).
Local Abbreviation btor_release_exp := (btor_release_exp btor_hash_bv).
Local Abbreviation release_all := (release_all btor_hash_bv).
Local Abbreviation btor_set_to_proxy_exp := (btor_set_to_proxy_exp btor_hash_bv).
Local Abbreviation btor_args_loop := (btor_args_loop btor_hash_bv).
Local Abbreviation btor_args_exp := (btor_args_exp btor_hash_bv).
Local Abbreviation raw_hash := (raw_hash btor_hash_bv).
Local Abbreviation placed := (placed btor_hash_bv).
Local Abbreviation table_ok := (table_ok btor_hash_bv).
Local Abbreviation keyed := (keyed btor_hash_bv).
Local Abbreviation const_node := (const_node btor_hash_bv).
Local Abbreviation state_ok := (state_ok btor_hash_bv).
Local Abbreviation entry_okb := (entry_okb btor_hash_bv).
Local Abbreviation table_okb := (table_okb btor_hash_bv).
Local Abbreviation state_okb := (state_okb btor_hash_bv).
Local Abbreviation heap_ok := (heap_ok btor_hash_bv).
Local Abbreviation releases_ok := (releases_ok btor_hash_bv).
Local Abbreviation heap_okb := (heap_okb btor_hash_bv).
Local Abbreviation btor_delete_exp_pair := (btor_delete_exp_pair btor_hash_bv).
Local Abbreviation int_min_exp := (int_min_exp btor_hash_bv).
Local Abbreviation btor_zero_exp := (btor_zero_exp btor_hash_bv).
Local Abbreviation btor_ones_exp := (btor_ones_exp btor_hash_bv).
Local Abbreviation btor_one_exp := (btor_one_exp btor_hash_bv).
Local Abbreviation btor_true_exp := (btor_true_exp btor_hash_bv).
Local Abbreviation btor_false_exp := (btor_false_exp btor_hash_bv).
Local Abbreviation btor_lambda_delete_static_rho := (btor_lambda_delete_static_rho btor_hash_bv).
Local Abbreviation tk_nonempty := (tk_nonempty btor_hash_bv).
Local Abbreviation tk_live := (tk_live btor_hash_bv).
Local Abbreviation tk_terminal := (tk_terminal btor_hash_bv).
Local Abbreviation tk_const := (tk_const btor_hash_bv).
Local Abbreviation tk_bucket := (tk_bucket btor_hash_bv).
Local Abbreviation tk_canon := (tk_canon btor_hash_bv).
Local Abbreviation so_table := (so_table btor_hash_bv).
Local Abbreviation so_links := (so_links btor_hash_bv).
Local Abbreviation so_refs := (so_refs btor_hash_bv).
Local Abbreviation so_count := (so_count btor_hash_bv).
Local Abbreviation hk_arity := (hk_arity btor_hash_bv).
Local Abbreviation hk_slots := (hk_slots btor_hash_bv).
Local Abbreviation hk_child := (hk_child btor_hash_bv).
Local Abbreviation hk_full := (hk_full btor_hash_bv).
Local Abbreviation hk_parents := (hk_parents btor_hash_bv).
Local Abbreviation hk_kept := (hk_kept btor_hash_bv).
Local Abbreviation hk_held := (hk_held btor_hash_bv).
Local Abbreviation hk_refs := (hk_refs btor_hash_bv).
Local Abbreviation hk_unique := (hk_unique btor_hash_bv).
Local Abbreviation hk_bucket := (hk_bucket btor_hash_bv).
Local Abbreviation hk_chains := (hk_chains btor_hash_bv).

(** * Proofs *)

(** ** Pointer arithmetic *)

Lemma testbit_ptr_of_id i k : Z.testbit (ptr_of_id i) k = (2 <=? k) && Z.testbit (Z.of_nat i) (k - 2).
Proof.
  unfold ptr_of_id. destruct (Z.leb_spec 2 k).
  - rewrite Z.shiftl_spec by lia. reflexivity.
  - destruct (Z.ltb_spec k 0).
    + rewrite !Z.testbit_neg_r by lia. reflexivity.
    + rewrite Z.shiftl_spec_low by lia. reflexivity.
Qed.

Lemma testbit_3 k : Z.testbit 3 k = (0 <=? k) && (k <? 2).
Proof.
  destruct (Z.ltb_spec k 0).
  - rewrite Z.testbit_neg_r by lia. destruct (Z.leb_spec 0 k); [lia | reflexivity].
  - destruct (Z.eq_dec k 0) as [-> | ?]; [reflexivity |].
    destruct (Z.eq_dec k 1) as [-> | ?]; [reflexivity |].
    change 3 with (Z.ones 2). rewrite Z.ones_spec_high by lia.
    destruct (Z.leb_spec 0 k), (Z.ltb_spec k 2); try lia; reflexivity.
Qed.

Lemma testbit_1 k : Z.testbit 1 k = (k =? 0).
Proof.
  destruct (Z.eq_dec k 0) as [-> | ?]; [reflexivity |].
  destruct (Z.ltb_spec k 0).
  - rewrite Z.testbit_neg_r by lia. symmetry. apply Z.eqb_neq. lia.
  - change 1 with (Z.ones 1). rewrite Z.ones_spec_high by lia.
    symmetry. apply Z.eqb_neq. lia.
Qed.

Lemma testbit_real_addr h k :
  Z.testbit (BTOR_REAL_ADDR_NODE h) k = (2 <=? k) && Z.testbit h k.
Proof.
  unfold BTOR_REAL_ADDR_NODE. rewrite Z.land_spec.
  destruct (Z.ltb_spec k 0).
  - rewrite !Z.testbit_neg_r by lia. destruct (2 <=? k); reflexivity.
  - rewrite Z.lnot_spec by lia. rewrite testbit_3.
    destruct (Z.leb_spec 0 k), (Z.ltb_spec k 2), (Z.leb_spec 2 k); try lia; reflexivity.
Qed.

Lemma real_addr_invert h :
  BTOR_REAL_ADDR_NODE (BTOR_INVERT_NODE h) = BTOR_REAL_ADDR_NODE h.
Proof.
  apply Z.bits_inj'. intros k Hk. rewrite !testbit_real_addr.
  unfold BTOR_INVERT_NODE. rewrite Z.lxor_spec, testbit_1.
  destruct (Z.leb_spec 2 k); [| reflexivity].
  replace (k =? 0) with false by (symmetry; apply Z.eqb_neq; lia). reflexivity.
Qed.

Lemma invert_invert h : BTOR_INVERT_NODE (BTOR_INVERT_NODE h) = h.
Proof.
  unfold BTOR_INVERT_NODE. rewrite <- Z.lxor_assoc, Z.lxor_nilpotent.
  apply Z.lxor_0_l.
Qed.

Lemma is_inverted_invert h :
  BTOR_IS_INVERTED_NODE (BTOR_INVERT_NODE h) = negb (BTOR_IS_INVERTED_NODE h).
Proof.
  unfold BTOR_IS_INVERTED_NODE, BTOR_INVERT_NODE.
  rewrite Z.lxor_spec. reflexivity.
Qed.

Lemma invert_neq h : BTOR_INVERT_NODE h <> h.
Proof.
  intros E. pose proof (is_inverted_invert h) as H. rewrite E in H.
  destruct (BTOR_IS_INVERTED_NODE h); discriminate.
Qed.

Lemma real_addr_ptr_of_id i : BTOR_REAL_ADDR_NODE (ptr_of_id i) = ptr_of_id i.
Proof.
  apply Z.bits_inj'. intros k Hk. rewrite testbit_real_addr, testbit_ptr_of_id.
  destruct (2 <=? k); reflexivity.
Qed.

Lemma real_addr_idem h :
  BTOR_REAL_ADDR_NODE (BTOR_REAL_ADDR_NODE h) = BTOR_REAL_ADDR_NODE h.
Proof.
  apply Z.bits_inj'. intros k Hk. rewrite !testbit_real_addr.
  destruct (2 <=? k); reflexivity.
Qed.

Lemma id_of_ptr_of_id i : id_of_ptr (ptr_of_id i) = i.
Proof.
  unfold id_of_ptr, ptr_of_id. rewrite Z.shiftr_shiftl_l by lia.
  simpl. rewrite Z.shiftl_0_r. apply Nat2Z.id.
Qed.

Lemma ptr_of_id_eq i : ptr_of_id i = 4 * Z.of_nat i.
Proof. unfold ptr_of_id. rewrite Z.shiftl_mul_pow2 by lia. change (2 ^ 2) with 4. lia. Qed.


Lemma land3_ptr_of_id i : Z.land 3 (ptr_of_id i) = 0.
Proof.
  apply Z.bits_inj'. intros k Hk. rewrite Z.land_spec, testbit_3, testbit_ptr_of_id.
  rewrite Z.bits_0.
  destruct (Z.leb_spec 0 k), (Z.ltb_spec k 2), (Z.leb_spec 2 k); try lia; reflexivity.
Qed.

Lemma is_regular_ptr_of_id i : BTOR_IS_INVERTED_NODE (ptr_of_id i) = false.
Proof. unfold BTOR_IS_INVERTED_NODE. rewrite testbit_ptr_of_id. reflexivity. Qed.

Lemma cond_invert_regular c h :
  BTOR_IS_INVERTED_NODE c = false -> BTOR_COND_INVERT_NODE c h = h.
Proof.
  unfold BTOR_IS_INVERTED_NODE, BTOR_COND_INVERT_NODE. intros Hc.
  replace (Z.land c 1) with 0; [apply Z.lxor_0_l |].
  symmetry. apply Z.bits_inj'. intros k Hk. rewrite Z.land_spec, testbit_1, Z.bits_0.
  destruct (Z.eqb_spec k 0) as [-> | ?]; [rewrite Hc; reflexivity | apply andb_false_r].
Qed.

Lemma cond_invert_inverted c h :
  BTOR_IS_INVERTED_NODE c = true -> BTOR_COND_INVERT_NODE c h = BTOR_INVERT_NODE h.
Proof.
  unfold BTOR_IS_INVERTED_NODE, BTOR_COND_INVERT_NODE, BTOR_INVERT_NODE. intros Hc.
  replace (Z.land c 1) with 1; [reflexivity |].
  symmetry. apply Z.bits_inj'. intros k Hk. rewrite Z.land_spec, testbit_1.
  destruct (Z.eqb_spec k 0) as [-> | ?]; [rewrite Hc; reflexivity | apply andb_false_r].
Qed.

Lemma real_addr_cond_invert c h :
  BTOR_REAL_ADDR_NODE (BTOR_COND_INVERT_NODE c h) = BTOR_REAL_ADDR_NODE h.
Proof.
  destruct (BTOR_IS_INVERTED_NODE c) eqn:E.
  - rewrite cond_invert_inverted by assumption. apply real_addr_invert.
  - rewrite cond_invert_regular by assumption. reflexivity.
Qed.

(** ** The heap *)

Lemma ptr_of_id_of_ptr p : Z.land 3 p = 0 -> 0 <= p -> ptr_of_id (id_of_ptr p) = p.
Proof.
  intros H3 Hp. unfold ptr_of_id, id_of_ptr.
  rewrite Z2Nat.id by (apply Z.shiftr_nonneg; lia).
  apply Z.bits_inj'. intros k Hk.
  destruct (Z.ltb_spec k 2).
  - rewrite Z.shiftl_spec_low by lia.
    assert (Hb : Z.testbit (Z.land 3 p) k = false) by (rewrite H3; apply Z.bits_0).
    rewrite Z.land_spec, testbit_3 in Hb.
    destruct (Z.leb_spec 0 k), (Z.ltb_spec k 2); try lia. simpl in Hb. congruence.
  - rewrite Z.shiftl_spec by lia. rewrite Z.shiftr_spec by lia. f_equal. lia.
Qed.

Lemma ptr_of_id_pos i : (0 < i)%nat -> 0 < ptr_of_id i.
Proof. rewrite ptr_of_id_eq. lia. Qed.

Lemma node_at_inv s p n :
  node_at s p = Some n ->
  0 < p /\ Z.land 3 p = 0 /\ nodes_id_table s !! id_of_ptr p = Some (Some n)
  /\ ptr_of_id (id_of_ptr p) = p.
Proof.
  unfold node_at. destruct (Z.ltb_spec 0 p); simpl; [| discriminate].
  destruct (Z.eqb_spec (Z.land 3 p) 0); simpl; [| discriminate].
  intros Hn. repeat split; try assumption.
  - destruct (nodes_id_table s !! id_of_ptr p) as [[m |] |]; simpl in Hn; congruence.
  - apply ptr_of_id_of_ptr; lia.
Qed.

Lemma node_at_ptr s i :
  (0 < i)%nat -> node_at s (ptr_of_id i) = mjoin (nodes_id_table s !! i).
Proof.
  intros Hi. unfold node_at. rewrite land3_ptr_of_id, id_of_ptr_of_id.
  pose proof (ptr_of_id_pos i Hi). destruct (Z.ltb_spec 0 (ptr_of_id i)); [reflexivity | lia].
Qed.

Lemma node_at_intro s i n :
  (0 < i)%nat -> nodes_id_table s !! i = Some (Some n) -> node_at s (ptr_of_id i) = Some n.
Proof. intros Hi Hn. rewrite node_at_ptr by assumption. rewrite Hn. reflexivity. Qed.

Lemma node_at_id_pos s p n : node_at s p = Some n -> (0 < id_of_ptr p)%nat.
Proof.
  intros H. apply node_at_inv in H as (Hp & _ & _ & Hq).
  destruct (id_of_ptr p); [| lia]. rewrite ptr_of_id_eq in Hq. lia.
Qed.

Lemma node_at_lt s p n : node_at s p = Some n -> (id_of_ptr p < length (nodes_id_table s))%nat.
Proof.
  intros H. apply node_at_inv in H as (_ & _ & H & _).
  apply lookup_lt_Some in H. exact H.
Qed.

Lemma node_at_store_eq s p n m :
  node_at s p = Some m -> node_at (store_node s p n) p = Some n.
Proof.
  intros H. pose proof (node_at_lt _ _ _ H) as Hlt.
  apply node_at_inv in H as (Hp & H3 & _ & _).
  unfold node_at, store_node. simpl.
  destruct (Z.ltb_spec 0 p); [| lia]. rewrite H3. simpl.
  rewrite list_lookup_insert_eq by assumption. reflexivity.
Qed.

Lemma node_at_store_ne s p q n :
  p <> q -> node_at s p <> None -> node_at (store_node s p n) q = node_at s q.
Proof.
  intros Hne Hp. unfold node_at at 1, store_node. simpl.
  destruct ((0 <? q) && (Z.land 3 q =? 0)) eqn:E.
  - unfold node_at. rewrite E.
    rewrite list_lookup_insert_ne; [reflexivity |].
    intros Heq. apply Hne.
    destruct (node_at s p) as [m |] eqn:Hm; [| congruence].
    apply node_at_inv in Hm as (_ & _ & _ & <-).
    apply andb_prop in E as [E1 E2].
    rewrite Heq. apply ptr_of_id_of_ptr.
    + apply Z.eqb_eq. exact E2.
    + apply Z.ltb_lt in E1. lia.
  - unfold node_at. rewrite E. reflexivity.
Qed.

Lemma node_at_store s p q n m :
  node_at s p = Some m ->
  node_at (store_node s p n) q = if decide (q = p) then Some n else node_at s q.
Proof.
  intros H. destruct (decide (q = p)) as [-> | Hne].
  - eapply node_at_store_eq; eassumption.
  - apply node_at_store_ne; congruence.
Qed.

Lemma length_store_node s p n :
  length (nodes_id_table (store_node s p n)) = length (nodes_id_table s).
Proof. unfold store_node. simpl. apply length_insert. Qed.

Lemma real_node_real s h : real_node s (BTOR_REAL_ADDR_NODE h) = real_node s h.
Proof. unfold real_node. rewrite real_addr_idem. reflexivity. Qed.

Lemma real_node_invert s h : real_node s (BTOR_INVERT_NODE h) = real_node s h.
Proof. unfold real_node. rewrite real_addr_invert. reflexivity. Qed.

(** Pushing a node on the id table keeps the nodes that are there. *)
Lemma node_at_push_old s x p n :
  node_at s p = Some n ->
  node_at (wb_nodes_id_table (nodes_id_table s ++ [x]) s) p = Some n.
Proof.
  intros H. pose proof (node_at_lt _ _ _ H) as Hlt.
  apply node_at_inv in H as (Hp & H3 & Hn & _).
  unfold node_at. simpl. destruct (Z.ltb_spec 0 p); [| lia]. rewrite H3. simpl.
  rewrite lookup_app_l by assumption. rewrite Hn. reflexivity.
Qed.

Lemma node_at_push_new s n :
  (0 < length (nodes_id_table s))%nat ->
  node_at (wb_nodes_id_table (nodes_id_table s ++ [Some n]) s)
    (ptr_of_id (length (nodes_id_table s))) = Some n.
Proof.
  intros H. rewrite node_at_ptr by assumption. simpl.
  rewrite lookup_app_r by lia. rewrite Nat.sub_diag. reflexivity.
Qed.

(** ** Forwarding *)

Lemma pointer_chase_terminal fuel s h h' :
  pointer_chase_simplified_exp fuel s h = Some h' ->
  exists n, real_node s h' = Some n /\ n_simplified n = 0.
Proof.
  revert h. induction fuel as [| fuel IH]; intros h; simpl; [discriminate |].
  destruct (real_node s h) as [n |] eqn:Hn; simpl; [| discriminate].
  destruct (Z.eqb_spec (n_simplified n) 0) as [E | E].
  - intros [= <-]. eauto.
  - apply IH.
Qed.

Lemma pointer_chase_of_terminal fuel s h n :
  real_node s h = Some n -> n_simplified n = 0 ->
  pointer_chase_simplified_exp (S fuel) s h = Some h.
Proof. intros Hn E. simpl. rewrite Hn. simpl. rewrite E. reflexivity. Qed.

Lemma real_node_table_nonempty s h n :
  real_node s h = Some n -> exists k, length (nodes_id_table s) = S k.
Proof.
  intros H. apply node_at_lt in H.
  destruct (length (nodes_id_table s)); [lia | eauto].
Qed.

Lemma btor_simplify_exp_terminal s h n :
  real_node s h = Some n -> n_simplified n = 0 -> btor_simplify_exp s h = Some h.
Proof.
  intros Hn E. unfold btor_simplify_exp.
  destruct (real_node_table_nonempty _ _ _ Hn) as [k ->].
  eapply pointer_chase_of_terminal; eassumption.
Qed.

Lemma btor_simplify_exp_result s h h' :
  btor_simplify_exp s h = Some h' ->
  exists n, real_node s h' = Some n /\ n_simplified n = 0.
Proof. apply pointer_chase_terminal. Qed.

Lemma inc_exp_ref_counter_ok s h n :
  real_node s h = Some n -> n_refs n < INT_MAX ->
  inc_exp_ref_counter s h
  = Some (store_node s (BTOR_REAL_ADDR_NODE h) (wr_refs (n_refs n + 1) n)).
Proof.
  intros Hn Hr. unfold inc_exp_ref_counter. unfold real_node in Hn. rewrite Hn. simpl.
  destruct (Z.eqb_spec (n_refs n) INT_MAX); [lia | reflexivity].
Qed.

(** ** Variables and uninterpreted functions *)



Lemma setup_node_spec s exp :
  count_id_table s <> INT_MAX ->
  setup_node_and_add_to_id_table s exp
  = Some (wb_nodes_id_table
            (nodes_id_table s
             ++ [Some (let exp := wr_id (count_id_table s) (wr_refs 1 exp) in
                       if is_kind BTOR_APPLY_NODE exp then wr_apply_below true exp else exp)]) s,
          ptr_of_id (length (nodes_id_table s))).
Proof.
  intros H. unfold setup_node_and_add_to_id_table.
  destruct (Z.eqb_spec (count_id_table s) INT_MAX); [contradiction | reflexivity].
Qed.




(** A declaration with a symbol that is in use violates the assertion of
    the constructor. *)
Lemma declare_exp_symbol_in_use uf s sort name x :
  symbols s !! name = Some x -> declare_exp uf s sort (Some name) = None.
Proof.
  intros H. unfold declare_exp, btor_uf_exp, btor_var_exp, symbol_is_free.
  rewrite H. destruct uf; reflexivity.
Qed.


(** ** Negation *)



(** ** Lookup by id and by symbol *)

Lemma peek_id_table_live s i n :
  nodes_id_table s !! i = Some (Some n) -> peek_id_table s (Z.of_nat i) = ptr_of_id i.
Proof. intros H. unfold peek_id_table. rewrite Nat2Z.id, H. reflexivity. Qed.

Lemma peek_id_table_freed s i :
  nodes_id_table s !! Z.to_nat i = Some None -> peek_id_table s i = 0.
Proof. intros H. unfold peek_id_table. rewrite H. reflexivity. Qed.

Lemma node_at_null s : node_at s 0 = None.
Proof. reflexivity. Qed.

Lemma btor_copy_exp_null s : btor_copy_exp s 0 = None.
Proof. reflexivity. Qed.

(** A live node is matched: the handle owns one more reference. *)
Lemma btor_match_node_by_id_live s i n :
  (0 < i)%nat -> nodes_id_table s !! i = Some (Some n) -> n_refs n < INT_MAX ->
  btor_match_node_by_id s (Z.of_nat i)
  = Some (store_node s (ptr_of_id i) (wr_refs (n_refs n + 1) n), ptr_of_id i).
Proof.
  intros Hi Hn Hr. unfold btor_match_node_by_id, count_id_table.
  pose proof (lookup_lt_Some _ _ _ Hn) as Hlt.
  destruct (Z.leb_spec (Z.of_nat (length (nodes_id_table s))) (Z.of_nat i)); [lia |].
  rewrite (peek_id_table_live _ _ _ Hn). unfold btor_copy_exp.
  rewrite (inc_exp_ref_counter_ok s (ptr_of_id i) n).
  - simpl. rewrite real_addr_ptr_of_id. reflexivity.
  - unfold real_node. rewrite real_addr_ptr_of_id. apply node_at_intro; assumption.
  - assumption.
Qed.

(** An id beyond the table is answered by null. *)
Lemma btor_match_node_by_id_out_of_range s id :
  count_id_table s <= id -> btor_match_node_by_id s id = Some (s, 0).
Proof.
  intros H. unfold btor_match_node_by_id.
  destruct (Z.leb_spec (count_id_table s) id); [reflexivity | lia].
Qed.

(** The id of a freed slot makes [btor_copy_exp] dereference null. *)
Lemma btor_match_node_by_id_freed s id :
  id < count_id_table s -> nodes_id_table s !! Z.to_nat id = Some None ->
  btor_match_node_by_id s id = None.
Proof.
  intros H Hn. unfold btor_match_node_by_id.
  destruct (Z.leb_spec (count_id_table s) id); [lia |].
  rewrite peek_id_table_freed by assumption. reflexivity.
Qed.

(** So does a symbol that no node carries. *)
Lemma btor_match_node_by_symbol_unknown s sym :
  symbols s !! sym = None -> btor_match_node_by_symbol s sym = None.
Proof.
  intros H. unfold btor_match_node_by_symbol, btor_get_node_by_symbol.
  rewrite H. reflexivity.
Qed.

Lemma btor_match_node_by_symbol_live s sym i n :
  (0 < i)%nat -> symbols s !! sym = Some (ptr_of_id i) ->
  nodes_id_table s !! i = Some (Some n) -> n_refs n < INT_MAX ->
  btor_match_node_by_symbol s sym
  = Some (store_node s (ptr_of_id i) (wr_refs (n_refs n + 1) n), ptr_of_id i).
Proof.
  intros Hi Hs Hn Hr. unfold btor_match_node_by_symbol, btor_get_node_by_symbol.
  rewrite Hs. unfold btor_copy_exp.
  rewrite (inc_exp_ref_counter_ok s (ptr_of_id i) n).
  - simpl. rewrite real_addr_ptr_of_id. reflexivity.
  - unfold real_node. rewrite real_addr_ptr_of_id. apply node_at_intro; assumption.
  - assumption.
Qed.

(** ** Fields of stored nodes *)

Lemma fld_of_node {A} (proj : BtorNode -> A) s p n :
  node_at s p = Some n -> fld proj s p = Some (proj n).
Proof. intros H. unfold fld. rewrite H. reflexivity. Qed.

Lemma fld_store_frame {A} (proj : BtorNode -> A) s q n n' x :
  node_at s q = Some n -> proj n' = proj n ->
  fld proj (store_node s q n') x = fld proj s x.
Proof.
  intros Hq Hp. unfold fld. rewrite (node_at_store _ _ _ _ _ Hq).
  destruct (decide (x = q)) as [-> |]; [| reflexivity].
  rewrite Hq. simpl. congruence.
Qed.

Lemma fld_store_eq {A} (proj : BtorNode -> A) s q n n' :
  node_at s q = Some n -> fld proj (store_node s q n') q = Some (proj n').
Proof.
  intros Hq. unfold fld. rewrite (node_at_store_eq _ _ _ _ Hq). reflexivity.
Qed.

Lemma fld_store_ne {A} (proj : BtorNode -> A) s q n n' x :
  node_at s q = Some n -> x <> q ->
  fld proj (store_node s q n') x = fld proj s x.
Proof.
  intros Hq Hne. unfold fld. rewrite (node_at_store _ _ _ _ _ Hq).
  destruct (decide (x = q)); [contradiction | reflexivity].
Qed.

Lemma live_store s q n n' x :
  node_at s q = Some n ->
  is_Some (node_at (store_node s q n') x) <-> is_Some (node_at s x).
Proof.
  intros Hq. rewrite (node_at_store _ _ _ _ _ Hq).
  destruct (decide (x = q)) as [-> |]; [| reflexivity].
  rewrite Hq. split; eauto.
Qed.

Lemma upd_node_live s q f n :
  node_at s q = Some n -> upd_node s q f = Some (store_node s q (f n)).
Proof. intros H. unfold upd_node. rewrite H. reflexivity. Qed.

Lemma store_node_same s q n : node_at s q = Some n -> store_node s q n = s.
Proof.
  intros H. apply node_at_inv in H as (_ & _ & H & _).
  unfold store_node. rewrite list_insert_id by exact H. destruct s. reflexivity.
Qed.

Lemma next_link_fld s x :
  next_link s x
  = (fun a => get3 a (btor_exp_get_tag x)) <$> fld n_next_parent s (BTOR_REAL_ADDR_NODE x).
Proof. unfold next_link, real_node, fld. destruct (node_at s _); reflexivity. Qed.

Lemma prev_link_fld s x :
  prev_link s x
  = (fun a => get3 a (btor_exp_get_tag x)) <$> fld n_prev_parent s (BTOR_REAL_ADDR_NODE x).
Proof. unfold prev_link, real_node, fld. destruct (node_at s _); reflexivity. Qed.

(** *** Tags of parent links *)

Lemma testbit_of_nat_small (pos : nat) k : (pos < 4)%nat -> 2 <= k -> Z.testbit (Z.of_nat pos) k = false.
Proof.
  intros Hp Hk. destruct (decide (pos = 0%nat)) as [-> |]; [apply Z.bits_0 |].
  apply Z.bits_above_log2; [lia |].
  assert (Z.log2 (Z.of_nat pos) < 2); [| lia].
  apply Z.log2_lt_pow2; lia.
Qed.

Lemma real_addr_tag p pos :
  Z.land 3 p = 0 -> (pos < 4)%nat -> BTOR_REAL_ADDR_NODE (BTOR_TAG_NODE p pos) = p.
Proof.
  intros H3 Hp. apply Z.bits_inj'. intros k Hk.
  rewrite testbit_real_addr. unfold BTOR_TAG_NODE. rewrite Z.lor_spec.
  destruct (Z.leb_spec 2 k).
  - rewrite testbit_of_nat_small by assumption. reflexivity.
  - simpl. symmetry.
    assert (Hb : Z.testbit (Z.land 3 p) k = false) by (rewrite H3; apply Z.bits_0).
    rewrite Z.land_spec, testbit_3 in Hb.
    destruct (Z.leb_spec 0 k), (Z.ltb_spec k 2); try lia. exact Hb.
Qed.

Lemma get_tag_tag p pos :
  Z.land 3 p = 0 -> (pos < 4)%nat -> btor_exp_get_tag (BTOR_TAG_NODE p pos) = pos.
Proof.
  intros H3 Hp. unfold btor_exp_get_tag, BTOR_TAG_NODE.
  rewrite Z.land_lor_distr_r, H3, Z.lor_0_r.
  replace (Z.land 3 (Z.of_nat pos)) with (Z.of_nat pos); [apply Nat2Z.id |].
  symmetry. apply Z.bits_inj'. intros k Hk. rewrite Z.land_spec, testbit_3.
  destruct (Z.leb_spec 0 k), (Z.ltb_spec k 2); try lia; simpl; [reflexivity |].
  symmetry. apply testbit_of_nat_small; lia.
Qed.

Lemma tag_decompose x :
  0 <= x -> BTOR_TAG_NODE (BTOR_REAL_ADDR_NODE x) (btor_exp_get_tag x) = x.
Proof.
  intros Hx. unfold BTOR_TAG_NODE, btor_exp_get_tag.
  rewrite Z2Nat.id by (apply Z.land_nonneg; lia).
  apply Z.bits_inj'. intros k Hk.
  rewrite Z.lor_spec, Z.land_spec, testbit_3, testbit_real_addr.
  destruct (Z.leb_spec 0 k), (Z.ltb_spec k 2), (Z.leb_spec 2 k); try lia; simpl;
    try reflexivity.
  apply orb_false_r.
Qed.

Lemma tag_node_neq_0 p pos : 0 < p -> BTOR_TAG_NODE p pos <> 0.
Proof.
  intros Hp E. unfold BTOR_TAG_NODE in E. apply Z.lor_eq_0_iff in E. lia.
Qed.

(** ** Connecting a child *)

Ltac live_solver :=
  repeat (erewrite live_store by eassumption); eauto.

Ltac read_at q n E :=
  match goal with
  | |- context [node_at ?s q] =>
      let L := fresh "L" in
      assert (L : is_Some (node_at s q)) by live_solver;
      destruct L as [n E]; rewrite E; simpl
  end.

Ltac frame_side :=
  first [ eassumption | reflexivity
        | match goal with |- context [if ?b then _ else _] => destruct b end; reflexivity ].

Ltac frame_rw :=
  repeat (erewrite fld_store_frame by frame_side).

Lemma same_tables_refl s : same_tables s s.
Proof. unfold same_tables. destruct s. reflexivity. Qed.

Lemma same_tables_store s s' q n :
  same_tables s s' -> same_tables s (store_node s' q n).
Proof. unfold same_tables, store_node. intros ->. reflexivity. Qed.

Lemma same_tables_trans s1 s2 s3 :
  same_tables s1 s2 -> same_tables s2 s3 -> same_tables s1 s3.
Proof. unfold same_tables. intros -> ->. reflexivity. Qed.

Lemma cond_upd_node (b : bool) s q f n :
  node_at s q = Some n ->
  (if b then upd_node s q f else Some s) = Some (store_node s q (if b then f n else n)).
Proof.
  intros H. destruct b; [apply upd_node_live; exact H |].
  rewrite store_node_same by exact H. reflexivity.
Qed.

Ltac cond_step n E :=
  match goal with
  | |- context [if ?b then upd_node ?S ?q ?f else Some ?S] =>
      let L := fresh "L" in
      assert (L : is_Some (node_at S q)) by live_solver;
      destruct L as [n E]; rewrite (cond_upd_node b S q f n E); simpl
  end.

Ltac upd_step n E :=
  match goal with
  | |- context [upd_node ?S ?q ?f] =>
      let L := fresh "L" in
      assert (L : is_Some (node_at S q)) by live_solver;
      destruct L as [n E]; rewrite (upd_node_live S q f n E); simpl
  end.

(** The value of a field of a node just read, from the frame. *)
Ltac field_of proj E H :=
  match type of E with
  | node_at ?S ?q = Some ?n =>
      pose proof (fld_of_node proj S q n E) as H;
      repeat (erewrite fld_store_frame in H by frame_side)
  end.

Ltac field_same proj E E0 H :=
  field_of proj E H; rewrite (fld_of_node proj _ _ _ E0) in H; injection H as H.

Lemma inc_exp_ref_counter_live s h n :
  node_at s (BTOR_REAL_ADDR_NODE h) = Some n -> n_refs n < INT_MAX ->
  inc_exp_ref_counter s h
  = Some (store_node s (BTOR_REAL_ADDR_NODE h) (wr_refs (n_refs n + 1) n)).
Proof. intros H Hr. apply inc_exp_ref_counter_ok; assumption. Qed.

Lemma connect_prefix_spec s parent child pn cn :
  node_at s parent = Some pn ->
  real_node s child = Some cn ->
  n_refs cn < INT_MAX ->
  exists s',
    connect_prefix s parent child = Some s'
    /\ same_links s s'
    /\ (forall x, fld n_refs s' x
                  = (fun r => if decide (x = BTOR_REAL_ADDR_NODE child) then r + 1 else r)
                      <$> fld n_refs s x)
    /\ (forall x, x <> parent -> fld stable s' x = fld stable s x)
    /\ fld n_refs s' (BTOR_REAL_ADDR_NODE child) = Some (n_refs cn + 1)
    /\ fld n_parents s' (BTOR_REAL_ADDR_NODE child) = Some (n_parents cn + 1)
    /\ fld n_parameterized s' parent
       = Some (n_parameterized pn || negb (is_kind BTOR_LAMBDA_NODE pn) && n_parameterized cn)
    /\ fld n_is_array s' parent
       = Some (n_is_array pn || btor_is_fun_cond_node_n pn && n_is_array cn)
    /\ fld n_lambda_below s' parent = Some (n_lambda_below pn || n_lambda_below cn)
    /\ fld n_apply_below s' parent = Some (n_apply_below pn || n_apply_below cn).
Proof.
  intros Hp Hc Hr. unfold real_node in Hc. unfold connect_prefix.
  rewrite Hp, Hc. simpl.
  set (rc := BTOR_REAL_ADDR_NODE child) in *.
  cond_step p0 E0.
  read_at parent p1 E1. read_at rc c1 F1.
  cond_step p2 E2.
  read_at rc c2 F2.
  cond_step p3 E3.
  read_at rc c3 F3.
  cond_step p4 E4.
  upd_step c4 F4.
  match goal with |- context [inc_exp_ref_counter ?S child] =>
    assert (L : is_Some (node_at S rc)) by live_solver; destruct L as [c5 F5] end.
  field_of n_refs F5 R5. rewrite (fld_of_node _ _ _ _ Hc) in R5.
  rewrite (inc_exp_ref_counter_live _ _ _ F5) by (injection R5 as <-; exact Hr). simpl.
  eexists. split; [reflexivity |].
  field_same n_kind E1 Hp K1. field_same n_sort_id E1 Hp S1.
  field_same n_is_array F1 Hc A1. field_same n_is_array E2 Hp A2.
  field_same n_lambda_below F2 Hc L2. field_same n_lambda_below E3 Hp L3.
  field_same n_apply_below F3 Hc B3. field_same n_apply_below E4 Hp B4.
  field_same n_parents F4 Hc P4.
  field_same n_parameterized E0 Hp Q0.
  injection R5 as R5.
  split.
  { constructor.
    - intros x. live_solver; reflexivity.
    - intros x. frame_rw. reflexivity.
    - intros x. frame_rw. reflexivity.
    - intros x. frame_rw. reflexivity.
    - intros x. frame_rw. reflexivity.
    - intros x. frame_rw. reflexivity.
    - intros x. frame_rw. reflexivity.
    - intros x. frame_rw. reflexivity.
    - repeat apply same_tables_store. apply same_tables_refl. }
  split.
  { intros x. destruct (decide (x = rc)) as [-> | Hne].
    - erewrite fld_store_eq by eassumption. rewrite (fld_of_node _ _ _ _ Hc).
      simpl. congruence.
    - erewrite fld_store_ne by eassumption. frame_rw.
      destruct (fld n_refs s x); reflexivity. }
  split.
  { intros x Hx.
    repeat first [ erewrite fld_store_frame by frame_side
                 | erewrite fld_store_ne by eassumption ].
    reflexivity. }
  split; [erewrite fld_store_eq by eassumption; simpl; congruence |].
  split; [frame_rw; erewrite fld_store_eq by eassumption; simpl; congruence |].
  split.
  { frame_rw. erewrite fld_store_eq by eassumption. rewrite Q0.
    destruct (negb (is_kind BTOR_LAMBDA_NODE pn) && n_parameterized cn); simpl;
      [rewrite orb_true_r | rewrite orb_false_r]; reflexivity. }
  split.
  { frame_rw. erewrite fld_store_eq by eassumption. rewrite A2.
    replace (btor_is_fun_cond_node_n p1) with (btor_is_fun_cond_node_n pn)
      by (unfold btor_is_fun_cond_node_n, is_kind; rewrite K1, S1; reflexivity).
    rewrite <- A1.
    destruct (btor_is_fun_cond_node_n pn && n_is_array cn); simpl;
      [rewrite orb_true_r | rewrite orb_false_r]; reflexivity. }
  split.
  { frame_rw. erewrite fld_store_eq by eassumption. rewrite L3, <- L2.
    destruct (n_lambda_below cn); simpl;
      [rewrite orb_true_r | rewrite orb_false_r]; reflexivity. }
  { frame_rw. erewrite fld_store_eq by eassumption. rewrite B4, <- B3.
    destruct (n_apply_below cn); simpl;
      [rewrite orb_true_r | rewrite orb_false_r]; reflexivity. }
Qed.

Lemma connect_child_exp_split s parent child pos :
  connect_child_exp s parent child pos
  = (s ← connect_prefix s parent child;
     p ← node_at s parent;
     s ← upd_node s parent (fun p => wr_e (set3 (n_e p) pos child) p);
     connect_suffix s parent child pos (negb (is_kind BTOR_APPLY_NODE p))).
Proof.
  unfold connect_child_exp, connect_prefix, connect_suffix.
  repeat (match goal with
          | |- (?m ≫= _) = _ => destruct m as [? |]; simpl; try reflexivity
          end).
Qed.

Lemma get3_set3 a i v j :
  (i < 3)%nat -> get3 (set3 a i v) j = if decide (j = i) then v else get3 a j.
Proof.
  intros Hi. destruct i as [| [| [| i]]]; [| | | lia];
    destruct j as [| [| [| j]]]; reflexivity.
Qed.

Lemma real_addr_pos x : 0 < BTOR_REAL_ADDR_NODE x -> 0 < x.
Proof.
  unfold BTOR_REAL_ADDR_NODE. intros H.
  destruct (Z.ltb_spec x 0) as [Hneg | Hnn].
  - assert (Z.land (Z.lnot 3) x < 0); [| lia].
    apply Z.land_neg. split; [reflexivity | assumption].
  - destruct (Z.eq_dec x 0) as [-> |]; [| lia]. rewrite Z.land_0_r in H. lia.
Qed.

Lemma real_node_pos s x n : real_node s x = Some n -> 0 < x.
Proof.
  intros H. apply node_at_inv in H as (H & _). apply real_addr_pos. exact H.
Qed.

Lemma link_is_tagged s q n x :
  node_at s q = Some n -> is_Some (real_node s x) -> forall i, (i < 3)%nat ->
  (BTOR_REAL_ADDR_NODE x = q /\ btor_exp_get_tag x = i) <-> x = BTOR_TAG_NODE q i.
Proof.
  intros Hq [m Hx] i Hi. pose proof (real_node_pos _ _ _ Hx) as Hpos.
  apply node_at_inv in Hq as (_ & H3 & _ & _).
  split.
  - intros [<- <-]. symmetry. apply tag_decompose. lia.
  - intros ->. split; [apply real_addr_tag | apply get_tag_tag]; (assumption || lia).
Qed.

Lemma next_link_store_frame s q n n' x :
  node_at s q = Some n -> n_next_parent n' = n_next_parent n ->
  next_link (store_node s q n') x = next_link s x.
Proof.
  intros Hq E. rewrite !next_link_fld. erewrite fld_store_frame by eassumption. reflexivity.
Qed.

Lemma prev_link_store_frame s q n n' x :
  node_at s q = Some n -> n_prev_parent n' = n_prev_parent n ->
  prev_link (store_node s q n') x = prev_link s x.
Proof.
  intros Hq E. rewrite !prev_link_fld. erewrite fld_store_frame by eassumption. reflexivity.
Qed.

Lemma next_link_store_set s q n n' i v x :
  node_at s q = Some n -> (i < 3)%nat ->
  n_next_parent n' = set3 (n_next_parent n) i v ->
  next_link (store_node s q n') x
  = if decide (x = BTOR_TAG_NODE q i) then Some v else next_link s x.
Proof.
  intros Hq Hi E. unfold next_link, real_node.
  rewrite (node_at_store _ _ _ _ _ Hq).
  destruct (decide (BTOR_REAL_ADDR_NODE x = q)) as [Hx | Hx].
  - simpl. rewrite E, get3_set3 by assumption.
    assert (Hl : is_Some (real_node s x)) by (unfold real_node; rewrite Hx; eauto).
    pose proof (link_is_tagged s q n x Hq Hl i Hi) as Ht.
    destruct (decide (btor_exp_get_tag x = i)) as [Ei | Ei].
    + destruct (decide (x = BTOR_TAG_NODE q i)) as [| Hne]; [reflexivity |].
      exfalso. apply Hne. apply Ht. split; assumption.
    + destruct (decide (x = BTOR_TAG_NODE q i)) as [Heq | Hne].
      * exfalso. apply Ht in Heq. tauto.
      * rewrite Hx, Hq. reflexivity.
  - destruct (decide (x = BTOR_TAG_NODE q i)) as [Heq | Hne]; [| reflexivity].
    exfalso. apply Hx. subst x. apply node_at_inv in Hq as (_ & H3 & _ & _).
    apply real_addr_tag; [assumption | lia].
Qed.

Lemma prev_link_store_set s q n n' i v x :
  node_at s q = Some n -> (i < 3)%nat ->
  n_prev_parent n' = set3 (n_prev_parent n) i v ->
  prev_link (store_node s q n') x
  = if decide (x = BTOR_TAG_NODE q i) then Some v else prev_link s x.
Proof.
  intros Hq Hi E. unfold prev_link, real_node.
  rewrite (node_at_store _ _ _ _ _ Hq).
  destruct (decide (BTOR_REAL_ADDR_NODE x = q)) as [Hx | Hx].
  - simpl. rewrite E, get3_set3 by assumption.
    assert (Hl : is_Some (real_node s x)) by (unfold real_node; rewrite Hx; eauto).
    pose proof (link_is_tagged s q n x Hq Hl i Hi) as Ht.
    destruct (decide (btor_exp_get_tag x = i)) as [Ei | Ei].
    + destruct (decide (x = BTOR_TAG_NODE q i)) as [| Hne]; [reflexivity |].
      exfalso. apply Hne. apply Ht. split; assumption.
    + destruct (decide (x = BTOR_TAG_NODE q i)) as [Heq | Hne].
      * exfalso. apply Ht in Heq. tauto.
      * rewrite Hx, Hq. reflexivity.
  - destruct (decide (x = BTOR_TAG_NODE q i)) as [Heq | Hne]; [| reflexivity].
    exfalso. apply Hx. subst x. apply node_at_inv in Hq as (_ & H3 & _ & _).
    apply real_addr_tag; [assumption | lia].
Qed.

Lemma same_links_next s s' x : same_links s s' -> next_link s' x = next_link s x.
Proof. intros H. rewrite !next_link_fld, (sl_next _ _ H). reflexivity. Qed.

Lemma same_links_prev s s' x : same_links s s' -> prev_link s' x = prev_link s x.
Proof. intros H. rewrite !prev_link_fld, (sl_prev _ _ H). reflexivity. Qed.

Lemma chain_frame s s' prev l :
  (forall x, x ∈ l -> next_link s' x = next_link s x /\ prev_link s' x = prev_link s x) ->
  is_parent_chain s prev l -> is_parent_chain s' prev l.
Proof.
  revert prev. induction l as [| x l IH]; intros prev Hf; simpl; [auto |].
  intros (Hx & Hp & Hn & Hc).
  destruct (Hf x) as [En Ep]; [left |].
  repeat split; try congruence; try assumption.
  apply IH; [| exact Hc]. intros y Hy. apply Hf. right. exact Hy.
Qed.

Lemma chain_live s prev l x :
  is_parent_chain s prev l -> x ∈ l -> is_Some (real_node s x).
Proof.
  revert prev. induction l as [| y l IH]; intros prev Hc Hx; [inversion Hx |].
  destruct Hc as (_ & Hp & _ & Hc).
  apply elem_of_cons in Hx as [-> | Hx]; [| eapply IH; eassumption].
  unfold prev_link in Hp. destruct (real_node s y); [eauto | discriminate].
Qed.

Lemma last_elem_of (l : list Z) d : l <> [] -> List.last l d ∈ l.
Proof.
  induction l as [| x l IH]; [congruence |]. intros _.
  destruct l as [| y l]; [left |]. right. apply IH. discriminate.
Qed.

Lemma chain_snoc s s' prev l t :
  is_parent_chain s prev l -> NoDup l -> (btor_exp_get_tag t < 3)%nat ->
  (forall x, x ∈ l -> prev_link s' x = prev_link s x) ->
  (forall x, x ∈ l -> x <> List.last l 0 -> next_link s' x = next_link s x) ->
  (l <> [] -> next_link s' (List.last l 0) = Some t) ->
  prev_link s' t = Some (List.last l prev) -> next_link s' t = Some 0 ->
  is_parent_chain s' prev (l ++ [t]).
Proof.
  revert prev. induction l as [| x l IH]; intros prev Hc Hnd Ht Hp Hn Hl Hpt Hnt.
  - simpl in *. auto.
  - destruct Hc as (Hx & Hpx & Hnx & Hc). apply NoDup_cons in Hnd as [Hxl Hnd].
    destruct l as [| y l].
    + simpl in *. repeat split; auto;
        first [ rewrite Hp by left; exact Hpx | apply Hl; discriminate ].
    + change ((x :: y :: l) ++ [t]) with (x :: (y :: l) ++ [t]).
      change (List.last (x :: y :: l) 0) with (List.last (y :: l) 0) in *.
      change (List.last (x :: y :: l) prev) with (List.last (y :: l) prev) in *.
      cbn [is_parent_chain]. split; [exact Hx |].
      split; [rewrite Hp by left; exact Hpx |].
      split.
      * change (hd 0 ((y :: l) ++ [t])) with y. rewrite Hn; [exact Hnx | left |].
        intros E. apply Hxl. rewrite E. apply last_elem_of. discriminate.
      * apply IH; try assumption.
        -- intros z Hz. apply Hp. right. exact Hz.
        -- intros z Hz Hne. apply Hn; [right; exact Hz | exact Hne].
        -- intros _. apply Hl. discriminate.
        -- replace (List.last (y :: l) x) with (List.last (y :: l) prev); [exact Hpt |].
           clear. revert y. induction l as [| z l IHl]; intros y; [reflexivity |].
           change (List.last (z :: l) prev = List.last (z :: l) x). apply IHl.
Qed.

Ltac live_solver2 :=
  repeat (erewrite live_store by eassumption);
  try match goal with SL : same_links _ _ |- _ => rewrite (sl_live _ _ SL) end;
  eauto.

Ltac upd_step2 n E :=
  match goal with
  | |- context [upd_node ?S ?q ?f] =>
      let L := fresh "L" in
      assert (L : is_Some (node_at S q)) by live_solver2;
      destruct L as [n E]; rewrite (upd_node_live S q f n E); simpl
  end.

Ltac read_at2 q n E :=
  match goal with
  | |- context [node_at ?s q] =>
      let L := fresh "L" in
      assert (L : is_Some (node_at s q)) by live_solver2;
      destruct L as [n E]; rewrite E; simpl
  end.

(** The value in the first state of a field of a node read later. *)
Ltac field_back proj E SLf E0 H :=
  match type of E with
  | node_at ?S ?q = Some ?n =>
      pose proof (fld_of_node proj S q n E) as H;
      repeat (erewrite fld_store_frame in H by frame_side);
      rewrite SLf in H;
      rewrite (fld_of_node proj _ _ _ E0) in H; injection H as H
  end.

Ltac links_rw :=
  repeat first
    [ erewrite next_link_store_frame by frame_side
    | erewrite prev_link_store_frame by frame_side ].

Lemma prev_link_tagged s parent pos pn :
  node_at s parent = Some pn -> (pos < 3)%nat ->
  prev_link s (BTOR_TAG_NODE parent pos) = Some (get3 (n_prev_parent pn) pos).
Proof.
  intros Hp Hpos. pose proof Hp as Hi. apply node_at_inv in Hi as (_ & H3 & _ & _).
  unfold prev_link, real_node. rewrite real_addr_tag by (assumption || lia).
  rewrite Hp. simpl. rewrite get_tag_tag by (assumption || lia). reflexivity.
Qed.

Lemma next_link_tagged s parent pos pn :
  node_at s parent = Some pn -> (pos < 3)%nat ->
  next_link s (BTOR_TAG_NODE parent pos) = Some (get3 (n_next_parent pn) pos).
Proof.
  intros Hp Hpos. pose proof Hp as Hi. apply node_at_inv in Hi as (_ & H3 & _ & _).
  unfold next_link, real_node. rewrite real_addr_tag by (assumption || lia).
  rewrite Hp. simpl. rewrite get_tag_tag by (assumption || lia). reflexivity.
Qed.

Lemma chain_nonzero s prev l x : is_parent_chain s prev l -> x ∈ l -> 0 < x.
Proof.
  intros Hc Hx. destruct (chain_live _ _ _ _ Hc Hx) as [n Hn].
  eapply real_node_pos. eassumption.
Qed.

Lemma chain_tag s prev l x :
  is_parent_chain s prev l -> x ∈ l -> (btor_exp_get_tag x < 3)%nat.
Proof.
  revert prev. induction l as [| y l IH]; intros prev Hc Hx; [inversion Hx |].
  destruct Hc as (Ht & _ & _ & Hc).
  apply elem_of_cons in Hx as [-> | Hx]; [exact Ht | eapply IH; eassumption].
Qed.

Lemma chain_last_next s prev l :
  is_parent_chain s prev l -> l <> [] -> next_link s (List.last l 0) = Some 0.
Proof.
  revert prev. induction l as [| x l IH]; intros prev Hc Hne; [congruence |].
  destruct Hc as (_ & _ & Hn & Hc). destruct l as [| y l]; [exact Hn |].
  change (List.last (x :: y :: l) 0) with (List.last (y :: l) 0).
  eapply IH; [exact Hc | discriminate].
Qed.

Lemma next_link_store_wr s q n i v x :
  node_at s q = Some n -> (i < 3)%nat ->
  next_link (store_node s q (wr_next_parent (set3 (n_next_parent n) i v) n)) x
  = if decide (x = BTOR_TAG_NODE q i) then Some v else next_link s x.
Proof. intros Hq Hi. eapply next_link_store_set; (eassumption || reflexivity). Qed.

Lemma prev_link_store_wr s q n i v x :
  node_at s q = Some n -> (i < 3)%nat ->
  prev_link (store_node s q (wr_prev_parent (set3 (n_prev_parent n) i v) n)) x
  = if decide (x = BTOR_TAG_NODE q i) then Some v else prev_link s x.
Proof. intros Hq Hi. eapply prev_link_store_set; (eassumption || reflexivity). Qed.

(** C7: [connect_child_exp] links the parent edge [(parent, pos)] into the
    parent list of the child: at the head, and at the tail when the parent
    is an apply node.  The child's parent count and reference count grow by
    one, the child is stored in slot [pos] of the parent, and the parent
    inherits [parameterized] (unless it is a lambda), [is_array] (when it is
    a conditional of function sort), [lambda_below] and [apply_below]. *)
Theorem connect_child_exp_splices s parent child pos pn cn l :
  node_at s parent = Some pn ->
  real_node s child = Some cn ->
  (pos < 3)%nat ->
  get3 (n_prev_parent pn) pos = 0 -> get3 (n_next_parent pn) pos = 0 ->
  parent_list s cn l ->
  BTOR_TAG_NODE parent pos ∉ l ->
  n_refs cn < INT_MAX ->
  exists s' pn' cn',
    connect_child_exp s parent child pos = Some s'
    /\ node_at s' parent = Some pn' /\ real_node s' child = Some cn'
    /\ parent_list s' cn'
         (if is_kind BTOR_APPLY_NODE pn then l ++ [BTOR_TAG_NODE parent pos]
          else BTOR_TAG_NODE parent pos :: l)
    /\ n_parents cn' = n_parents cn + 1 /\ n_refs cn' = n_refs cn + 1
    /\ get3 (n_e pn') pos = child
    /\ n_parameterized pn'
       = n_parameterized pn || negb (is_kind BTOR_LAMBDA_NODE pn) && n_parameterized cn
    /\ n_is_array pn' = n_is_array pn || btor_is_fun_cond_node_n pn && n_is_array cn
    /\ n_lambda_below pn' = n_lambda_below pn || n_lambda_below cn
    /\ n_apply_below pn' = n_apply_below pn || n_apply_below cn.
Proof.
  intros Hp Hc Hpos Hprev0 Hnext0 (Hfirst & Hlast & Hchain & Hnd) Hfresh Hr.
  rewrite connect_child_exp_split.
  destruct (connect_prefix_spec s parent child pn cn Hp Hc Hr)
    as (s1 & E1 & SL & _ & _ & Rf & Pa & Fq & Fa & Fl & Fb).
  rewrite E1. simpl. unfold real_node in Hc |- *.
  set (rc := BTOR_REAL_ADDR_NODE child) in *.
  set (tagged := BTOR_TAG_NODE parent pos) in *.
  assert (Htag0 : tagged <> 0).
  { apply tag_node_neq_0. apply node_at_inv in Hp. tauto. }
  read_at2 parent p1 P1.
  field_back n_kind P1 (sl_kind _ _ SL) Hp K1.
  upd_step2 p2 P2. unfold connect_suffix. fold rc. fold tagged.
  read_at2 rc c2 C2.
  field_back n_first_parent C2 (sl_first _ _ SL) Hc F2.
  assert (P2eq : p2 = p1) by congruence. subst p2. clear P2.
  assert (Htag : (btor_exp_get_tag tagged < 3)%nat).
  { unfold tagged. pose proof Hp as Hi. apply node_at_inv in Hi as (_ & H3 & _ & _).
    rewrite get_tag_tag by (assumption || lia). exact Hpos. }
  assert (Hprev_t : prev_link s tagged = Some 0).
  { unfold tagged. rewrite (prev_link_tagged _ _ _ _ Hp Hpos), Hprev0. reflexivity. }
  assert (Hnext_t : next_link s tagged = Some 0).
  { unfold tagged. rewrite (next_link_tagged _ _ _ _ Hp Hpos), Hnext0. reflexivity. }
  (* what is common to the three ways of splicing *)
  assert (Hfin : forall sF L,
    is_Some (node_at sF parent) -> is_Some (node_at sF rc) ->
    fld n_refs sF rc = Some (n_refs cn + 1) ->
    fld n_parents sF rc = Some (n_parents cn + 1) ->
    fld n_e sF parent = Some (set3 (n_e p1) pos child) ->
    fld n_parameterized sF parent = fld n_parameterized s1 parent ->
    fld n_is_array sF parent = fld n_is_array s1 parent ->
    fld n_lambda_below sF parent = fld n_lambda_below s1 parent ->
    fld n_apply_below sF parent = fld n_apply_below s1 parent ->
    (forall cF, node_at sF rc = Some cF -> parent_list sF cF L) ->
    exists pn' cn',
      node_at sF parent = Some pn' /\ node_at sF rc = Some cn'
      /\ parent_list sF cn' L
      /\ n_parents cn' = n_parents cn + 1 /\ n_refs cn' = n_refs cn + 1
      /\ get3 (n_e pn') pos = child
      /\ n_parameterized pn'
         = n_parameterized pn || negb (is_kind BTOR_LAMBDA_NODE pn) && n_parameterized cn
      /\ n_is_array pn' = n_is_array pn || btor_is_fun_cond_node_n pn && n_is_array cn
      /\ n_lambda_below pn' = n_lambda_below pn || n_lambda_below cn
      /\ n_apply_below pn' = n_apply_below pn || n_apply_below cn).
  { intros sF L [pF HpF] [cF HcF] G1 G2 G3 G4 G5 G6 G7 G8.
    exists pF, cF.
    rewrite Fq in G4. rewrite Fa in G5. rewrite Fl in G6. rewrite Fb in G7.
    rewrite (fld_of_node _ _ _ _ HcF) in G1. rewrite (fld_of_node _ _ _ _ HcF) in G2.
    rewrite (fld_of_node _ _ _ _ HpF) in G3. rewrite (fld_of_node _ _ _ _ HpF) in G4.
    rewrite (fld_of_node _ _ _ _ HpF) in G5. rewrite (fld_of_node _ _ _ _ HpF) in G6.
    rewrite (fld_of_node _ _ _ _ HpF) in G7.
    injection G1 as G1. injection G2 as G2. injection G3 as G3. injection G4 as G4.
    injection G5 as G5. injection G6 as G6. injection G7 as G7.
    split; [exact HpF |]. split; [exact HcF |]. split; [apply G8; exact HcF |].
    split; [exact G2 |]. split; [exact G1 |].
    split; [| auto].
    rewrite G3, get3_set3 by assumption.
    destruct (decide (pos = pos)); congruence. }
  destruct l as [| f rest].
  - (* the first parent *)
    simpl in Hfirst. rewrite <- F2, Hfirst. simpl.
    upd_step2 c3 C3.
    eexists.
    match goal with
    | |- exists pn' cn', Some ?sF = Some _ /\ _ /\ _ /\ parent_list _ _ ?L /\ _ =>
        destruct (Hfin sF L) as (pn' & cn' & G)
    end.
    + live_solver2.
    + live_solver2.
    + frame_rw. exact Rf.
    + frame_rw. exact Pa.
    + frame_rw. erewrite fld_store_eq by eassumption. reflexivity.
    + frame_rw. reflexivity.
    + frame_rw. reflexivity.
    + frame_rw. reflexivity.
    + frame_rw. reflexivity.
    + intros cF HcF. erewrite node_at_store_eq in HcF by eassumption.
      injection HcF as <-.
      assert (Hone : parent_list
        (store_node (store_node s1 parent (wr_e (set3 (n_e p1) pos child) p1)) rc
           (wr_last_parent tagged (wr_first_parent tagged c3)))
        (wr_last_parent tagged (wr_first_parent tagged c3)) [tagged]).
      { repeat split; try reflexivity; try assumption.
        - links_rw. rewrite (same_links_prev _ _ _ SL). exact Hprev_t.
        - links_rw. rewrite (same_links_next _ _ _ SL). exact Hnext_t.
        - apply NoDup_singleton. }
      destruct (is_kind BTOR_APPLY_NODE pn); exact Hone.
    + exists pn', cn'. split; [reflexivity | exact G].
  - (* a list with a first parent [f] *)
    simpl in Hfirst.
    assert (Hf0 : 0 < f) by (eapply chain_nonzero; [exact Hchain | left]).
    destruct (Z.eqb_spec (n_first_parent c2) 0) as [E0 | _]; [lia |].
    field_back n_last_parent C2 (sl_last _ _ SL) Hc F3.
    assert (Hk : is_kind BTOR_APPLY_NODE p1 = is_kind BTOR_APPLY_NODE pn)
      by (unfold is_kind; rewrite K1; reflexivity).
    rewrite Hk. destruct (is_kind BTOR_APPLY_NODE pn) eqn:Happly; simpl.
    + (* an apply node goes to the tail *)
      set (lst := List.last (f :: rest) 0) in *.
      assert (Hlin : lst ∈ f :: rest) by (apply last_elem_of; discriminate).
      assert (Hl0 : 0 < lst) by (eapply chain_nonzero; eassumption).
      assert (Hlt : (btor_exp_get_tag lst < 3)%nat) by (eapply chain_tag; eassumption).
      assert (Hll : is_Some (node_at s (BTOR_REAL_ADDR_NODE lst)))
        by (eapply chain_live; eassumption).
      assert (Hdec : BTOR_TAG_NODE (BTOR_REAL_ADDR_NODE lst) (btor_exp_get_tag lst) = lst)
        by (apply tag_decompose; lia).
      assert (Hnel : tagged <> lst) by (intros E; apply Hfresh; rewrite E; exact Hlin).
      rewrite <- F3, Hlast.
      upd_step2 p3 P3. upd_step2 l4 P4. upd_step2 c5 P5.
      field_back n_first_parent P5 (sl_first _ _ SL) Hc F5.
      eexists.
      match goal with
      | |- exists pn' cn', Some ?sF = Some _ /\ _ /\ _ /\ parent_list _ _ ?L /\ _ =>
          destruct (Hfin sF L) as (pn' & cn' & G)
      end.
      * live_solver2.
      * live_solver2.
      * frame_rw. exact Rf.
      * frame_rw. exact Pa.
      * frame_rw. erewrite fld_store_eq by eassumption. reflexivity.
      * frame_rw. reflexivity.
      * frame_rw. reflexivity.
      * frame_rw. reflexivity.
      * frame_rw. reflexivity.
      * intros cF HcF. erewrite node_at_store_eq in HcF by eassumption.
        injection HcF as <-.
        split; [simpl; congruence |].
        split; [change (f :: rest ++ [tagged]) with ((f :: rest) ++ [tagged]);
                rewrite List.last_last; reflexivity |].
        split.
        -- change (f :: rest ++ [tagged]) with ((f :: rest) ++ [tagged]).
           eapply chain_snoc; try eassumption.
           ++ intros x Hx. links_rw.
              rewrite (prev_link_store_wr _ _ _ _ _ _ P3 Hpos).
              destruct (decide (x = BTOR_TAG_NODE parent pos)) as [Ex | _];
                [exfalso; apply Hfresh; fold tagged in Ex; rewrite <- Ex; exact Hx |].
              links_rw. apply same_links_prev. exact SL.
           ++ intros x Hx Hne. fold lst in Hne. links_rw.
              rewrite (next_link_store_wr _ _ _ _ _ _ P4 Hlt), Hdec.
              destruct (decide (x = lst)) as [Ex | _]; [contradiction |].
              links_rw. apply same_links_next. exact SL.
           ++ intros _. fold lst. links_rw.
              rewrite (next_link_store_wr _ _ _ _ _ _ P4 Hlt), Hdec.
              destruct (decide (lst = lst)); [reflexivity | congruence].
           ++ fold lst. links_rw. rewrite (prev_link_store_wr _ _ _ _ _ _ P3 Hpos).
              destruct (decide (tagged = BTOR_TAG_NODE parent pos)) as [_ | Hne];
                [reflexivity | exfalso; apply Hne; reflexivity].
           ++ links_rw.
              rewrite (next_link_store_wr _ _ _ _ _ _ P4 Hlt), Hdec.
              destruct (decide (tagged = lst)) as [Ex | _]; [contradiction |].
              links_rw. rewrite (same_links_next _ _ _ SL). exact Hnext_t.
        -- change (f :: rest ++ [tagged]) with ((f :: rest) ++ [tagged]).
           apply NoDup_app. split; [assumption |]. split; [| apply NoDup_singleton].
           intros x Hx Ht. apply list_elem_of_singleton in Ht. subst x. contradiction.
      * exists pn', cn'. split; [reflexivity | exact G].
    + (* any other parent goes to the head *)
      assert (Hfin' : f ∈ f :: rest) by left.
      assert (Hft : (btor_exp_get_tag f < 3)%nat) by (eapply chain_tag; eassumption).
      assert (Hfl : is_Some (node_at s (BTOR_REAL_ADDR_NODE f)))
        by (eapply chain_live; eassumption).
      assert (Hdec : BTOR_TAG_NODE (BTOR_REAL_ADDR_NODE f) (btor_exp_get_tag f) = f)
        by (apply tag_decompose; lia).
      assert (Hnef : tagged <> f) by (intros E; apply Hfresh; rewrite E; left).
      rewrite <- F2, Hfirst.
      upd_step2 p3 P3. upd_step2 f4 P4. upd_step2 c5 P5.
      field_back n_last_parent P5 (sl_last _ _ SL) Hc F5.
      eexists.
      match goal with
      | |- exists pn' cn', Some ?sF = Some _ /\ _ /\ _ /\ parent_list _ _ ?L /\ _ =>
          destruct (Hfin sF L) as (pn' & cn' & G)
      end.
      * live_solver2.
      * live_solver2.
      * frame_rw. exact Rf.
      * frame_rw. exact Pa.
      * frame_rw. erewrite fld_store_eq by eassumption. reflexivity.
      * frame_rw. reflexivity.
      * frame_rw. reflexivity.
      * frame_rw. reflexivity.
      * frame_rw. reflexivity.
      * intros cF HcF. erewrite node_at_store_eq in HcF by eassumption.
        injection HcF as <-.
        destruct Hchain as (_ & Hfp & Hfn & Hrest).
        apply NoDup_cons in Hnd as Hnd'. destruct Hnd' as [Hfrest Hndrest].
        split; [reflexivity |].
        split; [simpl n_last_parent; rewrite <- F5, Hlast; reflexivity |].
        split.
        -- cbn [is_parent_chain hd]. split; [exact Htag |].
           split.
           { links_rw. rewrite (prev_link_store_wr _ _ _ _ _ _ P4 Hft), Hdec.
             destruct (decide (tagged = f)) as [Ex | _]; [contradiction |].
             links_rw. rewrite (same_links_prev _ _ _ SL). exact Hprev_t. }
           split.
           { links_rw. rewrite (next_link_store_wr _ _ _ _ _ _ P3 Hpos).
             destruct (decide (tagged = BTOR_TAG_NODE parent pos)) as [_ | Hne];
               [reflexivity | exfalso; apply Hne; reflexivity]. }
           split; [exact Hft |].
           split.
           { links_rw. rewrite (prev_link_store_wr _ _ _ _ _ _ P4 Hft), Hdec.
             destruct (decide (f = f)); [reflexivity | congruence]. }
           split.
           { links_rw. rewrite (next_link_store_wr _ _ _ _ _ _ P3 Hpos).
             destruct (decide (f = BTOR_TAG_NODE parent pos)) as [Ex | _];
               [exfalso; apply Hnef; symmetry; exact Ex |].
             links_rw. rewrite (same_links_next _ _ _ SL). exact Hfn. }
           eapply chain_frame; [| exact Hrest].
           intros x Hx. split.
           ++ links_rw. rewrite (next_link_store_wr _ _ _ _ _ _ P3 Hpos).
              destruct (decide (x = BTOR_TAG_NODE parent pos)) as [Ex | _];
                [exfalso; apply Hfresh; fold tagged in Ex; rewrite <- Ex; right; exact Hx |].
              links_rw. apply same_links_next. exact SL.
           ++ links_rw. rewrite (prev_link_store_wr _ _ _ _ _ _ P4 Hft), Hdec.
              destruct (decide (x = f)) as [Ex | _];
                [exfalso; apply Hfrest; rewrite <- Ex; exact Hx |].
              links_rw. apply same_links_prev. exact SL.
        -- apply NoDup_cons. split; assumption.
      * exists pn', cn'. split; [reflexivity | exact G].
Qed.

(** *** What connecting leaves alone *)

Ltac stable_rw :=
  repeat first [ erewrite fld_store_frame by frame_side
               | erewrite fld_store_ne by eassumption ].

Lemma connect_child_exp_frame s parent child pos pn cn :
  node_at s parent = Some pn ->
  real_node s child = Some cn ->
  n_refs cn < INT_MAX ->
  (pos < 3)%nat ->
  links_live s ->
  exists s',
    connect_child_exp s parent child pos = Some s'
    /\ same_tables s s'
    /\ (forall x, is_Some (node_at s' x) <-> is_Some (node_at s x))
    /\ (forall x, x <> parent -> fld stable s' x = fld stable s x)
    /\ (forall x, fld shape s' x = fld shape s x)
    /\ fld n_e s' parent = Some (set3 (n_e pn) pos child)
    /\ (forall x, fld n_refs s' x
                  = (fun r => if decide (x = BTOR_REAL_ADDR_NODE child) then r + 1 else r)
                      <$> fld n_refs s x)
    /\ links_live s'.
Proof.
  intros Hp Hc Hr Hpos HLL.
  rewrite connect_child_exp_split.
  destruct (connect_prefix_spec s parent child pn cn Hp Hc Hr)
    as (s1 & E1 & SL & Hrefs1 & ST & _).
  rewrite E1. simpl. unfold real_node in Hc.
  set (rc := BTOR_REAL_ADDR_NODE child) in *.
  set (tagged := BTOR_TAG_NODE parent pos) in *.
  assert (Htl : is_Some (real_node s tagged)).
  { unfold real_node, tagged. pose proof Hp as Hi.
    apply node_at_inv in Hi as (_ & H3 & _ & _).
    rewrite real_addr_tag by (assumption || lia). eauto. }
  assert (Htag0 : tagged <> 0).
  { apply tag_node_neq_0. apply node_at_inv in Hp. tauto. }
  read_at2 parent p1 P1.
  upd_step2 p2 P2. unfold connect_suffix. fold rc. fold tagged.
  read_at2 rc c2 C2.
  field_back n_first_parent C2 (sl_first _ _ SL) Hc F2.
  field_back n_last_parent C2 (sl_last _ _ SL) Hc F3.
  field_back n_e P1 (sl_e _ _ SL) Hp F4.
  assert (P2eq : p2 = p1) by congruence. subst p2. clear P2.
  rewrite <- F2, <- F3.
  assert (Hfin : forall sF A B,
    same_tables s1 sF ->
    (forall x, is_Some (node_at sF x) <-> is_Some (node_at s1 x)) ->
    (forall x, x <> parent -> fld stable sF x = fld stable s1 x) ->
    (forall x, fld shape sF x = fld shape s1 x) ->
    fld n_e sF parent = Some (set3 (n_e p1) pos child) ->
    (forall x, fld n_refs sF x = fld n_refs s1 x) ->
    (forall x, fld n_first_parent sF x
               = if decide (x = rc) then Some A else fld n_first_parent s1 x) ->
    (forall x, fld n_last_parent sF x
               = if decide (x = rc) then Some B else fld n_last_parent s1 x) ->
    is_Some (real_node s A) -> is_Some (real_node s B) ->
    same_tables s sF
    /\ (forall x, is_Some (node_at sF x) <-> is_Some (node_at s x))
    /\ (forall x, x <> parent -> fld stable sF x = fld stable s x)
    /\ (forall x, fld shape sF x = fld shape s x)
    /\ fld n_e sF parent = Some (set3 (n_e pn) pos child)
    /\ (forall x, fld n_refs sF x
                  = (fun r => if decide (x = rc) then r + 1 else r) <$> fld n_refs s x)
    /\ links_live sF).
  { intros sF A B G1 G2 G3 G4 G5 G6 G7 G8 GA GB.
    assert (Hlive : forall x, is_Some (node_at sF x) <-> is_Some (node_at s x))
      by (intros x; rewrite G2; apply (sl_live _ _ SL)).
    split; [eapply same_tables_trans; [exact (sl_tables _ _ SL) | exact G1] |].
    split; [exact Hlive |].
    split; [intros x Hx; rewrite G3 by assumption; apply ST; assumption |].
    split; [intros x; rewrite G4; apply (sl_shape _ _ SL) |].
    split; [rewrite G5, F4; reflexivity |].
    split; [intros x; rewrite G6; apply Hrefs1 |].
    intros x n' Hn' Hf. unfold real_node. rewrite !Hlive.
    pose proof (G7 x) as H7. pose proof (G8 x) as H8.
    rewrite (fld_of_node _ _ _ _ Hn') in H7. rewrite (fld_of_node _ _ _ _ Hn') in H8.
    destruct (decide (x = rc)) as [-> | Hne].
    - injection H7 as ->. injection H8 as ->. split; assumption.
    - rewrite (sl_first _ _ SL) in H7. rewrite (sl_last _ _ SL) in H8.
      unfold fld in H7, H8. destruct (node_at s x) as [n0 |] eqn:Hn0; [| discriminate].
      simpl in H7, H8. injection H7 as H7. injection H8 as H8. rewrite H7, H8.
      apply (HLL x n0 Hn0). congruence. }
  destruct (Z.eqb_spec (n_first_parent cn) 0) as [E0 | E0].
  - upd_step2 c3 C3. eexists. split; [reflexivity |].
    apply (Hfin _ tagged tagged); try assumption.
    + repeat apply same_tables_store. apply same_tables_refl.
    + intros x. live_solver.
    + intros x Hx. stable_rw. reflexivity.
    + intros x. frame_rw. reflexivity.
    + frame_rw. erewrite fld_store_eq by eassumption. reflexivity.
    + intros x. frame_rw. reflexivity.
    + intros x. destruct (decide (x = rc)) as [-> | Hne].
      * erewrite fld_store_eq by eassumption. reflexivity.
      * erewrite fld_store_ne by eassumption. frame_rw. reflexivity.
    + intros x. destruct (decide (x = rc)) as [-> | Hne].
      * erewrite fld_store_eq by eassumption. reflexivity.
      * erewrite fld_store_ne by eassumption. frame_rw. reflexivity.
  - destruct (HLL rc cn Hc E0) as [Hfl Hll]. unfold real_node in Hfl, Hll.
    destruct (negb (is_kind BTOR_APPLY_NODE p1)).
    + upd_step2 p3 P3. upd_step2 f4 P4. upd_step2 c5 P5.
      eexists. split; [reflexivity |].
      apply (Hfin _ tagged (n_last_parent cn)); try assumption.
      * repeat apply same_tables_store. apply same_tables_refl.
      * intros x. live_solver.
      * intros x Hx. stable_rw. reflexivity.
      * intros x. frame_rw. reflexivity.
      * frame_rw. erewrite fld_store_eq by eassumption. reflexivity.
      * intros x. frame_rw. reflexivity.
      * intros x. destruct (decide (x = rc)) as [-> | Hne].
        -- erewrite fld_store_eq by eassumption. reflexivity.
        -- erewrite fld_store_ne by eassumption. frame_rw. reflexivity.
      * intros x. frame_rw.
        destruct (decide (x = rc)) as [-> | Hne]; [| reflexivity].
        rewrite (sl_last _ _ SL). apply fld_of_node. exact Hc.
    + upd_step2 p3 P3. upd_step2 f4 P4. upd_step2 c5 P5.
      eexists. split; [reflexivity |].
      apply (Hfin _ (n_first_parent cn) tagged); try assumption.
      * repeat apply same_tables_store. apply same_tables_refl.
      * intros x. live_solver.
      * intros x Hx. stable_rw. reflexivity.
      * intros x. frame_rw. reflexivity.
      * frame_rw. erewrite fld_store_eq by eassumption. reflexivity.
      * intros x. frame_rw. reflexivity.
      * intros x. frame_rw.
        destruct (decide (x = rc)) as [-> | Hne]; [| reflexivity].
        rewrite (sl_first _ _ SL). apply fld_of_node. exact Hc.
      * intros x. destruct (decide (x = rc)) as [-> | Hne].
        -- erewrite fld_store_eq by eassumption. reflexivity.
        -- erewrite fld_store_ne by eassumption. frame_rw. reflexivity.
Qed.

(** *** Connecting keeps the length of the id table *)

Lemma upd_node_length s p f s' :
  upd_node s p f = Some s' -> length (nodes_id_table s') = length (nodes_id_table s).
Proof.
  unfold upd_node. destruct (node_at s p); simpl; [| discriminate].
  intros [= <-]. apply length_store_node.
Qed.

Lemma inc_exp_ref_counter_length s h s' :
  inc_exp_ref_counter s h = Some s' ->
  length (nodes_id_table s') = length (nodes_id_table s).
Proof.
  unfold inc_exp_ref_counter. destruct (node_at s _); simpl; [| discriminate].
  destruct (_ =? _); [discriminate |]. intros [= <-]. apply length_store_node.
Qed.

Ltac length_step H :=
  lazymatch type of H with
  | (node_at ?s ?p ≫= _) = Some _ =>
      destruct (node_at s p); cbn [mbind option_bind] in H; [| discriminate H]
  | (upd_node ?s ?p ?f ≫= _) = Some _ =>
      let E := fresh "E" in
      destruct (upd_node s p f) eqn:E; cbn [mbind option_bind] in H;
      [apply upd_node_length in E | discriminate H]
  | (inc_exp_ref_counter ?s ?p ≫= _) = Some _ =>
      let E := fresh "E" in
      destruct (inc_exp_ref_counter s p) eqn:E; cbn [mbind option_bind] in H;
      [apply inc_exp_ref_counter_length in E | discriminate H]
  | ((if ?b then _ else _) ≫= _) = Some _ => destruct b
  | (Some _ ≫= _) = Some _ => cbn [mbind option_bind] in H
  | (if ?b then _ else _) = Some _ => destruct b
  | upd_node ?s ?p ?f = Some _ => apply upd_node_length in H
  | Some _ = Some _ => injection H as <-
  end.

Lemma connect_child_exp_length s parent child pos s' :
  connect_child_exp s parent child pos = Some s' ->
  length (nodes_id_table s') = length (nodes_id_table s).
Proof.
  intros H. unfold connect_child_exp in H.
  repeat length_step H; congruence.
Qed.

Lemma connect_children_length s parent e i s' :
  connect_children s parent e i = Some s' ->
  length (nodes_id_table s') = length (nodes_id_table s).
Proof.
  revert s i. induction e as [| c e IH]; intros s i; simpl.
  - intros [= <-]. reflexivity.
  - destruct (connect_child_exp s parent c i) as [s1 |] eqn:E; simpl; [| discriminate].
    intros H. apply IH in H. apply connect_child_exp_length in E. congruence.
Qed.

(** ** States that keep the stable part of every node *)

Lemma extends_refl s : extends s s.
Proof. intros x n H. eauto. Qed.

Lemma extends_trans s1 s2 s3 : extends s1 s2 -> extends s2 s3 -> extends s1 s3.
Proof.
  intros H12 H23 x n Hn. destruct (H12 x n Hn) as (n2 & Hn2 & E2).
  destruct (H23 x n2 Hn2) as (n3 & Hn3 & E3). exists n3. split; congruence.
Qed.

Lemma extends_of_fld s s' :
  (forall x, is_Some (node_at s x) -> fld stable s' x = fld stable s x) -> extends s s'.
Proof.
  intros H x n Hn. specialize (H x (ex_intro _ n Hn)).
  unfold fld in H. rewrite Hn in H.
  destruct (node_at s' x) as [n' |]; simpl in H; [| discriminate].
  exists n'. split; [reflexivity | congruence].
Qed.

Lemma extends_store s q n n' :
  node_at s q = Some n -> stable n' = stable n -> extends s (store_node s q n').
Proof.
  intros Hq E x m Hm. rewrite (node_at_store _ _ _ _ _ Hq).
  destruct (decide (x = q)) as [-> |]; [| eauto].
  exists n'. split; congruence.
Qed.

Lemma extends_push s x : extends s (wb_nodes_id_table (nodes_id_table s ++ [x]) s).
Proof. intros p n Hn. exists n. split; [apply node_at_push_old; exact Hn | reflexivity]. Qed.

(** Facts about a node that only depend on its stable part. *)
Ltac stable_fields H :=
  pose proof (f_equal n_kind H) as ?Hkind;
  pose proof (f_equal n_id H) as ?Hid;
  pose proof (f_equal n_arity H) as ?Harity;
  pose proof (f_equal n_e H) as ?He;
  pose proof (f_equal n_sort_id H) as ?Hsort;
  pose proof (f_equal n_simplified H) as ?Hsimp;
  pose proof (f_equal n_bits H) as ?Hbits;
  pose proof (f_equal n_upper H) as ?Hupper;
  pose proof (f_equal n_lower H) as ?Hlower;
  pose proof (f_equal n_parameterized H) as ?Hparam;
  simpl in *.

Lemma stable_children n n' : stable n' = stable n -> children n' = children n.
Proof. intros H. stable_fields H. unfold children. congruence. Qed.

Lemma extends_real_node s s' x n :
  extends s s' -> real_node s x = Some n ->
  exists n', real_node s' x = Some n' /\ stable n' = stable n.
Proof. intros H Hn. apply H. exact Hn. Qed.

Lemma extends_hash_bv_exp_loop s s' primes e h r :
  extends s s' ->
  hash_bv_exp_loop s primes e h = Some r -> hash_bv_exp_loop s' primes e h = Some r.
Proof.
  intros Hext. revert primes h. induction e as [| x e IH]; intros primes h.
  - destruct primes; simpl; intros H; exact H.
  - destruct primes as [| p primes]; simpl; [intros; discriminate |].
    destruct (real_node s x) as [n |] eqn:Hn; simpl; [| intros; discriminate].
    destruct (extends_real_node _ _ _ _ Hext Hn) as (n' & Hn' & E).
    rewrite Hn'. simpl. stable_fields E. rewrite Hid. apply IH.
Qed.

Lemma extends_hash_bv_exp s s' e r :
  extends s s' -> hash_bv_exp s e = Some r -> hash_bv_exp s' e = Some r.
Proof. apply extends_hash_bv_exp_loop. Qed.

Lemma extends_hash_slice_exp s s' e u l r :
  extends s s' -> hash_slice_exp s e u l = Some r -> hash_slice_exp s' e u l = Some r.
Proof.
  intros Hext. unfold hash_slice_exp.
  destruct (real_node s e) as [n |] eqn:Hn; simpl; [| discriminate].
  destruct (extends_real_node _ _ _ _ Hext Hn) as (n' & Hn' & E).
  rewrite Hn'. simpl. stable_fields E. rewrite Hid. auto.
Qed.

Lemma compute_hash_exp_raw s exp size :
  compute_hash_exp s exp size = (fun h => Z.land h (size - 1)) <$> raw_hash s exp.
Proof.
  unfold compute_hash_exp, raw_hash. destruct (node_at s exp) as [n |]; simpl; [| reflexivity].
  destruct (n_kind n); simpl;
    match goal with |- (?m ≫= _) = _ => destruct m; reflexivity end.
Qed.

Lemma extends_raw_hash s s' x h :
  extends s s' -> lambdas s' = lambdas s ->
  raw_hash s x = Some h -> raw_hash s' x = Some h.
Proof.
  intros Hext Hl. unfold raw_hash.
  destruct (node_at s x) as [n |] eqn:Hn; simpl; [| discriminate].
  destruct (Hext x n Hn) as (n' & Hn' & E). rewrite Hn'. simpl.
  pose proof (stable_children _ _ E) as Hch. stable_fields E.
  rewrite Hkind, Hbits, He, Hupper, Hlower, Hch, Hl.
  destruct (n_kind n); try apply (extends_hash_bv_exp _ _ _ _ Hext); auto.
  apply extends_hash_slice_exp. exact Hext.
Qed.

Lemma extends_pointer_chase s s' fuel fuel' h r :
  extends s s' -> (fuel <= fuel')%nat ->
  pointer_chase_simplified_exp fuel s h = Some r ->
  pointer_chase_simplified_exp fuel' s' h = Some r.
Proof.
  intros Hext. revert fuel' h. induction fuel as [| fuel IH]; intros fuel' h Hle; simpl;
    [discriminate |].
  destruct fuel' as [| fuel']; [lia |]. simpl.
  destruct (real_node s h) as [n |] eqn:Hn; simpl; [| discriminate].
  destruct (extends_real_node _ _ _ _ Hext Hn) as (n' & Hn' & E).
  rewrite Hn'. simpl. stable_fields E. rewrite Hsimp.
  destruct (n_simplified n =? 0); [auto |]. apply IH. lia.
Qed.

Lemma extends_simplify s s' h r :
  extends s s' -> (length (nodes_id_table s) <= length (nodes_id_table s'))%nat ->
  btor_simplify_exp s h = Some r -> btor_simplify_exp s' h = Some r.
Proof. intros Hext Hle. unfold btor_simplify_exp. apply extends_pointer_chase; assumption. Qed.

(** ** Lookup by id and by symbol *)

(** C9: the id of a freed slot and a symbol that no node carries make the
    matching lookups dereference null: [btor_match_node_by_id] and
    [btor_match_node_by_symbol] pass the null pointer they read to
    [btor_copy_exp], which reads its reference count.  The sibling lookups
    without the copy return null on the same inputs. *)
Theorem match_of_freed_id_or_unknown_symbol_faults (s : Btor) (id : Z) (sym : string) :
  0 < id < count_id_table s ->
  nodes_id_table s !! Z.to_nat id = Some None ->
  symbols s !! sym = None ->
  btor_match_node_by_id s id = None
  /\ btor_get_node_by_id s id = 0
  /\ btor_match_node_by_symbol s sym = None
  /\ btor_get_node_by_symbol s sym = 0.
Proof.
  intros Hid Hfree Hsym. repeat split.
  - apply btor_match_node_by_id_freed; [lia | exact Hfree].
  - unfold btor_get_node_by_id.
    destruct (Z.ltb_spec id 0); [lia |].
    rewrite Z.abs_eq by lia.
    destruct (Z.leb_spec (count_id_table s) id); [lia |].
    apply peek_id_table_freed. exact Hfree.
  - apply btor_match_node_by_symbol_unknown. exact Hsym.
  - unfold btor_get_node_by_symbol. rewrite Hsym. reflexivity.
Qed.

(** ** Buckets *)

Lemma land_upper_bound a b : 0 <= b -> 0 <= Z.land a b <= b.
Proof.
  intros Hb. split; [apply Z.land_nonneg; right; exact Hb |].
  assert (H : Z.ldiff (Z.land a b) b = 0).
  { apply Z.bits_inj'. intros n Hn.
    rewrite Z.ldiff_spec, Z.land_spec, Z.bits_0. destruct (Z.testbit a n), (Z.testbit b n); reflexivity. }
  apply Z.sub_nocarry_ldiff in H.
  assert (0 <= Z.ldiff b (Z.land a b)) by (apply Z.ldiff_nonneg; left; exact Hb).
  lia.
Qed.

Lemma bucket_of_lt size h : 0 < size -> (bucket_of size h < Z.to_nat size)%nat.
Proof.
  intros H. unfold bucket_of. pose proof (land_upper_bound h (size - 1)). lia.
Qed.

Lemma ut_size_pos s : ut_chains s <> [] -> 0 < ut_size s.
Proof. unfold ut_size. destruct (ut_chains s); [congruence | simpl; lia]. Qed.

Lemma bucket_lookup s h :
  ut_chains s <> [] -> is_Some (ut_chains s !! bucket_of (ut_size s) h).
Proof.
  intros H. apply lookup_lt_is_Some.
  pose proof (bucket_of_lt (ut_size s) h (ut_size_pos s H)) as Hlt.
  unfold ut_size in Hlt at 2. rewrite Nat2Z.id in Hlt. exact Hlt.
Qed.

(** ** Walks along a collision chain *)

Lemma find_chain_ext s s' T T' chain pos :
  (forall p n, p ∈ chain -> node_at s p = Some n ->
     exists n', node_at s' p = Some n' /\ T' p n' = T p n) ->
  (forall p, p ∈ chain -> is_Some (node_at s p)) ->
  find_chain s' T' chain pos = find_chain s T chain pos.
Proof.
  revert pos. induction chain as [| c chain IH]; intros pos H Hl; simpl; [reflexivity |].
  destruct (Hl c) as [n Hn]; [apply list_elem_of_here |].
  destruct (H c n) as (n' & Hn' & HT); [apply list_elem_of_here | exact Hn |].
  rewrite Hn, Hn'. simpl. rewrite HT. destruct (T c n) as [[|] |]; simpl; try reflexivity.
  apply IH; intros.
  - apply H; [apply list_elem_of_further |]; assumption.
  - apply Hl. apply list_elem_of_further. assumption.
Qed.

Lemma find_chain_total s T chain pos :
  (forall p, p ∈ chain -> exists n b, node_at s p = Some n /\ T p n = Some b) ->
  exists r, find_chain s T chain pos = Some r.
Proof.
  revert pos. induction chain as [| c chain IH]; intros pos H; simpl; [eauto |].
  destruct (H c) as (n & b & Hn & Hb); [apply list_elem_of_here |].
  rewrite Hn. simpl. rewrite Hb. simpl. destruct b; [eauto |].
  apply IH. intros p Hp. apply H. apply list_elem_of_further. exact Hp.
Qed.

Lemma find_chain_result s T chain pos r :
  find_chain s T chain pos = Some r ->
  (pos <= r <= pos + length chain)%nat
  /\ (forall j q, (j < r - pos)%nat -> chain !! j = Some q ->
        exists n, node_at s q = Some n /\ T q n = Some false)
  /\ (forall q, chain !! (r - pos)%nat = Some q ->
        exists n, node_at s q = Some n /\ T q n = Some true).
Proof.
  revert pos. induction chain as [| c chain IH]; intros pos; simpl.
  - intros [= <-]. split; [lia |]. split.
    + intros j q Hj. lia.
    + intros q Hq. rewrite lookup_nil in Hq. discriminate.
  - destruct (node_at s c) as [n |] eqn:Hn; simpl; [| discriminate].
    destruct (T c n) as [[|] |] eqn:Hb; simpl; try discriminate.
    + intros [= <-]. split; [lia |]. split.
      * intros j q Hj. lia.
      * rewrite Nat.sub_diag. simpl. intros q [= <-]. eauto.
    + intros Hr. destruct (IH _ Hr) as (Hrange & Hbefore & Hat).
      split; [lia |]. split.
      * intros j q Hj Hq. destruct j as [| j]; simpl in Hq.
        -- injection Hq as <-. eauto.
        -- apply (Hbefore j q); [lia | exact Hq].
      * intros q Hq. replace (r - pos)%nat with (S (r - S pos)) in Hq by lia.
        simpl in Hq. apply Hat. exact Hq.
Qed.

Lemma find_chain_rejects s T chain pos :
  (forall p, p ∈ chain -> exists n, node_at s p = Some n /\ T p n = Some false) ->
  find_chain s T chain pos = Some (pos + length chain)%nat.
Proof.
  revert pos. induction chain as [| c chain IH]; intros pos H; simpl.
  - f_equal. lia.
  - destruct (H c) as (n & Hn & Hb); [apply list_elem_of_here |].
    rewrite Hn. simpl. rewrite Hb. simpl. rewrite IH.
    + f_equal. lia.
    + intros p Hp. apply H. apply list_elem_of_further. exact Hp.
Qed.

Lemma find_chain_snoc s T chain p n pos :
  (forall q, q ∈ chain -> exists m, node_at s q = Some m /\ T q m = Some false) ->
  node_at s p = Some n -> T p n = Some true ->
  find_chain s T (chain ++ [p]) pos = Some (pos + length chain)%nat.
Proof.
  revert pos. induction chain as [| c chain IH]; intros pos H Hn Hb; simpl.
  - rewrite Hn. simpl. rewrite Hb. simpl. f_equal. lia.
  - destruct (H c) as (m & Hm & Hf); [apply list_elem_of_here |].
    rewrite Hm. simpl. rewrite Hf. simpl. rewrite IH; try assumption.
    + f_equal. lia.
    + intros q Hq. apply H. apply list_elem_of_further. exact Hq.
Qed.

(** A walk that ends at the end of the chain has rejected every node. *)
Lemma find_chain_miss s T chain r :
  find_chain s T chain 0 = Some r -> chain !! r = None ->
  forall q, q ∈ chain -> exists n, node_at s q = Some n /\ T q n = Some false.
Proof.
  intros Hr Hnone q Hq. destruct (find_chain_result _ _ _ _ _ Hr) as (Hrange & Hbefore & _).
  apply list_elem_of_lookup in Hq as (j & Hj).
  apply (Hbefore j q); [| exact Hj].
  pose proof (lookup_lt_Some _ _ _ Hj). apply lookup_ge_None in Hnone. lia.
Qed.

(** ** Growing the unique table *)

Lemma linked_nil_chains n p : ~ linked (replicate n []) p.
Proof.
  intros (b & chain & Hb & Hp). apply lookup_replicate in Hb as [-> _].
  apply elem_of_nil in Hp. exact Hp.
Qed.

Lemma linked_insert_cons chains b old x p :
  chains !! b = Some old ->
  linked (<[b := x :: old]> chains) p <-> p = x \/ linked chains p.
Proof.
  intros Hb. pose proof (lookup_lt_Some _ _ _ Hb) as Hlt. split.
  - intros (b' & chain & Hb' & Hp). destruct (decide (b' = b)) as [-> | Hne].
    + rewrite list_lookup_insert_eq in Hb' by exact Hlt. injection Hb' as <-.
      apply elem_of_cons in Hp as [-> | Hp]; [left; reflexivity |].
      right. exists b, old. split; assumption.
    + rewrite list_lookup_insert_ne in Hb' by congruence.
      right. exists b', chain. split; assumption.
  - intros [-> | (b' & chain & Hb' & Hp)].
    + exists b, (x :: old). split; [apply list_lookup_insert_eq; exact Hlt | apply list_elem_of_here].
    + destruct (decide (b' = b)) as [-> | Hne].
      * exists b, (x :: old). split; [apply list_lookup_insert_eq; exact Hlt |].
        assert (chain = old) by congruence. subst chain.
        apply list_elem_of_further. exact Hp.
      * exists b', chain. split; [| exact Hp].
        rewrite list_lookup_insert_ne by congruence. exact Hb'.
Qed.

Lemma rehash_chain_spec s m chain new :
  0 < m -> placed s m new ->
  (forall p, p ∈ chain -> is_Some (raw_hash s p)) ->
  exists new', rehash_chain s m chain new = Some new' /\ placed s m new'
    /\ forall p, linked new' p <-> p ∈ chain \/ linked new p.
Proof.
  intros Hm. revert new. induction chain as [| cur chain IH]; intros new Hpl Hh; simpl.
  - exists new. split; [reflexivity |]. split; [exact Hpl |].
    intros p. split; [auto |]. intros [H | H]; [apply elem_of_nil in H; contradiction | exact H].
  - destruct (Hh cur) as [h Hcur]; [apply list_elem_of_here |].
    rewrite compute_hash_exp_raw, Hcur. simpl.
    destruct Hpl as (Hlen & Hin).
    pose proof (bucket_of_lt m h Hm) as Hlt. unfold bucket_of in Hlt.
    destruct (lookup_lt_is_Some_2 new (Z.to_nat (Z.land h (m - 1)))) as [old Hold]; [lia |].
    rewrite Hold. simpl.
    destruct (IH (<[Z.to_nat (Z.land h (m - 1)) := cur :: old]> new)) as (new' & E & Hpl' & Hl').
    + split; [rewrite length_insert; exact Hlen |].
      intros b c p Hb Hp.
      destruct (decide (b = Z.to_nat (Z.land h (m - 1)))) as [-> | Hne].
      * rewrite list_lookup_insert_eq in Hb by lia. injection Hb as <-.
        apply elem_of_cons in Hp as [-> | Hp]; [exists h; split; [exact Hcur | reflexivity] |].
        apply (Hin _ old); assumption.
      * rewrite list_lookup_insert_ne in Hb by congruence. apply (Hin _ c); assumption.
    + intros p Hp. apply Hh. apply list_elem_of_further. exact Hp.
    + exists new'. split; [exact E |]. split; [exact Hpl' |].
      intros p. rewrite Hl', (linked_insert_cons _ _ _ _ _ Hold), elem_of_cons. tauto.
Qed.

Lemma rehash_chains_spec s m chains new :
  0 < m -> placed s m new ->
  (forall p, linked chains p -> is_Some (raw_hash s p)) ->
  exists new', rehash_chains s m chains new = Some new' /\ placed s m new'
    /\ forall p, linked new' p <-> linked chains p \/ linked new p.
Proof.
  intros Hm. revert new. induction chains as [| chain chains IH]; intros new Hpl Hh; simpl.
  - exists new. split; [reflexivity |]. split; [exact Hpl |].
    intros p. split; [auto |]. intros [(b & c & Hb & _) | H]; [| exact H].
    rewrite lookup_nil in Hb. discriminate.
  - destruct (rehash_chain_spec s m chain new Hm Hpl) as (new1 & E1 & Hpl1 & Hl1).
    { intros p Hp. apply Hh. exists 0%nat, chain. split; [reflexivity | exact Hp]. }
    rewrite E1. simpl.
    destruct (IH new1 Hpl1) as (new' & E & Hpl' & Hl').
    { intros p (b & c & Hb & Hp). apply Hh. exists (S b), c. split; assumption. }
    exists new'. split; [exact E |]. split; [exact Hpl' |].
    intros p. rewrite Hl', Hl1. split.
    + intros [(b & c & Hb & Hp) | [Hp | Hp]]; [| | right; exact Hp].
      * left. exists (S b), c. split; assumption.
      * left. exists 0%nat, chain. split; [reflexivity | exact Hp].
    + intros [(b & c & Hb & Hp) | Hp]; [| right; right; exact Hp].
      destruct b as [| b]; simpl in Hb.
      * injection Hb as <-. right. left. exact Hp.
      * left. exists b, c. split; assumption.
Qed.

Lemma extends_rechain s new : extends s (wb_ut_chains new s).
Proof. intros x n H. exists n. split; [exact H | reflexivity]. Qed.

Lemma extends_unchain s new : extends (wb_ut_chains new s) s.
Proof. intros x n H. exists n. split; [exact H | reflexivity]. Qed.

(** The table keeps its invariant when its nodes are linked again, each in
    the chain of its hash. *)
Lemma table_ok_rechain s new :
  table_ok s -> new <> [] -> placed s (Z.of_nat (length new)) new ->
  (forall p, linked new p <-> in_table s p) ->
  table_ok (wb_ut_chains new s).
Proof.
  intros Hok Hne (_ & Hpl) Hl. split.
  - exact Hne.
  - intros p Hp. apply Hl in Hp. apply (tk_live s Hok p Hp).
  - intros p n Hp. apply Hl in Hp. apply (tk_terminal s Hok p n Hp).
  - intros p n Hp. apply Hl in Hp. apply (tk_const s Hok p n Hp).
  - intros b chain p Hb Hp. destruct (Hpl b chain p Hb Hp) as (h & Hh & ->).
    exists h. split; [| reflexivity].
    apply (extends_raw_hash s); [apply extends_rechain | reflexivity | exact Hh].
  - intros p q np nq Hp Hq. apply Hl in Hp. apply Hl in Hq.
    apply (tk_canon s Hok p q np nq Hp Hq).
Qed.

Lemma enlarge_nodes_unique_table_spec s :
  table_ok s ->
  exists new,
    enlarge_nodes_unique_table s = Some (wb_ut_chains new s)
    /\ (forall p, linked new p <-> in_table s p)
    /\ table_ok (wb_ut_chains new s).
Proof.
  intros Hok. unfold enlarge_nodes_unique_table.
  pose proof (ut_size_pos s (tk_nonempty s Hok)) as Hpos.
  destruct (Z.eqb_spec (ut_size s) 0) as [E | _]; [lia |].
  destruct (rehash_chains_spec s (2 * ut_size s) (ut_chains s)
              (replicate (Z.to_nat (2 * ut_size s)) [])) as (new & E & Hpl & Hl).
  - lia.
  - split; [apply length_replicate |].
    intros b chain p Hb Hp. apply lookup_replicate in Hb as [-> _].
    apply elem_of_nil in Hp. contradiction.
  - intros p (b & chain & Hb & Hp).
    destruct (tk_bucket s Hok b chain p Hb Hp) as (h & Hh & _). eauto.
  - rewrite E. simpl. exists new. split; [reflexivity |].
    assert (Hiff : forall p, linked new p <-> in_table s p).
    { intros p. rewrite Hl. unfold in_table. split; [| auto].
      intros [H | H]; [exact H | apply linked_nil_chains in H; contradiction]. }
    split; [exact Hiff |].
    destruct Hpl as (Hlen & Hpl).
    apply table_ok_rechain; try assumption.
    + intros ->. simpl in Hlen. lia.
    + split; [lia |]. rewrite Hlen, Z2Nat.id by lia. exact Hpl.
Qed.

(** ** Lookups in the table *)

Lemma in_table_lookup s b chain i p :
  ut_chains s !! b = Some chain -> chain !! i = Some p -> in_table s p.
Proof. intros Hb Hi. exists b, chain. split; [exact Hb | eapply list_elem_of_lookup_2; exact Hi]. Qed.

Lemma in_table_live s p : table_ok s -> in_table s p -> p <> 0.
Proof.
  intros Hok Hp. destruct (tk_live s Hok p Hp) as [n Hn].
  apply node_at_inv in Hn. lia.
Qed.

(** The lookup ends on the first node that the test accepts, or at the end
    of the chain of the hash. *)
Lemma find_in_bucket_cases s h T :
  table_ok s -> total_on s T ->
  exists chain r,
    ut_chains s !! bucket_of (ut_size s) h = Some chain
    /\ find_in_bucket s h T = Some (mkLookup (bucket_of (ut_size s) h) r)
    /\ ((exists q n, chain !! r = Some q /\ node_at s q = Some n /\ T q n = Some true
                     /\ deref_lookup s (mkLookup (bucket_of (ut_size s) h) r) = q
                     /\ q <> 0 /\ in_table s q)
        \/ (r = length chain
            /\ deref_lookup s (mkLookup (bucket_of (ut_size s) h) r) = 0
            /\ forall q, q ∈ chain -> exists n, node_at s q = Some n /\ T q n = Some false)).
Proof.
  intros Hok Htot.
  destruct (bucket_lookup s h (tk_nonempty s Hok)) as [chain Hb].
  destruct (find_chain_total s T chain 0) as [r Hr].
  { intros p Hp. apply Htot. exists (bucket_of (ut_size s) h), chain. split; assumption. }
  exists chain, r. split; [exact Hb |]. split.
  { unfold find_in_bucket. rewrite Hb. simpl. rewrite Hr. reflexivity. }
  destruct (find_chain_result _ _ _ _ _ Hr) as (Hrange & Hbefore & Hat).
  rewrite Nat.sub_0_r in Hat. unfold deref_lookup. simpl. rewrite Hb.
  destruct (chain !! r) as [q |] eqn:Hq.
  - left. destruct (Hat q eq_refl) as (n & Hn & Hacc).
    exists q, n. repeat split; try assumption; try reflexivity.
    + apply node_at_inv in Hn. lia.
    + eapply in_table_lookup; eassumption.
  - right. split; [| split; [reflexivity |]].
    + apply lookup_ge_None in Hq. lia.
    + eapply find_chain_miss; eassumption.
Qed.

(** A test that rejects the chain of its hash rejects the whole table. *)
Lemma miss_is_global s h T chain :
  table_ok s -> total_on s T -> keyed s T h ->
  ut_chains s !! bucket_of (ut_size s) h = Some chain ->
  (forall q, q ∈ chain -> exists n, node_at s q = Some n /\ T q n = Some false) ->
  rejects_all s T.
Proof.
  intros Hok Htot Hkey Hb Hrej q Hq.
  destruct (Htot q Hq) as (n & [|] & Hn & Hacc); [| eauto].
  exfalso. pose proof (Hkey q n Hq Hn Hacc) as Hh.
  destruct Hq as (b' & chain' & Hb' & Hin).
  destruct (tk_bucket s Hok b' chain' q Hb' Hin) as (h' & Hh' & ->).
  assert (h' = h) by congruence. subst h'.
  assert (chain' = chain) by congruence. subst chain'.
  destruct (Hrej q Hin) as (n' & Hn' & Hf). congruence.
Qed.

Lemma find_in_bucket_rejected s h T :
  table_ok s -> rejects_all s T ->
  exists chain,
    ut_chains s !! bucket_of (ut_size s) h = Some chain
    /\ find_in_bucket s h T = Some (mkLookup (bucket_of (ut_size s) h) (length chain)).
Proof.
  intros Hok Hrej.
  destruct (bucket_lookup s h (tk_nonempty s Hok)) as [chain Hb].
  exists chain. split; [exact Hb |].
  unfold find_in_bucket. rewrite Hb. simpl.
  rewrite (find_chain_rejects s T chain 0); [reflexivity |].
  intros p Hp. apply Hrej. exists (bucket_of (ut_size s) h), chain. split; assumption.
Qed.

(** The lookup only reads the chains and the stable part of the nodes. *)
Lemma find_in_bucket_ext s s' h T :
  table_ok s -> stable_test T -> extends s s' -> ut_chains s' = ut_chains s ->
  find_in_bucket s' h T = find_in_bucket s h T.
Proof.
  intros Hok Hst Hext Hch. unfold find_in_bucket, ut_size. rewrite Hch.
  destruct (ut_chains s !! _) as [chain |] eqn:Hb; simpl; [| reflexivity].
  rewrite (find_chain_ext s s' T T chain 0); [reflexivity | |].
  - intros p n Hp Hn. destruct (Hext p n Hn) as (n' & Hn' & E).
    exists n'. split; [exact Hn' | apply Hst; exact E].
  - intros p Hp. apply (tk_live s Hok). eexists _, chain. split; eassumption.
Qed.

Lemma deref_lookup_ext s s' lk :
  ut_chains s' = ut_chains s -> deref_lookup s' lk = deref_lookup s lk.
Proof. intros H. unfold deref_lookup. rewrite H. reflexivity. Qed.

Lemma rechain_id s : wb_ut_chains (ut_chains s) s = s.
Proof. destruct s. reflexivity. Qed.

(** The table is grown when it is full, and the lookup is made again. *)
Lemma enlarge_if_full_spec {A : Type} s (found : A) (find : Btor -> option A)
    (P : Btor -> A -> Prop) :
  table_ok s -> P s found ->
  (forall new, table_ok (wb_ut_chains new s) ->
     (forall p, linked new p <-> in_table s p) ->
     exists r, find (wb_ut_chains new s) = Some r /\ P (wb_ut_chains new s) r) ->
  exists new r,
    enlarge_if_full s found find = Some (wb_ut_chains new s, r)
    /\ P (wb_ut_chains new s) r /\ table_ok (wb_ut_chains new s)
    /\ (forall p, linked new p <-> in_table s p).
Proof.
  intros Hok HP Hfind. unfold enlarge_if_full.
  destruct (BTOR_FULL_UNIQUE_TABLE s).
  - destruct (enlarge_nodes_unique_table_spec s Hok) as (new & E & Hl & Hok').
    rewrite E. simpl. destruct (Hfind new Hok' Hl) as (r & Er & HPr).
    rewrite Er. simpl. exists new, r. auto.
  - exists (ut_chains s), found. rewrite rechain_id.
    split; [reflexivity |]. split; [exact HP |]. split; [exact Hok |].
    intros p. reflexivity.
Qed.

(** ** Allocation and linking of a new node *)

Lemma setup_alloc s exp :
  count_id_table s <> INT_MAX ->
  setup_node_and_add_to_id_table s exp
  = Some (alloc_node s
            (let exp := wr_id (count_id_table s) (wr_refs 1 exp) in
             if is_kind BTOR_APPLY_NODE exp then wr_apply_below true exp else exp),
          ptr_of_id (length (nodes_id_table s))).
Proof. apply setup_node_spec. Qed.

Lemma node_at_alloc_old s n0 p n :
  node_at s p = Some n -> node_at (alloc_node s n0) p = Some n.
Proof. apply node_at_push_old. Qed.

Lemma node_at_alloc_new s n :
  (0 < length (nodes_id_table s))%nat ->
  node_at (alloc_node s n) (ptr_of_id (length (nodes_id_table s))) = Some n.
Proof. apply node_at_push_new. Qed.

Lemma node_at_beyond s : node_at s (ptr_of_id (length (nodes_id_table s))) = None.
Proof.
  destruct (node_at s _) as [n |] eqn:H; [| reflexivity].
  apply node_at_lt in H. rewrite id_of_ptr_of_id in H. lia.
Qed.

Lemma store_alloc s n0 n1 :
  store_node (alloc_node s n0) (ptr_of_id (length (nodes_id_table s))) n1 = alloc_node s n1.
Proof.
  unfold store_node, alloc_node. simpl. rewrite id_of_ptr_of_id.
  replace (length (nodes_id_table s)) with (length (nodes_id_table s) + 0)%nat at 1 by lia.
  rewrite insert_app_r. reflexivity.
Qed.

Lemma upd_alloc s n0 f :
  (0 < length (nodes_id_table s))%nat ->
  upd_node (alloc_node s n0) (ptr_of_id (length (nodes_id_table s))) f
  = Some (alloc_node s (f n0)).
Proof.
  intros H. unfold upd_node. rewrite node_at_alloc_new by exact H. simpl.
  rewrite store_alloc. reflexivity.
Qed.

Lemma extends_alloc s n : extends s (alloc_node s n).
Proof. apply extends_push. Qed.

Lemma stable_fld_extends s s' :
  (forall x, fld stable s' x = fld stable s x) -> extends s s'.
Proof. intros H. apply extends_of_fld. intros x _. apply H. Qed.

(** [key_match] reads the stable parts only. *)
Lemma key_match_stable n1 n2 n1' n2' :
  stable n1' = stable n1 -> stable n2' = stable n2 ->
  key_match n1' n2' = key_match n1 n2.
Proof.
  intros E1 E2. pose proof (stable_children _ _ E1) as Hch.
  stable_fields E1. stable_fields E2.
  unfold key_match, find_bv_exp_test, is_kind.
  rewrite Hkind, Hch, Hkind0, Harity0, He0. reflexivity.
Qed.

Lemma key_match_kind np nq : key_match np nq = true -> n_kind nq = n_kind np.
Proof.
  unfold key_match, find_bv_exp_test, is_kind.
  destruct (bool_decide_reflect (n_kind nq = n_kind np)); [auto | discriminate].
Qed.

Lemma ut_size_insert s b c s' :
  ut_chains s' = <[b := c]> (ut_chains s) -> ut_size s' = ut_size s.
Proof. intros H. unfold ut_size. rewrite H, length_insert. reflexivity. Qed.

Lemma linked_insert_snoc chains b old x p :
  chains !! b = Some old ->
  linked (<[b := old ++ [x]]> chains) p <-> p = x \/ linked chains p.
Proof.
  intros Hb. pose proof (lookup_lt_Some _ _ _ Hb) as Hlt. split.
  - intros (b' & chain & Hb' & Hp). destruct (decide (b' = b)) as [-> | Hne].
    + rewrite list_lookup_insert_eq in Hb' by exact Hlt. injection Hb' as <-.
      apply elem_of_app in Hp as [Hp | Hp].
      * right. exists b, old. split; assumption.
      * left. apply list_elem_of_singleton in Hp. exact Hp.
    + rewrite list_lookup_insert_ne in Hb' by congruence.
      right. exists b', chain. split; assumption.
  - intros [-> | (b' & chain & Hb' & Hp)].
    + exists b, (old ++ [x]). split; [apply list_lookup_insert_eq; exact Hlt |].
      apply elem_of_app. right. apply list_elem_of_here.
    + destruct (decide (b' = b)) as [-> | Hne].
      * exists b, (old ++ [x]). split; [apply list_lookup_insert_eq; exact Hlt |].
        assert (chain = old) by congruence. subst chain.
        apply elem_of_app. left. exact Hp.
      * exists b', chain. split; [| exact Hp].
        rewrite list_lookup_insert_ne by congruence. exact Hb'.
Qed.

(** A new node that no lookup accepts is linked at the end of the chain of
    its hash, and the table keeps its invariant. *)
Lemma insert_unique_spec s_e s_n p' n' b chain h :
  table_ok s_e -> extends s_e s_n -> lambdas s_n = lambdas s_e ->
  ut_chains s_n = ut_chains s_e ->
  node_at s_e p' = None -> node_at s_n p' = Some n' ->
  ut_chains s_e !! b = Some chain -> b = bucket_of (ut_size s_e) h ->
  raw_hash s_n p' = Some h -> n_simplified n' = 0 ->
  (n_kind n' = BTOR_BV_CONST_NODE ->
   is_Some (btor_get_width_bitvec_sort (n_sort_id n')) /\ is_Some (n_bits n')) ->
  (forall q nq, in_table s_e q -> node_at s_n q = Some nq ->
     hashed_by_children (n_kind n') = true ->
     key_match n' nq = false /\ key_match nq n' = false) ->
  let s1 := store_node
              (wb_ut_num_elements (ut_num_elements s_n + 1)
                 (wb_ut_chains (<[b := chain ++ [p']]> (ut_chains s_n)) s_n))
              p' (wr_unique true n') in
  insert_unique s_n (mkLookup b (length chain)) p' = Some s1
  /\ table_ok s1
  /\ (forall x, in_table s1 x <-> x = p' \/ in_table s_e x)
  /\ extends s_n s1.
Proof.
  intros Hok Hext Hlam Hch Hfresh Hnew Hb Hbh Hhash Hsimp Hconst Hcanon s1.
  assert (Hins : insert_unique s_n (mkLookup b (length chain)) p' = Some s1).
  { unfold insert_unique, write_lookup. simpl. rewrite Hch, Hb, firstn_all.
    unfold upd_node. simpl.
    change (node_at (wb_ut_num_elements _ (wb_ut_chains _ s_n)) p') with (node_at s_n p').
    rewrite Hnew. simpl. subst s1. rewrite Hch. reflexivity. }
  assert (Hn1 : forall x, node_at s1 x
                = if decide (x = p') then Some (wr_unique true n') else node_at s_n x).
  { intros x. subst s1. rewrite (node_at_store _ _ _ _ n'); [reflexivity | exact Hnew]. }
  assert (Hext1 : extends s_n s1).
  { intros x n Hx. rewrite Hn1. destruct (decide (x = p')) as [-> |]; [| eauto].
    exists (wr_unique true n'). split; [reflexivity |]. rewrite Hnew in Hx.
    injection Hx as <-. reflexivity. }
  assert (Hin : forall x, in_table s1 x <-> x = p' \/ in_table s_e x).
  { intros x. unfold in_table. subst s1. simpl. rewrite Hch.
    apply linked_insert_snoc. exact Hb. }
  assert (Hold : forall q, in_table s_e q -> q <> p').
  { intros q Hq ->. destruct (tk_live s_e Hok p' Hq) as [m Hm]. congruence. }
  assert (Hsize : ut_size s1 = ut_size s_e).
  { unfold ut_size. subst s1. simpl. rewrite Hch, length_insert. reflexivity. }
  assert (Hlam1 : lambdas s1 = lambdas s_e) by (subst s1; simpl; exact Hlam).
  assert (Hext_e : extends s_e s1) by (eapply extends_trans; eassumption).
  split; [exact Hins |]. split; [| split; [exact Hin | exact Hext1]].
  split.
  - subst s1. simpl. rewrite Hch. intros E.
    apply (f_equal length) in E. rewrite length_insert in E.
    apply (tk_nonempty s_e Hok). destruct (ut_chains s_e); [reflexivity | discriminate].
  - intros x Hx. apply Hin in Hx as [-> | Hx].
    + rewrite Hn1. destruct (decide (p' = p')); [eauto | contradiction].
    + destruct (tk_live s_e Hok x Hx) as [m Hm].
      destruct (Hext_e x m Hm) as (m' & Hm' & _). eauto.
  - intros x n Hx Hn. apply Hin in Hx as [-> | Hx].
    + rewrite Hn1 in Hn. destruct (decide (p' = p')); [| contradiction].
      injection Hn as <-. exact Hsimp.
    + destruct (tk_live s_e Hok x Hx) as [m Hm].
      destruct (Hext_e x m Hm) as (m' & Hm' & E). assert (m' = n) by congruence. subst m'.
      stable_fields E. rewrite Hsimp0. apply (tk_terminal s_e Hok x m Hx Hm).
  - intros x n Hx Hn Hk. apply Hin in Hx as [-> | Hx].
    + rewrite Hn1 in Hn. destruct (decide (p' = p')); [| contradiction].
      injection Hn as <-. apply Hconst. exact Hk.
    + destruct (tk_live s_e Hok x Hx) as [m Hm].
      destruct (Hext_e x m Hm) as (m' & Hm' & E). assert (m' = n) by congruence. subst m'.
      stable_fields E. rewrite Hsort, Hbits. apply (tk_const s_e Hok x m Hx Hm). congruence.
  - intros b' chain' x Hb' Hx. rewrite Hsize.
    assert (Hc1 : ut_chains s1 = <[b := chain ++ [p']]> (ut_chains s_e)).
    { subst s1. simpl. rewrite Hch. reflexivity. }
    rewrite Hc1 in Hb'. pose proof (lookup_lt_Some _ _ _ Hb) as Hlt.
    assert (Hx' : x = p' /\ b' = b \/ x ∈ (if decide (b' = b) then chain else chain')
                                       /\ ut_chains s_e !! b' = Some (if decide (b' = b) then chain else chain')).
    { destruct (decide (b' = b)) as [-> | Hne].
      - rewrite list_lookup_insert_eq in Hb' by exact Hlt. injection Hb' as <-.
        apply elem_of_app in Hx as [Hx | Hx]; [right; auto |].
        apply list_elem_of_singleton in Hx. left. auto.
      - rewrite list_lookup_insert_ne in Hb' by congruence. right. auto. }
    destruct Hx' as [(-> & ->) | (Hx' & Hb'')].
    + exists h. split; [| exact Hbh].
      apply (extends_raw_hash s_n); [exact Hext1 | congruence | exact Hhash].
    + destruct (tk_bucket s_e Hok b' _ x Hb'' Hx') as (hx & Hhx & Hbx).
      exists hx. split; [| exact Hbx].
      apply (extends_raw_hash s_e); [exact Hext_e | exact Hlam1 | exact Hhx].
  - intros p q np nq Hp Hq Hnp Hnq Hk Hm.
    apply Hin in Hp. apply Hin in Hq.
    destruct Hp as [-> | Hp], Hq as [-> | Hq]; [reflexivity | | |].
    + exfalso. rewrite Hn1 in Hnp, Hnq.
      destruct (decide (p' = p')); [| contradiction]. injection Hnp as <-.
      destruct (decide (q = p')) as [-> | _]; [apply (Hold p' Hq); reflexivity |].
      destruct (Hcanon q nq Hq Hnq Hk) as (H1 & _).
      rewrite (key_match_stable n' nq (wr_unique true n') nq) in Hm by reflexivity.
      congruence.
    + exfalso. rewrite Hn1 in Hnp, Hnq.
      destruct (decide (p' = p')); [| contradiction]. injection Hnq as <-.
      destruct (decide (p = p')) as [-> | _]; [apply (Hold p' Hp); reflexivity |].
      rewrite (key_match_stable np n' np (wr_unique true n')) in Hm by reflexivity.
      pose proof (key_match_kind _ _ Hm) as Hkk.
      destruct (Hcanon p np Hp Hnp) as (_ & H2); [congruence |]. congruence.
    + destruct (tk_live s_e Hok p Hp) as [mp Hmp]. destruct (tk_live s_e Hok q Hq) as [mq Hmq].
      destruct (Hext_e p mp Hmp) as (mp' & Hmp' & Ep).
      destruct (Hext_e q mq Hmq) as (mq' & Hmq' & Eq).
      assert (mp' = np) by congruence. assert (mq' = nq) by congruence. subst mp' mq'.
      apply (tk_canon s_e Hok p q mp mq Hp Hq Hmp Hmq).
      * stable_fields Ep. congruence.
      * rewrite <- (key_match_stable mp mq np nq) by assumption. exact Hm.
Qed.

(** ** Constants *)

Lemma node_at_real_addr s p n : node_at s p = Some n -> BTOR_REAL_ADDR_NODE p = p.
Proof.
  intros H. apply node_at_inv in H as (_ & _ & _ & H). rewrite <- H.
  apply real_addr_ptr_of_id.
Qed.

Lemma node_at_regular s p n : node_at s p = Some n -> BTOR_IS_INVERTED_NODE p = false.
Proof.
  intros H. apply node_at_inv in H as (_ & _ & _ & H). rewrite <- H.
  apply is_regular_ptr_of_id.
Qed.

Lemma btor_compare_bv_eq a b : btor_compare_bv a b = 0 -> a = b.
Proof.
  destruct a as [wa ba], b as [wb bb]. unfold btor_compare_bv. simpl.
  destruct (Z.eqb_spec wa wb); [| discriminate].
  destruct (Z.ltb_spec ba bb); [discriminate |].
  destruct (Z.ltb_spec bb ba); [discriminate |].
  intros _. f_equal; lia.
Qed.

Lemma btor_compare_bv_refl a : btor_compare_bv a a = 0.
Proof.
  unfold btor_compare_bv. rewrite Z.eqb_refl, Z.ltb_irrefl. reflexivity.
Qed.

Lemma btor_not_bv_involutive b : btor_not_bv (btor_not_bv b) = b.
Proof.
  destruct b as [w bits]. unfold btor_not_bv. simpl. f_equal.
  rewrite Z.lxor_assoc, Z.lxor_nilpotent. apply Z.lxor_0_r.
Qed.

Lemma btor_not_bv_lsb b :
  0 < bv_width b -> btor_get_bit_bv (btor_not_bv b) 0 = negb (btor_get_bit_bv b 0).
Proof.
  intros Hw. unfold btor_get_bit_bv, btor_not_bv. cbn [bv_bits bv_width].
  rewrite Z.lxor_spec, Z.ones_spec_low by lia. apply xorb_true_r.
Qed.

Lemma find_const_exp_test s bits :
  find_const_exp s bits = find_in_bucket s (btor_hash_bv bits) (const_test bits).
Proof. reflexivity. Qed.

Lemma const_test_stable bits : stable_test (const_test bits).
Proof.
  intros p n n' E. stable_fields E. unfold const_test, is_kind.
  rewrite Hkind, Hsort, Hbits. reflexivity.
Qed.

Lemma const_test_total s bits : table_ok s -> total_on s (const_test bits).
Proof.
  intros Hok p Hp. destruct (tk_live s Hok p Hp) as [n Hn]. exists n.
  unfold const_test, is_kind.
  destruct (bool_decide_reflect (n_kind n = BTOR_BV_CONST_NODE)) as [Hk |]; [| eauto].
  destruct (tk_const s Hok p n Hp Hn Hk) as ([w ->] & [cbits ->]). simpl.
  destruct (w =? bv_width bits); eauto.
Qed.

Lemma const_test_accepts bits p n :
  const_test bits p n = Some true ->
  n_kind n = BTOR_BV_CONST_NODE /\ n_bits n = Some bits.
Proof.
  unfold const_test, is_kind.
  destruct (bool_decide_reflect (n_kind n = BTOR_BV_CONST_NODE)) as [Hk |]; [| discriminate].
  destruct (btor_get_width_bitvec_sort (n_sort_id n)) as [w |]; simpl; [| discriminate].
  destruct (w =? bv_width bits); [| discriminate].
  destruct (n_bits n) as [cbits |]; simpl; [| discriminate].
  destruct (Z.eqb_spec (btor_compare_bv cbits bits) 0) as [E |]; [| discriminate].
  intros _. apply btor_compare_bv_eq in E. subst cbits. auto.
Qed.

Lemma const_test_keyed s bits : keyed s (const_test bits) (btor_hash_bv bits).
Proof.
  intros p n Hp Hn Hacc. apply const_test_accepts in Hacc as (Hk & Hb).
  unfold raw_hash. rewrite Hn. simpl. rewrite Hk, Hb. reflexivity.
Qed.

(** The invariant of the table reads the chains, the lambda hashes and the
    stable part of the nodes. *)
Lemma table_ok_extends s s' :
  table_ok s -> extends s s' -> ut_chains s' = ut_chains s -> lambdas s' = lambdas s ->
  table_ok s'.
Proof.
  intros Hok Hext Hch Hlam.
  assert (Hin : forall p, in_table s' p <-> in_table s p).
  { intros p. unfold in_table. rewrite Hch. reflexivity. }
  assert (Hnode : forall p n', in_table s p -> node_at s' p = Some n' ->
            exists n, node_at s p = Some n /\ stable n' = stable n).
  { intros p n' Hp Hn'. destruct (tk_live s Hok p Hp) as [n Hn].
    destruct (Hext p n Hn) as (n2 & Hn2 & E). exists n. split; [exact Hn | congruence]. }
  split.
  - rewrite Hch. apply (tk_nonempty s Hok).
  - intros p Hp. apply Hin in Hp. destruct (tk_live s Hok p Hp) as [n Hn].
    destruct (Hext p n Hn) as (n' & Hn' & _). eauto.
  - intros p n' Hp Hn'. apply Hin in Hp. destruct (Hnode p n' Hp Hn') as (n & Hn & E).
    stable_fields E. rewrite Hsimp. apply (tk_terminal s Hok p n Hp Hn).
  - intros p n' Hp Hn' Hk. apply Hin in Hp. destruct (Hnode p n' Hp Hn') as (n & Hn & E).
    stable_fields E. rewrite Hsort, Hbits. apply (tk_const s Hok p n Hp Hn). congruence.
  - intros b chain p Hb Hp. rewrite Hch in Hb.
    destruct (tk_bucket s Hok b chain p Hb Hp) as (h & Hh & ->).
    exists h. split; [apply (extends_raw_hash s); assumption |].
    unfold ut_size. rewrite Hch. reflexivity.
  - intros p q n1' n2' Hp Hq H1 H2 Hk Hm. apply Hin in Hp. apply Hin in Hq.
    destruct (Hnode p n1' Hp H1) as (n1 & Hn1 & E1).
    destruct (Hnode q n2' Hq H2) as (n2 & Hn2 & E2).
    apply (tk_canon s Hok p q n1 n2 Hp Hq Hn1 Hn2).
    + stable_fields E1. congruence.
    + rewrite <- (key_match_stable n1 n2 n1' n2') by assumption. exact Hm.
Qed.

(** A constant that the table holds is found, and shared. *)
Lemma const_node_hit s bits lk p n :
  find_const_exp s bits = Some lk -> deref_lookup s lk = p -> p <> 0 ->
  node_at s p = Some n -> n_refs n < INT_MAX ->
  const_node s bits = Some (store_node s p (wr_refs (n_refs n + 1) n), p).
Proof.
  intros Hf Hd Hp Hn Hr. unfold const_node. rewrite Hf. simpl. rewrite Hd.
  destruct (Z.eqb_spec p 0); [contradiction |].
  rewrite (inc_exp_ref_counter_ok s p n).
  - rewrite (node_at_real_addr _ _ _ Hn). simpl.
    rewrite (deref_lookup_ext s) by reflexivity. rewrite Hd. reflexivity.
  - unfold real_node. rewrite (node_at_real_addr _ _ _ Hn). exact Hn.
  - exact Hr.
Qed.

Lemma new_const_exp_node_spec s bits :
  1 <= count_id_table s -> count_id_table s < INT_MAX ->
  new_const_exp_node s bits
  = Some (alloc_node s (new_const_node s bits), ptr_of_id (length (nodes_id_table s))).
Proof.
  intros H1 Hmax. unfold new_const_exp_node.
  assert (Hlen : (0 < length (nodes_id_table s))%nat) by (unfold count_id_table in H1; lia).
  rewrite setup_alloc by lia. cbn [mbind option_bind].
  rewrite upd_alloc by exact Hlen. cbn [mbind option_bind].
  rewrite upd_alloc by exact Hlen. reflexivity.
Qed.

(** The lookup or allocation of a constant: the result is a constant node of
    the bits, which the next lookup of the bits finds; at most one node is
    allocated. *)
Lemma const_node_spec s bits :
  table_ok s -> 1 <= count_id_table s -> count_id_table s < INT_MAX ->
  (forall p n, in_table s p -> node_at s p = Some n -> n_refs n + 1 < INT_MAX) ->
  exists s1 p n lk,
    const_node s bits = Some (s1, p)
    /\ node_at s1 p = Some n /\ n_kind n = BTOR_BV_CONST_NODE /\ n_bits n = Some bits
    /\ n_refs n < INT_MAX
    /\ find_const_exp s1 bits = Some lk /\ deref_lookup s1 lk = p /\ p <> 0
    /\ (length (nodes_id_table s) <= length (nodes_id_table s1)
        <= S (length (nodes_id_table s)))%nat
    /\ table_ok s1 /\ extends s s1.
Proof.
  intros Hok Hc1 Hmax Hrefs.
  destruct (find_in_bucket_cases s (btor_hash_bv bits) (const_test bits) Hok
              (const_test_total s bits Hok))
    as (chain & r & Hb & Hf & [(q & n & Hq & Hn & Hacc & Hd & Hq0 & Hin) | (-> & Hd & Hrej)]).
  - (* found *)
    pose proof (Hrefs q n Hin Hn) as Hr.
    assert (Hext : extends s (store_node s q (wr_refs (n_refs n + 1) n))).
    { eapply extends_store; [exact Hn | reflexivity]. }
    exists (store_node s q (wr_refs (n_refs n + 1) n)), q, (wr_refs (n_refs n + 1) n),
      (mkLookup (bucket_of (ut_size s) (btor_hash_bv bits)) r).
    apply const_test_accepts in Hacc as (Hk & Hbits).
    split; [apply (const_node_hit s bits _ q n Hf Hd Hq0 Hn); lia |].
    split; [eapply node_at_store_eq; exact Hn |].
    split; [exact Hk |]. split; [exact Hbits |]. split; [simpl; lia |].
    split.
    { rewrite find_const_exp_test.
      rewrite (find_in_bucket_ext s); [exact Hf | exact Hok | apply const_test_stable
                                       | exact Hext | reflexivity]. }
    split; [exact Hd |]. split; [exact Hq0 |].
    split; [rewrite length_store_node; lia |].
    split; [| exact Hext].
    apply (table_ok_extends s); [exact Hok | exact Hext | reflexivity | reflexivity].
  - (* not found: the table is grown when full, and the node allocated *)
    set (h := btor_hash_bv bits) in *. set (T := const_test bits) in *.
    assert (Hglob : rejects_all s T).
    { apply (miss_is_global s h T chain); try assumption.
      - apply const_test_total. exact Hok.
      - apply const_test_keyed. }
    destruct (enlarge_if_full_spec s
                (mkLookup (bucket_of (ut_size s) h) (length chain))
                (fun s => find_const_exp s bits)
                (fun s' lk' => exists chain',
                   ut_chains s' !! bucket_of (ut_size s') h = Some chain'
                   /\ lk' = mkLookup (bucket_of (ut_size s') h) (length chain')) Hok)
      as (new & lk_e & Eenl & (chain' & Hb' & ->) & Hok_e & Hl).
    { exists chain. auto. }
    { intros new Hok' Hl'.
      destruct (find_in_bucket_rejected (wb_ut_chains new s) h T Hok') as (c & Hc & Hfc).
      - intros q Hq. apply Hl' in Hq. apply Hglob. exact Hq.
      - eexists. split; [exact Hfc |]. exists c. auto. }
    set (s_e := wb_ut_chains new s) in *.
    assert (Hglob_e : rejects_all s_e T).
    { intros q Hq. apply Hl in Hq. apply Hglob. exact Hq. }
    assert (Hlen : (0 < length (nodes_id_table s_e))%nat).
    { unfold count_id_table in Hc1. simpl. lia. }
    set (n' := new_const_node s_e bits).
    set (p' := ptr_of_id (length (nodes_id_table s_e))).
    assert (Hnew : new_const_exp_node s_e bits = Some (alloc_node s_e n', p')).
    { apply new_const_exp_node_spec; assumption. }
    destruct (insert_unique_spec s_e (alloc_node s_e n') p' n'
                (bucket_of (ut_size s_e) h) chain' h)
      as (Hins & Hok1 & Hin1 & Hext1); try assumption; try reflexivity.
    { apply extends_alloc. }
    { apply node_at_beyond. }
    { apply node_at_alloc_new. exact Hlen. }
    { unfold raw_hash. rewrite node_at_alloc_new by exact Hlen. reflexivity. }
    { intros _. split; eexists; reflexivity. }
    { intros q nq _ _ Hk. discriminate Hk. }
    match type of Hins with _ = Some ?x => set (s1 := x) in * end.
    assert (Hp1 : node_at s1 p' = Some (wr_unique true n')).
    { eapply node_at_store_eq. apply node_at_alloc_new. exact Hlen. }
    assert (Hext_e1 : extends s_e s1).
    { eapply extends_trans; [apply extends_alloc | exact Hext1]. }
    exists s1, p', (wr_unique true n'),
      (mkLookup (bucket_of (ut_size s_e) h) (length chain')).
    split.
    { unfold const_node. rewrite find_const_exp_test. fold h T. rewrite Hf. simpl.
      rewrite Hd. simpl. rewrite Eenl. simpl. rewrite Hnew. simpl.
      rewrite Hins. reflexivity. }
    split; [exact Hp1 |]. split; [reflexivity |]. split; [reflexivity |].
    split; [vm_compute; reflexivity |].
    assert (Hsz : ut_size s1 = ut_size s_e).
    { unfold ut_size. simpl. rewrite length_insert. reflexivity. }
    assert (Hc1' : ut_chains s1 !! bucket_of (ut_size s_e) h = Some (chain' ++ [p'])).
    { simpl. apply list_lookup_insert_eq. eapply lookup_lt_Some. exact Hb'. }
    split.
    { rewrite find_const_exp_test. fold h T. unfold find_in_bucket. rewrite Hsz, Hc1'. simpl.
      rewrite (find_chain_snoc s1 T chain' p' (wr_unique true n') 0); [reflexivity | | exact Hp1 |].
      - intros q Hq. destruct (Hglob_e q) as (m & Hm & Hrj).
        { exists (bucket_of (ut_size s_e) h), chain'. split; assumption. }
        destruct (Hext_e1 q m Hm) as (m' & Hm' & E). exists m'. split; [exact Hm' |].
        rewrite <- Hrj. apply const_test_stable. exact E.
      - unfold T, const_test. simpl. rewrite Z.eqb_refl. simpl.
        unfold btor_copy_bv. rewrite btor_compare_bv_refl. reflexivity. }
    split.
    { unfold deref_lookup. cbn [lk_bucket lk_pos]. rewrite Hc1'.
      rewrite lookup_app_r by lia. rewrite Nat.sub_diag. reflexivity. }
    split; [pose proof (ptr_of_id_pos _ Hlen); unfold p'; lia |].
    split.
    { unfold s1. rewrite length_store_node. simpl. rewrite length_app. simpl. lia. }
    split; [exact Hok1 |].
    eapply extends_trans; [apply (extends_rechain s new) | exact Hext_e1].
Qed.

Lemma btor_const_exp_unfold s b :
  btor_const_exp s b
  = '(s1, p) ← const_node s (if btor_get_bit_bv b 0 then btor_not_bv b else b);
    Some (s1, if btor_get_bit_bv b 0 then BTOR_INVERT_NODE p else p).
Proof.
  unfold btor_const_exp, const_node. unfold btor_copy_bv.
  destruct (btor_get_bit_bv b 0);
    match goal with |- (?m ≫= _) = _ => destruct m; reflexivity end.
Qed.

(** C2: [btor_const_exp] stores the bits with least significant bit [0]: for
    a value [b] with least significant bit [1] it looks up or allocates the
    node of [not b] and returns its inverted handle, otherwise the regular
    handle of the node of [b].  The constant of [not b], built next, is the
    same node under the other inversion tag, and its construction allocates
    no node; the two constructions together allocate at most one. *)
Theorem btor_const_exp_shares_the_complement (s : Btor) (b : BtorBitVector) :
  table_ok s -> 1 <= count_id_table s -> count_id_table s < INT_MAX ->
  (forall p n, in_table s p -> node_at s p = Some n -> n_refs n + 1 < INT_MAX) ->
  0 < bv_width b ->
  let stored := if btor_get_bit_bv b 0 then btor_not_bv b else b in
  exists s1 p1 s2 p2 n,
    btor_const_exp s b = Some (s1, p1)
    /\ btor_const_exp s1 (btor_not_bv b) = Some (s2, p2)
    /\ BTOR_REAL_ADDR_NODE p1 = BTOR_REAL_ADDR_NODE p2
    /\ p2 = BTOR_INVERT_NODE p1
    /\ BTOR_IS_INVERTED_NODE p1 = btor_get_bit_bv b 0
    /\ BTOR_IS_INVERTED_NODE p2 = negb (btor_get_bit_bv b 0)
    /\ real_node s2 p1 = Some n
    /\ n_kind n = BTOR_BV_CONST_NODE /\ n_bits n = Some stored
    /\ btor_get_bit_bv stored 0 = false
    /\ length (nodes_id_table s2) = length (nodes_id_table s1)
    /\ (length (nodes_id_table s1) <= S (length (nodes_id_table s)))%nat.
Proof.
  intros Hok Hc1 Hmax Hrefs Hw stored.
  destruct (const_node_spec s stored Hok Hc1 Hmax Hrefs)
    as (s1 & p & n & lk & E1 & Hn & Hk & Hbits & Hr & Hf & Hd & Hp0 & Hlen & Hok1 & Hext).
  pose proof (const_node_hit s1 stored lk p n Hf Hd Hp0 Hn Hr) as E2.
  set (s2 := store_node s1 p (wr_refs (n_refs n + 1) n)) in *.
  assert (Hstored2 : (if btor_get_bit_bv (btor_not_bv b) 0
                      then btor_not_bv (btor_not_bv b) else btor_not_bv b) = stored).
  { rewrite btor_not_bv_lsb by exact Hw. unfold stored.
    destruct (btor_get_bit_bv b 0); simpl; [reflexivity | apply btor_not_bv_involutive]. }
  pose proof (node_at_real_addr _ _ _ Hn) as Hreal.
  pose proof (node_at_regular _ _ _ Hn) as Hreg.
  exists s1, (if btor_get_bit_bv b 0 then BTOR_INVERT_NODE p else p),
    s2, (if btor_get_bit_bv (btor_not_bv b) 0 then BTOR_INVERT_NODE p else p),
    (wr_refs (n_refs n + 1) n).
  split; [rewrite btor_const_exp_unfold; fold stored; rewrite E1; reflexivity |].
  split; [rewrite btor_const_exp_unfold, Hstored2, E2; reflexivity |].
  rewrite btor_not_bv_lsb by exact Hw.
  assert (Hnode2 : node_at s2 p = Some (wr_refs (n_refs n + 1) n)).
  { eapply node_at_store_eq. exact Hn. }
  assert (Hlsb : btor_get_bit_bv stored 0 = false).
  { unfold stored. destruct (btor_get_bit_bv b 0) eqn:Eb; [| exact Eb].
    rewrite btor_not_bv_lsb by exact Hw. rewrite Eb. reflexivity. }
  assert (Hlen2 : length (nodes_id_table s2) = length (nodes_id_table s1)).
  { apply length_store_node. }
  unfold real_node.
  destruct (btor_get_bit_bv b 0); simpl;
    rewrite ?real_addr_invert, ?invert_invert, ?is_inverted_invert, ?Hreal, ?Hreg;
    repeat split; try reflexivity; try assumption; try lia.
Qed.

(** ** Lookups by kind and children *)

Lemma linked_empty p : ~ linked [[]] p.
Proof.
  intros (b & chain & Hb & Hp). destruct b as [| b]; simpl in Hb.
  - injection Hb as <-. apply elem_of_nil in Hp. exact Hp.
  - rewrite lookup_nil in Hb. discriminate.
Qed.

(** The initial state has an empty unique table. *)
Lemma table_ok_new : table_ok btor_new_btor.
Proof.
  split; simpl.
  - discriminate.
  - intros p Hp. apply linked_empty in Hp. contradiction.
  - intros p n Hp. apply linked_empty in Hp. contradiction.
  - intros p n Hp. apply linked_empty in Hp. contradiction.
  - intros b chain p Hb Hp. exfalso. apply (linked_empty p). exists b, chain. auto.
  - intros p q np nq Hp. apply linked_empty in Hp. contradiction.
Qed.

Lemma bv_test_stable kind e : stable_test (fun _ n => Some (find_bv_exp_test kind e n)).
Proof.
  intros p n n' E. stable_fields E. unfold find_bv_exp_test, is_kind.
  rewrite Hkind, Harity, He. reflexivity.
Qed.

Lemma bv_test_total s kind e :
  table_ok s -> total_on s (fun _ n => Some (find_bv_exp_test kind e n)).
Proof. intros Hok p Hp. destruct (tk_live s Hok p Hp) as [n Hn]. eauto. Qed.

Lemma btor_simplify_exp_invert s a :
  btor_simplify_exp s a = Some a ->
  btor_simplify_exp s (BTOR_INVERT_NODE a) = Some (BTOR_INVERT_NODE a).
Proof.
  intros H. destruct (btor_simplify_exp_result _ _ _ H) as (n & Hn & Hs).
  apply (btor_simplify_exp_terminal _ _ n); [rewrite real_node_invert; exact Hn | exact Hs].
Qed.

Lemma invert_eqb a b : (BTOR_INVERT_NODE a =? BTOR_INVERT_NODE b) = (a =? b).
Proof.
  destruct (Z.eqb_spec a b) as [-> | Hne]; [apply Z.eqb_refl |].
  destruct (Z.eqb_spec (BTOR_INVERT_NODE a) (BTOR_INVERT_NODE b)) as [E |]; [| reflexivity].
  exfalso. apply Hne. rewrite <- (invert_invert a), <- (invert_invert b). congruence.
Qed.

Lemma invert_eqb_swap a b : (BTOR_INVERT_NODE a =? b) = (a =? BTOR_INVERT_NODE b).
Proof. rewrite <- (invert_eqb (BTOR_INVERT_NODE a) b), invert_invert. reflexivity. Qed.



(** A lookup that finds a node shares it. *)
Lemma create_exp_hit s kind e e' lk p n :
  kind <> BTOR_LAMBDA_NODE -> simplify_all s e = Some e ->
  find_bv_exp s kind e = Some (e', lk) -> deref_lookup s lk = p -> p <> 0 ->
  node_at s p = Some n -> n_refs n < INT_MAX ->
  create_exp s kind e = Some (store_node s p (wr_refs (n_refs n + 1) n), p).
Proof.
  intros Hk Hsimp Hf Hd Hp Hn Hr. unfold create_exp, find_exp.
  rewrite Hsimp. cbn [mbind option_bind].
  destruct (bool_decide_reflect (kind = BTOR_LAMBDA_NODE)); [contradiction |].
  cbn [mbind option_bind]. rewrite Hf. cbn [mbind option_bind]. rewrite Hd.
  destruct (Z.eqb_spec p 0); [contradiction |].
  rewrite (inc_exp_ref_counter_ok s p n).
  - rewrite (node_at_real_addr _ _ _ Hn). cbn [mbind option_bind].
    rewrite (deref_lookup_ext s) by reflexivity. rewrite Hd. reflexivity.
  - unfold real_node. rewrite (node_at_real_addr _ _ _ Hn). exact Hn.
  - exact Hr.
Qed.




(** ** Connecting the children of a new node *)

Lemma occurrences_bounds x e : 0 <= occurrences x e <= Z.of_nat (length e).
Proof.
  induction e as [| c e IH]; simpl; [lia |].
  destruct (decide (x = BTOR_REAL_ADDR_NODE c)); lia.
Qed.

Lemma occurrences_pos c e : c ∈ e -> 1 <= occurrences (BTOR_REAL_ADDR_NODE c) e.
Proof.
  induction e as [| d e IH]; intros H; [apply elem_of_nil in H; contradiction |].
  simpl. pose proof (occurrences_bounds (BTOR_REAL_ADDR_NODE c) e).
  apply elem_of_cons in H as [<- | H].
  - destruct (decide (BTOR_REAL_ADDR_NODE c = BTOR_REAL_ADDR_NODE c)); [lia | contradiction].
  - specialize (IH H). destruct (decide (_ = _)); lia.
Qed.

Lemma children_fill3 a e :
  (length e <= 3)%nat -> map (get3 (fill3 a 0 e)) (seq 0 (length e)) = e.
Proof.
  destruct e as [| x [| y [| z [| w e]]]]; simpl; intros H; try reflexivity; lia.
Qed.

Lemma fld_some {A} (proj : BtorNode -> A) s x v :
  fld proj s x = Some v -> exists n, node_at s x = Some n /\ proj n = v.
Proof.
  unfold fld. destruct (node_at s x) as [n |]; simpl; [| discriminate].
  intros [= <-]. eauto.
Qed.

Lemma connect_children_frame bound s parent e i pn :
  node_at s parent = Some pn -> (i + length e <= 3)%nat -> links_live s ->
  (forall c, c ∈ e -> is_Some (real_node s c)) ->
  refs_within bound s -> bound + Z.of_nat (length e) < INT_MAX ->
  exists s',
    connect_children s parent e i = Some s'
    /\ same_tables s s'
    /\ (forall x, is_Some (node_at s' x) <-> is_Some (node_at s x))
    /\ (forall x, x <> parent -> fld stable s' x = fld stable s x)
    /\ (forall x, fld shape s' x = fld shape s x)
    /\ fld n_e s' parent = Some (fill3 (n_e pn) i e)
    /\ (forall x, fld n_refs s' x = (fun r => r + occurrences x e) <$> fld n_refs s x)
    /\ links_live s'.
Proof.
  revert bound s i pn. induction e as [| c e IH]; intros bound s i pn Hp Hi HLL Hlive Hrefs Hb.
  - exists s. simpl. split; [reflexivity |]. split; [apply same_tables_refl |].
    split; [reflexivity |]. split; [reflexivity |]. split; [reflexivity |].
    split; [apply fld_of_node; exact Hp |]. split; [| exact HLL].
    intros x. unfold fld. destruct (node_at s x); simpl; [f_equal; lia | reflexivity].
  - simpl in Hi, Hb.
    destruct (Hlive c) as [cn Hc]; [apply list_elem_of_here |].
    destruct (connect_child_exp_frame s parent c i pn cn Hp Hc)
      as (s1 & E1 & T1 & L1 & S1 & Sh1 & Ne1 & R1 & LL1); try assumption; try lia.
    { pose proof (Hrefs _ _ Hc). lia. }
    destruct (fld_some _ _ _ _ Ne1) as (pn1 & Hp1 & Hne1).
    destruct (IH (bound + 1) s1 (S i) pn1) as (s' & E & T & L & S & Sh & Ne & R & LL);
      try assumption; try lia.
    { intros d Hd. unfold real_node. apply L1. apply Hlive.
      apply list_elem_of_further. exact Hd. }
    { intros x n Hx. specialize (R1 x). rewrite (fld_of_node _ _ _ _ Hx) in R1.
      symmetry in R1. apply fmap_Some in R1 as (r & Hr & Hn).
      apply fld_some in Hr as (n0 & Hn0 & <-). pose proof (Hrefs x n0 Hn0).
      destruct (decide (x = BTOR_REAL_ADDR_NODE c)); lia. }
    exists s'. simpl. rewrite E1. simpl.
    split; [exact E |]. split; [eapply same_tables_trans; eassumption |].
    split; [intros x; rewrite L; apply L1 |].
    split; [intros x Hx; rewrite S by exact Hx; apply S1; exact Hx |].
    split; [intros x; rewrite Sh; apply Sh1 |].
    split; [rewrite Ne, Hne1; reflexivity |].
    split; [| exact LL].
    intros x. rewrite R, R1. unfold fld. destruct (node_at s x); simpl; [| reflexivity].
    f_equal. destruct (decide (x = BTOR_REAL_ADDR_NODE c)); lia.
Qed.

(** ** Allocation of an args node *)

Lemma same_tables_chains s s' : same_tables s s' -> ut_chains s' = ut_chains s.
Proof. unfold same_tables. intros H. rewrite H. reflexivity. Qed.

Lemma same_tables_lambdas s s' : same_tables s s' -> lambdas s' = lambdas s.
Proof. unfold same_tables. intros H. rewrite H. reflexivity. Qed.

Lemma same_tables_num s s' : same_tables s s' -> ut_num_elements s' = ut_num_elements s.
Proof. unfold same_tables. intros H. rewrite H. reflexivity. Qed.

Lemma node_at_alloc_inv s n0 x n :
  (0 < length (nodes_id_table s))%nat ->
  node_at (alloc_node s n0) x = Some n ->
  x = ptr_of_id (length (nodes_id_table s)) /\ n = n0 \/ node_at s x = Some n.
Proof.
  intros Hlen H. pose proof (node_at_inv _ _ _ H) as (Hx & H3 & Hl & Hptr).
  destruct (decide (id_of_ptr x = length (nodes_id_table s))) as [E | Hne].
  - left. rewrite <- E, Hptr. split; [reflexivity |].
    rewrite <- Hptr, E, node_at_alloc_new in H by exact Hlen. congruence.
  - right. pose proof (lookup_lt_Some _ _ _ Hl) as Hlt.
    unfold alloc_node in Hlt, Hl. simpl in Hlt, Hl. rewrite length_app in Hlt. simpl in Hlt.
    rewrite lookup_app_l in Hl by lia.
    rewrite <- Hptr. apply node_at_intro; [| exact Hl].
    eapply node_at_id_pos. exact H.
Qed.

Lemma links_live_alloc s n0 :
  (0 < length (nodes_id_table s))%nat -> n_first_parent n0 = 0 ->
  links_live s -> links_live (alloc_node s n0).
Proof.
  intros Hlen H0 HLL x n Hx Hfp.
  apply node_at_alloc_inv in Hx as [(-> & ->) | Hx]; [contradiction | | exact Hlen].
  destruct (HLL x n Hx Hfp) as ([a Ha] & [b Hb]).
  split; eexists; apply node_at_alloc_old; eassumption.
Qed.

Lemma links_live_store s q n n' :
  node_at s q = Some n ->
  n_first_parent n' = n_first_parent n -> n_last_parent n' = n_last_parent n ->
  links_live s -> links_live (store_node s q n').
Proof.
  intros Hq Hf Hl HLL x m Hx Hfp.
  rewrite (node_at_store _ _ _ _ _ Hq) in Hx.
  assert (Hm : exists m0, node_at s x = Some m0 /\ n_first_parent m0 = n_first_parent m
                          /\ n_last_parent m0 = n_last_parent m).
  { destruct (decide (x = q)) as [-> |]; [| eauto].
    injection Hx as <-. exists n. auto. }
  destruct Hm as (m0 & Hm0 & E1 & E2).
  destruct (HLL x m0 Hm0) as (Ha & Hb); [congruence |].
  rewrite <- E1, <- E2. unfold real_node. split; apply (live_store _ _ _ _ _ Hq); assumption.
Qed.

Lemma args_sorts_total s e :
  (forall c, c ∈ e -> exists n, real_node s c = Some n
       /\ (is_Some (n_sort_id n) \/ n_kind n = BTOR_ARGS_NODE)) ->
  is_Some (args_sorts s e).
Proof.
  induction e as [| c e IH]; intros H; simpl; [eauto |].
  destruct (H c) as (n & Hn & Hs); [apply list_elem_of_here |].
  rewrite Hn. simpl.
  destruct IH as [rest ->]; [intros d Hd; apply H; apply list_elem_of_further; exact Hd |].
  simpl. unfold is_kind.
  destruct (bool_decide_reflect (n_kind n = BTOR_ARGS_NODE)) as [Hk | Hk]; [eauto |].
  destruct Hs as [[srt ->] | Hs]; [simpl; eauto | contradiction].
Qed.

Lemma hash_bv_exp_total s e :
  (length e <= 3)%nat -> (forall c, c ∈ e -> is_Some (real_node s c)) ->
  is_Some (hash_bv_exp s e).
Proof.
  intros Hlen H. unfold hash_bv_exp, hash_primes.
  destruct e as [| x [| y [| z [| w e]]]]; simpl in *; try lia; eauto;
    repeat match goal with
           | |- context [real_node s ?c] =>
               let n := fresh "n" in
               let Hn := fresh "Hn" in
               destruct (H c) as [n Hn]; [set_solver |]; rewrite Hn; simpl
           end; eauto.
Qed.

Lemma children_equal_spec ce e i :
  children_equal ce e i = true <-> map (get3 ce) (seq i (length e)) = e.
Proof.
  revert i. induction e as [| x e IH]; intros i; simpl; [tauto |].
  rewrite andb_true_iff, IH, Z.eqb_eq. split.
  - intros [-> ->]. reflexivity.
  - intros [= H1 H2]. auto.
Qed.

(** What a lookup by kind and children accepts. *)
Lemma bv_test_accepts kind e n :
  kind <> BTOR_BV_EQ_NODE -> find_bv_exp_test kind e n = true ->
  n_kind n = kind /\ children n = e.
Proof.
  intros Hk. unfold find_bv_exp_test, is_kind.
  destruct (bool_decide_reflect (n_kind n = kind)) as [E |]; [| discriminate].
  destruct (Nat.eqb_spec (n_arity n) (length e)) as [Ha |]; [| discriminate]. simpl.
  rewrite bool_decide_eq_false_2 by exact Hk. simpl.
  intros H. apply children_equal_spec in H. unfold children. rewrite Ha. auto.
Qed.

Lemma bv_test_of_children kind n :
  kind <> BTOR_BV_EQ_NODE -> n_kind n = kind ->
  find_bv_exp_test kind (children n) n = true.
Proof.
  intros Hk E. unfold find_bv_exp_test, is_kind.
  rewrite bool_decide_eq_true_2 by exact E.
  unfold children at 1. rewrite length_map, length_seq, Nat.eqb_refl. simpl.
  rewrite bool_decide_eq_false_2 by exact Hk. simpl.
  apply children_equal_spec. unfold children. rewrite length_map, length_seq. reflexivity.
Qed.

Lemma key_match_sym n1 n2 :
  n_kind n1 <> BTOR_BV_EQ_NODE -> key_match n1 n2 = true -> key_match n2 n1 = true.
Proof.
  intros Hk H. unfold key_match in *.
  apply bv_test_accepts in H as (E & Hch); [| exact Hk].
  rewrite Hch, E. apply bv_test_of_children; [exact Hk | reflexivity].
Qed.

Lemma bv_test_keyed s kind e h :
  kind <> BTOR_BV_EQ_NODE -> hashed_by_children kind = true ->
  hash_bv_exp s e = Some h ->
  keyed s (fun _ n => Some (find_bv_exp_test kind e n)) h.
Proof.
  intros Hk Hh Hhash p n Hp Hn [= Hacc].
  apply bv_test_accepts in Hacc as (E & Hch); [| exact Hk].
  unfold raw_hash. rewrite Hn. simpl. rewrite Hch, E.
  destruct kind; try discriminate Hh; exact Hhash.
Qed.

Lemma arg_ok_live s c : arg_ok s c -> is_Some (real_node s c).
Proof. intros (n & Hn & _). eauto. Qed.

Lemma arg_ok_extends s s' c : extends s s' -> arg_ok s c -> arg_ok s' c.
Proof.
  intros Hext (n & Hn & Hs & Hsort).
  destruct (extends_real_node _ _ _ _ Hext Hn) as (n' & Hn' & E).
  exists n'. stable_fields E. rewrite Hsimp, Hsort0, Hkind. auto.
Qed.

Lemma occurrences_fresh s x e :
  node_at s x = None -> (forall c, c ∈ e -> is_Some (real_node s c)) ->
  occurrences x e = 0.
Proof.
  intros Hx. induction e as [| c e IH]; intros H; simpl; [reflexivity |].
  rewrite IH by (intros d Hd; apply H; apply list_elem_of_further; exact Hd).
  destruct (decide (x = BTOR_REAL_ADDR_NODE c)) as [-> |]; [| reflexivity].
  destruct (H c) as [n Hn]; [apply list_elem_of_here |]. unfold real_node in Hn. congruence.
Qed.

Lemma setup_args_node s e :
  count_id_table s <> INT_MAX ->
  setup_node_and_add_to_id_table s
    (wr_arity (length e) (set_kind BTOR_ARGS_NODE calloc_node))
  = Some (alloc_node s (new_args_node s e), ptr_of_id (length (nodes_id_table s))).
Proof. intros H. rewrite setup_alloc by exact H. reflexivity. Qed.

(** The new args node has the arguments as its children; the nodes of the
    arguments gain a reference for each slot that names them, and nothing
    else changes in the stable part of the old nodes. *)
Lemma new_args_exp_node_spec bound s e :
  1 <= count_id_table s -> count_id_table s < INT_MAX ->
  links_live s -> refs_within bound s -> bound + 3 < INT_MAX ->
  (length e <= 3)%nat -> (forall c, c ∈ e -> arg_ok s c) ->
  let p' := ptr_of_id (length (nodes_id_table s)) in
  exists s_n n',
    new_args_exp_node s e = Some (s_n, p')
    /\ node_at s_n p' = Some n'
    /\ n_kind n' = BTOR_ARGS_NODE /\ children n' = e /\ n_simplified n' = 0
    /\ n_refs n' = 1
    /\ same_tables s s_n
    /\ (forall x n, node_at s x = Some n ->
          exists m, node_at s_n x = Some m /\ stable m = stable n
                    /\ n_refs m = n_refs n + occurrences x e)
    /\ (forall x m, node_at s_n x = Some m -> x = p' \/ is_Some (node_at s x))
    /\ links_live s_n
    /\ length (nodes_id_table s_n) = S (length (nodes_id_table s)).
Proof.
  intros Hc1 Hmax HLL Hrefs Hb Hlen Hargs p'.
  assert (Hpos : (0 < length (nodes_id_table s))%nat) by (unfold count_id_table in Hc1; lia).
  set (n0 := new_args_node s e).
  set (s_a := alloc_node s n0).
  assert (Hp0 : node_at s_a p' = Some n0) by (apply node_at_alloc_new; exact Hpos).
  assert (Hfresh : node_at s p' = None) by apply node_at_beyond.
  assert (Hb1 : 1 <= bound \/ e = []).
  { destruct e as [| c e]; [auto |]. left.
    destruct (Hargs c) as (n & Hn & _); [apply list_elem_of_here |].
    pose proof (Hrefs _ _ Hn). lia. }
  destruct (connect_children_frame (Z.max bound 1) s_a p' e 0 n0 Hp0)
    as (s_c & Ec & Tc & Lc & Sc & Shc & Nec & Rc & LLc).
  { simpl. exact Hlen. }
  { apply links_live_alloc; [exact Hpos | reflexivity | exact HLL]. }
  { intros c Hc. destruct (arg_ok_live s c (Hargs c Hc)) as [n Hn].
    exists n. apply node_at_alloc_old. exact Hn. }
  { intros x n Hx. apply node_at_alloc_inv in Hx as [(-> & ->) | Hx]; [| | exact Hpos].
    - simpl. lia.
    - pose proof (Hrefs x n Hx). lia. }
  { unfold INT_MAX in *. lia. }
  assert (Hsorts : is_Some (args_sorts s_c e)).
  { apply args_sorts_total. intros c Hc. destruct (Hargs c Hc) as (n & Hn & _ & Hs).
    assert (Hne : BTOR_REAL_ADDR_NODE c <> p') by (intros E; unfold real_node in Hn; congruence).
    specialize (Sc _ Hne).
    rewrite (fld_of_node stable s_a _ n) in Sc by (apply node_at_alloc_old; exact Hn).
    apply fld_some in Sc as (m & Hm & E). exists m. split; [exact Hm |].
    stable_fields E. rewrite Hsort, Hkind. exact Hs. }
  destruct Hsorts as [sorts Hsorts].
  destruct (fld_some _ _ _ _ Nec) as (pc & Hpc & Hec).
  assert (Hshape : shape pc = shape n0).
  { specialize (Shc p'). rewrite (fld_of_node _ _ _ _ Hpc), (fld_of_node _ _ _ _ Hp0) in Shc.
    congruence. }
  assert (Hrpc : n_refs pc = 1).
  { specialize (Rc p'). rewrite (fld_of_node _ _ _ _ Hpc), (fld_of_node _ _ _ _ Hp0) in Rc.
    simpl in Rc. injection Rc as Rc. rewrite Rc.
    rewrite (occurrences_fresh s p' e Hfresh) by (intros c Hc; apply arg_ok_live, Hargs, Hc).
    lia. }
  set (n' := wr_sort_id (btor_tuple_sort sorts) pc).
  exists (store_node s_c p' n'), n'.
  split.
  { unfold new_args_exp_node. rewrite setup_args_node by lia. cbn [mbind option_bind].
    fold n0. fold s_a. fold p'. rewrite Ec. cbn [mbind option_bind].
    rewrite Hsorts. cbn [mbind option_bind].
    rewrite (upd_node_live _ _ _ _ Hpc). reflexivity. }
  split; [eapply node_at_store_eq; exact Hpc |].
  pose proof (f_equal n_kind Hshape) as Hk. pose proof (f_equal n_arity Hshape) as Ha.
  pose proof (f_equal n_simplified Hshape) as Hs. simpl in Hk, Ha, Hs.
  split; [exact Hk |].
  split.
  { unfold children. simpl. rewrite Ha, Hec. apply children_fill3. exact Hlen. }
  split; [exact Hs |]. split; [exact Hrpc |].
  split.
  { apply same_tables_store. eapply same_tables_trans; [| exact Tc].
    unfold same_tables, s_a, alloc_node. destruct s. reflexivity. }
  split.
  { intros x n Hx.
    assert (Hne : x <> p') by (intros ->; congruence).
    pose proof (node_at_alloc_old s n0 x n Hx) as Hxa.
    specialize (Sc x Hne). specialize (Rc x).
    rewrite (fld_of_node _ _ _ _ Hxa) in Sc. rewrite (fld_of_node _ _ _ _ Hxa) in Rc.
    apply fld_some in Sc as (m & Hm & E). rewrite (fld_of_node _ _ _ _ Hm) in Rc.
    exists m. rewrite (node_at_store _ _ _ _ _ Hpc).
    destruct (decide (x = p')); [contradiction |].
    split; [exact Hm |]. split; [exact E |]. simpl in Rc. congruence. }
  split.
  { intros x m Hx. destruct (decide (x = p')) as [-> | Hne]; [auto |]. right.
    rewrite (node_at_store _ _ _ _ _ Hpc) in Hx. destruct (decide (x = p')); [contradiction |].
    assert (Hl : is_Some (node_at s_a x)) by (apply Lc; eauto).
    destruct Hl as [m0 Hm0]. apply node_at_alloc_inv in Hm0 as [(-> & _) | Hm0];
      [contradiction | eauto | exact Hpos]. }
  split; [eapply links_live_store; [exact Hpc | reflexivity | reflexivity | exact LLc] |].
  rewrite length_store_node.
  rewrite (connect_children_length _ _ _ _ _ Ec).
  unfold s_a. simpl. rewrite length_app. simpl. lia.
Qed.

Lemma hash_bv_exp_loop_live s primes e h0 h :
  hash_bv_exp_loop s primes e h0 = Some h -> forall c, c ∈ e -> is_Some (real_node s c).
Proof.
  revert primes h0. induction e as [| x e IH]; intros primes h0 H c Hc.
  - apply elem_of_nil in Hc. contradiction.
  - destruct primes as [| p primes]; simpl in H; [discriminate |].
    destruct (real_node s x) as [n |] eqn:Hn; simpl in H; [| discriminate].
    apply elem_of_cons in Hc as [-> | Hc]; [eauto |].
    eapply IH; eassumption.
Qed.

(** The children of a linked node are live. *)
Lemma table_children_live s p n :
  table_ok s -> in_table s p -> node_at s p = Some n ->
  hashed_by_children (n_kind n) = true ->
  forall c, c ∈ children n -> is_Some (real_node s c).
Proof.
  intros Hok (b & chain & Hb & Hin) Hn Hk.
  destruct (tk_bucket s Hok b chain p Hb Hin) as (h & Hh & _).
  unfold raw_hash in Hh. rewrite Hn in Hh. simpl in Hh.
  apply (hash_bv_exp_loop_live s hash_primes (children n) 0 h).
  destruct (n_kind n); try discriminate Hk; exact Hh.
Qed.


(** ** Creation of an args node *)

Lemma is_sorted_args s e : is_sorted_bv_exp s BTOR_ARGS_NODE e = Some true.
Proof. unfold is_sorted_bv_exp. destruct (opt_sort_exp s =? 0); reflexivity. Qed.

Lemma find_bv_exp_args s e h :
  hash_bv_exp s e = Some h ->
  find_bv_exp s BTOR_ARGS_NODE e
  = lk ← find_in_bucket s h (fun _ n => Some (find_bv_exp_test BTOR_ARGS_NODE e n));
    Some (e, lk).
Proof.
  intros H. unfold find_bv_exp, sort_bv_exp. rewrite is_sorted_args.
  cbn [mbind option_bind]. rewrite H. reflexivity.
Qed.

Lemma find_exp_args s e h params :
  hash_bv_exp s e = Some h ->
  find_exp s BTOR_ARGS_NODE e params
  = lk ← find_in_bucket s h (fun _ n => Some (find_bv_exp_test BTOR_ARGS_NODE e n));
    Some (lk, e, 0, params).
Proof.
  intros H. unfold find_exp. rewrite bool_decide_eq_false_2 by discriminate.
  rewrite (find_bv_exp_args s e h H).
  destruct (find_in_bucket s h _); reflexivity.
Qed.

Lemma simplify_all_terminal s e :
  (forall c, c ∈ e -> arg_ok s c) -> simplify_all s e = Some e.
Proof.
  induction e as [| c e IH]; intros H; simpl; [reflexivity |].
  destruct (H c) as (n & Hn & Hs & _); [apply list_elem_of_here |].
  rewrite (btor_simplify_exp_terminal s c n Hn Hs). simpl.
  rewrite IH; [reflexivity |]. intros d Hd. apply H. apply list_elem_of_further. exact Hd.
Qed.

Lemma refs_within_mono b b' s : b <= b' -> refs_within b s -> refs_within b' s.
Proof. intros Hle H x n Hx. specialize (H x n Hx). lia. Qed.

Lemma create_exp_args_unfold s e :
  simplify_all s e = Some e ->
  create_exp s BTOR_ARGS_NODE e
  = '(lk, simp_e, lambda_hash, params) ← find_exp s BTOR_ARGS_NODE e None;
    if deref_lookup s lk =? 0 then
      '(s, (lk, simp_e, lambda_hash, _)) ←
        enlarge_if_full s (lk, simp_e, lambda_hash, params)
          (fun s => find_exp s BTOR_ARGS_NODE simp_e None);
      '(s, p) ← new_args_exp_node s simp_e;
      s ← insert_unique s lk p;
      Some (s, p)
    else
      s ← inc_exp_ref_counter s (deref_lookup s lk);
      Some (s, deref_lookup s lk).
Proof.
  intros H. unfold create_exp. rewrite H. cbn [mbind option_bind].
  rewrite bool_decide_eq_false_2 by discriminate. reflexivity.
Qed.

(** [create_exp] for an args node: the node of the children [e] is found in
    the table and shared, or allocated and linked.  The invariant of the
    state is kept with a bound on the reference counts that is larger by
    the number of child slots. *)
Lemma create_exp_args_spec bound s e :
  state_ok bound s -> count_id_table s < INT_MAX -> bound + 3 < INT_MAX ->
  e <> [] -> (length e <= 3)%nat -> (forall c, c ∈ e -> arg_ok s c) ->
  exists s1 p n,
    create_exp s BTOR_ARGS_NODE e = Some (s1, p)
    /\ state_ok (bound + 3) s1 /\ extends s s1
    /\ in_table s1 p /\ node_at s1 p = Some n
    /\ n_kind n = BTOR_ARGS_NODE /\ children n = e
    /\ (forall x, in_table s1 x <-> x = p \/ in_table s x)
    /\ (length (nodes_id_table s) <= length (nodes_id_table s1)
        <= S (length (nodes_id_table s)))%nat
    /\ (forall x m, node_at s x = Some m ->
          exists m1, node_at s1 x = Some m1 /\ n_refs m <= n_refs m1)
    /\ ((exists n0, in_table s p /\ node_at s p = Some n0 /\ n_refs n = n_refs n0 + 1)
        \/ (node_at s p = None /\ orphan s1 p
            /\ forall c, c ∈ e ->
                 exists nc, real_node s1 c = Some nc /\ 2 <= n_refs nc))
    /\ (dag s -> dag s1).
Proof.
  intros [Hok HLL Hrefs Hc1] Hmax Hb Hne Hlen Hargs.
  pose proof (simplify_all_terminal s e Hargs) as Hsimp.
  destruct (hash_bv_exp_total s e Hlen) as [h Hh].
  { intros c Hc. apply arg_ok_live, Hargs, Hc. }
  set (T := fun (_ : Z) m => Some (find_bv_exp_test BTOR_ARGS_NODE e m)).
  assert (Htot : total_on s T) by (apply bv_test_total; exact Hok).
  destruct (find_in_bucket_cases s h T Hok Htot)
    as (chain & r & Hbk & Hf & [(q & nq & Hq & Hnq & Haq & Hd & Hq0 & Hinq) | (-> & Hd & Hrej)]).
  - (* found *)
    injection Haq as Haq. apply bv_test_accepts in Haq as (Hk & Hch); [| discriminate].
    pose proof (Hrefs q nq Hnq) as Hrq.
    set (s1 := store_node s q (wr_refs (n_refs nq + 1) nq)).
    assert (Hext : extends s s1) by (eapply extends_store; [exact Hnq | reflexivity]).
    exists s1, q, (wr_refs (n_refs nq + 1) nq).
    split.
    { apply (create_exp_hit s BTOR_ARGS_NODE e e
               (mkLookup (bucket_of (ut_size s) h) r) q nq); try assumption.
      - discriminate.
      - rewrite (find_bv_exp_args s e h Hh). fold T. rewrite Hf. reflexivity.
      - lia. }
    split.
    { split.
      - apply (table_ok_extends s); [exact Hok | exact Hext | reflexivity | reflexivity].
      - eapply links_live_store; [exact Hnq | reflexivity | reflexivity | exact HLL].
      - intros x n Hx. unfold s1 in Hx. rewrite (node_at_store _ _ _ _ _ Hnq) in Hx.
        destruct (decide (x = q)) as [-> |].
        + injection Hx as <-. simpl. lia.
        + pose proof (Hrefs x n Hx). lia.
      - unfold count_id_table, s1 in *. rewrite length_store_node. exact Hc1. }
    split; [exact Hext |].
    split; [exact Hinq |].
    split; [eapply node_at_store_eq; exact Hnq |].
    split; [exact Hk |]. split; [exact Hch |].
    split.
    { intros x. change (in_table s1 x) with (in_table s x). split; [auto |].
      intros [-> | H]; assumption. }
    split; [unfold s1; rewrite length_store_node; lia |].
    split.
    { intros x m Hx. unfold s1. rewrite (node_at_store _ _ _ _ _ Hnq).
      destruct (decide (x = q)) as [-> |]; [| exists m; split; [exact Hx | lia]].
      eexists. split; [reflexivity |]. simpl. assert (m = nq) by congruence. subst m. lia. }
    split; [left; exists nq; split; [exact Hinq |]; split; [exact Hnq | reflexivity] |].
    intros Hdag x nx Hx Hnx Hkx. change (in_table s x) in Hx.
    destruct (tk_live s Hok x Hx) as [n0 Hn0].
    destruct (Hext x n0 Hn0) as (m1 & Hm1 & E). assert (m1 = nx) by congruence. subst m1.
    rewrite (stable_children _ _ E). apply (Hdag x n0 Hx Hn0).
    stable_fields E. congruence.
  - (* not found *)
    assert (Hglob : rejects_all s T).
    { apply (miss_is_global s h T chain); try assumption.
      apply bv_test_keyed; [discriminate | reflexivity | exact Hh]. }
    destruct (enlarge_if_full_spec s
                (mkLookup (bucket_of (ut_size s) h) (length chain), e, 0, @None (gset Z))
                (fun s => find_exp s BTOR_ARGS_NODE e None)
                (fun s' r => exists chain',
                   ut_chains s' !! bucket_of (ut_size s') h = Some chain'
                   /\ r = (mkLookup (bucket_of (ut_size s') h) (length chain'), e, 0, None))
                Hok)
      as (new & r_e & Eenl & (chain' & Hb' & ->) & Hok_e & Hl).
    { exists chain. auto. }
    { intros new Hok' Hl'.
      destruct (find_in_bucket_rejected (wb_ut_chains new s) h T Hok') as (c & Hc & Hfc).
      - intros q Hq. apply Hl' in Hq. apply Hglob. exact Hq.
      - rewrite (find_exp_args _ e h).
        + fold T. rewrite Hfc. eexists. split; [reflexivity |]. exists c. auto.
        + apply (extends_hash_bv_exp s); [apply extends_rechain | exact Hh]. }
    set (s_e := wb_ut_chains new s) in *.
    set (p' := ptr_of_id (length (nodes_id_table s_e))).
    destruct (new_args_exp_node_spec bound s_e e)
      as (s_n & n' & Enew & Hp' & Hk' & Hch' & Hs' & Hr' & Tn & Hold & Hinv & LLn & Hlenn);
      try assumption.
    fold p' in Enew, Hp', Hinv.
    assert (Hfresh : node_at s p' = None) by apply (node_at_beyond s_e).
    assert (Hext_n : extends s_e s_n).
    { intros x n Hx. destruct (Hold x n Hx) as (m & Hm & E & _). eauto. }
    assert (Hglob_e : rejects_all s_e T).
    { intros q Hq. apply Hl in Hq. apply Hglob. exact Hq. }
    destruct (insert_unique_spec s_e s_n p' n'
                (bucket_of (ut_size s_e) h) chain' h)
      as (Hins & Hok1 & Hin1 & Hext1); try assumption; try reflexivity.
    { apply same_tables_lambdas. exact Tn. }
    { apply same_tables_chains. exact Tn. }
    { unfold raw_hash. rewrite Hp'. simpl. rewrite Hk', Hch'.
      apply (extends_hash_bv_exp s); [| exact Hh].
      eapply extends_trans; [apply (extends_rechain s new) | exact Hext_n]. }
    { intros E. congruence. }
    { intros q nq Hq Hnq _.
      destruct (Hglob_e q Hq) as (m & Hm & Hrj). injection Hrj as Hrj.
      destruct (Hext_n q m Hm) as (m' & Hm' & E). assert (m' = nq) by congruence. subst m'.
      assert (H1 : key_match n' nq = false).
      { unfold key_match. rewrite Hk', Hch'. rewrite <- Hrj.
        apply (f_equal (fun o => match o with Some b => b | None => false end)
                 (bv_test_stable BTOR_ARGS_NODE e q m nq E)). }
      split; [exact H1 |].
      destruct (key_match nq n') eqn:H2; [| reflexivity].
      assert (Hkq : n_kind nq <> BTOR_BV_EQ_NODE).
      { apply key_match_kind in H2. congruence. }
      apply key_match_sym in H2; [congruence | exact Hkq]. }
    match type of Hins with _ = Some ?x => set (s1 := x) in * end.
    assert (Hp1 : node_at s1 p' = Some (wr_unique true n')).
    { eapply node_at_store_eq. exact Hp'. }
    assert (Hext_s1 : extends s s1).
    { eapply extends_trans; [apply (extends_rechain s new) |].
      eapply extends_trans; [exact Hext_n | exact Hext1]. }
    assert (Hb1 : 1 <= bound).
    { destruct e as [| c e]; [contradiction |].
      destruct (Hargs c) as (n & Hn & _); [apply list_elem_of_here |].
      pose proof (Hrefs _ _ Hn). lia. }
    assert (Hnode1 : forall x m, node_at s1 x = Some m ->
              x = p' /\ m = wr_unique true n'
              \/ x <> p' /\ exists n0, node_at s x = Some n0
                   /\ n_refs m = n_refs n0 + occurrences x e).
    { intros x m Hx. unfold s1 in Hx.
      match type of Hx with
      | node_at (store_node ?S _ _) _ = _ => rewrite (node_at_store S p' x _ n' Hp') in Hx
      end.
      destruct (decide (x = p')) as [-> | Hnx]; [left; split; congruence |].
      right. split; [exact Hnx |].
      change (node_at s_n x = Some m) in Hx.
      destruct (Hinv x m Hx) as [-> | [n0 Hn0]]; [contradiction |].
      exists n0. split; [exact Hn0 |].
      destruct (Hold x n0 Hn0) as (m' & Hm' & _ & Hrm). congruence. }
    exists s1, p', (wr_unique true n').
    split.
    { rewrite (create_exp_args_unfold s e Hsimp), (find_exp_args s e h None Hh).
      fold T. rewrite Hf. cbn [mbind option_bind]. rewrite Hd. cbn [Z.eqb].
      rewrite Eenl. cbn [mbind option_bind]. fold s_e. rewrite Enew.
      cbn [mbind option_bind]. rewrite Hins. reflexivity. }
    split.
    { split.
      - exact Hok1.
      - unfold s1. eapply links_live_store; [exact Hp' | reflexivity | reflexivity | exact LLn].
      - intros x m Hx. destruct (Hnode1 x m Hx) as [(-> & ->) | (_ & n0 & Hn0 & Hrm)].
        + simpl. lia.
        + pose proof (Hrefs x n0 Hn0). pose proof (occurrences_bounds x e). lia.
      - unfold count_id_table, s1. rewrite length_store_node.
        change (1 <= Z.of_nat (length (nodes_id_table s_n))). lia. }
    split; [exact Hext_s1 |].
    split; [apply Hin1; left; reflexivity |].
    split; [exact Hp1 |]. split; [exact Hk' |]. split; [exact Hch' |].
    split.
    { intros x. rewrite Hin1. unfold in_table at 1. simpl. rewrite Hl. reflexivity. }
    split.
    { unfold s1. rewrite length_store_node.
      change (length (nodes_id_table s) <= length (nodes_id_table s_n)
              <= S (length (nodes_id_table s)))%nat.
      rewrite Hlenn. simpl. lia. }
    split.
    { intros x m Hx. destruct (Hext_s1 x m Hx) as (m1 & Hm1 & _).
      exists m1. split; [exact Hm1 |].
      destruct (Hnode1 x m1 Hm1) as [(-> & _) | (_ & n0 & Hn0 & Hrm)]; [congruence |].
      assert (n0 = m) by congruence. subst n0.
      pose proof (occurrences_bounds x e). lia. }
    assert (Hdag1 : dag s -> dag s1).
    { intros Hdag x nx Hx Hnx Hkx c Hc. apply Hin1 in Hx as [-> | Hx].
      - assert (nx = wr_unique true n') by congruence. subst nx.
        change (children (wr_unique true n')) with (children n') in Hc.
        rewrite Hch' in Hc. destruct (Hargs c Hc) as (nc & Hnc & _).
        unfold real_node in Hnc. pose proof (node_at_lt _ _ _ Hnc) as Hlt.
        apply node_at_inv in Hnc as (_ & _ & _ & Hptr).
        rewrite <- Hptr. unfold p'. rewrite !ptr_of_id_eq.
        change (nodes_id_table s_e) with (nodes_id_table s). lia.
      - apply Hl in Hx. destruct (tk_live s Hok x Hx) as [n0 Hn0].
        destruct (Hext_s1 x n0 Hn0) as (m1 & Hm1 & E).
        assert (m1 = nx) by congruence. subst m1.
        rewrite (stable_children _ _ E) in Hc. apply (Hdag x n0 Hx Hn0); [| exact Hc].
        stable_fields E. congruence. }
    split; [| exact Hdag1].
    right. split; [exact Hfresh |].
    assert (Hnot : forall c, is_Some (real_node s c) -> c <> p').
    { intros c [nc Hnc] ->. unfold real_node, p' in Hnc.
      rewrite real_addr_ptr_of_id in Hnc. fold p' in Hnc. congruence. }
    split.
    { intros q nq Hq Hnq Hkq Hin. apply Hin1 in Hq as [-> | Hq].
      - assert (nq = wr_unique true n') by congruence. subst nq.
        change (children (wr_unique true n')) with (children n') in Hin.
        rewrite Hch' in Hin. apply (Hnot p'); [| reflexivity].
        apply arg_ok_live, Hargs, Hin.
      - apply Hl in Hq. destruct (tk_live s Hok q Hq) as [n0 Hn0].
        destruct (Hext_s1 q n0 Hn0) as (m1 & Hm1 & E).
        assert (m1 = nq) by congruence. subst m1.
        pose proof (stable_children _ _ E) as Hchq. stable_fields E.
        apply (Hnot p'); [| reflexivity].
        apply (table_children_live s q n0 Hok Hq Hn0).
        + rewrite <- Hkind, Hkq. reflexivity.
        + rewrite <- Hchq. exact Hin. }
    intros c Hc. destruct (Hargs c Hc) as (nc & Hnc & _).
    destruct (Hext_s1 _ nc Hnc) as (nc1 & Hnc1 & _).
    exists nc1. split; [exact Hnc1 |].
    destruct (Hnode1 _ _ Hnc1) as [(E & _) | (_ & n0 & Hn0 & Hrm)].
    + exfalso. unfold real_node in Hnc. congruence.
    + unfold real_node in Hnc. assert (n0 = nc) by congruence. subst n0.
      pose proof (Hrefs _ _ Hnc). pose proof (occurrences_pos c e Hc). lia.
Qed.

(** ** Chains of args nodes *)

(** A release of a node that has other references only drops the count. *)
Lemma btor_release_exp_shared s root n :
  real_node s root = Some n -> 1 < n_refs n ->
  btor_release_exp s root
  = Some (store_node s (BTOR_REAL_ADDR_NODE root) (wr_refs (n_refs n - 1) n)).
Proof.
  intros Hn Hr. unfold btor_release_exp, release_depth. simpl.
  unfold real_node in Hn. rewrite Hn. simpl.
  destruct (Z.ltb_spec 1 (n_refs n)); [| lia].
  rewrite (upd_node_live _ _ _ _ Hn). reflexivity.
Qed.

Lemma state_ok_drop_ref bound s x n :
  state_ok bound s -> node_at s x = Some n -> 1 < n_refs n ->
  state_ok bound (store_node s x (wr_refs (n_refs n - 1) n)).
Proof.
  intros [Hok HLL Hrefs Hc1] Hn Hr. split.
  - apply (table_ok_extends s); [exact Hok | | reflexivity | reflexivity].
    eapply extends_store; [exact Hn | reflexivity].
  - eapply links_live_store; [exact Hn | reflexivity | reflexivity | exact HLL].
  - intros y m Hy. rewrite (node_at_store _ _ _ _ _ Hn) in Hy.
    destruct (decide (y = x)) as [-> |].
    + injection Hy as <-. simpl. pose proof (Hrefs x n Hn). lia.
    + apply (Hrefs y m Hy).
  - unfold count_id_table in *. rewrite length_store_node. exact Hc1.
Qed.

(** The steps of the loop of [btor_args_exp]: an argument is stored in the
    local array, and the argument for slot [0] completes a node. *)
Lemma btor_args_loop_store s a a' rargs e cnt cur result last :
  btor_simplify_exp s a = Some a' -> 0 < cnt ->
  btor_args_loop s (a :: rargs) e cnt cur result last
  = btor_args_loop s rargs (set3 e (Z.to_nat cnt) a') (cnt - 1) cur result last.
Proof.
  intros Ha Hc. simpl. rewrite Ha. cbn [mbind option_bind].
  destruct (Z.ltb_spec (cnt - 1) 0); [lia | reflexivity].
Qed.

Lemma btor_args_loop_create s a a' rargs e cur result last :
  btor_simplify_exp s a = Some a' ->
  btor_args_loop s (a :: rargs) e 0 cur result last
  = '(s1, r) ← create_exp s BTOR_ARGS_NODE (map (get3 (set3 e 0 a')) (seq 0 cur));
    s2 ← (if last =? 0 then Some s1 else btor_release_exp s1 last);
    btor_args_loop s2 rargs (set3 (set3 e 0 a') 2 r) 1 3 r r.
Proof.
  intros Ha. simpl. rewrite Ha. cbn [mbind option_bind]. reflexivity.
Qed.

Lemma btor_args_loop_first s x2 x1 x0 y2 y1 y0 rargs result last :
  btor_simplify_exp s x2 = Some y2 -> btor_simplify_exp s x1 = Some y1 ->
  btor_simplify_exp s x0 = Some y0 ->
  btor_args_loop s (x2 :: x1 :: x0 :: rargs) null3 2 3 result last
  = '(s1, r) ← create_exp s BTOR_ARGS_NODE [y0; y1; y2];
    s2 ← (if last =? 0 then Some s1 else btor_release_exp s1 last);
    btor_args_loop s2 rargs (A3 y0 y1 r) 1 3 r r.
Proof.
  intros H2 H1 H0. rewrite (btor_args_loop_store s x2 y2) by (assumption || lia).
  rewrite (btor_args_loop_store s x1 y1) by (assumption || lia).
  rewrite (btor_args_loop_create s x0 y0) by assumption. reflexivity.
Qed.

Lemma btor_args_loop_next s x1 x0 y1 y0 u v prev rargs result last :
  btor_simplify_exp s x1 = Some y1 -> btor_simplify_exp s x0 = Some y0 ->
  btor_args_loop s (x1 :: x0 :: rargs) (A3 u v prev) 1 3 result last
  = '(s1, r) ← create_exp s BTOR_ARGS_NODE [y0; y1; prev];
    s2 ← (if last =? 0 then Some s1 else btor_release_exp s1 last);
    btor_args_loop s2 rargs (A3 y0 y1 r) 1 3 r r.
Proof.
  intros H1 H0. rewrite (btor_args_loop_store s x1 y1) by (assumption || lia).
  rewrite (btor_args_loop_create s x0 y0) by assumption. reflexivity.
Qed.

Lemma btor_args_exp_seven_unfold s a0 a1 a2 a3 a4 a5 a6 :
  btor_args_exp s [a0; a1; a2; a3; a4; a5; a6]
  = btor_args_loop s [a6; a5; a4; a3; a2; a1; a0] null3 2 3 0 0.
Proof. reflexivity. Qed.

Lemma orphan_store s q n n' t :
  node_at s q = Some n -> stable n' = stable n ->
  orphan s t -> orphan (store_node s q n') t.
Proof.
  intros Hq E Horph x nx Hx Hnx Hk.
  change (in_table s x) in Hx. rewrite (node_at_store _ _ _ _ _ Hq) in Hnx.
  destruct (decide (x = q)) as [-> |].
  - injection Hnx as <-. rewrite (stable_children _ _ E).
    apply (Horph q n Hx Hq). stable_fields E. congruence.
  - apply (Horph x nx Hx Hnx Hk).
Qed.

(** One node of the chain: the node of the children [e] is created, and
    the reference to the previous node of the chain, now a child, is
    released; that release only drops a count. *)
Lemma args_chunk bound s e prev :
  state_ok bound s -> count_id_table s < INT_MAX -> bound + 3 < INT_MAX ->
  e <> [] -> (length e <= 3)%nat -> (forall c, c ∈ e -> arg_ok s c) ->
  prev = 0 \/ prev ∈ e /\ owned s prev ->
  exists s1 s2 p n,
    create_exp s BTOR_ARGS_NODE e = Some (s1, p)
    /\ (if prev =? 0 then Some s1 else btor_release_exp s1 prev) = Some s2
    /\ state_ok (bound + 3) s2 /\ extends s s2
    /\ in_table s2 p /\ node_at s2 p = Some n
    /\ n_kind n = BTOR_ARGS_NODE /\ children n = e
    /\ (forall x, in_table s2 x <-> x = p \/ in_table s x)
    /\ (length (nodes_id_table s) <= length (nodes_id_table s2)
        <= S (length (nodes_id_table s)))%nat
    /\ (dag s -> dag s2)
    /\ owned s2 p.
Proof.
  intros Hso Hmax Hb Hne Hlen Hargs Hprev.
  destruct (create_exp_args_spec bound s e Hso Hmax Hb Hne Hlen Hargs)
    as (s1 & p & n & Ec & Hso1 & Hext & Hin & Hn & Hk & Hch & Hiff & Hl & Hmono & Hcase
        & Hdag1).
  assert (Hown1 : owned s1 p).
  { exists n. split; [exact Hn |].
    destruct Hcase as [(n0 & _ & Hn0 & Hr) | (_ & Horph & _)]; [left | right; exact Horph].
    pose proof (so_refs _ _ Hso p n0 Hn0). lia. }
  destruct Hprev as [-> | (Hpe & nprev & Hnprev & Hown)].
  - exists s1, s1, p, n. simpl. repeat (split; [assumption || reflexivity |]). exact Hown1.
  - assert (Hp0 : prev <> 0) by (apply node_at_inv in Hnprev; lia).
    destruct (Hmono prev nprev Hnprev) as (np1 & Hnp1 & Hle).
    assert (Hr1 : 2 <= n_refs np1).
    { destruct Hown as [H2 | Horph]; [lia |].
      destruct Hcase as [(n0 & Hin0 & Hn0 & _) | (_ & _ & Hc2)].
      - exfalso. destruct (Hext p n0 Hn0) as (m & Hm & E).
        assert (m = n) by congruence. subst m.
        pose proof (stable_children _ _ E) as Hchn. stable_fields E.
        apply (Horph p n0 Hin0 Hn0); [congruence |]. rewrite <- Hchn, Hch. exact Hpe.
      - destruct (Hc2 prev Hpe) as (nc & Hnc & H2). unfold real_node in Hnc.
        rewrite (node_at_real_addr _ _ _ Hnp1) in Hnc. congruence. }
    pose proof (node_at_real_addr _ _ _ Hnp1) as Hreal.
    set (s2 := store_node s1 prev (wr_refs (n_refs np1 - 1) np1)).
    assert (Hrel : btor_release_exp s1 prev = Some s2).
    { rewrite (btor_release_exp_shared s1 prev np1); [rewrite Hreal; reflexivity | | lia].
      unfold real_node. rewrite Hreal. exact Hnp1. }
    assert (Hext2 : extends s1 s2) by (eapply extends_store; [exact Hnp1 | reflexivity]).
    destruct (Hext2 p n Hn) as (n2 & Hn2 & E2).
    pose proof (stable_children _ _ E2) as Hch2.
    exists s1, s2, p, n2.
    split; [exact Ec |].
    split; [destruct (Z.eqb_spec prev 0); [contradiction | exact Hrel] |].
    split; [apply state_ok_drop_ref; [exact Hso1 | exact Hnp1 | lia] |].
    split; [eapply extends_trans; eassumption |].
    split; [exact Hin |]. split; [exact Hn2 |].
    split; [stable_fields E2; congruence |].
    split; [congruence |].
    split; [exact Hiff |].
    split; [unfold s2; rewrite length_store_node; exact Hl |].
    split.
    { intros Hdag x nx Hx Hnx Hkx. change (in_table s1 x) in Hx.
      destruct (tk_live s1 (so_table _ _ Hso1) x Hx) as [n0 Hn0].
      destruct (Hext2 x n0 Hn0) as (m1 & Hm1 & E). assert (m1 = nx) by congruence. subst m1.
      rewrite (stable_children _ _ E). apply (Hdag1 Hdag x n0 Hx Hn0).
      stable_fields E. congruence. }
    exists n2. split; [exact Hn2 |].
    destruct Hown1 as (n' & Hn' & [H2 | Horph]).
    + assert (n' = n) by congruence. subst n'.
      unfold s2 in Hn2. rewrite (node_at_store _ _ _ _ _ Hnp1) in Hn2.
      destruct (decide (p = prev)) as [-> | Hnp].
      * injection Hn2 as <-. assert (np1 = n) by congruence. subst np1.
        destruct Hcase as [(n0 & Hi0 & Hn0 & Hr) | (Hfresh & _)]; [| congruence].
        assert (n0 = nprev) by congruence. subst n0.
        destruct Hown as [H2' | Horph].
        -- left. simpl. lia.
        -- exfalso. destruct (Hext prev nprev Hnprev) as (m & Hm & E).
           assert (m = n) by congruence. subst m.
           pose proof (stable_children _ _ E) as Hchn. stable_fields E.
           apply (Horph prev nprev Hi0 Hnprev); [congruence |].
           rewrite <- Hchn, Hch. exact Hpe.
      * left. assert (n2 = n) by congruence. subst n2. exact H2.
    + right. unfold s2.
      apply (orphan_store s1 prev np1); [exact Hnp1 | reflexivity | exact Horph].
Qed.

Lemma simplify_all_cons_inv s a l e es :
  simplify_all s (a :: l) = Some (e :: es) ->
  btor_simplify_exp s a = Some e /\ simplify_all s l = Some es.
Proof.
  simpl. destruct (btor_simplify_exp s a) as [a' |]; simpl; [| discriminate].
  destruct (simplify_all s l) as [l' |]; simpl; [| discriminate].
  intros [= -> ->]. auto.
Qed.

Lemma arg_ok_args_node s p n :
  table_ok s -> in_table s p -> node_at s p = Some n -> n_kind n = BTOR_ARGS_NODE ->
  arg_ok s p.
Proof.
  intros Hok Hin Hn Hk. exists n. unfold real_node.
  rewrite (node_at_real_addr _ _ _ Hn). split; [exact Hn |].
  split; [apply (tk_terminal s Hok p n Hin Hn) | right; exact Hk].
Qed.

Lemma extends_keeps s s' p n k e :
  extends s s' -> node_at s p = Some n -> n_kind n = k -> children n = e ->
  exists n', node_at s' p = Some n' /\ n_kind n' = k /\ children n' = e.
Proof.
  intros Hext Hn Hk Hch. destruct (Hext p n Hn) as (n' & Hn' & E).
  exists n'. split; [exact Hn' |].
  pose proof (stable_children _ _ E). stable_fields E. split; congruence.
Qed.

(** The chain of seven arguments: the terminal node takes the last three
    arguments, and each node before it two arguments and the node after
    it. *)
Lemma btor_args_exp_seven_build bound s a0 a1 a2 a3 a4 a5 a6 e0 e1 e2 e3 e4 e5 e6 :
  state_ok bound s -> bound + 9 < INT_MAX -> count_id_table s + 2 < INT_MAX ->
  simplify_all s [a0; a1; a2; a3; a4; a5; a6] = Some [e0; e1; e2; e3; e4; e5; e6] ->
  (forall c, c ∈ [e0; e1; e2; e3; e4; e5; e6] -> arg_ok s c) ->
  exists s' r m t nr nm nt,
    btor_args_exp s [a0; a1; a2; a3; a4; a5; a6] = Some (s', r)
    /\ state_ok (bound + 9) s' /\ extends s s'
    /\ (length (nodes_id_table s) <= length (nodes_id_table s')
        <= length (nodes_id_table s) + 3)%nat
    /\ (forall x, in_table s x -> in_table s' x)
    /\ (dag s -> dag s')
    /\ in_table s' r /\ in_table s' m /\ in_table s' t
    /\ node_at s' r = Some nr /\ n_kind nr = BTOR_ARGS_NODE /\ children nr = [e0; e1; m]
    /\ node_at s' m = Some nm /\ n_kind nm = BTOR_ARGS_NODE /\ children nm = [e2; e3; t]
    /\ node_at s' t = Some nt /\ n_kind nt = BTOR_ARGS_NODE /\ children nt = [e4; e5; e6].
Proof.
  intros Hso Hb Hcount Hsimp Hargs.
  apply simplify_all_cons_inv in Hsimp as (S0 & Hsimp).
  apply simplify_all_cons_inv in Hsimp as (S1 & Hsimp).
  apply simplify_all_cons_inv in Hsimp as (S2 & Hsimp).
  apply simplify_all_cons_inv in Hsimp as (S3 & Hsimp).
  apply simplify_all_cons_inv in Hsimp as (S4 & Hsimp).
  apply simplify_all_cons_inv in Hsimp as (S5 & Hsimp).
  apply simplify_all_cons_inv in Hsimp as (S6 & _).
  (* the terminal node *)
  assert (Hargs_t : forall c, c ∈ [e4; e5; e6] -> arg_ok s c).
  { intros c Hc. apply Hargs. do 4 apply list_elem_of_further. exact Hc. }
  destruct (args_chunk bound s [e4; e5; e6] 0 Hso ltac:(lia) ltac:(lia)
              ltac:(discriminate) ltac:(simpl; lia) Hargs_t (or_introl eq_refl))
    as (s1 & s1' & t & nt & Ct & Rt & Hso1 & Hext1 & Hint & Hnt & Hkt & Hcht & Hiff1
        & Hlen1 & Hdag1 & Hownt).
  simpl in Rt. injection Rt as <-.
  assert (Hlen01 : (length (nodes_id_table s) <= length (nodes_id_table s1))%nat) by lia.
  (* the middle node *)
  assert (Hargs_m : forall c, c ∈ [e2; e3; t] -> arg_ok s1 c).
  { intros c Hc. apply elem_of_cons in Hc as [-> | Hc];
      [| apply elem_of_cons in Hc as [-> | Hc]].
    - apply (arg_ok_extends s); [exact Hext1 |]. apply Hargs.
      do 2 apply list_elem_of_further. apply list_elem_of_here.
    - apply (arg_ok_extends s); [exact Hext1 |]. apply Hargs.
      do 3 apply list_elem_of_further. apply list_elem_of_here.
    - apply list_elem_of_singleton in Hc. subst c.
      apply (arg_ok_args_node s1 t nt); try assumption. apply (so_table _ _ Hso1). }
  assert (Hprev_t : t = 0 \/ t ∈ [e2; e3; t] /\ owned s1 t).
  { right. split; [| exact Hownt]. do 2 apply list_elem_of_further. apply list_elem_of_here. }
  destruct (args_chunk (bound + 3) s1 [e2; e3; t] t Hso1
              ltac:(unfold count_id_table in *; lia) ltac:(lia)
              ltac:(discriminate) ltac:(simpl; lia) Hargs_m Hprev_t)
    as (s2 & s3 & m & nm & Cm & Rm & Hso3 & Hext3 & Hinm & Hnm & Hkm & Hchm & Hiff3
        & Hlen3 & Hdag3 & Hownm).
  assert (Hext03 : extends s s3) by (eapply extends_trans; eassumption).
  assert (Hlen03 : (length (nodes_id_table s) <= length (nodes_id_table s3))%nat) by lia.
  (* the root *)
  assert (Hargs_r : forall c, c ∈ [e0; e1; m] -> arg_ok s3 c).
  { intros c Hc. apply elem_of_cons in Hc as [-> | Hc];
      [| apply elem_of_cons in Hc as [-> | Hc]].
    - apply (arg_ok_extends s); [exact Hext03 |]. apply Hargs. apply list_elem_of_here.
    - apply (arg_ok_extends s); [exact Hext03 |]. apply Hargs.
      apply list_elem_of_further. apply list_elem_of_here.
    - apply list_elem_of_singleton in Hc. subst c.
      apply (arg_ok_args_node s3 m nm); try assumption. apply (so_table _ _ Hso3). }
  assert (Hprev_m : m = 0 \/ m ∈ [e0; e1; m] /\ owned s3 m).
  { right. split; [| exact Hownm]. do 2 apply list_elem_of_further. apply list_elem_of_here. }
  destruct (args_chunk (bound + 3 + 3) s3 [e0; e1; m] m Hso3
              ltac:(unfold count_id_table in *; lia) ltac:(lia)
              ltac:(discriminate) ltac:(simpl; lia) Hargs_r Hprev_m)
    as (s4 & s5 & r & nr & Cr & Rr & Hso5 & Hext5 & Hinr & Hnr & Hkr & Hchr & Hiff5
        & Hlen5 & Hdag5 & Hownr).
  destruct (extends_keeps s3 s5 m nm _ _ Hext5 Hnm Hkm Hchm) as (nm5 & Hnm5 & Hkm5 & Hchm5).
  destruct (extends_keeps s1 s5 t nt _ _ (extends_trans _ _ _ Hext3 Hext5) Hnt Hkt Hcht)
    as (nt5 & Hnt5 & Hkt5 & Hcht5).
  exists s5, r, m, t, nr, nm5, nt5.
  split.
  { rewrite btor_args_exp_seven_unfold.
    rewrite (btor_args_loop_first s a6 a5 a4 e6 e5 e4) by assumption.
    rewrite Ct. cbn [mbind option_bind Z.eqb].
    rewrite (btor_args_loop_next s1 a3 a2 e3 e2)
      by (apply (extends_simplify s); assumption).
    rewrite Cm. cbn [mbind option_bind]. rewrite Rm. cbn [mbind option_bind].
    rewrite (btor_args_loop_next s3 a1 a0 e1 e0)
      by (apply (extends_simplify s); assumption).
    rewrite Cr. cbn [mbind option_bind]. rewrite Rr. reflexivity. }
  split.
  { replace (bound + 9) with (bound + 3 + 3 + 3) by lia. exact Hso5. }
  split; [eapply extends_trans; eassumption |].
  split; [lia |].
  split; [intros x Hx; apply Hiff5; right; apply Hiff3; right; apply Hiff1; right; exact Hx |].
  split; [auto |].
  split; [exact Hinr |].
  split; [apply Hiff5; right; exact Hinm |].
  split; [apply Hiff5; right; apply Hiff3; right; exact Hint |].
  repeat (split; [assumption |]). assumption.
Qed.

Lemma simplify_all_extends s s' l es :
  extends s s' -> (length (nodes_id_table s) <= length (nodes_id_table s'))%nat ->
  simplify_all s l = Some es -> simplify_all s' l = Some es.
Proof.
  intros Hext Hlen. revert es. induction l as [| a l IH]; intros es; simpl; [auto |].
  destruct (btor_simplify_exp s a) as [a' |] eqn:Ha; simpl; [| discriminate].
  destruct (simplify_all s l) as [l' |]; simpl; [| discriminate].
  intros [= <-]. rewrite (extends_simplify s s' a a' Hext Hlen Ha). simpl.
  rewrite (IH l' eq_refl). reflexivity.
Qed.

(** Two linked args nodes with the same children are the same node. *)
Lemma args_canon s p q np nq e :
  table_ok s -> in_table s p -> in_table s q ->
  node_at s p = Some np -> node_at s q = Some nq ->
  n_kind np = BTOR_ARGS_NODE -> n_kind nq = BTOR_ARGS_NODE ->
  children np = e -> children nq = e -> p = q.
Proof.
  intros Hok Hp Hq Hnp Hnq Hkp Hkq Hcp Hcq.
  apply (tk_canon s Hok p q np nq Hp Hq Hnp Hnq); [rewrite Hkp; reflexivity |].
  unfold key_match. rewrite Hkp, Hcp, <- Hcq.
  apply bv_test_of_children; [discriminate | exact Hkq].
Qed.

(** C1, amended: the seven arguments, forwarded, are distributed over a
    chain of three args nodes of three children each: the terminal node
    holds the last three arguments, and each of the two nodes before it
    holds two arguments and, as its last child, the next node of the chain.
    Building the chain of the same arguments again returns the same root. *)
Theorem btor_args_exp_of_seven_arguments
    (bound : Z) (s : Btor) (a0 a1 a2 a3 a4 a5 a6 e0 e1 e2 e3 e4 e5 e6 : Z) :
  state_ok bound s -> dag s ->
  bound + 18 < INT_MAX -> count_id_table s + 5 < INT_MAX ->
  simplify_all s [a0; a1; a2; a3; a4; a5; a6] = Some [e0; e1; e2; e3; e4; e5; e6] ->
  (forall c, c ∈ [e0; e1; e2; e3; e4; e5; e6] -> arg_ok s c) ->
  exists s1 s2 r m t nr nm nt,
    btor_args_exp s [a0; a1; a2; a3; a4; a5; a6] = Some (s1, r)
    /\ btor_args_exp s1 [a0; a1; a2; a3; a4; a5; a6] = Some (s2, r)
    /\ node_at s1 r = Some nr /\ n_kind nr = BTOR_ARGS_NODE /\ children nr = [e0; e1; m]
    /\ node_at s1 m = Some nm /\ n_kind nm = BTOR_ARGS_NODE /\ children nm = [e2; e3; t]
    /\ node_at s1 t = Some nt /\ n_kind nt = BTOR_ARGS_NODE /\ children nt = [e4; e5; e6]
    /\ r <> m /\ m <> t /\ r <> t.
Proof.
  intros Hso Hdag Hb Hcount Hsimp Hargs.
  destruct (btor_args_exp_seven_build bound s a0 a1 a2 a3 a4 a5 a6 e0 e1 e2 e3 e4 e5 e6
              Hso ltac:(lia) ltac:(lia) Hsimp Hargs)
    as (s1 & r & m & t & nr & nm & nt & E1 & Hso1 & Hext1 & Hlen1 & Hmono1 & Hdag1
        & Hinr & Hinm & Hint
        & Hnr & Hkr & Hchr & Hnm & Hkm & Hchm & Hnt & Hkt & Hcht).
  assert (Hsimp1 : simplify_all s1 [a0; a1; a2; a3; a4; a5; a6]
                   = Some [e0; e1; e2; e3; e4; e5; e6]).
  { apply (simplify_all_extends s); [exact Hext1 | lia | exact Hsimp]. }
  assert (Hargs1 : forall c, c ∈ [e0; e1; e2; e3; e4; e5; e6] -> arg_ok s1 c).
  { intros c Hc. apply (arg_ok_extends s); [exact Hext1 | apply Hargs; exact Hc]. }
  destruct (btor_args_exp_seven_build (bound + 9) s1 a0 a1 a2 a3 a4 a5 a6
              e0 e1 e2 e3 e4 e5 e6 Hso1 ltac:(lia)
              ltac:(unfold count_id_table in *; lia) Hsimp1 Hargs1)
    as (s2 & r2 & m2 & t2 & nr2 & nm2 & nt2 & E2 & Hso2 & Hext2 & Hlen2 & Hmono2 & _
        & Hinr2 & Hinm2 & Hint2
        & Hnr2 & Hkr2 & Hchr2 & Hnm2 & Hkm2 & Hchm2 & Hnt2 & Hkt2 & Hcht2).
  pose proof (so_table _ _ Hso2) as Hok2.
  destruct (extends_keeps s1 s2 t nt _ _ Hext2 Hnt Hkt Hcht) as (nt' & Hnt' & Hkt' & Hcht').
  destruct (extends_keeps s1 s2 m nm _ _ Hext2 Hnm Hkm Hchm) as (nm' & Hnm' & Hkm' & Hchm').
  destruct (extends_keeps s1 s2 r nr _ _ Hext2 Hnr Hkr Hchr) as (nr' & Hnr' & Hkr' & Hchr').
  assert (t2 = t).
  { apply (args_canon s2 t2 t nt2 nt' [e4; e5; e6]); auto. }
  subst t2.
  assert (m2 = m).
  { apply (args_canon s2 m2 m nm2 nm' [e2; e3; t]); auto. }
  subst m2.
  assert (r2 = r).
  { apply (args_canon s2 r2 r nr2 nr' [e0; e1; m]); auto. }
  subst r2.
  exists s1, s2, r, m, t, nr, nm, nt.
  repeat (split; [assumption |]).
  specialize (Hdag1 Hdag).
  assert (Hrm : BTOR_REAL_ADDR_NODE m < r).
  { apply (Hdag1 r nr Hinr Hnr Hkr). rewrite Hchr.
    do 2 apply list_elem_of_further. apply list_elem_of_here. }
  assert (Hmt : BTOR_REAL_ADDR_NODE t < m).
  { apply (Hdag1 m nm Hinm Hnm Hkm). rewrite Hchm.
    do 2 apply list_elem_of_further. apply list_elem_of_here. }
  rewrite (node_at_real_addr _ _ _ Hnm) in Hrm.
  rewrite (node_at_real_addr _ _ _ Hnt) in Hmt.
  repeat split; lia.
Qed.

(** ** The executable checks are sound *)

Lemma entries_from_spec b0 chains b p :
  (b, p) ∈ entries_from b0 chains
  <-> (b0 <= b)%nat /\ exists chain, chains !! (b - b0)%nat = Some chain /\ p ∈ chain.
Proof.
  revert b0. induction chains as [| c rest IH]; intros b0; simpl.
  - split; [intros H; apply elem_of_nil in H; contradiction |].
    intros (_ & chain & H & _). rewrite lookup_nil in H. discriminate.
  - rewrite elem_of_app, IH, list_elem_of_fmap. split.
    + intros [(y & [= -> ->] & Hp) | (Hle & chain & Hc & Hp)].
      * split; [lia |]. exists c. rewrite Nat.sub_diag. auto.
      * split; [lia |]. exists chain. split; [| exact Hp].
        replace (b - b0)%nat with (S (b - S b0)) by lia. exact Hc.
    + intros (Hle & chain & Hc & Hp).
      destruct (decide (b = b0)) as [-> | Hne].
      * left. rewrite Nat.sub_diag in Hc. injection Hc as <-. exists p. auto.
      * right. split; [lia |]. exists chain. split; [| exact Hp].
        replace (b - b0)%nat with (S (b - S b0)) in Hc by lia. exact Hc.
Qed.

Lemma table_entries_spec s b p :
  (b, p) ∈ table_entries s <-> exists chain, ut_chains s !! b = Some chain /\ p ∈ chain.
Proof.
  unfold table_entries. rewrite entries_from_spec, Nat.sub_0_r. split.
  - intros (_ & H). exact H.
  - intros H. split; [lia | exact H].
Qed.

Lemma in_table_entry s p : in_table s p <-> exists b, (b, p) ∈ table_entries s.
Proof.
  split.
  - intros (b & chain & Hb & Hp). exists b. apply table_entries_spec. eauto.
  - intros (b & H). apply table_entries_spec in H as (chain & Hb & Hp).
    exists b, chain. auto.
Qed.

Lemma forallb_elem {A} (f : A -> bool) l x : forallb f l = true -> x ∈ l -> f x = true.
Proof.
  intros H Hx. rewrite forallb_forall in H. apply H. apply list_elem_of_In. exact Hx.
Qed.

Lemma table_okb_sound s : table_okb s = true -> table_ok s.
Proof.
  unfold table_okb. intros H. apply andb_prop in H as (Hne & Hall).
  assert (Hentry : forall b p, (b, p) ∈ table_entries s -> entry_okb s (b, p) = true).
  { intros b p. apply forallb_elem. exact Hall. }
  assert (Hfacts : forall b p, (b, p) ∈ table_entries s ->
            exists n, node_at s p = Some n /\ n_simplified n = 0 /\ const_okb n = true
              /\ (exists h, raw_hash s p = Some h /\ b = bucket_of (ut_size s) h)
              /\ forall b' q, (b', q) ∈ table_entries s ->
                   exists nq, node_at s q = Some nq
                     /\ (hashed_by_children (n_kind n) = true -> key_match n nq = true -> p = q)).
  { intros b p Hbp. specialize (Hentry b p Hbp). unfold entry_okb in Hentry. simpl in Hentry.
    destruct (node_at s p) as [n |]; [| discriminate]. exists n. split; [reflexivity |].
    apply andb_prop in Hentry as (Hentry & Hcanon).
    apply andb_prop in Hentry as (Hentry & Hhash).
    apply andb_prop in Hentry as (Hsimp & Hconst).
    split; [apply Z.eqb_eq; exact Hsimp |]. split; [exact Hconst |].
    split.
    { destruct (raw_hash s p) as [h |]; [| discriminate].
      exists h. split; [reflexivity |]. apply bool_decide_eq_true in Hhash. exact Hhash. }
    intros b' q Hq. pose proof (forallb_elem _ _ _ Hcanon Hq) as Hc. simpl in Hc.
    destruct (node_at s q) as [nq |]; [| discriminate]. exists nq. split; [reflexivity |].
    intros Hk Hm. rewrite Hk, Hm in Hc. simpl in Hc. apply Z.eqb_eq. exact Hc. }
  split.
  - intros E. rewrite bool_decide_eq_true_2 in Hne by exact E. discriminate.
  - intros p Hp. apply in_table_entry in Hp as (b & Hbp).
    destruct (Hfacts b p Hbp) as (n & Hn & _). eauto.
  - intros p n Hp Hn. apply in_table_entry in Hp as (b & Hbp).
    destruct (Hfacts b p Hbp) as (n' & Hn' & Hs & _). congruence.
  - intros p n Hp Hn Hk. apply in_table_entry in Hp as (b & Hbp).
    destruct (Hfacts b p Hbp) as (n' & Hn' & _ & Hc & _).
    assert (n' = n) by congruence. subst n'. unfold const_okb, is_kind in Hc.
    rewrite bool_decide_eq_true_2 in Hc by exact Hk.
    apply andb_prop in Hc as (H1 & H2).
    apply bool_decide_eq_true in H1. apply bool_decide_eq_true in H2. auto.
  - intros b chain p Hb Hp.
    destruct (Hfacts b p) as (n & _ & _ & _ & Hh & _); [| exact Hh].
    apply table_entries_spec. eauto.
  - intros p q np nq Hp Hq Hnp Hnq Hk Hm.
    apply in_table_entry in Hp as (b & Hbp). apply in_table_entry in Hq as (b' & Hbq).
    destruct (Hfacts b p Hbp) as (n & Hn & _ & _ & _ & Hcanon).
    destruct (Hcanon b' q Hbq) as (nq' & Hnq' & Himp).
    assert (n = np) by congruence. assert (nq' = nq) by congruence. subst. auto.
Qed.

Lemma all_nodes_spec P s :
  all_nodes P s = true -> forall x n, node_at s x = Some n -> P n = true.
Proof.
  intros H x n Hx. apply node_at_inv in Hx as (_ & _ & Hl & _).
  apply list_elem_of_lookup_2 in Hl.
  apply (forallb_elem _ _ _ H Hl).
Qed.

Lemma dagb_sound s : dagb s = true -> dag s.
Proof.
  intros H p n Hp Hn Hk c Hc. apply in_table_entry in Hp as (b & Hbp).
  pose proof (forallb_elem _ _ _ H Hbp) as He. simpl in He. rewrite Hn in He.
  unfold is_kind in He. rewrite bool_decide_eq_true_2 in He by exact Hk. simpl in He.
  apply Z.ltb_lt. apply (forallb_elem _ _ _ He Hc).
Qed.

Lemma links_liveb_sound s : links_liveb s = true -> links_live s.
Proof.
  intros H x n Hx Hf. pose proof (all_nodes_spec _ _ H x n Hx) as Hn. simpl in Hn.
  destruct (Z.eqb_spec (n_first_parent n) 0); [contradiction |]. simpl in Hn.
  apply andb_prop in Hn as (H1 & H2).
  apply bool_decide_eq_true in H1. apply bool_decide_eq_true in H2. auto.
Qed.

Lemma state_okb_sound bound s : state_okb bound s = true -> state_ok bound s.
Proof.
  unfold state_okb. intros H.
  apply andb_prop in H as (H & Hc). apply andb_prop in H as (H & Hr).
  apply andb_prop in H as (Ht & Hl). split.
  - apply table_okb_sound. exact Ht.
  - apply links_liveb_sound. exact Hl.
  - intros x n Hx. pose proof (all_nodes_spec _ _ Hr x n Hx) as Hn. simpl in Hn. lia.
  - lia.
Qed.

Lemma arg_okb_sound s l :
  forallb (arg_okb s) l = true -> forall c, c ∈ l -> arg_ok s c.
Proof.
  intros H c Hc. pose proof (forallb_elem _ _ _ H Hc) as Hb. unfold arg_okb in Hb.
  destruct (real_node s c) as [n |] eqn:Hn; [| discriminate]. exists n. split; [exact Hn |].
  apply andb_prop in Hb as (Hs & Hsort). split; [apply Z.eqb_eq; exact Hs |].
  apply orb_prop in Hsort as [H1 | H1].
  - left. apply bool_decide_eq_true in H1. exact H1.
  - right. unfold is_kind in H1. apply bool_decide_eq_true in H1. exact H1.
Qed.

Lemma in_tableb_sound s p : in_tableb s p = true -> in_table s p.
Proof.
  unfold in_tableb. intros H. apply existsb_exists in H as ((b & q) & Hin & Hq).
  simpl in Hq. apply Z.eqb_eq in Hq. subst q.
  apply in_table_entry. exists b. apply list_elem_of_In. exact Hin.
Qed.

Lemma refs_of_empty_table s (P : Z -> BtorNode -> Prop) :
  table_entries s = [] -> forall p n, in_table s p -> node_at s p = Some n -> P p n.
Proof.
  intros H p n Hp. apply in_table_entry in Hp as (b & Hb). rewrite H in Hb.
  apply elem_of_nil in Hb. contradiction.
Qed.

(** ** Disconnecting a child *)

Lemma disconnect_child_exp_split s parent pos :
  disconnect_child_exp s parent pos
  = '(s1, rc, first, last) ← disconnect_prefix s parent pos;
    disconnect_suffix s1 parent pos rc first last.
Proof.
  unfold disconnect_child_exp, disconnect_prefix, disconnect_suffix.
  repeat (match goal with
          | |- (?m ≫= _) = _ => destruct m as [? |]; simpl; try reflexivity
          end).
Qed.

Lemma last_cons_default {A} (x : A) l d d' : List.last (x :: l) d = List.last (x :: l) d'.
Proof.
  revert x. induction l as [| y l IH]; intros x; [reflexivity |].
  change (List.last (y :: l) d = List.last (y :: l) d'). apply IH.
Qed.

(** The link [t] of a chain, between the links before and after it. *)
Lemma chain_split s prev l1 t l2 :
  is_parent_chain s prev (l1 ++ t :: l2) ->
  prev_link s t = Some (List.last l1 prev) /\ next_link s t = Some (hd 0 l2).
Proof.
  revert prev. induction l1 as [| x l1 IH]; intros prev Hc.
  - simpl in Hc. destruct Hc as (_ & Hp & Hn & _). auto.
  - change ((x :: l1) ++ t :: l2) with (x :: (l1 ++ t :: l2)) in Hc.
    destruct Hc as (_ & _ & _ & Hc). destruct (IH x Hc) as (Hp & Hn).
    split; [| exact Hn]. rewrite Hp. f_equal.
    destruct l1 as [| z l1]; [reflexivity |].
    change (List.last (x :: z :: l1) prev) with (List.last (z :: l1) prev).
    apply last_cons_default.
Qed.

Lemma last_app_cons {A} (l1 l2 : list A) t d : List.last (l1 ++ t :: l2) d = List.last l2 t.
Proof.
  induction l1 as [| x l1 IH]; simpl.
  - destruct l2 as [| y l2]; [reflexivity |].
    change (List.last (y :: l2) d = List.last (y :: l2) t). apply last_cons_default.
  - destruct (l1 ++ t :: l2) eqn:E; [destruct l1; discriminate |]. exact IH.
Qed.

(** A chain without one of its links, when the neighbours of the link are
    linked to each other. *)
Lemma chain_remove s s' prev l1 t l2 :
  is_parent_chain s prev (l1 ++ t :: l2) -> NoDup (l1 ++ t :: l2) ->
  (l2 <> [] -> prev_link s' (hd 0 l2) = Some (List.last l1 prev)) ->
  (forall x, x ∈ l1 ++ l2 -> x <> hd 0 l2 -> prev_link s' x = prev_link s x) ->
  (l1 <> [] -> next_link s' (List.last l1 0) = Some (hd 0 l2)) ->
  (forall x, x ∈ l1 ++ l2 -> x <> List.last l1 0 -> next_link s' x = next_link s x) ->
  is_parent_chain s' prev (l1 ++ l2).
Proof.
  revert prev. induction l1 as [| x l1 IH]; intros prev Hc Hnd Hp1 Hp Hn1 Hn.
  - change ([] ++ t :: l2) with (t :: l2) in *. change ([] ++ l2) with l2 in *.
    destruct Hc as (_ & Hpt & Hnt & Hc). apply NoDup_cons in Hnd as [Ht Hnd].
    destruct l2 as [| y l2]; [exact I |].
    destruct Hc as (Hy & Hpy & Hny & Hc). apply NoDup_cons in Hnd as [Hy' Hnd].
    assert (H0 : 0 < y).
    { unfold prev_link in Hpy. destruct (real_node s y) as [m |] eqn:Hm; [| discriminate].
      eapply real_node_pos. exact Hm. }
    cbn [is_parent_chain]. split; [exact Hy |]. split.
    { apply Hp1. discriminate. }
    split.
    { rewrite Hn; [exact Hny | left |]. change (List.last [] 0) with 0. lia. }
    apply (chain_frame s); [| exact Hc].
    intros z Hz.
    assert (H0z : 0 < z) by (eapply chain_nonzero; eassumption).
    split.
    + apply Hn; [right; exact Hz |]. change (List.last [] 0) with 0. lia.
    + apply Hp; [right; exact Hz |]. change (hd 0 (y :: l2)) with y.
      intros ->. contradiction.
  - change ((x :: l1) ++ t :: l2) with (x :: (l1 ++ t :: l2)) in *.
    change ((x :: l1) ++ l2) with (x :: (l1 ++ l2)) in *.
    destruct Hc as (Hx & Hpx & Hnx & Hc). apply NoDup_cons in Hnd as [Hxl Hnd].
    assert (Hx1 : x ∉ l1) by (intros H; apply Hxl; apply elem_of_app; left; exact H).
    assert (Hx2 : x ∉ l2).
    { intros H; apply Hxl; apply elem_of_app; right; right; exact H. }
    assert (H0x : 0 < x).
    { unfold prev_link in Hpx. destruct (real_node s x) as [m |] eqn:Hm; [| discriminate].
      eapply real_node_pos. exact Hm. }
    cbn [is_parent_chain]. split; [exact Hx |]. split.
    { rewrite Hp; [exact Hpx | left |].
      intros E. destruct l2 as [| y l2]; [simpl in E; lia |].
      apply Hx2. rewrite E. left. }
    split.
    { destruct l1 as [| y l1].
      - change (hd 0 ([] ++ l2)) with (hd 0 l2). apply Hn1. discriminate.
      - change (hd 0 ((y :: l1) ++ l2)) with y.
        change (hd 0 ((y :: l1) ++ t :: l2)) with y in Hnx.
        rewrite Hn; [exact Hnx | left |].
        change (List.last (x :: y :: l1) 0) with (List.last (y :: l1) 0).
        intros E. apply Hx1. rewrite E. apply last_elem_of. discriminate. }
    apply IH; [exact Hc | exact Hnd | | | |].
    + intros Hl2. rewrite (Hp1 Hl2). f_equal.
      destruct l1 as [| y l1]; [reflexivity |].
      change (List.last (x :: y :: l1) prev) with (List.last (y :: l1) prev).
      apply last_cons_default.
    + intros z Hz Hne. apply Hp; [right; exact Hz | exact Hne].
    + intros Hl1. destruct l1 as [| y l1]; [congruence |].
      change (List.last (x :: y :: l1) 0) with (List.last (y :: l1) 0) in Hn1.
      apply Hn1. discriminate.
    + intros z Hz Hne. destruct l1 as [| y l1].
      * change ([] ++ l2) with l2 in Hz.
        apply Hn; [right; exact Hz |]. change (List.last [x] 0) with x.
        intros ->. contradiction.
      * apply Hn; [right; exact Hz |].
        change (List.last (x :: y :: l1) 0) with (List.last (y :: l1) 0). exact Hne.
Qed.

Lemma fld_store s q n n' {A} (proj : BtorNode -> A) x :
  node_at s q = Some n ->
  fld proj (store_node s q n') x = if decide (x = q) then Some (proj n') else fld proj s x.
Proof.
  intros Hq. unfold fld. rewrite (node_at_store _ _ _ _ _ Hq).
  destruct (decide (x = q)); reflexivity.
Qed.

Lemma disconnect_prefix_spec s parent pos pn cn :
  node_at s parent = Some pn ->
  real_node s (get3 (n_e pn) pos) = Some cn ->
  let rc := BTOR_REAL_ADDR_NODE (get3 (n_e pn) pos) in
  exists s1,
    disconnect_prefix s parent pos = Some (s1, rc, n_first_parent cn, n_last_parent cn)
    /\ same_tables s s1
    /\ length (nodes_id_table s1) = length (nodes_id_table s)
    /\ (forall x, is_Some (node_at s1 x) <-> is_Some (node_at s x))
    /\ (forall x, fld apart s1 x = fld apart s x)
    /\ (forall x, fld n_e s1 x = fld n_e s x)
    /\ (forall x, fld n_first_parent s1 x = fld n_first_parent s x)
    /\ (forall x, fld n_last_parent s1 x = fld n_last_parent s x)
    /\ (forall x, fld n_next_parent s1 x = fld n_next_parent s x)
    /\ (forall x, fld n_prev_parent s1 x = fld n_prev_parent s x)
    /\ (forall x, fld n_parents s1 x
                  = if decide (x = rc) then Some (n_parents cn - 1) else fld n_parents s x)
    /\ (forall x, x <> rc -> fld n_lambda_exp s1 x = fld n_lambda_exp s x).
Proof.
  intros Hp Hc rc. unfold real_node in Hc. fold rc in Hc.
  set (c1 := wr_parents (n_parents cn - 1) cn).
  set (s0 := store_node s rc c1).
  assert (Hc0 : node_at s0 rc = Some c1) by (eapply node_at_store_eq; exact Hc).
  assert (Hp0 : exists p0, node_at s0 parent = Some p0 /\ n_kind p0 = n_kind pn
                           /\ n_e p0 = n_e pn).
  { unfold s0. rewrite (node_at_store _ _ _ _ _ Hc).
    destruct (decide (parent = rc)) as [E |]; [| eauto].
    exists c1. rewrite E in Hp. assert (pn = cn) by congruence. subst pn. auto. }
  destruct Hp0 as (p0 & Hp0 & Hk0 & He0).
  assert (Hbase : same_tables s s0
    /\ length (nodes_id_table s0) = length (nodes_id_table s)
    /\ (forall x, is_Some (node_at s0 x) <-> is_Some (node_at s x))
    /\ (forall x, fld apart s0 x = fld apart s x)
    /\ (forall x, fld n_e s0 x = fld n_e s x)
    /\ (forall x, fld n_first_parent s0 x = fld n_first_parent s x)
    /\ (forall x, fld n_last_parent s0 x = fld n_last_parent s x)
    /\ (forall x, fld n_next_parent s0 x = fld n_next_parent s x)
    /\ (forall x, fld n_prev_parent s0 x = fld n_prev_parent s x)
    /\ (forall x, fld n_parents s0 x
                  = if decide (x = rc) then Some (n_parents cn - 1) else fld n_parents s x)
    /\ (forall x, fld n_lambda_exp s0 x = fld n_lambda_exp s x)).
  { unfold s0. split; [apply same_tables_store, same_tables_refl |].
    split; [apply length_store_node |].
    split; [intros x; apply (live_store _ _ _ _ _ Hc) |].
    repeat (split; [intros x; apply (fld_store_frame _ _ _ _ _ _ Hc); reflexivity |]).
    split; [intros x; rewrite (fld_store _ _ _ _ n_parents _ Hc); reflexivity |].
    intros x; apply (fld_store_frame _ _ _ _ _ _ Hc); reflexivity. }
  destruct Hbase as (B1 & B2 & B3 & B4 & B5 & B6 & B7 & B8 & B9 & B10 & B11).
  assert (Hstart : disconnect_prefix s parent pos
    = s2 ← (if is_kind BTOR_LAMBDA_NODE pn && (pos =? 0)%nat then
              if n_lambda_exp cn =? parent
              then Some (store_node s0 rc (wr_lambda_exp 0 c1))
              else Some s0
            else Some s0);
      Some (s2, rc, n_first_parent cn, n_last_parent cn)).
  { unfold disconnect_prefix. rewrite Hp. cbn [mbind option_bind]. fold rc.
    rewrite (upd_node_live _ _ _ _ Hc). cbn [mbind option_bind]. fold c1. fold s0.
    rewrite Hc0. cbn [mbind option_bind]. rewrite Hp0. cbn [mbind option_bind].
    unfold is_kind. rewrite Hk0, He0.
    destruct (bool_decide (n_kind pn = BTOR_LAMBDA_NODE)); [| reflexivity].
    destruct (Nat.eqb_spec pos 0) as [-> |]; [| reflexivity].
    cbn [andb]. unfold real_node. fold rc. rewrite Hc0. cbn [mbind option_bind].
    change (n_lambda_exp c1) with (n_lambda_exp cn).
    destruct (n_lambda_exp cn =? parent); [| reflexivity].
    rewrite (upd_node_live _ _ _ _ Hc0). reflexivity. }
  rewrite Hstart.
  destruct (is_kind BTOR_LAMBDA_NODE pn && (pos =? 0)%nat);
    [destruct (n_lambda_exp cn =? parent) |].
  - exists (store_node s0 rc (wr_lambda_exp 0 c1)). split; [reflexivity |].
    split; [apply same_tables_store; exact B1 |].
    split; [rewrite length_store_node; exact B2 |].
    split; [intros x; rewrite (live_store _ _ _ _ _ Hc0); apply B3 |].
    split; [intros x; rewrite (fld_store_frame _ _ _ _ _ _ Hc0) by reflexivity; apply B4 |].
    split; [intros x; rewrite (fld_store_frame _ _ _ _ _ _ Hc0) by reflexivity; apply B5 |].
    split; [intros x; rewrite (fld_store_frame _ _ _ _ _ _ Hc0) by reflexivity; apply B6 |].
    split; [intros x; rewrite (fld_store_frame _ _ _ _ _ _ Hc0) by reflexivity; apply B7 |].
    split; [intros x; rewrite (fld_store_frame _ _ _ _ _ _ Hc0) by reflexivity; apply B8 |].
    split; [intros x; rewrite (fld_store_frame _ _ _ _ _ _ Hc0) by reflexivity; apply B9 |].
    split; [intros x; rewrite (fld_store_frame _ _ _ _ _ _ Hc0) by reflexivity; apply B10 |].
    intros x Hx. rewrite (fld_store_ne _ _ _ _ _ _ Hc0) by exact Hx. apply B11.
  - exists s0. split; [reflexivity |]. repeat (split; [assumption |]). intros x _. apply B11.
  - exists s0. split; [reflexivity |]. repeat (split; [assumption |]). intros x _. apply B11.
Qed.

Lemma link_canonical s prev l x :
  is_parent_chain s prev l -> x ∈ l ->
  BTOR_TAG_NODE (BTOR_REAL_ADDR_NODE x) (btor_exp_get_tag x) = x
  /\ (btor_exp_get_tag x < 3)%nat /\ is_Some (real_node s x).
Proof.
  intros Hc Hx. pose proof (chain_nonzero _ _ _ _ Hc Hx).
  split; [apply tag_decompose; lia |].
  split; [eapply chain_tag; eassumption | eapply chain_live; eassumption].
Qed.

(** The write that clears the slot of the parent. *)
Lemma clear_slot_views s parent pos p :
  node_at s parent = Some p -> (pos < 3)%nat ->
  let s' := store_node s parent
              (wr_e (set3 (n_e p) pos 0)
                 (wr_prev_parent (set3 (n_prev_parent p) pos 0)
                    (wr_next_parent (set3 (n_next_parent p) pos 0) p))) in
  same_tables s s'
  /\ length (nodes_id_table s') = length (nodes_id_table s)
  /\ (forall x, is_Some (node_at s' x) <-> is_Some (node_at s x))
  /\ (forall x, fld apart s' x = fld apart s x)
  /\ (forall x, fld n_parents s' x = fld n_parents s x)
  /\ (forall x, fld n_lambda_exp s' x = fld n_lambda_exp s x)
  /\ (forall x, fld n_first_parent s' x = fld n_first_parent s x)
  /\ (forall x, fld n_last_parent s' x = fld n_last_parent s x)
  /\ (forall x, fld n_e s' x
                = if decide (x = parent) then Some (set3 (n_e p) pos 0) else fld n_e s x)
  /\ (forall x, next_link s' x
                = if decide (x = BTOR_TAG_NODE parent pos) then Some 0 else next_link s x)
  /\ (forall x, prev_link s' x
                = if decide (x = BTOR_TAG_NODE parent pos) then Some 0 else prev_link s x).
Proof.
  intros Hp Hpos s'. unfold s'.
  split; [apply same_tables_store, same_tables_refl |].
  split; [apply length_store_node |].
  split; [intros x; apply (live_store _ _ _ _ _ Hp) |].
  do 5 (split; [intros x; apply (fld_store_frame _ _ _ _ _ _ Hp); reflexivity |]).
  split; [intros x; rewrite (fld_store _ _ _ _ n_e _ Hp); reflexivity |].
  split; intros x.
  - apply (next_link_store_set _ _ p); [exact Hp | exact Hpos | reflexivity].
  - apply (prev_link_store_set _ _ p); [exact Hp | exact Hpos | reflexivity].
Qed.

Lemma disconnect_suffix_unfold s parent pos rc first last :
  disconnect_suffix s parent pos rc first last
  = p ← node_at s parent;
    s ← unlink_parent s parent pos rc first last p;
    upd_node s parent
      (fun p => wr_e (set3 (n_e p) pos 0)
                  (wr_prev_parent (set3 (n_prev_parent p) pos 0)
                     (wr_next_parent (set3 (n_next_parent p) pos 0) p))).
Proof. reflexivity. Qed.

Lemma hd_app_cons (l1 : list Z) t l2 : hd 0 (l1 ++ t :: l2) = hd t l1.
Proof. destruct l1; reflexivity. Qed.

Lemma eqb_false a b : a <> b -> (a =? b) = false.
Proof. intros H. apply Z.eqb_neq. exact H. Qed.

(** The link is taken out of the parent list of the child. *)
Lemma unlink_parent_spec s parent pos pn rc cn l1 l2 :
  node_at s parent = Some pn -> (pos < 3)%nat -> node_at s rc = Some cn ->
  let tagged := BTOR_TAG_NODE parent pos in
  n_first_parent cn = hd 0 (l1 ++ tagged :: l2) ->
  n_last_parent cn = List.last (l1 ++ tagged :: l2) 0 ->
  is_parent_chain s 0 (l1 ++ tagged :: l2) -> NoDup (l1 ++ tagged :: l2) ->
  exists s2,
    unlink_parent s parent pos rc (n_first_parent cn) (n_last_parent cn) pn = Some s2
    /\ same_tables s s2
    /\ length (nodes_id_table s2) = length (nodes_id_table s)
    /\ (forall x, is_Some (node_at s2 x) <-> is_Some (node_at s x))
    /\ (forall x, fld apart s2 x = fld apart s x)
    /\ (forall x, fld n_parents s2 x = fld n_parents s x)
    /\ (forall x, fld n_lambda_exp s2 x = fld n_lambda_exp s x)
    /\ (forall x, fld n_e s2 x = fld n_e s x)
    /\ (forall x, fld n_first_parent s2 x
                  = if decide (x = rc) then Some (hd 0 (l1 ++ l2))
                    else fld n_first_parent s x)
    /\ (forall x, fld n_last_parent s2 x
                  = if decide (x = rc) then Some (List.last (l1 ++ l2) 0)
                    else fld n_last_parent s x)
    /\ (l1 <> [] -> next_link s2 (List.last l1 0) = Some (hd 0 l2))
    /\ (forall x, x <> List.last l1 0 -> next_link s2 x = next_link s x)
    /\ (l2 <> [] -> prev_link s2 (hd 0 l2) = Some (List.last l1 0))
    /\ (forall x, x <> hd 0 l2 -> prev_link s2 x = prev_link s x).
Proof.
  intros Hp Hpos Hc tagged Hfirst Hlast Hchain Hnd.
  destruct (chain_split _ _ _ _ _ Hchain) as (Hprev_t & Hnext_t).
  assert (Hnext_p : get3 (n_next_parent pn) pos = hd 0 l2).
  { pose proof (next_link_tagged s parent pos pn Hp Hpos) as H. fold tagged in H. congruence. }
  assert (Hprev_p : get3 (n_prev_parent pn) pos = List.last l1 0).
  { pose proof (prev_link_tagged s parent pos pn Hp Hpos) as H. fold tagged in H. congruence. }
  rewrite hd_app_cons in Hfirst. rewrite last_app_cons in Hlast.
  assert (Ht0 : 0 < tagged).
  { apply (chain_nonzero _ _ _ tagged Hchain). apply elem_of_app. right. left. }
  unfold unlink_parent. fold tagged. rewrite Hfirst, Hlast, Hnext_p, Hprev_p.
  destruct l1 as [| a l1']; destruct l2 as [| b l2'].
  - (* the only link *)
    cbn [hd List.last]. rewrite !Z.eqb_refl. cbn [andb].
    rewrite (upd_node_live _ _ _ _ Hc). eexists. split; [reflexivity |].
    split; [apply same_tables_store, same_tables_refl |].
    split; [apply length_store_node |].
    split; [intros x; apply (live_store _ _ _ _ _ Hc) |].
    do 4 (split; [intros x; apply (fld_store_frame _ _ _ _ _ _ Hc); reflexivity |]).
    split; [intros x; rewrite (fld_store _ _ _ _ n_first_parent _ Hc); reflexivity |].
    split; [intros x; rewrite (fld_store _ _ _ _ n_last_parent _ Hc); reflexivity |].
    split; [congruence |].
    split; [intros x _; apply (next_link_store_frame _ _ _ _ _ Hc); reflexivity |].
    split; [congruence |].
    intros x _; apply (prev_link_store_frame _ _ _ _ _ Hc); reflexivity.
  - (* the first link *)
    assert (Hb : b ∈ [] ++ tagged :: b :: l2') by (right; left).
    destruct (link_canonical _ _ _ _ Hchain Hb) as (Hcanon & Htag & Hlive).
    assert (Hlast_ne : List.last (b :: l2') tagged <> tagged).
    { intros E. apply NoDup_cons in Hnd as [Hnot _]. apply Hnot.
      rewrite <- E at 1. rewrite (last_cons_default b l2' tagged 0).
      apply last_elem_of. discriminate. }
    cbn [hd app]. rewrite Z.eqb_refl, (eqb_false _ _ (not_eq_sym Hlast_ne)).
    cbn [andb]. rewrite (upd_node_live _ _ _ _ Hc). cbn [mbind option_bind].
    set (s1 := store_node s rc (wr_first_parent b cn)).
    assert (L1 : is_Some (node_at s1 (BTOR_REAL_ADDR_NODE b))).
    { apply (live_store _ _ _ _ _ Hc). exact Hlive. }
    destruct L1 as [f1 F1]. rewrite (upd_node_live _ _ _ _ F1).
    eexists. split; [reflexivity |].
    split; [do 2 apply same_tables_store; apply same_tables_refl |].
    split; [unfold s1; rewrite !length_store_node; reflexivity |].
    split; [intros x; rewrite (live_store _ _ _ _ _ F1); apply (live_store _ _ _ _ _ Hc) |].
    do 4 (split; [intros x; rewrite (fld_store_frame _ _ _ _ _ _ F1) by reflexivity;
                  apply (fld_store_frame _ _ _ _ _ _ Hc); reflexivity |]).
    split.
    { intros x. rewrite (fld_store_frame _ _ _ _ _ _ F1) by reflexivity.
      unfold s1. rewrite (fld_store _ _ _ _ n_first_parent _ Hc). reflexivity. }
    split.
    { intros x. rewrite (fld_store_frame _ _ _ _ _ _ F1) by reflexivity.
      unfold s1. rewrite (fld_store_frame _ _ _ _ _ _ Hc) by reflexivity.
      destruct (decide (x = rc)) as [-> |]; [| reflexivity].
      rewrite (fld_of_node _ _ _ _ Hc), Hlast. f_equal. apply last_cons_default. }
    split; [congruence |].
    split.
    { intros x _. rewrite (next_link_store_frame _ _ _ _ _ F1) by reflexivity.
      apply (next_link_store_frame _ _ _ _ _ Hc). reflexivity. }
    split.
    { intros _. rewrite (prev_link_store_wr _ _ _ _ _ _ F1 Htag), Hcanon.
      destruct (decide (b = b)); [reflexivity | contradiction]. }
    intros x Hx. rewrite (prev_link_store_wr _ _ _ _ _ _ F1 Htag), Hcanon.
    destruct (decide (x = b)); [contradiction |].
    apply (prev_link_store_frame _ _ _ _ _ Hc). reflexivity.
  - (* the last link *)
    set (c := List.last (a :: l1') 0) in *.
    assert (Hcin : c ∈ (a :: l1') ++ [tagged]).
    { apply elem_of_app. left. apply last_elem_of. discriminate. }
    destruct (link_canonical _ _ _ _ Hchain Hcin) as (Hcanon & Htag & Hlive).
    assert (Hfirst_ne : a <> tagged).
    { intros E. change ((a :: l1') ++ [tagged]) with (a :: (l1' ++ [tagged])) in Hnd.
      apply NoDup_cons in Hnd as [Hnot _]. apply Hnot. rewrite E.
      apply elem_of_app. right. left. }
    assert (Hc_ne : c <> tagged).
    { intros E. apply NoDup_app in Hnd as (_ & Hdisj & _).
      apply (Hdisj c); [apply last_elem_of; discriminate | rewrite E; left]. }
    cbn [hd List.last]. rewrite (eqb_false _ _ Hfirst_ne), Z.eqb_refl. cbn [andb].
    rewrite (upd_node_live _ _ _ _ Hc). cbn [mbind option_bind].
    set (s1 := store_node s rc (wr_last_parent c cn)).
    assert (L1 : is_Some (node_at s1 (BTOR_REAL_ADDR_NODE c))).
    { apply (live_store _ _ _ _ _ Hc). exact Hlive. }
    destruct L1 as [f1 F1]. rewrite (upd_node_live _ _ _ _ F1).
    eexists. split; [reflexivity |].
    split; [do 2 apply same_tables_store; apply same_tables_refl |].
    split; [unfold s1; rewrite !length_store_node; reflexivity |].
    split; [intros x; rewrite (live_store _ _ _ _ _ F1); apply (live_store _ _ _ _ _ Hc) |].
    do 4 (split; [intros x; rewrite (fld_store_frame _ _ _ _ _ _ F1) by reflexivity;
                  apply (fld_store_frame _ _ _ _ _ _ Hc); reflexivity |]).
    split.
    { intros x. rewrite (fld_store_frame _ _ _ _ _ _ F1) by reflexivity.
      unfold s1. rewrite (fld_store_frame _ _ _ _ _ _ Hc) by reflexivity.
      destruct (decide (x = rc)) as [-> |]; [| reflexivity].
      rewrite (fld_of_node _ _ _ _ Hc), Hfirst. reflexivity. }
    split.
    { intros x. rewrite (fld_store_frame _ _ _ _ _ _ F1) by reflexivity.
      unfold s1. rewrite (fld_store _ _ _ _ n_last_parent _ Hc).
      rewrite app_nil_r. reflexivity. }
    split.
    { intros _. rewrite (next_link_store_wr _ _ _ _ _ _ F1 Htag), Hcanon.
      destruct (decide (c = c)); [reflexivity | contradiction]. }
    split.
    { intros x Hx. rewrite (next_link_store_wr _ _ _ _ _ _ F1 Htag), Hcanon.
      destruct (decide (x = c)); [contradiction |].
      apply (next_link_store_frame _ _ _ _ _ Hc). reflexivity. }
    split; [congruence |].
    intros x _. rewrite (prev_link_store_frame _ _ _ _ _ F1) by reflexivity.
    apply (prev_link_store_frame _ _ _ _ _ Hc). reflexivity.
  - (* a link in the middle *)
    set (c := List.last (a :: l1') 0) in *.
    assert (Hcin : c ∈ (a :: l1') ++ tagged :: b :: l2').
    { apply elem_of_app. left. apply last_elem_of. discriminate. }
    assert (Hbin : b ∈ (a :: l1') ++ tagged :: b :: l2').
    { apply elem_of_app. right. right. left. }
    destruct (link_canonical _ _ _ _ Hchain Hcin) as (Hcanon_c & Htag_c & Hlive_c).
    destruct (link_canonical _ _ _ _ Hchain Hbin) as (Hcanon_b & Htag_b & Hlive_b).
    pose proof Hnd as Hnd'.
    apply NoDup_app in Hnd' as (_ & Hdisj & Hnd2).
    apply NoDup_cons in Hnd2 as [Hnot2 _].
    assert (Hfirst_ne : a <> tagged).
    { intros E. apply (Hdisj a); [left | rewrite E; left]. }
    assert (Hc_ne : c <> tagged).
    { intros E. apply (Hdisj c); [apply last_elem_of; discriminate | rewrite E; left]. }
    assert (Hb_ne : tagged <> b).
    { intros E. apply Hnot2. rewrite E. left. }
    assert (Hlast_ne : List.last (b :: l2') tagged <> tagged).
    { intros E. apply Hnot2. rewrite <- E at 1.
      rewrite (last_cons_default b l2' tagged 0). apply last_elem_of. discriminate. }
    cbn [hd]. rewrite (eqb_false _ _ Hfirst_ne), (eqb_false _ _ Hlast_ne). cbn [andb].
    destruct Hlive_b as [f0 F0]. rewrite (upd_node_live _ _ _ _ F0). cbn [mbind option_bind].
    set (s1 := store_node s (BTOR_REAL_ADDR_NODE b)
                 (wr_prev_parent (set3 (n_prev_parent f0) (btor_exp_get_tag b) c) f0)).
    assert (P1 : is_Some (node_at s1 parent)).
    { apply (live_store _ _ _ _ _ F0). eauto. }
    destruct P1 as [p1 P1]. rewrite P1. cbn [mbind option_bind].
    assert (Hn1 : get3 (n_next_parent p1) pos = b).
    { pose proof (next_link_tagged s1 parent pos p1 P1 Hpos) as H. fold tagged in H.
      unfold s1 in H. rewrite (next_link_store_frame _ _ _ _ _ F0) in H by reflexivity.
      cbn [hd] in Hnext_t. congruence. }
    assert (Hp1 : get3 (n_prev_parent p1) pos = c).
    { pose proof (prev_link_tagged s1 parent pos p1 P1 Hpos) as H. fold tagged in H.
      unfold s1 in H. rewrite (prev_link_store_wr _ _ _ _ _ _ F0 Htag_b), Hcanon_b in H.
      destruct (decide (tagged = b)); [contradiction |]. fold c in Hprev_t. congruence. }
    rewrite Hn1, Hp1.
    assert (L1 : is_Some (node_at s1 (BTOR_REAL_ADDR_NODE c))).
    { apply (live_store _ _ _ _ _ F0). exact Hlive_c. }
    destruct L1 as [g1 G1]. rewrite (upd_node_live _ _ _ _ G1).
    eexists. split; [reflexivity |].
    split; [do 2 apply same_tables_store; apply same_tables_refl |].
    split; [unfold s1; rewrite !length_store_node; reflexivity |].
    split; [intros x; rewrite (live_store _ _ _ _ _ G1); apply (live_store _ _ _ _ _ F0) |].
    do 4 (split; [intros x; rewrite (fld_store_frame _ _ _ _ _ _ G1) by reflexivity;
                  apply (fld_store_frame _ _ _ _ _ _ F0); reflexivity |]).
    split.
    { intros x. rewrite (fld_store_frame _ _ _ _ _ _ G1) by reflexivity.
      unfold s1. rewrite (fld_store_frame _ _ _ _ _ _ F0) by reflexivity.
      destruct (decide (x = rc)) as [-> |]; [| reflexivity].
      rewrite (fld_of_node _ _ _ _ Hc), Hfirst. reflexivity. }
    split.
    { intros x. rewrite (fld_store_frame _ _ _ _ _ _ G1) by reflexivity.
      unfold s1. rewrite (fld_store_frame _ _ _ _ _ _ F0) by reflexivity.
      destruct (decide (x = rc)) as [-> |]; [| reflexivity].
      rewrite (fld_of_node _ _ _ _ Hc), Hlast. f_equal.
      rewrite last_app_cons. exact (last_app_cons [] l2' b tagged). }
    split.
    { intros _. rewrite (next_link_store_wr _ _ _ _ _ _ G1 Htag_c), Hcanon_c.
      destruct (decide (c = c)); [reflexivity | contradiction]. }
    split.
    { intros x Hx. rewrite (next_link_store_wr _ _ _ _ _ _ G1 Htag_c), Hcanon_c.
      destruct (decide (x = c)); [contradiction |].
      apply (next_link_store_frame _ _ _ _ _ F0). reflexivity. }
    split.
    { intros _. rewrite (prev_link_store_frame _ _ _ _ _ G1) by reflexivity.
      unfold s1. rewrite (prev_link_store_wr _ _ _ _ _ _ F0 Htag_b), Hcanon_b.
      destruct (decide (b = b)); [reflexivity | contradiction]. }
    intros x Hx. rewrite (prev_link_store_frame _ _ _ _ _ G1) by reflexivity.
    unfold s1. rewrite (prev_link_store_wr _ _ _ _ _ _ F0 Htag_b), Hcanon_b.
    cbn [hd] in Hx. destruct (decide (x = b)); [contradiction | reflexivity].
Qed.

Lemma links_of_fields s s' :
  (forall x, fld n_next_parent s' x = fld n_next_parent s x) ->
  (forall x, fld n_prev_parent s' x = fld n_prev_parent s x) ->
  forall x, next_link s' x = next_link s x /\ prev_link s' x = prev_link s x.
Proof. intros Hn Hp x. rewrite !prev_link_fld, !next_link_fld, Hn, Hp. auto. Qed.

Lemma fld_eq_node {A} (proj : BtorNode -> A) s s' x n n' :
  fld proj s' x = fld proj s x -> node_at s x = Some n -> node_at s' x = Some n' ->
  proj n' = proj n.
Proof.
  intros H Hn Hn'. rewrite (fld_of_node _ _ _ _ Hn), (fld_of_node _ _ _ _ Hn') in H.
  congruence.
Qed.

(** [disconnect_child_exp] takes the link of the edge out of the parent list
    of the child and clears the slot and the links of the edge. *)
Lemma disconnect_child_exp_spec s parent pos pn cn l1 l2 :
  node_at s parent = Some pn -> (pos < 3)%nat ->
  real_node s (get3 (n_e pn) pos) = Some cn ->
  let rc := BTOR_REAL_ADDR_NODE (get3 (n_e pn) pos) in
  let tagged := BTOR_TAG_NODE parent pos in
  parent_list s cn (l1 ++ tagged :: l2) ->
  exists s',
    disconnect_child_exp s parent pos = Some s'
    /\ same_tables s s'
    /\ length (nodes_id_table s') = length (nodes_id_table s)
    /\ (forall x, is_Some (node_at s' x) <-> is_Some (node_at s x))
    /\ (forall x, fld apart s' x = fld apart s x)
    /\ (forall x, fld n_e s' x
                  = if decide (x = parent) then Some (set3 (n_e pn) pos 0) else fld n_e s x)
    /\ (forall x, fld n_parents s' x
                  = if decide (x = rc) then Some (n_parents cn - 1) else fld n_parents s x)
    /\ (forall x, x <> rc -> fld n_lambda_exp s' x = fld n_lambda_exp s x)
    /\ (forall x, fld n_first_parent s' x
                  = if decide (x = rc) then Some (hd 0 (l1 ++ l2))
                    else fld n_first_parent s x)
    /\ (forall x, fld n_last_parent s' x
                  = if decide (x = rc) then Some (List.last (l1 ++ l2) 0)
                    else fld n_last_parent s x)
    /\ next_link s' tagged = Some 0 /\ prev_link s' tagged = Some 0
    /\ (l1 <> [] -> next_link s' (List.last l1 0) = Some (hd 0 l2))
    /\ (forall x, x <> List.last l1 0 -> x <> tagged -> next_link s' x = next_link s x)
    /\ (l2 <> [] -> prev_link s' (hd 0 l2) = Some (List.last l1 0))
    /\ (forall x, x <> hd 0 l2 -> x <> tagged -> prev_link s' x = prev_link s x).
Proof.
  intros Hp Hpos Hc rc tagged (Hfirst & Hlast & Hchain & Hnd).
  rewrite disconnect_child_exp_split.
  destruct (disconnect_prefix_spec s parent pos pn cn Hp Hc)
    as (s1 & E1 & T1 & Len1 & Lv1 & A1 & Ee1 & F1 & La1 & N1 & P1 & Pa1 & Lm1).
  fold rc in E1, Pa1, Lm1. rewrite E1. cbn [mbind option_bind].
  rewrite disconnect_suffix_unfold.
  unfold real_node in Hc. fold rc in Hc.
  destruct (proj2 (Lv1 parent)) as [pn1 Hp1]; [eauto |].
  destruct (proj2 (Lv1 rc)) as [cn1 Hc1]; [eauto |].
  rewrite Hp1. cbn [mbind option_bind].
  pose proof (fld_eq_node _ _ _ _ _ _ (F1 rc) Hc Hc1) as Hf1.
  pose proof (fld_eq_node _ _ _ _ _ _ (La1 rc) Hc Hc1) as Hl1.
  pose proof (links_of_fields s s1 N1 P1) as Hlk1.
  destruct (unlink_parent_spec s1 parent pos pn1 rc cn1 l1 l2 Hp1 Hpos Hc1)
    as (s2 & E2 & T2 & Len2 & Lv2 & A2 & Pa2 & Lm2 & Ee2 & F2 & La2 & Nl & Nf & Pl & Pf).
  { rewrite Hf1. exact Hfirst. }
  { rewrite Hl1. exact Hlast. }
  { apply (chain_frame s); [intros x _; apply Hlk1 | exact Hchain]. }
  { exact Hnd. }
  rewrite Hf1, Hl1 in E2. rewrite E2. cbn [mbind option_bind].
  destruct (proj2 (Lv2 parent)) as [pn2 Hp2]; [eauto |].
  rewrite (upd_node_live _ _ _ _ Hp2).
  destruct (clear_slot_views s2 parent pos pn2 Hp2 Hpos)
    as (T3 & Len3 & Lv3 & A3 & Pa3 & Lm3 & F3 & La3 & Ee3 & N3 & P3).
  fold tagged in N3, P3.
  assert (He2 : n_e pn2 = n_e pn).
  { rewrite (fld_eq_node _ _ _ _ _ _ (Ee2 parent) Hp1 Hp2).
    apply (fld_eq_node _ _ _ _ _ _ (Ee1 parent) Hp Hp1). }
  rewrite He2 in *.
  eexists. split; [reflexivity |].
  split; [exact (same_tables_trans _ _ _ (same_tables_trans _ _ _ T1 T2) T3) |].
  split; [congruence |].
  split; [intros x; rewrite Lv3, Lv2; apply Lv1 |].
  split; [intros x; rewrite A3, A2; apply A1 |].
  split.
  { intros x. rewrite Ee3. destruct (decide (x = parent)); [reflexivity |].
    rewrite Ee2. apply Ee1. }
  split; [intros x; rewrite Pa3, Pa2; apply Pa1 |].
  split; [intros x Hx; rewrite Lm3, Lm2; apply Lm1; exact Hx |].
  split.
  { intros x. rewrite F3, F2. destruct (decide (x = rc)); [reflexivity | apply F1]. }
  split.
  { intros x. rewrite La3, La2. destruct (decide (x = rc)); [reflexivity | apply La1]. }
  split; [rewrite N3; destruct (decide (tagged = tagged)); [reflexivity | contradiction] |].
  split; [rewrite P3; destruct (decide (tagged = tagged)); [reflexivity | contradiction] |].
  assert (Hnot : tagged ∉ l1 ++ l2).
  { intros Hin. apply NoDup_app in Hnd as (_ & Hdisj & Hnd2).
    apply NoDup_cons in Hnd2 as [Hn2 _]. apply elem_of_app in Hin as [Hin | Hin].
    - apply (Hdisj tagged Hin). left.
    - contradiction. }
  split.
  { intros Hne. rewrite N3. destruct (decide (List.last l1 0 = tagged)) as [E |].
    - exfalso. apply Hnot. apply elem_of_app. left. rewrite <- E.
      destruct l1; [contradiction |]. apply last_elem_of. discriminate.
    - apply Nl. exact Hne. }
  split.
  { intros x Hx Hxt. rewrite N3. destruct (decide (x = tagged)); [contradiction |].
    rewrite (Nf x Hx). apply Hlk1. }
  split.
  { intros Hne. rewrite P3. destruct (decide (hd 0 l2 = tagged)) as [E |].
    - exfalso. apply Hnot. apply elem_of_app. right. rewrite <- E.
      destruct l2; [contradiction |]. left.
    - apply Pl. exact Hne. }
  intros x Hx Hxt. rewrite P3. destruct (decide (x = tagged)); [contradiction |].
  rewrite (Pf x Hx). apply Hlk1.
Qed.

(** ** Sums over the id table *)

Lemma over_slots_eq f s :
  over_slots f s
  = foldr Z.add 0 (map (fun i => at_node f s (ptr_of_id i))
                     (seq 0 (length (nodes_id_table s)))).
Proof.
  unfold over_slots, at_node. f_equal. apply map_ext. intros i.
  destruct (node_at s (ptr_of_id i)); reflexivity.
Qed.

Lemma sum_map_diff (f g : nat -> Z) l j :
  NoDup l -> j ∈ l -> (forall i, i ∈ l -> i <> j -> g i = f i) ->
  foldr Z.add 0 (map g l) = foldr Z.add 0 (map f l) + (g j - f j).
Proof.
  induction l as [| a l IH]; intros Hnd Hj Hfg; [inversion Hj |].
  apply NoDup_cons in Hnd as [Ha Hnd]. cbn [map foldr].
  destruct (decide (a = j)) as [-> | Hne].
  - assert (E : foldr Z.add 0 (map g l) = foldr Z.add 0 (map f l)).
    { f_equal. apply map_ext_in. intros i Hi. apply list_elem_of_In in Hi.
      apply Hfg; [right; exact Hi |]. intros ->. contradiction. }
    rewrite E. lia.
  - apply elem_of_cons in Hj as [-> | Hj]; [contradiction |].
    rewrite (IH Hnd Hj); [| intros i Hi; apply Hfg; right; exact Hi].
    rewrite (Hfg a); [lia | left | exact Hne].
Qed.

Lemma sum_map_le (f g : nat -> Z) l :
  (forall i, i ∈ l -> g i <= f i) ->
  foldr Z.add 0 (map g l) <= foldr Z.add 0 (map f l).
Proof.
  induction l as [| a l IH]; intros Hfg; cbn [map foldr]; [lia |].
  pose proof (Hfg a ltac:(left)). pose proof (IH (fun i Hi => Hfg i ltac:(right; exact Hi))).
  lia.
Qed.

Lemma at_node_ptr f s p : at_node f s p <> 0 -> p = ptr_of_id (id_of_ptr p).
Proof.
  unfold at_node. destruct (node_at s p) as [n |] eqn:Hn; [| simpl; congruence].
  intros _. apply node_at_inv in Hn as (_ & _ & _ & E). symmetry. exact E.
Qed.

(** The sum changes by what changes at one node. *)
Lemma over_slots_diff f g s s' q :
  length (nodes_id_table s') = length (nodes_id_table s) ->
  is_Some (node_at s q) ->
  (forall p, p <> q -> at_node g s' p = at_node f s p) ->
  over_slots g s' = over_slots f s + (at_node g s' q - at_node f s q).
Proof.
  intros Hlen [n Hq] Hfg. rewrite !over_slots_eq, Hlen.
  pose proof (node_at_lt _ _ _ Hq) as Hlt.
  apply node_at_inv in Hq as (_ & _ & _ & Eq).
  replace (at_node g s' q - at_node f s q)
    with (at_node g s' (ptr_of_id (id_of_ptr q)) - at_node f s (ptr_of_id (id_of_ptr q)))
    by (rewrite Eq; reflexivity).
  apply (sum_map_diff (fun i => at_node f s (ptr_of_id i))
           (fun i => at_node g s' (ptr_of_id i)) _ (id_of_ptr q)).
  - apply NoDup_seq.
  - apply elem_of_seq. lia.
  - intros i _ Hi. apply Hfg. intros E. apply Hi. rewrite <- E. symmetry.
    apply id_of_ptr_of_id.
Qed.

Lemma over_slots_ext f g s s' :
  length (nodes_id_table s') = length (nodes_id_table s) ->
  (forall p, at_node g s' p = at_node f s p) ->
  over_slots g s' = over_slots f s.
Proof.
  intros Hlen Hfg. rewrite !over_slots_eq, Hlen. f_equal. apply map_ext.
  intros i. apply Hfg.
Qed.

Lemma over_slots_le f g s s' :
  length (nodes_id_table s') = length (nodes_id_table s) ->
  (forall p, at_node g s' p <= at_node f s p) ->
  over_slots g s' <= over_slots f s.
Proof.
  intros Hlen Hfg. rewrite !over_slots_eq, Hlen. apply sum_map_le.
  intros i _. apply Hfg.
Qed.

Lemma over_slots_nonneg f s : (forall p n, 0 <= f p n) -> 0 <= over_slots f s.
Proof.
  intros Hf. rewrite over_slots_eq.
  induction (seq 0 (length (nodes_id_table s))) as [| a l IH]; cbn [map foldr]; [lia |].
  assert (0 <= at_node f s (ptr_of_id a)); [| lia].
  unfold at_node. destruct (node_at s (ptr_of_id a)); simpl; [apply Hf | lia].
Qed.

Lemma at_node_fld f (s s' : Btor) p :
  fld (f p) s' p = fld (f p) s p -> at_node f s' p = at_node f s p.
Proof. unfold at_node, fld. intros ->. reflexivity. Qed.

Lemma at_node_some f s p n : node_at s p = Some n -> at_node f s p = f p n.
Proof. unfold at_node. intros ->. reflexivity. Qed.

Lemma at_node_none f s p : node_at s p = None -> at_node f s p = 0.
Proof. unfold at_node. intros ->. reflexivity. Qed.

(** ** Occurrences *)

Lemma occurrences_app x a b : occurrences x (a ++ b) = occurrences x a + occurrences x b.
Proof. induction a as [| c a IH]; cbn [app occurrences]; [reflexivity | rewrite IH; lia]. Qed.

Lemma occurrences_nonneg x e : 0 <= occurrences x e.
Proof. apply occurrences_bounds. Qed.

Lemma occurrences_cons x c e :
  occurrences x (c :: e)
  = (if decide (x = BTOR_REAL_ADDR_NODE c) then 1 else 0) + occurrences x e.
Proof. reflexivity. Qed.

Lemma occurrences_elem x e :
  1 <= occurrences x e -> exists c, c ∈ e /\ BTOR_REAL_ADDR_NODE c = x.
Proof.
  induction e as [| c e IH]; cbn [occurrences]; [lia |].
  destruct (decide (x = BTOR_REAL_ADDR_NODE c)) as [-> |].
  - intros _. exists c. split; [left | reflexivity].
  - intros H. destruct IH as (c' & Hc' & E); [lia |]. exists c'. split; [right |]; assumption.
Qed.

Lemma occurrences_zero x e :
  occurrences x e = 0 -> forall c, c ∈ e -> BTOR_REAL_ADDR_NODE c <> x.
Proof.
  intros H c Hc E. pose proof (occurrences_pos c e Hc) as Hp. rewrite E in Hp. lia.
Qed.

Lemma occurrences_perm x e e' : e ≡ₚ e' -> occurrences x e = occurrences x e'.
Proof.
  induction 1; cbn [occurrences]; lia.
Qed.

(** ** Edges and parent lists *)

Lemma fld_via {A B} (g : BtorNode -> A) (proj : BtorNode -> B) s s' x :
  (forall n n', g n' = g n -> proj n' = proj n) ->
  fld g s' x = fld g s x -> fld proj s' x = fld proj s x.
Proof.
  unfold fld. intros Hg.
  destruct (node_at s' x) as [n' |], (node_at s x) as [n |]; simpl; try congruence.
  intros [= H]. f_equal. apply Hg. exact H.
Qed.

Ltac via g H :=
  apply (fld_via g);
  [intros ? ? ?Heq;
   first [ match goal with |- ?p _ = ?p _ => exact (f_equal p Heq) end
         | unfold g in Heq; congruence ]
  | apply H].

Lemma node_at_0 s : node_at s 0 = None.
Proof. reflexivity. Qed.

Lemma real_node_0 s : real_node s 0 = None.
Proof. reflexivity. Qed.

Lemma get3_nonzero a i : get3 a i <> 0 -> (i < 3)%nat.
Proof. destruct i as [| [| [| i]]]; simpl; [lia | lia | lia | congruence]. Qed.

Lemma edge_canonical s x c :
  edge s x c ->
  0 < x /\ BTOR_TAG_NODE (BTOR_REAL_ADDR_NODE x) (btor_exp_get_tag x) = x
  /\ (btor_exp_get_tag x < 3)%nat.
Proof.
  intros (pn & Hp & He & _). pose proof (real_node_pos _ _ _ Hp) as H0.
  split; [exact H0 |]. split; [apply tag_decompose; lia |].
  apply (get3_nonzero _ _ He).
Qed.

Lemma edge_fun s x c c' : edge s x c -> edge s x c' -> c = c'.
Proof. intros (pn & Hp & _ & <-) (pn' & Hp' & _ & <-). congruence. Qed.

Lemma edge_intro s p n i :
  node_at s p = Some n -> get3 (n_e n) i <> 0 ->
  edge s (BTOR_TAG_NODE p i) (BTOR_REAL_ADDR_NODE (get3 (n_e n) i)).
Proof.
  intros Hp He. pose proof (get3_nonzero _ _ He) as Hi.
  pose proof Hp as Hinv. apply node_at_inv in Hinv as (_ & H3 & _ & _).
  exists n. unfold real_node.
  rewrite (real_addr_tag p i H3 ltac:(lia)), (get_tag_tag p i H3 ltac:(lia)).
  auto.
Qed.

Lemma edge_source s x c :
  edge s x c -> exists pn, node_at s (BTOR_REAL_ADDR_NODE x) = Some pn
    /\ get3 (n_e pn) (btor_exp_get_tag x) <> 0
    /\ BTOR_REAL_ADDR_NODE (get3 (n_e pn) (btor_exp_get_tag x)) = c.
Proof. intros H. exact H. Qed.

(** The edge to a child is a link of the parent list of the child. *)
Lemma heap_ok_edge busy held s p n i :
  heap_ok busy held s -> node_at s p = Some n -> get3 (n_e n) i <> 0 ->
  exists cn l1 l2,
    real_node s (get3 (n_e n) i) = Some cn
    /\ parent_list s cn (l1 ++ BTOR_TAG_NODE p i :: l2)
    /\ (forall x, x ∈ l1 ++ BTOR_TAG_NODE p i :: l2
                  <-> edge s x (BTOR_REAL_ADDR_NODE (get3 (n_e n) i)))
    /\ n_parents cn = Z.of_nat (length (l1 ++ BTOR_TAG_NODE p i :: l2)).
Proof.
  intros Hok Hp He.
  destruct (hk_child _ _ _ Hok p n i Hp He) as [cn Hc].
  destruct (hk_parents _ _ _ Hok _ cn Hc) as (l & Hl & Hedge & Hpar).
  assert (Hin : BTOR_TAG_NODE p i ∈ l) by (apply Hedge, edge_intro; assumption).
  apply list_elem_of_split in Hin as (l1 & l2 & ->).
  exists cn, l1, l2. auto.
Qed.

(** A node without parents is no child. *)
Lemma heap_ok_no_parent busy held s c cn :
  heap_ok busy held s -> node_at s c = Some cn -> n_parents cn = 0 ->
  parent_list s cn [] /\ forall x, ~ edge s x c.
Proof.
  intros Hok Hc H0. destruct (hk_parents _ _ _ Hok _ cn Hc) as (l & Hl & Hedge & Hpar).
  destruct l as [| y l]; [| simpl in Hpar; lia].
  split; [exact Hl |]. intros x Hx. apply Hedge in Hx. inversion Hx.
Qed.

(** ** The hash of a node reads its hashed fields and the ids of its
    children *)

Lemma hash_loop_frame s s' primes e h :
  (forall x, x ∈ e ->
     fld n_id s' (BTOR_REAL_ADDR_NODE x) = fld n_id s (BTOR_REAL_ADDR_NODE x)) ->
  hash_bv_exp_loop s' primes e h = hash_bv_exp_loop s primes e h.
Proof.
  revert primes h. induction e as [| x e IH]; intros primes h Hid;
    destruct primes as [| p primes]; try reflexivity.
  cbn [hash_bv_exp_loop]. pose proof (Hid x ltac:(left)) as Hx.
  unfold real_node, fld in *.
  destruct (node_at s' (BTOR_REAL_ADDR_NODE x)) as [n' |],
           (node_at s (BTOR_REAL_ADDR_NODE x)) as [n |]; simpl in Hx; try congruence;
    [| reflexivity].
  cbn [mbind option_bind]. injection Hx as ->.
  apply IH. intros y Hy. apply Hid. right. exact Hy.
Qed.

Lemma raw_hash_frame s s' p :
  fld hashed s' p = fld hashed s p ->
  lambdas s' !! p = lambdas s !! p ->
  (forall n i, node_at s p = Some n -> get3 (n_e n) i <> 0 ->
     fld n_id s' (BTOR_REAL_ADDR_NODE (get3 (n_e n) i))
     = fld n_id s (BTOR_REAL_ADDR_NODE (get3 (n_e n) i))) ->
  raw_hash s' p = raw_hash s p.
Proof.
  intros Hh Hl Hid. unfold raw_hash. unfold fld in Hh.
  destruct (node_at s' p) as [n' |], (node_at s p) as [n |]; simpl in Hh;
    try congruence; [| reflexivity].
  injection Hh as Hk Ha He Hb Hu Hlo. cbn [mbind option_bind].
  assert (Hslot : forall i,
             fld n_id s' (BTOR_REAL_ADDR_NODE (get3 (n_e n) i))
             = fld n_id s (BTOR_REAL_ADDR_NODE (get3 (n_e n) i))).
  { intros i. destruct (decide (get3 (n_e n) i = 0)) as [-> | Hne]; [reflexivity |].
    apply (Hid n i eq_refl Hne). }
  rewrite Hk. destruct (n_kind n); try (rewrite Hb; reflexivity); try exact Hl;
    try (unfold hash_bv_exp, children; rewrite Ha, He; apply hash_loop_frame;
         intros x Hx; apply list_elem_of_fmap in Hx as (i & -> & _); apply Hslot).
  unfold hash_slice_exp, real_node. rewrite He, Hu, Hlo.
  pose proof (Hslot 0%nat) as H0. unfold fld in H0.
  destruct (node_at s' _) as [m' |], (node_at s _) as [m |]; simpl in H0; try congruence.
  injection H0 as E. cbn [mbind option_bind]. rewrite E. reflexivity.
Qed.

(** ** Steps that leave the wiring of the heap alone *)

Lemma in_table_chains s s' p : ut_chains s' = ut_chains s -> in_table s' p <-> in_table s p.
Proof. unfold in_table. intros ->. reflexivity. Qed.

Lemma edge_frame s s' x c :
  (forall y, fld n_e s' y = fld n_e s y) -> edge s' x c <-> edge s x c.
Proof.
  intros He. unfold edge, real_node. pose proof (He (BTOR_REAL_ADDR_NODE x)) as H.
  unfold fld in H.
  destruct (node_at s' (BTOR_REAL_ADDR_NODE x)) as [n' |],
           (node_at s (BTOR_REAL_ADDR_NODE x)) as [n |]; simpl in H; try congruence.
  - injection H as H. split; intros (pn & [= <-] & Hx); eexists; (split; [reflexivity |]);
      [rewrite <- H | rewrite H]; exact Hx.
  - split; intros (pn & [=] & _).
Qed.

Lemma parent_list_frame s s' cn cn' l :
  (forall y, fld n_next_parent s' y = fld n_next_parent s y) ->
  (forall y, fld n_prev_parent s' y = fld n_prev_parent s y) ->
  n_first_parent cn' = n_first_parent cn -> n_last_parent cn' = n_last_parent cn ->
  parent_list s cn l -> parent_list s' cn' l.
Proof.
  intros Hn Hp Hf Hl (H1 & H2 & H3 & H4). split; [congruence |]. split; [congruence |].
  split; [| exact H4]. apply (chain_frame s); [| exact H3].
  intros x _. apply links_of_fields; assumption.
Qed.

(** A step that leaves the wiring alone and keeps every node. *)
Lemma heap_ok_frame0 busy held busy' held' s s' :
  heap_ok busy held s ->
  (forall x, is_Some (node_at s' x) <-> is_Some (node_at s x)) ->
  (forall x, fld wiring s' x = fld wiring s x) ->
  (forall p n, node_at s' p = Some n -> (n_arity n <= 3)%nat) ->
  (forall p n i, node_at s' p = Some n -> (n_arity n <= i)%nat -> get3 (n_e n) i = 0) ->
  (forall p n i, node_at s' p = Some n -> (i < n_arity n)%nat -> p ∉ busy' ->
     get3 (n_e n) i <> 0) ->
  (forall p n' x, node_at s' p = Some n' -> x ∈ kept busy' p n' ->
     is_Some (real_node s x)) ->
  (forall x, x ∈ held' -> is_Some (real_node s x)) ->
  (forall c cn cn', node_at s c = Some cn -> node_at s' c = Some cn' ->
     kept_in busy' s' c + occurrences c held' - n_refs cn'
     <= kept_in busy s c + occurrences c held - n_refs cn) ->
  (forall p n, node_at s' p = Some n -> (n_unique n = true <-> in_table s' p)) ->
  (forall b chain p, ut_chains s' !! b = Some chain -> p ∈ chain ->
     exists h, raw_hash s' p = Some h /\ b = bucket_of (ut_size s') h) ->
  (forall b chain, ut_chains s' !! b = Some chain -> NoDup chain) ->
  heap_ok busy' held' s'.
Proof.
  intros Hok Hlive Hw Har Hsl Hfu Hke Hhe Hre Hun Hbu Hnd.
  assert (He : forall y, fld n_e s' y = fld n_e s y) by (intros y; via wiring Hw).
  assert (Hnode : forall x n', node_at s' x = Some n' ->
             exists n, node_at s x = Some n /\ wiring n' = wiring n).
  { intros x n' Hx. destruct (proj1 (Hlive x)) as [n Hn]; [eauto |].
    exists n. split; [exact Hn |]. pose proof (Hw x) as H.
    rewrite (fld_of_node _ _ _ _ Hx), (fld_of_node _ _ _ _ Hn) in H. congruence. }
  assert (Hreal : forall x, is_Some (real_node s x) -> is_Some (real_node s' x)).
  { intros x. unfold real_node. apply Hlive. }
  split.
  - exact Har.
  - exact Hsl.
  - intros p n' i Hp Hi. destruct (Hnode p n' Hp) as (n & Hn & Hwn).
    apply Hreal. injection Hwn as E _. rewrite E in *.
    apply (hk_child _ _ _ Hok p n i Hn Hi).
  - exact Hfu.
  - intros c cn' Hc. destruct (Hnode c cn' Hc) as (cn & Hcn & Hwn).
    injection Hwn as E1 E2 E3 E4 E5 E6.
    destruct (hk_parents _ _ _ Hok c cn Hcn) as (l & Hl & Hedge & Hpar).
    exists l. split; [| split].
    + apply (parent_list_frame s s' cn cn'); try assumption.
      * intros y. via wiring Hw.
      * intros y. via wiring Hw.
    + intros x. rewrite (edge_frame s s' x c He). apply Hedge.
    + congruence.
  - intros p n' x Hp Hx. apply Hreal. apply (Hke p n' x Hp Hx).
  - intros x Hx. apply Hreal, Hhe, Hx.
  - intros c cn' Hc. destruct (Hnode c cn' Hc) as (cn & Hcn & Hwn).
    injection Hwn as E1 E2 E3 E4 E5 E6.
    pose proof (hk_refs _ _ _ Hok c cn Hcn). pose proof (Hre c cn cn' Hcn Hc). lia.
  - exact Hun.
  - exact Hbu.
  - exact Hnd.
Qed.

(** The same, for a step that leaves the unique table alone. *)
Lemma heap_ok_frame busy held busy' held' s s' :
  heap_ok busy held s ->
  (forall x, is_Some (node_at s' x) <-> is_Some (node_at s x)) ->
  (forall x, fld wiring s' x = fld wiring s x) ->
  (forall x, fld n_unique s' x = fld n_unique s x) ->
  ut_chains s' = ut_chains s ->
  (forall p, in_table s p -> raw_hash s' p = raw_hash s p) ->
  (forall p n, node_at s' p = Some n -> (n_arity n <= 3)%nat) ->
  (forall p n i, node_at s' p = Some n -> (n_arity n <= i)%nat -> get3 (n_e n) i = 0) ->
  (forall p n i, node_at s' p = Some n -> (i < n_arity n)%nat -> p ∉ busy' ->
     get3 (n_e n) i <> 0) ->
  (forall p n' x, node_at s' p = Some n' -> x ∈ kept busy' p n' ->
     is_Some (real_node s x)) ->
  (forall x, x ∈ held' -> is_Some (real_node s x)) ->
  (forall c cn cn', node_at s c = Some cn -> node_at s' c = Some cn' ->
     kept_in busy' s' c + occurrences c held' - n_refs cn'
     <= kept_in busy s c + occurrences c held - n_refs cn) ->
  heap_ok busy' held' s'.
Proof.
  intros Hok Hlive Hw Hu Hch Hhash Har Hsl Hfu Hke Hhe Hre.
  apply (heap_ok_frame0 busy held busy' held' s s'); try assumption.
  - intros p n' Hp. destruct (proj1 (Hlive p)) as [n Hn]; [eauto |].
    pose proof (fld_eq_node _ _ _ _ _ _ (Hu p) Hn Hp) as E.
    rewrite E, (in_table_chains s s' p Hch). apply (hk_unique _ _ _ Hok p n Hn).
  - intros b chain p Hb Hp. rewrite Hch in Hb.
    destruct (hk_bucket _ _ _ Hok b chain p Hb Hp) as (h & Hh & Eb).
    exists h. split.
    + rewrite Hhash; [exact Hh |]. exists b, chain. auto.
    + unfold ut_size. rewrite Hch. exact Eb.
  - intros b chain Hb. rewrite Hch in Hb. apply (hk_chains _ _ _ Hok b chain Hb).
Qed.

Lemma raw_hash_views s s' cur :
  (forall x, x <> cur -> fld hashed s' x = fld hashed s x) ->
  (forall x, fld n_id s' x = fld n_id s x) ->
  (forall x, x <> cur -> lambdas s' !! x = lambdas s !! x) ->
  forall p, p <> cur -> raw_hash s' p = raw_hash s p.
Proof.
  intros Hh Hid Hl p Hp. apply raw_hash_frame; [apply Hh, Hp | apply Hl, Hp |].
  intros n i _ _. apply Hid.
Qed.

Lemma store_store s p a b : store_node (store_node s p a) p b = store_node s p b.
Proof.
  unfold store_node, wb_nodes_id_table. simpl. rewrite list_insert_insert_eq. reflexivity.
Qed.

Lemma kept_in_store busy s cur n n' c :
  node_at s cur = Some n ->
  kept_in busy (store_node s cur n') c
  = kept_in busy s c + (occurrences c (kept busy cur n') - occurrences c (kept busy cur n)).
Proof.
  intros Hn. unfold kept_in.
  rewrite (over_slots_diff (fun p n => occurrences c (kept busy p n))
             (fun p n => occurrences c (kept busy p n)) s (store_node s cur n') cur).
  - rewrite (at_node_some _ _ _ _ (node_at_store_eq s cur n' n Hn)).
    rewrite (at_node_some _ _ _ _ Hn). reflexivity.
  - apply length_store_node.
  - eauto.
  - intros p Hp. unfold at_node. rewrite (node_at_store s cur p n' n Hn).
    destruct (decide (p = cur)); [contradiction | reflexivity].
Qed.

(** A write to one node that leaves its wiring and its arity alone. *)
Lemma heap_ok_store busy held held' s cur n n' :
  heap_ok busy held s -> node_at s cur = Some n ->
  wiring n' = wiring n -> n_unique n' = n_unique n ->
  n_arity n' = n_arity n -> n_id n' = n_id n ->
  (in_table s cur -> hashed n' = hashed n) ->
  (forall x, x ∈ kept busy cur n' -> is_Some (real_node s x)) ->
  (forall x, x ∈ held' -> is_Some (real_node s x)) ->
  (forall c, occurrences c (kept busy cur n') + occurrences c held'
             - (if decide (c = cur) then n_refs n' - n_refs n else 0)
             <= occurrences c (kept busy cur n) + occurrences c held) ->
  heap_ok busy held' (store_node s cur n').
Proof.
  intros Hok Hn Hw Hu Ha Hid Hh Hke Hhe Hre.
  assert (Hnode : forall p m, node_at (store_node s cur n') p = Some m ->
            (p = cur /\ m = n') \/ (p <> cur /\ node_at s p = Some m)).
  { intros p m. rewrite (node_at_store s cur p n' n Hn).
    destruct (decide (p = cur)); [intros [= <-]; auto | auto]. }
  apply (heap_ok_frame busy held busy held' s).
  - exact Hok.
  - intros x. apply (live_store _ _ _ _ _ Hn).
  - intros x. apply (fld_store_frame _ _ _ _ _ _ Hn Hw).
  - intros x. apply (fld_store_frame _ _ _ _ _ _ Hn Hu).
  - reflexivity.
  - intros p Hp. apply raw_hash_frame.
    + rewrite (fld_store _ _ _ _ hashed _ Hn). destruct (decide (p = cur)) as [-> |];
        [| reflexivity]. rewrite (fld_of_node _ _ _ _ Hn). f_equal. apply Hh, Hp.
    + reflexivity.
    + intros m i _ _. apply (fld_store_frame _ _ _ _ _ _ Hn Hid).
  - intros p m Hp. destruct (Hnode p m Hp) as [[-> ->] | [_ Hm]].
    + rewrite Ha. apply (hk_arity _ _ _ Hok cur n Hn).
    + apply (hk_arity _ _ _ Hok p m Hm).
  - intros p m i Hp. destruct (Hnode p m Hp) as [[-> ->] | [_ Hm]].
    + injection Hw as -> _. rewrite Ha. apply (hk_slots _ _ _ Hok cur n i Hn).
    + apply (hk_slots _ _ _ Hok p m i Hm).
  - intros p m i Hp. destruct (Hnode p m Hp) as [[-> ->] | [_ Hm]].
    + injection Hw as -> _. rewrite Ha. apply (hk_full _ _ _ Hok cur n i Hn).
    + apply (hk_full _ _ _ Hok p m i Hm).
  - intros p m x Hp Hx. destruct (Hnode p m Hp) as [[-> ->] | [_ Hm]].
    + apply Hke, Hx.
    + apply (hk_kept _ _ _ Hok p m x Hm Hx).
  - exact Hhe.
  - intros c cn cn' Hc Hc'. rewrite (kept_in_store busy s cur n n' c Hn).
    pose proof (Hre c) as Hr. destruct (Hnode c cn' Hc') as [[-> ->] | [Hne Hm]].
    + destruct (decide (cur = cur)); [| contradiction]. assert (cn = n) by congruence.
      subst cn. lia.
    + destruct (decide (c = cur)); [contradiction |]. assert (cn' = cn) by congruence.
      subst cn'. lia.
Qed.

(** The release of a reference to a node that has another. *)
Lemma release_shared_ok busy top held s n :
  heap_ok busy (top :: held) s -> real_node s top = Some n ->
  heap_ok busy held
    (store_node s (BTOR_REAL_ADDR_NODE top) (wr_refs (n_refs n - 1) n)).
Proof.
  intros Hok Hn. apply (heap_ok_store busy (top :: held) held s _ n); try reflexivity.
  - exact Hok.
  - exact Hn.
  - intros x Hx. apply (hk_kept _ _ _ Hok _ n x Hn Hx).
  - intros x Hx. apply (hk_held _ _ _ Hok x). right. exact Hx.
  - intros c. cbn [occurrences n_refs wr_refs].
    change (kept busy (BTOR_REAL_ADDR_NODE top) (wr_refs (n_refs n - 1) n))
      with (kept busy (BTOR_REAL_ADDR_NODE top) n).
    destruct (decide (c = BTOR_REAL_ADDR_NODE top)); lia.
Qed.

(** The forwarding of a node is cleared and its target is owed a release. *)
Lemma clear_simplified_ok busy held s cur n :
  heap_ok busy held s -> node_at s cur = Some n -> n_simplified n <> 0 ->
  heap_ok busy (n_simplified n :: held) (store_node s cur (wr_simplified 0 n)).
Proof.
  intros Hok Hn Hs. apply (heap_ok_store busy held _ s _ n); try reflexivity.
  - exact Hok.
  - exact Hn.
  - intros x Hx. apply (hk_kept _ _ _ Hok _ n x Hn). unfold kept in *.
    cbn [n_simplified wr_simplified n_static_rho] in Hx. rewrite Z.eqb_refl in Hx.
    apply elem_of_app. right. exact Hx.
  - intros x Hx. apply elem_of_cons in Hx as [-> | Hx].
    + apply (hk_kept _ _ _ Hok _ n _ Hn). unfold kept.
      rewrite (eqb_false _ _ Hs). left.
    + apply (hk_held _ _ _ Hok x Hx).
  - intros c. unfold kept. cbn [n_simplified wr_simplified n_static_rho n_refs].
    rewrite Z.eqb_refl, (eqb_false _ _ Hs). rewrite !occurrences_app.
    cbn [occurrences app]. destruct (decide (c = cur)); lia.
Qed.

(** ** Leaving the unique table *)

Lemma remove_first_spec x chain :
  x ∈ chain -> NoDup chain ->
  exists chain', remove_first x chain = Some chain'
    /\ (forall y, y ∈ chain' <-> y ∈ chain /\ y <> x) /\ NoDup chain'.
Proof.
  induction chain as [| c chain IH]; intros Hx Hnd; [inversion Hx |].
  apply NoDup_cons in Hnd as [Hc Hnd]. cbn [remove_first].
  destruct (Z.eqb_spec c x) as [-> | Hne].
  - exists chain. split; [reflexivity |]. split; [| exact Hnd].
    intros y. rewrite elem_of_cons. split.
    + intros Hy. split; [right; exact Hy |]. intros ->. contradiction.
    + intros [[-> | Hy] Hyx]; [contradiction | exact Hy].
  - apply elem_of_cons in Hx as [-> | Hx]; [contradiction |].
    destruct (IH Hx Hnd) as (chain' & -> & Hin & Hnd').
    exists (c :: chain'). split; [reflexivity |]. split.
    + intros y. rewrite !elem_of_cons, Hin. split.
      * intros [-> | [Hy Hyx]]; [split; [left; reflexivity | exact Hne] |].
        split; [right; exact Hy | exact Hyx].
      * intros [[-> | Hy] Hyx]; [left; reflexivity | right; split; assumption].
    + apply NoDup_cons. split; [| exact Hnd']. rewrite Hin. tauto.
Qed.

Lemma wr_unique_same n b : n_unique n = b -> wr_unique b n = n.
Proof. destruct n. simpl. intros ->. reflexivity. Qed.

Lemma same_side_refl s : same_side s s.
Proof. unfold same_side. destruct s; reflexivity. Qed.

Lemma same_side_trans s1 s2 s3 : same_side s1 s2 -> same_side s2 s3 -> same_side s1 s3.
Proof.
  unfold same_side. intros H12 H23. rewrite H23. rewrite H12 at 1.
  destruct s1; reflexivity.
Qed.

Lemma same_side_store s p n : same_side s (store_node s p n).
Proof. unfold same_side, store_node. destruct s; reflexivity. Qed.

Lemma same_tables_side s s' : same_tables s s' -> same_side s s'.
Proof. unfold same_tables, same_side. intros ->. destruct s; reflexivity. Qed.

Lemma kept_in_table busy s s' c :
  nodes_id_table s' = nodes_id_table s -> kept_in busy s' c = kept_in busy s c.
Proof.
  intros H. unfold kept_in, over_slots, node_at. rewrite H. reflexivity.
Qed.

Lemma node_at_table s s' x :
  nodes_id_table s' = nodes_id_table s -> node_at s' x = node_at s x.
Proof. intros H. unfold node_at. rewrite H. reflexivity. Qed.

Lemma remove_unique_ok busy held s cur n :
  heap_ok busy held s -> node_at s cur = Some n ->
  exists s',
    remove_from_nodes_unique_table_exp s cur = Some s'
    /\ heap_ok busy held s'
    /\ ~ in_table s' cur
    /\ (forall p, in_table s' p <-> in_table s p /\ p <> cur)
    /\ nodes_id_table s' = nodes_id_table (store_node s cur (wr_unique false n))
    /\ same_side s s'.
Proof.
  intros Hok Hn. unfold remove_from_nodes_unique_table_exp. rewrite Hn.
  cbn [mbind option_bind]. destruct (n_unique n) eqn:Hu; cbn [negb].
  - (* linked in the table *)
    destruct (proj1 (hk_unique _ _ _ Hok cur n Hn) Hu) as (b & chain & Hb & Hin).
    destruct (hk_bucket _ _ _ Hok b chain cur Hb Hin) as (h & Hh & Eb).
    rewrite compute_hash_exp_raw, Hh. cbn [fmap option_fmap option_map mbind option_bind].
    change (Z.to_nat (Z.land h (ut_size s - 1))) with (bucket_of (ut_size s) h).
    rewrite <- Eb, Hb. cbn [mbind option_bind].
    destruct (remove_first_spec cur chain Hin (hk_chains _ _ _ Hok b chain Hb))
      as (chain' & -> & Hin' & Hnd'). cbn [mbind option_bind].
    set (s1 := wb_ut_num_elements (ut_num_elements s - 1)
                 (wb_ut_chains (<[b := chain']> (ut_chains s)) s)).
    assert (Hn1 : node_at s1 cur = Some n) by exact Hn.
    rewrite (upd_node_live _ _ _ _ Hn1).
    set (s' := store_node s1 cur (wr_unique false n)).
    assert (Htab : forall p, in_table s' p <-> in_table s p /\ p <> cur).
    { intros p. change (in_table s' p) with (linked (<[b := chain']> (ut_chains s)) p).
      unfold in_table, linked. split.
      - intros (b0 & ch0 & Hb0 & Hp). destruct (decide (b0 = b)) as [-> | Hne].
        + rewrite list_lookup_insert_eq in Hb0 by (eapply lookup_lt_Some; eassumption).
          injection Hb0 as <-. apply Hin' in Hp as [Hp Hpc].
          split; [exists b, chain; auto | exact Hpc].
        + rewrite list_lookup_insert_ne in Hb0 by congruence.
          split; [exists b0, ch0; auto |]. intros ->.
          destruct (hk_bucket _ _ _ Hok b0 ch0 cur Hb0 Hp) as (h' & Hh' & Eb').
          congruence.
      - intros [(b0 & ch0 & Hb0 & Hp) Hpc]. destruct (decide (b0 = b)) as [-> | Hne].
        + exists b, chain'. rewrite list_lookup_insert_eq by (eapply lookup_lt_Some; eassumption).
          split; [reflexivity |]. apply Hin'. split; [congruence | exact Hpc].
        + exists b0, ch0. rewrite list_lookup_insert_ne by congruence. auto. }
    assert (Hnode : forall p m, node_at s' p = Some m ->
              (p = cur /\ m = wr_unique false n) \/ (p <> cur /\ node_at s p = Some m)).
    { intros p m. unfold s'. rewrite (node_at_store s1 cur p _ n Hn1).
      destruct (decide (p = cur)); [intros [= <-]; auto | auto]. }
    assert (Hhash : forall p, raw_hash s' p = raw_hash s p).
    { intros p. apply raw_hash_frame.
      - unfold s'. apply (fld_store_frame _ _ _ _ _ _ Hn1). reflexivity.
      - reflexivity.
      - intros m i _ _. unfold s'. apply (fld_store_frame _ _ _ _ _ _ Hn1). reflexivity. }
    exists s'. split; [reflexivity |]. split; [| split; [| split; [exact Htab |]]].
    + apply (heap_ok_frame0 busy held busy held s s').
      * exact Hok.
      * intros x. unfold s'. apply (live_store _ _ _ _ _ Hn1).
      * intros x. unfold s'. apply (fld_store_frame _ _ _ _ _ _ Hn1). reflexivity.
      * intros p m Hp. destruct (Hnode p m Hp) as [[-> ->] | [_ Hm]].
        -- apply (hk_arity _ _ _ Hok cur n Hn).
        -- apply (hk_arity _ _ _ Hok p m Hm).
      * intros p m i Hp. destruct (Hnode p m Hp) as [[-> ->] | [_ Hm]].
        -- apply (hk_slots _ _ _ Hok cur n i Hn).
        -- apply (hk_slots _ _ _ Hok p m i Hm).
      * intros p m i Hp. destruct (Hnode p m Hp) as [[-> ->] | [_ Hm]].
        -- apply (hk_full _ _ _ Hok cur n i Hn).
        -- apply (hk_full _ _ _ Hok p m i Hm).
      * intros p m x Hp Hx. destruct (Hnode p m Hp) as [[-> ->] | [_ Hm]].
        -- apply (hk_kept _ _ _ Hok cur n x Hn Hx).
        -- apply (hk_kept _ _ _ Hok p m x Hm Hx).
      * apply (hk_held _ _ _ Hok).
      * intros c cn cn' Hc Hc'. unfold s'.
        rewrite (kept_in_store busy s1 cur n _ c Hn1).
        change (kept busy cur (wr_unique false n)) with (kept busy cur n).
        change (kept_in busy s1 c) with (kept_in busy s c).
        destruct (Hnode c cn' Hc') as [[-> ->] | [_ Hm]].
        -- assert (cn = n) by congruence. subst cn. simpl. lia.
        -- assert (cn' = cn) by congruence. subst cn'. lia.
      * intros p m Hp. rewrite Htab. destruct (Hnode p m Hp) as [[-> ->] | [Hne Hm]].
        -- simpl. split; [discriminate | intros [_ H]; contradiction].
        -- rewrite (hk_unique _ _ _ Hok p m Hm). tauto.
      * intros b0 ch0 p Hb0 Hp.
        assert (Hps' : in_table s' p) by (exists b0, ch0; auto).
        change (ut_chains s') with (<[b := chain']> (ut_chains s)) in Hb0.
        change (ut_size s') with (Z.of_nat (length (<[b := chain']> (ut_chains s)))).
        rewrite length_insert, Hhash.
        destruct (decide (b0 = b)) as [-> | Hne].
        -- rewrite list_lookup_insert_eq in Hb0 by (eapply lookup_lt_Some; eassumption).
           injection Hb0 as <-. apply Hin' in Hp as [Hp _].
           apply (hk_bucket _ _ _ Hok b chain p Hb Hp).
        -- rewrite list_lookup_insert_ne in Hb0 by congruence.
           apply (hk_bucket _ _ _ Hok b0 ch0 p Hb0 Hp).
      * intros b0 ch0 Hb0.
        change (ut_chains s') with (<[b := chain']> (ut_chains s)) in Hb0.
        destruct (decide (b0 = b)) as [-> | Hne].
        -- rewrite list_lookup_insert_eq in Hb0 by (eapply lookup_lt_Some; eassumption).
           injection Hb0 as <-. exact Hnd'.
        -- rewrite list_lookup_insert_ne in Hb0 by congruence.
           apply (hk_chains _ _ _ Hok b0 ch0 Hb0).
    + intros H. apply Htab in H as [_ H]. contradiction.
    + split; [reflexivity |]. unfold same_side. destruct s; reflexivity.
  - (* not linked *)
    exists s. split; [reflexivity |]. split; [exact Hok |].
    assert (Hnot : ~ in_table s cur).
    { intros H. apply (hk_unique _ _ _ Hok cur n Hn) in H. congruence. }
    split; [exact Hnot |]. split.
    + intros p. split; [| tauto]. intros Hp. split; [exact Hp |]. intros ->. contradiction.
    + rewrite (wr_unique_same n false Hu), (store_node_same s cur n Hn).
      split; [reflexivity | apply same_side_refl].
Qed.

(** ** Disconnecting a child, in a well-formed heap *)

Lemma fld_back {A} (g : BtorNode -> A) s s' x n' :
  fld g s' x = fld g s x -> node_at s' x = Some n' ->
  exists n, node_at s x = Some n /\ g n' = g n.
Proof.
  intros H Hn'. rewrite (fld_of_node _ _ _ _ Hn') in H. symmetry in H.
  apply fld_some in H as (n & Hn & E). eauto.
Qed.

Lemma fld_hashed s s' x :
  fld apart s' x = fld apart s x -> fld n_e s' x = fld n_e s x ->
  fld hashed s' x = fld hashed s x.
Proof.
  unfold fld. destruct (node_at s' x) as [n' |], (node_at s x) as [n |]; simpl;
    try congruence.
  intros [=] [= He]. unfold hashed. congruence.
Qed.

Lemma NoDup_remove_mid {A} (l1 l2 : list A) t :
  NoDup (l1 ++ t :: l2) -> NoDup (l1 ++ l2) /\ t ∉ l1 ++ l2.
Proof.
  intros H. apply NoDup_app in H as (H1 & Hd & H2). apply NoDup_cons in H2 as [Ht H2].
  split.
  - apply NoDup_app. split; [exact H1 |]. split; [| exact H2].
    intros x Hx Hx2. apply (Hd x Hx). right. exact Hx2.
  - intros Hin. apply elem_of_app in Hin as [Hin | Hin]; [| contradiction].
    apply (Hd t Hin). left.
Qed.

Lemma elem_of_remove_mid {A} (l1 l2 : list A) t x :
  t ∉ l1 ++ l2 -> (x ∈ l1 ++ l2 <-> x ∈ l1 ++ t :: l2 /\ x <> t).
Proof.
  intros Ht. rewrite !elem_of_app, elem_of_cons. split.
  - intros H. split; [tauto |]. intros ->. apply Ht. apply elem_of_app. exact H.
  - intros [[H | [-> | H]] Hne]; [left; exact H | contradiction | right; exact H].
Qed.

(** The edges after a child slot has been cleared. *)
Lemma edge_cleared s s' cur n i :
  node_at s cur = Some n -> (i < 3)%nat ->
  (forall x, fld n_e s' x
             = if decide (x = cur) then Some (set3 (n_e n) i 0) else fld n_e s x) ->
  forall x c, edge s' x c <-> edge s x c /\ x <> BTOR_TAG_NODE cur i.
Proof.
  intros Hn Hi He x c. pose proof Hn as Hinv.
  apply node_at_inv in Hinv as (H0 & H3 & _ & _).
  unfold edge, real_node. pose proof (He (BTOR_REAL_ADDR_NODE x)) as Hx.
  destruct (decide (BTOR_REAL_ADDR_NODE x = cur)) as [Hq | Hq].
  - rewrite Hq in *. apply fld_some in Hx as (n' & Hn' & En'). rewrite Hn', Hn.
    split.
    + intros (pn & [= <-] & Hne & Hc). rewrite En', get3_set3 in Hne, Hc by exact Hi.
      destruct (decide (btor_exp_get_tag x = i)) as [Ht | Ht]; [congruence |].
      split; [exists n; auto |]. intros ->. apply Ht. apply get_tag_tag; [exact H3 | lia].
    + intros [(pn & [= <-] & Hne & Hc) Hxt]. exists n'. split; [reflexivity |].
      rewrite En', get3_set3 by exact Hi.
      destruct (decide (btor_exp_get_tag x = i)) as [Ht | Ht]; [| auto].
      exfalso. apply Hxt. rewrite <- Ht, <- Hq. symmetry. apply tag_decompose.
      assert (0 < x) by (apply real_addr_pos; rewrite Hq; exact H0). lia.
  - unfold fld in Hx.
    destruct (node_at s' (BTOR_REAL_ADDR_NODE x)) as [n' |],
             (node_at s (BTOR_REAL_ADDR_NODE x)) as [m |]; simpl in Hx; try congruence.
    + injection Hx as Hx. split.
      * intros (pn & [= <-] & Hne & Hc). rewrite Hx in *.
        split; [exists m; auto |]. intros ->. apply Hq. apply real_addr_tag; [exact H3 | lia].
      * intros [(pn & [= <-] & Hne & Hc) _]. exists n'. rewrite Hx. auto.
    + split; [intros (pn & [=] & _) | intros [(pn & [=] & _) _]].
Qed.

Lemma kept_in_views busy s s' c :
  length (nodes_id_table s') = length (nodes_id_table s) ->
  (forall x, fld apart s' x = fld apart s x) ->
  kept_in busy s' c = kept_in busy s c.
Proof.
  intros Hlen Ha. unfold kept_in. apply over_slots_ext; [exact Hlen |].
  intros p. apply at_node_fld. apply (fld_via apart); [| apply Ha].
  intros n n' H. unfold kept.
  pose proof (f_equal n_simplified H) as E1. pose proof (f_equal n_static_rho H) as E2.
  simpl in E1, E2. rewrite E1, E2. reflexivity.
Qed.

Lemma disconnect_child_ok busy held s cur i n :
  heap_ok busy held s -> node_at s cur = Some n -> get3 (n_e n) i <> 0 ->
  cur ∈ busy -> ~ in_table s cur ->
  exists s',
    disconnect_child_exp s cur i = Some s'
    /\ heap_ok busy (get3 (n_e n) i :: held) s'
    /\ same_tables s s'
    /\ length (nodes_id_table s') = length (nodes_id_table s)
    /\ (forall x, is_Some (node_at s' x) <-> is_Some (node_at s x))
    /\ (forall x, fld apart s' x = fld apart s x)
    /\ (forall x, fld n_e s' x
                  = if decide (x = cur) then Some (set3 (n_e n) i 0) else fld n_e s x)
    /\ (forall x, fld n_parents s' x
                  = (fun v => v - occurrences x [get3 (n_e n) i]) <$> fld n_parents s x).
Proof.
  intros Hok Hn He Hbusy Hnot.
  pose proof (get3_nonzero _ _ He) as Hi.
  destruct (heap_ok_edge _ _ _ _ _ _ Hok Hn He) as (cn & l1 & l2 & Hc & Hl & Hedge & Hpar).
  set (rc := BTOR_REAL_ADDR_NODE (get3 (n_e n) i)) in *.
  set (tagged := BTOR_TAG_NODE cur i) in *.
  destruct (disconnect_child_exp_spec s cur i n cn l1 l2 Hn Hi Hc Hl)
    as (s' & Es & Ts & Len & Lv & Ap & Ee & Pa & Lm & Fi & La & Nt & Pt & Nl & Nf & Pl & Pf).
  fold rc in Pa, Lm, Fi, La. fold tagged in Nt, Pt, Nf, Pf.
  destruct Hl as (Hfirst & Hlast & Hchain & Hnd).
  destruct (NoDup_remove_mid _ _ _ Hnd) as [Hnd' Htn].
  pose proof (edge_cleared s s' cur n i Hn Hi Ee) as Hedge'. fold tagged in Hedge'.
  assert (Hreal : forall x, is_Some (real_node s x) -> is_Some (real_node s' x)).
  { intros x. unfold real_node. apply Lv. }
  assert (Hpv : forall x, fld n_parents s' x
                = (fun v => v - occurrences x [get3 (n_e n) i]) <$> fld n_parents s x).
  { intros x. rewrite Pa. cbn [occurrences]. fold rc.
    destruct (decide (x = rc)) as [-> |].
    - unfold real_node in Hc. fold rc in Hc. rewrite (fld_of_node _ _ _ _ Hc).
      cbn. f_equal; lia.
    - unfold fld. destruct (node_at s x); cbn; [f_equal; lia | reflexivity]. }
  exists s'. split; [exact Es |]. split; [| auto 10].
  split.
  - intros p m Hp. destruct (fld_back _ _ _ _ _ (Ap p) Hp) as (m0 & Hm0 & E).
    rewrite (f_equal n_arity E : n_arity m = n_arity m0).
    apply (hk_arity _ _ _ Hok p m0 Hm0).
  - intros p m j Hp. destruct (fld_back _ _ _ _ _ (Ap p) Hp) as (m0 & Hm0 & E).
    rewrite (f_equal n_arity E : n_arity m = n_arity m0). intros Hj.
    pose proof (fld_of_node n_e _ _ _ Hp) as Em. rewrite Ee in Em.
    destruct (decide (p = cur)) as [-> |].
    + injection Em as <-. rewrite get3_set3 by exact Hi.
      destruct (decide (j = i)); [reflexivity |].
      assert (m0 = n) by congruence. subst m0. apply (hk_slots _ _ _ Hok cur n j Hn Hj).
    + rewrite (fld_of_node _ _ _ _ Hm0) in Em. injection Em as <-.
      apply (hk_slots _ _ _ Hok p m0 j Hm0 Hj).
  - intros p m j Hp Hj. apply Hreal. destruct (fld_back _ _ _ _ _ (Ap p) Hp) as (m0 & Hm0 & E).
    pose proof (fld_of_node n_e _ _ _ Hp) as Em. rewrite Ee in Em.
    destruct (decide (p = cur)) as [-> |].
    + injection Em as Em. rewrite <- Em, get3_set3 in Hj |- * by exact Hi.
      destruct (decide (j = i)); [congruence |].
      apply (hk_child _ _ _ Hok cur n j Hn Hj).
    + rewrite (fld_of_node _ _ _ _ Hm0) in Em. injection Em as Em. rewrite <- Em in *.
      apply (hk_child _ _ _ Hok p m0 j Hm0 Hj).
  - intros p m j Hp Hj Hpb. destruct (fld_back _ _ _ _ _ (Ap p) Hp) as (m0 & Hm0 & E).
    rewrite (f_equal n_arity E : n_arity m = n_arity m0) in Hj.
    pose proof (fld_of_node n_e _ _ _ Hp) as Em. rewrite Ee in Em.
    destruct (decide (p = cur)) as [-> |]; [contradiction |].
    rewrite (fld_of_node _ _ _ _ Hm0) in Em. injection Em as <-.
    apply (hk_full _ _ _ Hok p m0 j Hm0 Hj Hpb).
  - (* the parent lists *)
    intros c cn' Hc'. destruct (fld_back _ _ _ _ _ (Ap c) Hc') as (cn0 & Hc0 & E).
    pose proof (fld_of_node n_first_parent _ _ _ Hc') as F'. rewrite Fi in F'.
    pose proof (fld_of_node n_last_parent _ _ _ Hc') as L'. rewrite La in L'.
    pose proof (fld_of_node n_parents _ _ _ Hc') as P'. rewrite Pa in P'.
    revert F' L' P'. destruct (decide (c = rc)) as [-> | Hcr]; intros F' L' P'.
    + assert (cn0 = cn) by (unfold real_node in Hc; fold rc in Hc; congruence). subst cn0.
      injection F' as F'. injection L' as L'. injection P' as P'.
      exists (l1 ++ l2). split; [| split].
      * split; [auto |]. split; [auto |]. split; [| exact Hnd'].
        apply (chain_remove s s' 0 l1 tagged l2 Hchain Hnd).
        -- exact Pl.
        -- intros x Hx Hxh. apply Pf; [exact Hxh |]. intros ->. contradiction.
        -- exact Nl.
        -- intros x Hx Hxl. apply Nf; [exact Hxl |]. intros ->. contradiction.
      * intros x. rewrite Hedge', <- Hedge. apply elem_of_remove_mid. exact Htn.
      * rewrite <- P', Hpar, !length_app. cbn [length]. lia.
    + rewrite (fld_of_node _ _ _ _ Hc0) in F'. rewrite (fld_of_node _ _ _ _ Hc0) in L'.
      rewrite (fld_of_node _ _ _ _ Hc0) in P'.
      injection F' as F'. injection L' as L'. injection P' as P'.
      destruct (hk_parents _ _ _ Hok c cn0 Hc0) as (l & (H1 & H2 & H3 & H4) & Hedge_c & Hpar_c).
      assert (Hother : forall x, x ∈ l -> forall y, y ∈ l1 ++ tagged :: l2 -> x <> y).
      { intros x Hx y Hy ->. apply Hedge_c in Hx. apply Hedge in Hy.
        apply Hcr. apply (edge_fun s y); assumption. }
      assert (Hgen : forall x, x ∈ l ->
                x <> List.last l1 0 /\ x <> tagged /\ x <> hd 0 l2).
      { intros x Hx. pose proof (chain_nonzero _ _ _ _ H3 Hx) as Hx0.
        split; [| split].
        - destruct l1 as [| a l1']; [simpl; lia |].
          apply (Hother x Hx). apply elem_of_app. left. apply last_elem_of. discriminate.
        - apply (Hother x Hx). apply elem_of_app. right. left.
        - destruct l2 as [| b l2']; [simpl; lia |].
          apply (Hother x Hx). apply elem_of_app. right. right. left. }
      exists l. split; [| split].
      * split; [congruence |]. split; [congruence |]. split; [| exact H4].
        apply (chain_frame s); [| exact H3]. intros x Hx.
        destruct (Hgen x Hx) as (G1 & G2 & G3). split; [apply Nf | apply Pf]; assumption.
      * intros x. rewrite Hedge', <- Hedge_c. split; [| tauto].
        intros Hx. split; [exact Hx |]. apply (Hgen x Hx).
      * congruence.
  - intros p m x Hp Hx. apply Hreal. destruct (fld_back _ _ _ _ _ (Ap p) Hp) as (m0 & Hm0 & E).
    apply (hk_kept _ _ _ Hok p m0 x Hm0). unfold kept in *.
    pose proof (f_equal n_simplified E) as E1. pose proof (f_equal n_static_rho E) as E2.
    simpl in E1, E2. rewrite <- E1, <- E2. exact Hx.
  - intros x Hx. apply Hreal. apply elem_of_cons in Hx as [-> | Hx].
    + eauto.
    + apply (hk_held _ _ _ Hok x Hx).
  - intros c cn' Hc'. destruct (fld_back _ _ _ _ _ (Ap c) Hc') as (cn0 & Hc0 & E).
    pose proof (fld_of_node n_parents _ _ _ Hc') as P'. rewrite Pa in P'.
    rewrite (kept_in_views busy s s' c Len Ap).
    pose proof (f_equal n_refs E) as Er. simpl in Er. rewrite Er.
    pose proof (hk_refs _ _ _ Hok c cn0 Hc0) as Hr. cbn [occurrences]. fold rc.
    revert P'. destruct (decide (c = rc)) as [-> |]; intros P'.
    + assert (cn0 = cn) by (unfold real_node in Hc; fold rc in Hc; congruence). subst cn0.
      injection P' as <-. lia.
    + rewrite (fld_of_node _ _ _ _ Hc0) in P'. injection P' as <-. lia.
  - intros p m Hp. destruct (fld_back _ _ _ _ _ (Ap p) Hp) as (m0 & Hm0 & E).
    rewrite (f_equal n_unique E : n_unique m = n_unique m0).
    rewrite (in_table_chains s s' p (same_tables_chains _ _ Ts)).
    apply (hk_unique _ _ _ Hok p m0 Hm0).
  - intros b chain p Hb Hp. rewrite (same_tables_chains _ _ Ts) in Hb.
    destruct (hk_bucket _ _ _ Hok b chain p Hb Hp) as (h & Hh & Eb).
    assert (Hpc : p <> cur).
    { intros ->. apply Hnot. exists b, chain. auto. }
    exists h. split.
    + rewrite <- Hh. apply raw_hash_frame.
      * apply fld_hashed; [apply Ap |]. rewrite Ee.
        destruct (decide (p = cur)); [contradiction | reflexivity].
      * rewrite (same_tables_lambdas _ _ Ts). reflexivity.
      * intros m j _ _. via apart Ap.
    + unfold ut_size. rewrite (same_tables_chains _ _ Ts). exact Eb.
  - intros b chain Hb. rewrite (same_tables_chains _ _ Ts) in Hb.
    apply (hk_chains _ _ _ Hok b chain Hb).
Qed.

Lemma heap_ok_perm busy held held' s :
  held ≡ₚ held' -> heap_ok busy held s -> heap_ok busy held' s.
Proof.
  intros Hperm Hok. split.
  - apply (hk_arity _ _ _ Hok).
  - apply (hk_slots _ _ _ Hok).
  - apply (hk_child _ _ _ Hok).
  - apply (hk_full _ _ _ Hok).
  - apply (hk_parents _ _ _ Hok).
  - apply (hk_kept _ _ _ Hok).
  - intros x Hx. apply (hk_held _ _ _ Hok). rewrite Hperm. exact Hx.
  - intros c cn Hc. rewrite <- (occurrences_perm c held held' Hperm).
    apply (hk_refs _ _ _ Hok), Hc.
  - apply (hk_unique _ _ _ Hok).
  - apply (hk_bucket _ _ _ Hok).
  - apply (hk_chains _ _ _ Hok).
Qed.

Lemma in_table_same s s' p : same_tables s s' -> in_table s' p <-> in_table s p.
Proof. intros H. apply in_table_chains, same_tables_chains, H. Qed.

Lemma disconnect_loop_ok busy k : forall held s cur n i,
  heap_ok busy held s -> node_at s cur = Some n -> cur ∈ busy -> ~ in_table s cur ->
  (forall j, (i <= j < i + k)%nat -> get3 (n_e n) j <> 0) ->
  exists s',
    disconnect_children_loop s cur i k = Some s'
    /\ heap_ok busy (map (get3 (n_e n)) (seq i k) ++ held) s'
    /\ same_tables s s'
    /\ length (nodes_id_table s') = length (nodes_id_table s)
    /\ (forall x, is_Some (node_at s' x) <-> is_Some (node_at s x))
    /\ (forall x, fld apart s' x = fld apart s x)
    /\ (forall x, x <> cur -> fld n_e s' x = fld n_e s x)
    /\ (forall x, fld n_parents s' x
                  = (fun v => v - occurrences x (map (get3 (n_e n)) (seq i k)))
                    <$> fld n_parents s x)
    /\ (exists n', node_at s' cur = Some n'
          /\ forall j, get3 (n_e n') j
                       = if bool_decide (i <= j < i + k)%nat then 0 else get3 (n_e n) j).
Proof.
  induction k as [| k IH]; intros held s cur n i Hok Hn Hb Hnot Hfull.
  - exists s. split; [reflexivity |]. split; [exact Hok |].
    split; [apply same_tables_refl |]. split; [reflexivity |]. split; [tauto |].
    split; [reflexivity |]. split; [reflexivity |].
    split.
    { intros x. unfold fld. destruct (node_at s x); cbn; [f_equal; lia | reflexivity]. }
    exists n. split; [exact Hn |].
    intros j. rewrite bool_decide_eq_false_2 by lia. reflexivity.
  - cbn [disconnect_children_loop].
    destruct (disconnect_child_ok busy held s cur i n Hok Hn (Hfull i ltac:(lia)) Hb Hnot)
      as (s1 & E1 & Hok1 & T1 & Len1 & Lv1 & A1 & Ee1 & Pv1).
    rewrite E1. cbn [mbind option_bind].
    pose proof (get3_nonzero _ _ (Hfull i ltac:(lia))) as Hi.
    pose proof (Ee1 cur) as Hc1. destruct (decide (cur = cur)); [| contradiction].
    apply fld_some in Hc1 as (n1 & Hn1 & En1).
    destruct (IH (get3 (n_e n) i :: held) s1 cur n1 (S i) Hok1 Hn1 Hb)
      as (s' & E' & Hok' & T' & Len' & Lv' & A' & Ee' & Pv' & n' & Hn' & En').
    { rewrite (in_table_same _ _ _ T1). exact Hnot. }
    { intros j Hj. rewrite En1, get3_set3 by exact Hi.
      destruct (decide (j = i)); [lia |]. apply Hfull. lia. }
    exists s'. split; [exact E' |]. split.
    { apply (heap_ok_perm busy
               (map (get3 (n_e n1)) (seq (S i) k) ++ get3 (n_e n) i :: held));
        [| exact Hok'].
      cbn [seq map app]. rewrite <- Permutation_middle. apply Permutation_skip.
      apply Permutation_app_tail. apply eq_subrelation; [typeclasses eauto |].
      apply map_ext_in. intros j Hj. apply in_seq in Hj.
      rewrite En1, get3_set3 by exact Hi. destruct (decide (j = i)); [lia | reflexivity]. }
    split; [exact (same_tables_trans _ _ _ T1 T') |].
    split; [congruence |].
    split; [intros x; rewrite Lv'; apply Lv1 |].
    split; [intros x; rewrite A'; apply A1 |].
    split.
    { intros x Hx. rewrite (Ee' x Hx), Ee1. destruct (decide (x = cur)); [contradiction |].
      reflexivity. }
    split.
    { intros x. rewrite Pv', Pv1. cbn [seq map].
      assert (Emap : map (get3 (n_e n1)) (seq (S i) k) = map (get3 (n_e n)) (seq (S i) k)).
      { apply map_ext_in. intros j Hj. apply in_seq in Hj.
        rewrite En1, get3_set3 by exact Hi. destruct (decide (j = i)); [lia | reflexivity]. }
      rewrite Emap. cbn [occurrences].
      unfold fld. destruct (node_at s x); cbn; [f_equal; lia | reflexivity]. }
    exists n'. split; [exact Hn' |]. intros j. rewrite En', En1, get3_set3 by exact Hi.
    destruct (decide (j = i)) as [-> |].
    + rewrite (bool_decide_eq_true_2 (i <= i < i + S k)%nat) by lia.
      destruct (bool_decide _); reflexivity.
    + destruct (bool_decide (S i <= j < S i + k)%nat) eqn:Hd.
      * apply bool_decide_eq_true_1 in Hd. rewrite bool_decide_eq_true_2 by lia. reflexivity.
      * apply bool_decide_eq_false_1 in Hd. rewrite bool_decide_eq_false_2 by lia. reflexivity.
Qed.

Lemma disconnect_children_ok busy held s cur n :
  heap_ok busy held s -> node_at s cur = Some n -> cur ∈ busy -> ~ in_table s cur ->
  (forall j, (j < n_arity n)%nat -> get3 (n_e n) j <> 0) ->
  exists s',
    disconnect_children_exp s cur = Some s'
    /\ heap_ok busy (children n ++ held) s'
    /\ same_tables s s'
    /\ length (nodes_id_table s') = length (nodes_id_table s)
    /\ (forall x, is_Some (node_at s' x) <-> is_Some (node_at s x))
    /\ (forall x, x <> cur -> fld apart s' x = fld apart s x)
    /\ (forall x, x <> cur -> fld n_e s' x = fld n_e s x)
    /\ (forall x, x <> cur ->
          fld n_parents s' x
          = (fun v => v - occurrences x (children n)) <$> fld n_parents s x)
    /\ (exists n', node_at s' cur = Some n' /\ (forall j, get3 (n_e n') j = 0)
                   /\ apart n' = apart (wr_disconnected true n)).
Proof.
  intros Hok Hn Hb Hnot Hfull. unfold disconnect_children_exp. rewrite Hn.
  cbn [mbind option_bind].
  destruct (disconnect_loop_ok busy (n_arity n) held s cur n 0 Hok Hn Hb Hnot)
    as (s1 & E1 & Hok1 & T1 & Len1 & Lv1 & A1 & Ee1 & Pv1 & n1 & Hn1 & En1).
  { intros j Hj. apply Hfull. lia. }
  rewrite E1. cbn [mbind option_bind]. rewrite (upd_node_live _ _ _ _ Hn1).
  assert (Hzero : forall j, get3 (n_e n1) j = 0).
  { intros j. rewrite En1. destruct (bool_decide _) eqn:Hd; [reflexivity |].
    apply bool_decide_eq_false_1 in Hd. apply (hk_slots _ _ _ Hok cur n j Hn). lia. }
  assert (Hap : apart n1 = apart n).
  { pose proof (A1 cur) as H. rewrite (fld_of_node _ _ _ _ Hn1), (fld_of_node _ _ _ _ Hn) in H.
    congruence. }
  eexists. split; [reflexivity |]. split.
  { apply (heap_ok_store busy (children n ++ held) (children n ++ held) s1 cur n1);
      try reflexivity.
    - exact Hok1.
    - exact Hn1.
    - intros x Hx. apply (hk_kept _ _ _ Hok1 cur n1 x Hn1 Hx).
    - apply (hk_held _ _ _ Hok1).
    - intros c. change (kept busy cur (wr_disconnected true n1)) with (kept busy cur n1).
      cbn [n_refs wr_disconnected]. destruct (decide (c = cur)); lia. }
  split; [exact (same_tables_trans _ _ _ T1 (same_tables_store _ _ _ _ (same_tables_refl _))) |].
  split; [rewrite length_store_node; exact Len1 |].
  split; [intros x; rewrite (live_store _ _ _ _ _ Hn1); apply Lv1 |].
  split; [intros x Hx; rewrite (fld_store_ne _ _ _ _ _ _ Hn1 Hx); apply A1 |].
  split; [intros x Hx; rewrite (fld_store_ne _ _ _ _ _ _ Hn1 Hx); apply Ee1, Hx |].
  split; [intros x Hx; rewrite (fld_store_ne _ _ _ _ _ _ Hn1 Hx); apply Pv1 |].
  exists (wr_disconnected true n1). split; [apply (node_at_store_eq _ _ _ _ Hn1) |].
  split; [exact Hzero |].
  change (apart (wr_disconnected true n1)) with (wr_disconnected true (apart n1)).
  rewrite Hap. reflexivity.
Qed.

(** ** Freeing a node *)

Lemma node_at_free s cur n x :
  node_at s cur = Some n ->
  node_at (free_node s cur) x = if decide (x = cur) then None else node_at s x.
Proof.
  intros Hn. pose proof (node_at_lt _ _ _ Hn) as Hlt.
  apply node_at_inv in Hn as (H0 & H3 & _ & Eq).
  unfold node_at, free_node. cbn [nodes_id_table wb_nodes_id_table].
  destruct ((0 <? x) && (Z.land 3 x =? 0)) eqn:Hx;
    [| destruct (decide (x = cur)); reflexivity].
  apply andb_prop in Hx as [Hx0 Hx3]. apply Z.ltb_lt in Hx0. apply Z.eqb_eq in Hx3.
  destruct (decide (x = cur)) as [-> | Hne].
  - rewrite list_lookup_insert_eq by exact Hlt. reflexivity.
  - rewrite list_lookup_insert_ne; [reflexivity |]. intros E. apply Hne.
    rewrite <- Eq, <- (ptr_of_id_of_ptr x Hx3 ltac:(lia)). congruence.
Qed.

Lemma length_free_node s cur :
  length (nodes_id_table (free_node s cur)) = length (nodes_id_table s).
Proof. unfold free_node. cbn [nodes_id_table wb_nodes_id_table]. apply length_insert. Qed.

Lemma over_slots_term f s p m :
  (forall q k, 0 <= f q k) -> node_at s p = Some m -> f p m <= over_slots f s.
Proof.
  intros Hf Hp.
  pose proof (over_slots_diff f (fun _ _ => 0) s s p eq_refl ltac:(eauto)) as H.
  assert (H0 : over_slots (fun _ _ => 0) s <= over_slots f s).
  { apply over_slots_le; [reflexivity |]. intros q. unfold at_node.
    destruct (node_at s q); simpl; [apply Hf | lia]. }
  pose proof (over_slots_diff (fun q k => if decide (q = p) then 0 else f q k) f s s p
                eq_refl ltac:(eauto)) as H1.
  rewrite H1.
  - rewrite !(at_node_some _ _ _ _ Hp). destruct (decide (p = p)); [| contradiction].
    assert (0 <= over_slots (fun q k => if decide (q = p) then 0 else f q k) s); [| lia].
    apply over_slots_nonneg. intros q k. destruct (decide (q = p)); [lia | apply Hf].
  - intros q Hq. unfold at_node. destruct (node_at s q); simpl; [| reflexivity].
    destruct (decide (q = p)); [contradiction | reflexivity].
Qed.

Lemma kept_in_nonneg busy s c : 0 <= kept_in busy s c.
Proof. apply over_slots_nonneg. intros p n. apply occurrences_nonneg. Qed.

Lemma kept_in_term busy s c p m :
  node_at s p = Some m -> occurrences c (kept busy p m) <= kept_in busy s c.
Proof.
  intros Hp. apply (over_slots_term (fun p n => occurrences c (kept busy p n)) s p m);
    [| exact Hp]. intros q k. apply occurrences_nonneg.
Qed.

Lemma live_count_free s cur n :
  node_at s cur = Some n -> live_count (free_node s cur) = live_count s - 1.
Proof.
  intros Hn. unfold live_count.
  rewrite (over_slots_diff (fun _ _ => 1) (fun _ _ => 1) s (free_node s cur) cur).
  - rewrite (at_node_some _ _ _ _ Hn), at_node_none; [lia |].
    rewrite (node_at_free s cur n cur Hn). destruct (decide (cur = cur)); [reflexivity |].
    contradiction.
  - apply length_free_node.
  - eauto.
  - intros p Hp. unfold at_node. rewrite (node_at_free s cur n p Hn).
    destruct (decide (p = cur)); [contradiction | reflexivity].
Qed.

Lemma kept_other busy cur p m : p <> cur -> kept (cur :: busy) p m = kept busy p m.
Proof.
  intros Hne. unfold kept. f_equal.
  destruct (bool_decide (p ∈ busy)) eqn:Hd.
  - apply bool_decide_eq_true_1 in Hd. rewrite bool_decide_eq_true_2; [reflexivity |].
    right. exact Hd.
  - apply bool_decide_eq_false_1 in Hd. rewrite bool_decide_eq_false_2; [reflexivity |].
    intros H. apply elem_of_cons in H as [-> | H]; contradiction.
Qed.

(** A node that nothing refers to any more is freed. *)
Lemma dealloc_ok busy held s cur n :
  heap_ok (cur :: busy) (cur :: held) s -> node_at s cur = Some n ->
  n_refs n <= 1 -> (forall j, get3 (n_e n) j = 0) -> ~ in_table s cur ->
  really_deallocate_exp s cur = Some (free_node s cur)
  /\ heap_ok busy held (free_node s cur).
Proof.
  intros Hok Hn Hrefs Hzero Hnot.
  split; [unfold really_deallocate_exp; rewrite Hn; reflexivity |].
  pose proof Hn as Hinv. apply node_at_inv in Hinv as (Hc0 & Hc3 & _ & _).
  assert (Hreal_cur : BTOR_REAL_ADDR_NODE cur = cur).
  { rewrite <- (ptr_of_id_of_ptr cur Hc3 ltac:(lia)). apply real_addr_ptr_of_id. }
  pose proof (hk_refs _ _ _ Hok cur n Hn) as Hr. cbn [occurrences] in Hr.
  rewrite Hreal_cur in Hr. destruct (decide (cur = cur)); [| contradiction].
  pose proof (kept_in_nonneg (cur :: busy) s cur) as Hk0.
  pose proof (occurrences_nonneg cur held) as Ho0.
  destruct (hk_parents _ _ _ Hok cur n Hn) as (l0 & Hl0 & Hedge0 & Hpar0).
  assert (l0 = []) by (destruct l0; [reflexivity | simpl in Hpar0; lia]). subst l0.
  assert (Hno_in : forall x, ~ edge s x cur).
  { intros x Hx. apply Hedge0 in Hx. inversion Hx. }
  assert (Hno_out : forall x c, edge s x c -> BTOR_REAL_ADDR_NODE x <> cur).
  { intros x c (pn & Hp & Hne & _) E. unfold real_node in Hp. rewrite E in Hp.
    assert (pn = n) by congruence. subst pn. apply Hne, Hzero. }
  assert (Hnode : forall p m, node_at (free_node s cur) p = Some m ->
            p <> cur /\ node_at s p = Some m).
  { intros p m. rewrite (node_at_free s cur n p Hn).
    destruct (decide (p = cur)); [discriminate | auto]. }
  assert (Hkeep : forall p, p <> cur -> node_at (free_node s cur) p = node_at s p).
  { intros p Hp. rewrite (node_at_free s cur n p Hn).
    destruct (decide (p = cur)); [contradiction | reflexivity]. }
  assert (Hchild : forall p m j, node_at s p = Some m -> get3 (n_e m) j <> 0 ->
            BTOR_REAL_ADDR_NODE (get3 (n_e m) j) <> cur).
  { intros p m j Hp Hj E. apply (Hno_in (BTOR_TAG_NODE p j)). rewrite <- E.
    apply edge_intro; assumption. }
  assert (Hreal : forall x, is_Some (real_node s x) -> BTOR_REAL_ADDR_NODE x <> cur ->
            is_Some (real_node (free_node s cur) x)).
  { intros x Hx Hne. unfold real_node in *. rewrite (Hkeep _ Hne). exact Hx. }
  split.
  - intros p m Hp. apply Hnode in Hp as [_ Hp]. apply (hk_arity _ _ _ Hok p m Hp).
  - intros p m j Hp. apply Hnode in Hp as [_ Hp]. apply (hk_slots _ _ _ Hok p m j Hp).
  - intros p m j Hp Hj. apply Hnode in Hp as [_ Hp].
    apply Hreal; [apply (hk_child _ _ _ Hok p m j Hp Hj) | apply (Hchild p m j Hp Hj)].
  - intros p m j Hp Hj Hb. apply Hnode in Hp as [Hpc Hp].
    apply (hk_full _ _ _ Hok p m j Hp Hj). intros H.
    apply elem_of_cons in H as [-> | H]; contradiction.
  - intros c cn Hc. apply Hnode in Hc as [Hcc Hc].
    destruct (hk_parents _ _ _ Hok c cn Hc) as (l & (H1 & H2 & H3 & H4) & Hedge & Hpar).
    assert (Hl : forall x, x ∈ l -> BTOR_REAL_ADDR_NODE x <> cur).
    { intros x Hx. apply (Hno_out x c). apply Hedge, Hx. }
    exists l. split; [| split; [| exact Hpar]].
    + split; [exact H1 |]. split; [exact H2 |]. split; [| exact H4].
      apply (chain_frame s); [| exact H3]. intros x Hx.
      unfold next_link, prev_link, real_node. rewrite (Hkeep _ (Hl x Hx)). auto.
    + intros x. rewrite Hedge. unfold edge, real_node. split.
      * intros (pn & Hp & Hx). exists pn. split; [| exact Hx].
        rewrite Hkeep; [exact Hp |]. apply (Hno_out x c). exists pn. auto.
      * intros (pn & Hp & Hx). apply Hnode in Hp as [_ Hp]. eauto.
  - intros p m x Hp Hx. apply Hnode in Hp as [Hpc Hp].
    rewrite <- (kept_other busy cur p m Hpc) in Hx.
    apply Hreal; [apply (hk_kept _ _ _ Hok p m x Hp Hx) |].
    pose proof (kept_in_term (cur :: busy) s cur p m Hp) as Ht.
    apply (occurrences_zero cur (kept (cur :: busy) p m)); [| exact Hx].
    pose proof (occurrences_nonneg cur (kept (cur :: busy) p m)). lia.
  - intros x Hx. apply Hreal; [apply (hk_held _ _ _ Hok x); right; exact Hx |].
    apply (occurrences_zero cur held); [lia | exact Hx].
  - intros c cn Hc. apply Hnode in Hc as [Hcc Hc].
    pose proof (hk_refs _ _ _ Hok c cn Hc) as Hrc. cbn [occurrences] in Hrc.
    rewrite Hreal_cur in Hrc. destruct (decide (c = cur)); [contradiction |].
    assert (kept_in busy (free_node s cur) c <= kept_in (cur :: busy) s c); [| lia].
    apply over_slots_le; [apply length_free_node |]. intros p. unfold at_node.
    rewrite (node_at_free s cur n p Hn). destruct (decide (p = cur)) as [-> | Hp].
    + rewrite Hn. simpl. apply occurrences_nonneg.
    + destruct (node_at s p) as [m |]; simpl; [| lia].
      rewrite (kept_other busy cur p m Hp). lia.
  - intros p m Hp. apply Hnode in Hp as [_ Hp]. apply (hk_unique _ _ _ Hok p m Hp).
  - intros b chain p Hb Hp. destruct (hk_bucket _ _ _ Hok b chain p Hb Hp) as (h & Hh & Eb).
    exists h. split; [| exact Eb]. rewrite <- Hh.
    assert (Hpc : p <> cur) by (intros ->; apply Hnot; exists b, chain; auto).
    apply raw_hash_frame.
    + unfold fld. rewrite (Hkeep p Hpc). reflexivity.
    + reflexivity.
    + intros m j Hm Hj. unfold fld. rewrite Hkeep; [reflexivity |].
      apply (Hchild p m j Hm Hj).
  - apply (hk_chains _ _ _ Hok).
Qed.

(** ** Erasing the local data *)

Lemma release_static_rho_each release s entries :
  release_static_rho release s entries
  = release_each release s (rho_handles (Some entries)).
Proof.
  revert s. induction entries as [| [key data] entries IH]; intros s; [reflexivity |].
  cbn [release_static_rho rho_handles flat_map app release_each fst snd].
  destruct (release s data) as [s1 |]; [| reflexivity]. cbn [mbind option_bind].
  destruct (release s1 key) as [s2 |]; [| reflexivity]. cbn [mbind option_bind].
  apply IH.
Qed.

Lemma upd_store s p a f m :
  node_at s p = Some m ->
  upd_node (store_node s p a) p f = Some (store_node s p (f a)).
Proof.
  intros Hm. unfold upd_node. rewrite (node_at_store_eq s p a m Hm).
  cbn [mbind option_bind]. rewrite store_store. reflexivity.
Qed.

Lemma erase_unfold release s cur fs n :
  node_at s cur = Some n ->
  erase_local_data_exp release s cur fs
  = s1 ← erase_releases release s n;
    n1 ← node_at s1 cur;
    Some (store_node s1 cur (erase_fields n fs n1)).
Proof.
  intros Hn. unfold erase_local_data_exp, erase_releases, erase_fields. rewrite Hn.
  cbn [mbind option_bind].
  assert (Hplain : forall g : BtorNode -> BtorNode,
            (s0 ← upd_node s cur g;
             s2 ← (if fs then upd_node s0 cur (wr_sort_id None) else Some s0);
             upd_node s2 cur (fun n0 => wr_erased true (wr_av None n0)))
            = Some (store_node s cur
                      (wr_erased true (wr_av None
                         (if fs then wr_sort_id None (g n) else g n))))).
  { intros g. rewrite (upd_node_live _ _ _ _ Hn). cbn [mbind option_bind].
    destruct fs.
    - rewrite (upd_store _ _ _ _ _ Hn). cbn [mbind option_bind].
      exact (upd_store _ _ _ (fun n0 => wr_erased true (wr_av None n0)) _ Hn).
    - cbn [mbind option_bind]. exact (upd_store _ _ _ (fun n0 => wr_erased true (wr_av None n0)) _ Hn). }
  assert (Hnone :
            (s2 ← (if fs then upd_node s cur (wr_sort_id None) else Some s);
             upd_node s2 cur (fun n0 => wr_erased true (wr_av None n0)))
            = Some (store_node s cur
                      (wr_erased true (wr_av None (if fs then wr_sort_id None n else n))))).
  { destruct fs.
    - rewrite (upd_node_live _ _ _ _ Hn). cbn [mbind option_bind].
      exact (upd_store _ _ _ (fun n0 => wr_erased true (wr_av None n0)) _ Hn).
    - cbn [mbind option_bind].
      exact (upd_node_live s cur (fun n0 => wr_erased true (wr_av None n0)) n Hn). }
  destruct (n_kind n) eqn:Hk; cbn [mbind option_bind]; rewrite ?Hn; cbn [mbind option_bind];
    try exact Hnone; try exact (Hplain _).
  - (* a lambda *)
    destruct (n_static_rho n) as [entries |] eqn:Hr.
    + destruct (release_static_rho release s entries) as [s1 |]; [| reflexivity].
      cbn [mbind option_bind]. destruct (node_at s1 cur) as [n1 |] eqn:Hn1;
        [| replace (upd_node s1 cur (wr_static_rho None)) with (@None Btor)
             by (unfold upd_node; rewrite Hn1; reflexivity); reflexivity].
      rewrite (upd_node_live _ _ _ _ Hn1). cbn [mbind option_bind].
      rewrite (upd_store _ _ _ _ _ Hn1). cbn [mbind option_bind].
      destruct fs.
      * rewrite (upd_store _ _ _ _ _ Hn1). cbn [mbind option_bind].
        exact (upd_store _ _ _ (fun n0 => wr_erased true (wr_av None n0)) _ Hn1).
      * exact (upd_store _ _ _ (fun n0 => wr_erased true (wr_av None n0)) _ Hn1).
    + cbn [mbind option_bind]. rewrite Hn. cbn [mbind option_bind]. exact (Hplain _).
  - (* a conditional *)
    destruct (btor_is_fun_cond_node_n n); cbn [mbind option_bind];
      [exact (Hplain _) | exact Hnone].
Qed.

(** ** States after releases *)

Lemma shrinks_refl s : shrinks s s.
Proof. split; [reflexivity | | auto]. intros x n Hx. exists n. split; [exact Hx |]. split; [reflexivity | lia]. Qed.

Lemma shrinks_trans s1 s2 s3 : shrinks s1 s2 -> shrinks s2 s3 -> shrinks s1 s3.
Proof.
  intros H12 H23. split.
  - rewrite (sh_length _ _ H23). apply (sh_length _ _ H12).
  - intros x n3 H3. destruct (sh_nodes _ _ H23 x n3 H3) as (n2 & H2 & E2 & R2).
    destruct (sh_nodes _ _ H12 x n2 H2) as (n1 & H1 & E1 & R1).
    exists n1. split; [exact H1 |]. split; [congruence | lia].
  - intros p Hp. apply (sh_table _ _ H12), (sh_table _ _ H23), Hp.
Qed.

Lemma shrinks_but_refl cur s : shrinks_but cur s s.
Proof.
  split; [reflexivity | auto | | auto]. intros x n _ Hx. exists n.
  split; [exact Hx |]. split; [reflexivity | lia].
Qed.

Lemma shrinks_but_trans cur s1 s2 s3 :
  shrinks_but cur s1 s2 -> shrinks_but cur s2 s3 -> shrinks_but cur s1 s3.
Proof.
  intros H12 H23. split.
  - rewrite (sb_length _ _ _ H23). apply (sb_length _ _ _ H12).
  - intros x Hx. apply (sb_live _ _ _ H12), (sb_live _ _ _ H23), Hx.
  - intros x n3 Hne H3. destruct (sb_nodes _ _ _ H23 x n3 Hne H3) as (n2 & H2 & E2 & R2).
    destruct (sb_nodes _ _ _ H12 x n2 Hne H2) as (n1 & H1 & E1 & R1).
    exists n1. split; [exact H1 |]. split; [congruence | lia].
  - intros p Hp. apply (sb_table _ _ _ H12), (sb_table _ _ _ H23), Hp.
Qed.

Lemma shrinks_but_of cur s s' : shrinks s s' -> shrinks_but cur s s'.
Proof.
  intros H. split.
  - apply (sh_length _ _ H).
  - intros x [n' Hx]. destruct (sh_nodes _ _ H x n' Hx) as (n & Hn & _). eauto.
  - intros x n' _ Hx. apply (sh_nodes _ _ H x n' Hx).
  - apply (sh_table _ _ H).
Qed.

(** A write to the node that is taken apart. *)
Lemma shrinks_but_store cur s n n' :
  node_at s cur = Some n -> shrinks_but cur s (store_node s cur n').
Proof.
  intros Hn. split.
  - apply length_store_node.
  - intros x. apply (live_store _ _ _ _ _ Hn).
  - intros x m Hne. rewrite (node_at_store s cur x n' n Hn).
    destruct (decide (x = cur)); [contradiction |]. intros Hx. exists m.
    split; [exact Hx |]. split; [reflexivity | lia].
  - auto.
Qed.

(** When the node is freed, the promise holds for all that is left. *)
Lemma shrinks_free cur s s' n' :
  shrinks_but cur s s' -> node_at s' cur = Some n' -> shrinks s (free_node s' cur).
Proof.
  intros H Hn'. split.
  - rewrite length_free_node. apply (sb_length _ _ _ H).
  - intros x m. rewrite (node_at_free s' cur n' x Hn').
    destruct (decide (x = cur)); [discriminate |]. apply (sb_nodes _ _ _ H x m). assumption.
  - intros p Hp. apply (sb_table _ _ _ H). exact Hp.
Qed.

Lemma core_apart n n' : apart n' = apart n -> n_e n' = n_e n -> core n' = core n.
Proof.
  intros Ha He. destruct n, n'. unfold apart, core in *. simpl in *.
  injection Ha as E1 E2 E3 E4 E5 E6 E7 E8 E9 E10 E11 E12 E13 E14 E15 E16 E17 E18 E19 E20
    E21 E22. subst. reflexivity.
Qed.

Lemma live_count_shrinks s s' : shrinks s s' -> live_count s' <= live_count s.
Proof.
  intros H. apply over_slots_le; [apply (sh_length _ _ H) |]. intros p. unfold at_node.
  destruct (node_at s' p) as [n' |] eqn:Hp; simpl.
  - destruct (sh_nodes _ _ H p n' Hp) as (n & -> & _). simpl. lia.
  - destruct (node_at s p); simpl; lia.
Qed.

Lemma rho_count_shrinks busy s s' : shrinks s s' -> rho_count busy s' <= rho_count busy s.
Proof.
  intros H. apply over_slots_le; [apply (sh_length _ _ H) |]. intros p. unfold at_node.
  destruct (node_at s' p) as [n' |] eqn:Hp; simpl.
  - destruct (sh_nodes _ _ H p n' Hp) as (n & -> & E & _). simpl.
    pose proof (f_equal n_static_rho E) as Er. simpl in Er. rewrite Er. lia.
  - destruct (node_at s p) as [n |]; simpl; [| lia].
    destruct (bool_decide (p ∈ busy)); [lia |]. destruct (n_static_rho n); lia.
Qed.

Lemma live_count_nonneg s : 0 <= live_count s.
Proof. apply over_slots_nonneg. intros. lia. Qed.

Lemma heap_ok_drop busy l held s : heap_ok busy (l ++ held) s -> heap_ok busy held s.
Proof.
  intros Hok. split.
  - apply (hk_arity _ _ _ Hok).
  - apply (hk_slots _ _ _ Hok).
  - apply (hk_child _ _ _ Hok).
  - apply (hk_full _ _ _ Hok).
  - apply (hk_parents _ _ _ Hok).
  - apply (hk_kept _ _ _ Hok).
  - intros x Hx. apply (hk_held _ _ _ Hok). apply elem_of_app. right. exact Hx.
  - intros c cn Hc. pose proof (hk_refs _ _ _ Hok c cn Hc) as H.
    rewrite occurrences_app in H. pose proof (occurrences_nonneg c l). lia.
  - apply (hk_unique _ _ _ Hok).
  - apply (hk_bucket _ _ _ Hok).
  - apply (hk_chains _ _ _ Hok).
Qed.

Lemma heap_ok_held_live busy held s x :
  heap_ok busy held s -> 1 <= occurrences x held -> is_Some (node_at s x).
Proof.
  intros Hok Hx. apply occurrences_elem in Hx as (c & Hc & <-).
  apply (hk_held _ _ _ Hok c Hc).
Qed.

(** ** A node becomes busy *)

Lemma kept_mask busy cur n :
  cur ∉ busy ->
  kept busy cur n = kept (cur :: busy) cur n ++ rho_handles (n_static_rho n).
Proof.
  intros Hb. unfold kept. rewrite (bool_decide_eq_false_2 _ Hb).
  rewrite (bool_decide_eq_true_2 (cur ∈ cur :: busy)) by left.
  rewrite app_nil_r. reflexivity.
Qed.

Lemma kept_in_mask busy s cur n c :
  node_at s cur = Some n -> cur ∉ busy ->
  kept_in (cur :: busy) s c
  = kept_in busy s c - occurrences c (rho_handles (n_static_rho n)).
Proof.
  intros Hn Hb. unfold kept_in.
  rewrite (over_slots_diff (fun p n => occurrences c (kept busy p n))
             (fun p n => occurrences c (kept (cur :: busy) p n)) s s cur eq_refl).
  - rewrite !(at_node_some _ _ _ _ Hn), (kept_mask busy cur n Hb), occurrences_app. lia.
  - eauto.
  - intros p Hp. unfold at_node. destruct (node_at s p) as [m |]; simpl; [| reflexivity].
    rewrite (kept_other busy cur p m Hp). reflexivity.
Qed.

Lemma rho_count_mask busy s cur n :
  node_at s cur = Some n -> cur ∉ busy ->
  rho_count (cur :: busy) s
  = rho_count busy s - match n_static_rho n with Some _ => 1 | None => 0 end.
Proof.
  intros Hn Hb. unfold rho_count.
  rewrite (over_slots_diff
             (fun p n => if bool_decide (p ∈ busy) then 0
                         else match n_static_rho n with Some _ => 1 | None => 0 end)
             (fun p n => if bool_decide (p ∈ cur :: busy) then 0
                         else match n_static_rho n with Some _ => 1 | None => 0 end)
             s s cur eq_refl).
  - rewrite !(at_node_some _ _ _ _ Hn), (bool_decide_eq_false_2 _ Hb).
    rewrite (bool_decide_eq_true_2 (cur ∈ cur :: busy)) by left. lia.
  - eauto.
  - intros p Hp. unfold at_node. destruct (node_at s p) as [m |]; simpl; [| reflexivity].
    destruct (bool_decide (p ∈ busy)) eqn:Hd.
    + apply bool_decide_eq_true_1 in Hd. rewrite bool_decide_eq_true_2; [reflexivity |].
      right. exact Hd.
    + apply bool_decide_eq_false_1 in Hd. rewrite bool_decide_eq_false_2; [reflexivity |].
      intros H. apply elem_of_cons in H as [-> | H]; contradiction.
Qed.

(** The node [cur] becomes busy: the handles of its static_rho are owed a
    release from now on. *)
Lemma mask_ok busy held s cur n :
  heap_ok busy held s -> node_at s cur = Some n -> cur ∉ busy ->
  heap_ok (cur :: busy) (rho_handles (n_static_rho n) ++ held) s.
Proof.
  intros Hok Hn Hb.
  apply (heap_ok_frame busy held (cur :: busy) _ s s Hok); try reflexivity.
  - apply (hk_arity _ _ _ Hok).
  - apply (hk_slots _ _ _ Hok).
  - intros p m i Hp Hi Hpb. apply (hk_full _ _ _ Hok p m i Hp Hi). intros H. apply Hpb.
    right. exact H.
  - intros p m x Hp Hx. apply (hk_kept _ _ _ Hok p m x Hp).
    destruct (decide (p = cur)) as [-> | Hne].
    + rewrite (kept_mask busy cur m Hb). apply elem_of_app. left. exact Hx.
    + rewrite <- (kept_other busy cur p m Hne). exact Hx.
  - intros x Hx. apply elem_of_app in Hx as [Hx | Hx].
    + apply (hk_kept _ _ _ Hok cur n x Hn). rewrite (kept_mask busy cur n Hb).
      apply elem_of_app. right. exact Hx.
    + apply (hk_held _ _ _ Hok x Hx).
  - intros c cn cn' Hc Hc'. assert (cn' = cn) by congruence. subst cn'.
    rewrite (kept_in_mask busy s cur n c Hn Hb), occurrences_app. lia.
Qed.

Lemma erase_fields_frame old fs n :
  wiring (erase_fields old fs n) = wiring n
  /\ n_unique (erase_fields old fs n) = n_unique n
  /\ n_arity (erase_fields old fs n) = n_arity n
  /\ n_id (erase_fields old fs n) = n_id n
  /\ n_simplified (erase_fields old fs n) = n_simplified n
  /\ n_refs (erase_fields old fs n) = n_refs n
  /\ n_kind (erase_fields old fs n) = n_kind n
  /\ n_erased (erase_fields old fs n) = true
  /\ n_av (erase_fields old fs n) = None
  /\ (fs = false -> n_sort_id (erase_fields old fs n) = n_sort_id n)
  /\ (n_static_rho n = None \/ (n_kind old = BTOR_LAMBDA_NODE /\ n_static_rho old <> None) ->
      n_static_rho (erase_fields old fs n) = None).
Proof.
  unfold erase_fields.
  destruct (n_kind old), (n_static_rho old), fs, (btor_is_fun_cond_node_n old);
    cbn; repeat split; try reflexivity; try (intros; congruence);
    try (intros [H | [H1 H2]]; congruence).
Qed.

(** ** Leaving the side tables *)

Lemma heap_ok_side busy held s s' cur :
  heap_ok busy held s -> ~ in_table s cur ->
  nodes_id_table s' = nodes_id_table s -> ut_chains s' = ut_chains s ->
  (forall p, p <> cur -> lambdas s' !! p = lambdas s !! p) ->
  heap_ok busy held s'.
Proof.
  intros Hok Hnot Htab Hch Hl.
  assert (Hnode : forall x, node_at s' x = node_at s x)
    by (intros x; apply node_at_table, Htab).
  assert (Hfld : forall {A} (g : BtorNode -> A) x, fld g s' x = fld g s x).
  { intros A g x. unfold fld. rewrite Hnode. reflexivity. }
  apply (heap_ok_frame busy held busy held s s' Hok).
  - intros x. rewrite Hnode. reflexivity.
  - intros x. apply Hfld.
  - intros x. apply Hfld.
  - exact Hch.
  - intros p Hp. apply raw_hash_frame; [apply Hfld | | intros; apply Hfld].
    apply Hl. intros ->. contradiction.
  - intros p m. rewrite Hnode. apply (hk_arity _ _ _ Hok).
  - intros p m i. rewrite Hnode. apply (hk_slots _ _ _ Hok).
  - intros p m i. rewrite Hnode. apply (hk_full _ _ _ Hok).
  - intros p m x. rewrite Hnode. apply (hk_kept _ _ _ Hok).
  - apply (hk_held _ _ _ Hok).
  - intros c cn cn'. rewrite Hnode. intros H1 H2. assert (cn' = cn) by congruence.
    subst cn'. rewrite (kept_in_table busy s s' c Htab). lia.
Qed.

Lemma remove_from_hash_tables_ok busy held s cur n keep :
  heap_ok busy held s -> node_at s cur = Some n -> ~ in_table s cur ->
  exists s',
    remove_from_hash_tables s cur keep = Some s'
    /\ heap_ok busy held s'
    /\ nodes_id_table s' = nodes_id_table s /\ ut_chains s' = ut_chains s
    /\ (n_kind n = BTOR_BV_VAR_NODE -> cur ∉ bv_vars s')
    /\ (n_kind n = BTOR_LAMBDA_NODE -> lambdas s' !! cur = None)
    /\ (n_kind n = BTOR_UF_NODE -> cur ∉ ufs s')
    /\ (n_kind n = BTOR_FUN_EQ_NODE -> feqs s' !! cur = None)
    /\ parameterized s' !! cur = None
    /\ (if keep then node2symbol s' = node2symbol s /\ symbols s' = symbols s
        else node2symbol s' !! cur = None).
Proof.
  intros Hok Hn Hnot. unfold remove_from_hash_tables. rewrite Hn.
  cbn [mbind option_bind].
  set (s1 := match n_kind n with
             | BTOR_BV_VAR_NODE => wb_bv_vars (bv_vars s ∖ {[cur]}) s
             | BTOR_LAMBDA_NODE => wb_lambdas (delete cur (lambdas s)) s
             | BTOR_UF_NODE => wb_ufs (ufs s ∖ {[cur]}) s
             | BTOR_FUN_EQ_NODE => wb_feqs (delete cur (feqs s)) s
             | _ => s
             end).
  assert (H1 : nodes_id_table s1 = nodes_id_table s /\ ut_chains s1 = ut_chains s
               /\ (forall p, p <> cur -> lambdas s1 !! p = lambdas s !! p)
               /\ node2symbol s1 = node2symbol s /\ symbols s1 = symbols s
               /\ parameterized s1 = parameterized s
               /\ (n_kind n = BTOR_BV_VAR_NODE -> cur ∉ bv_vars s1)
               /\ (n_kind n = BTOR_LAMBDA_NODE -> lambdas s1 !! cur = None)
               /\ (n_kind n = BTOR_UF_NODE -> cur ∉ ufs s1)
               /\ (n_kind n = BTOR_FUN_EQ_NODE -> feqs s1 !! cur = None)).
  { unfold s1. destruct (n_kind n); cbn;
      repeat split; try reflexivity; try discriminate; intros;
      try (apply lookup_delete_ne; congruence); try apply lookup_delete_eq;
      try (apply not_elem_of_difference; right; apply elem_of_singleton; reflexivity). }
  destruct H1 as (T1 & C1 & L1 & N1 & Y1 & P1 & V1 & La1 & U1 & F1).
  set (s2 := if keep then s1
             else match node2symbol s1 !! cur with
                  | Some str =>
                      let s0 := wb_node2symbol (delete cur (node2symbol s1)) s1 in
                      if bool_decide (str = EmptyString) then s0
                      else wb_symbols (delete str (symbols s0)) s0
                  | None => s1
                  end).
  assert (H2 : nodes_id_table s2 = nodes_id_table s1 /\ ut_chains s2 = ut_chains s1
               /\ lambdas s2 = lambdas s1 /\ bv_vars s2 = bv_vars s1
               /\ ufs s2 = ufs s1 /\ feqs s2 = feqs s1
               /\ parameterized s2 = parameterized s1
               /\ (if keep then node2symbol s2 = node2symbol s1 /\ symbols s2 = symbols s1
                   else node2symbol s2 !! cur = None)).
  { unfold s2. destruct keep; [repeat split |].
    destruct (node2symbol s1 !! cur) as [str |] eqn:Hs;
      [destruct (bool_decide (str = EmptyString)) |]; cbn;
      repeat split; try reflexivity; try apply lookup_delete_eq; exact Hs. }
  destruct H2 as (T2 & C2 & L2 & V2 & U2 & F2 & P2 & K2).
  eexists. split; [reflexivity |].
  split.
  { apply (heap_ok_side busy held s _ cur Hok Hnot).
    - cbn. congruence.
    - cbn. congruence.
    - intros p Hp. cbn. rewrite L2. apply L1, Hp. }
  cbn. split; [congruence |]. split; [congruence |].
  split; [rewrite V2; exact V1 |]. split; [rewrite L2; exact La1 |].
  split; [rewrite U2; exact U1 |]. split; [rewrite F2; exact F1 |].
  split; [apply lookup_delete_eq |].
  destruct keep; [destruct K2; split; congruence | exact K2].
Qed.

(** ** The nodes that the held handles keep alive *)

Lemma owns_same busy busy' s s' p n n' x :
  node_at s p = Some n -> node_at s' p = Some n' ->
  n_e n' = n_e n -> kept busy' p n' = kept busy p n ->
  owns busy s p x -> owns busy' s' p x.
Proof.
  intros Hn Hn' He Hk (m & Hm & H). assert (m = n) by congruence. subst m.
  exists n'. split; [exact Hn' |]. rewrite He, Hk. exact H.
Qed.

Lemma kept_core busy p n n' : core n' = core n -> kept busy p n' = kept busy p n.
Proof.
  intros E. unfold kept.
  rewrite (f_equal n_simplified E : n_simplified n' = n_simplified n).
  rewrite (f_equal n_static_rho E : n_static_rho n' = n_static_rho n). reflexivity.
Qed.

Lemma kept_apart busy p n n' : apart n' = apart n -> kept busy p n' = kept busy p n.
Proof.
  intros E. unfold kept.
  rewrite (f_equal n_simplified E : n_simplified n' = n_simplified n).
  rewrite (f_equal n_static_rho E : n_static_rho n' = n_static_rho n). reflexivity.
Qed.

(** What is kept alive in one state is kept alive in another, when every
    handle held and every reference owned is carried over. *)
Lemma anchored_step busy busy' s s' held held' :
  (forall x, 1 <= occurrences x held -> anchored busy' s' held' x) ->
  (forall p x, owns busy s p x -> anchored busy s held p -> anchored busy' s' held' p ->
     anchored busy' s' held' x) ->
  forall x, anchored busy s held x -> anchored busy' s' held' x.
Proof.
  intros Hh Ho x H. induction H as [x Hx | p x Hpx Hp IH].
  - apply Hh, Hx.
  - apply (Ho p x Hpx Hp IH).
Qed.

(** The same when the references that the node at [X] owns are not carried
    over: a node is then kept alive whenever [X] is. *)
Lemma anchored_but X busy busy' s s' held held' :
  (forall x, 1 <= occurrences x held -> anchored busy' s' held' x) ->
  (forall p x, p <> X -> owns busy s p x -> anchored busy' s' held' p ->
     anchored busy' s' held' x) ->
  forall x, anchored busy s held x ->
    anchored busy' s' held' x \/ anchored busy' s' held' X.
Proof.
  intros Hh Ho x H. induction H as [x Hx | p x Hpx Hp IH].
  - left. apply Hh, Hx.
  - destruct IH as [IH | IH]; [| right; exact IH].
    destruct (decide (p = X)) as [-> | Hne]; [right; exact IH |].
    left. apply (Ho p x Hne Hpx IH).
Qed.

Lemma anchored_mono busy s held held' x :
  (forall y, 1 <= occurrences y held -> 1 <= occurrences y held') ->
  anchored busy s held x -> anchored busy s held' x.
Proof.
  intros Hh. apply anchored_step.
  - intros y Hy. apply anchored_held, Hh, Hy.
  - intros p y Ho _ Hp. exact (anchored_owned _ _ _ p y Ho Hp).
Qed.

Lemma anchored_app busy s l held x :
  anchored busy s held x -> anchored busy s (l ++ held) x.
Proof.
  apply anchored_mono. intros y Hy. rewrite occurrences_app.
  pose proof (occurrences_nonneg y l). lia.
Qed.

Lemma anchored_live busy held s x :
  heap_ok busy held s -> anchored busy s held x -> is_Some (node_at s x).
Proof.
  intros Hok H. inversion H as [y Hy | p y (n & Hn & [(i & Hi & E) | (r & Hr & E)]) _]; subst.
  - apply (heap_ok_held_live _ _ _ _ Hok Hy).
  - apply (hk_child _ _ _ Hok p n i Hn Hi).
  - apply (hk_kept _ _ _ Hok p n r Hn Hr).
Qed.

(** A node that the sweep is about to release and that the handles left
    keep alive has another reference. *)
Lemma anchored_refs busy top held s x n :
  heap_ok busy (top :: held) s -> BTOR_REAL_ADDR_NODE top = x -> node_at s x = Some n ->
  anchored busy s held x -> 2 <= n_refs n.
Proof.
  intros Hok Htop Hn H.
  pose proof (hk_refs _ _ _ Hok x n Hn) as Hr. cbn [occurrences] in Hr.
  rewrite Htop in Hr. destruct (decide (x = x)); [| contradiction].
  pose proof (kept_in_nonneg busy s x). pose proof (occurrences_nonneg x held).
  destruct (hk_parents _ _ _ Hok x n Hn) as (l & _ & Hedge & Hpar).
  inversion H as [y Hy | p y (m & Hm & [(i & Hi & E) | (r & Hr' & E)]) _]; subst.
  - lia.
  - assert (Hin : BTOR_TAG_NODE p i ∈ l).
    { apply Hedge. rewrite <- E. apply (edge_intro s p m i Hm Hi). }
    destruct l as [| a l]; [inversion Hin |]. cbn [length] in Hpar. lia.
  - pose proof (kept_in_term busy s (BTOR_REAL_ADDR_NODE r) p m Hm) as Hk.
    pose proof (occurrences_pos r (kept busy p m) Hr') as Hp. rewrite E in Hk, Hp. lia.
Qed.

(** Releases leave alive what the handles that stay held keep alive. *)
Lemma anchored_shrinks busy s s' held held' :
  shrinks s s' -> heap_ok busy held' s' ->
  (forall x, 1 <= occurrences x held -> 1 <= occurrences x held') ->
  forall x, anchored busy s held x -> anchored busy s' held' x.
Proof.
  intros Sh Hok Hh. apply anchored_step.
  - intros x Hx. apply anchored_held, Hh, Hx.
  - intros p x Ho _ Hp. apply (anchored_owned _ _ _ p x); [| exact Hp].
    destruct (anchored_live _ _ _ _ Hok Hp) as [n' Hn'].
    destruct (sh_nodes _ _ Sh p n' Hn') as (n & Hn & Ec & _).
    apply (owns_same busy busy s s' p n n' x Hn Hn');
      [exact (f_equal n_e Ec) | apply kept_core, Ec | exact Ho].
Qed.

(** The same while the node at [X] is taken apart. *)
Lemma anchored_shrinks_but X busy s s' held held' :
  shrinks_but X s s' -> heap_ok busy held' s' ->
  (forall x, 1 <= occurrences x held -> 1 <= occurrences x held') ->
  forall x, anchored busy s held x ->
    anchored busy s' held' x \/ anchored busy s' held' X.
Proof.
  intros Sh Hok Hh. apply anchored_but.
  - intros x Hx. apply anchored_held, Hh, Hx.
  - intros p x Hne Ho Hp. apply (anchored_owned _ _ _ p x); [| exact Hp].
    destruct (anchored_live _ _ _ _ Hok Hp) as [n' Hn'].
    destruct (sb_nodes _ _ _ Sh p n' Hne Hn') as (n & Hn & Ec & _).
    apply (owns_same busy busy s s' p n n' x Hn Hn');
      [exact (f_equal n_e Ec) | apply kept_core, Ec | exact Ho].
Qed.

Lemma anchored_after busy l held s s' :
  shrinks s s' -> heap_ok busy (l ++ held) s' ->
  (forall b, b ∈ busy -> anchored busy s held b) ->
  forall b, b ∈ busy -> anchored busy s' held b.
Proof.
  intros Sh Hok Hb b Hbb.
  apply (anchored_shrinks busy s s' held held Sh (heap_ok_drop _ _ _ _ Hok)); [auto |].
  apply Hb, Hbb.
Qed.

Lemma ownsb_sound busy s p x : ownsb busy s p x = true -> owns busy s p x.
Proof.
  unfold ownsb. destruct (node_at s p) as [n |] eqn:Hn; [| discriminate].
  intros H. exists n. split; [exact Hn |].
  apply orb_prop in H as [H | H]; apply existsb_exists in H as (a & Hin & Ha).
  - apply andb_prop in Ha as [H1 H2]. left. exists a. split.
    + intros E. rewrite E in H1. discriminate.
    + apply Z.eqb_eq, H2.
  - right. exists a. split; [| apply Z.eqb_eq, Ha].
    apply list_elem_of_In. exact Hin.
Qed.

Lemma anchoredb_sound fuel busy s held : forall x,
  anchoredb fuel busy s held x = true -> anchored busy s held x.
Proof.
  induction fuel as [| fuel IH]; intros x H; cbn [anchoredb] in H;
    apply orb_prop in H as [H | H]; try (apply anchored_held, Z.leb_le, H).
  - discriminate.
  - apply existsb_exists in H as (i & _ & Hi). apply andb_prop in Hi as [H1 H2].
    apply (anchored_owned _ _ _ (ptr_of_id i) x); [apply ownsb_sound, H1 | apply IH, H2].
Qed.

(** ** The sweep *)

Lemma sweep_app s l1 s1 l2 s2 :
  sweep s l1 s1 -> sweep s1 l2 s2 -> sweep s (l1 ++ l2) s2.
Proof.
  intros H1. revert l2 s2.
  induction H1 as [s | s top stack n s' Hn Hr _ IH
                  | s top stack n sa sb sc s' Hn Hr Hp Hu Hin _ Hd _ IH]; intros l2 s2 H2.
  - exact H2.
  - cbn [app]. apply (sweep_shared s top (stack ++ l2) n s2 Hn Hr). apply IH, H2.
  - cbn [app]. apply (sweep_last s top (stack ++ l2) n sa sb sc s2 Hn Hr Hp Hu); try assumption.
    rewrite app_assoc. apply IH, H2.
Qed.

Lemma wr_simplified_same n v : n_simplified n = v -> wr_simplified v n = n.
Proof. destruct n. simpl. intros ->. reflexivity. Qed.

Lemma clear_simplified_ok' busy held s cur n :
  heap_ok busy held s -> node_at s cur = Some n ->
  heap_ok busy ((if n_simplified n =? 0 then [] else [n_simplified n]) ++ held)
    (store_node s cur (wr_simplified 0 n)).
Proof.
  intros Hok Hn. destruct (Z.eqb_spec (n_simplified n) 0) as [E | Hne].
  - rewrite (wr_simplified_same n 0 E), (store_node_same s cur n Hn). exact Hok.
  - apply clear_simplified_ok; assumption.
Qed.

Lemma rho_count_views busy s s' :
  length (nodes_id_table s') = length (nodes_id_table s) ->
  (forall x, fld n_static_rho s' x = fld n_static_rho s x) ->
  rho_count busy s' = rho_count busy s.
Proof.
  intros Hlen Hr. apply over_slots_ext; [exact Hlen |]. intros p. apply at_node_fld.
  apply (fld_via n_static_rho); [| apply Hr]. intros n n' ->. reflexivity.
Qed.

Lemma live_count_le s s' :
  length (nodes_id_table s') = length (nodes_id_table s) ->
  (forall x, is_Some (node_at s' x) -> is_Some (node_at s x)) ->
  live_count s' <= live_count s.
Proof.
  intros Hlen Hl. apply over_slots_le; [exact Hlen |]. intros p. unfold at_node.
  destruct (node_at s' p) as [n' |] eqn:Hp; simpl.
  - destruct (Hl p) as [n Hn]; [eauto |]. rewrite Hn. simpl. lia.
  - destruct (node_at s p); simpl; lia.
Qed.

Lemma shrinks_but_tables cur s s' :
  nodes_id_table s' = nodes_id_table s -> (forall p, in_table s' p -> in_table s p) ->
  shrinks_but cur s s'.
Proof.
  intros Ht Hin. split.
  - rewrite Ht. reflexivity.
  - intros x. rewrite (node_at_table s s' x Ht). auto.
  - intros x n' _. rewrite (node_at_table s s' x Ht). intros Hx. exists n'.
    split; [exact Hx |]. split; [reflexivity | lia].
  - exact Hin.
Qed.

Lemma shrinks_but_views cur s s' :
  length (nodes_id_table s') = length (nodes_id_table s) ->
  (forall x, is_Some (node_at s' x) <-> is_Some (node_at s x)) ->
  (forall x, x <> cur -> fld apart s' x = fld apart s x) ->
  (forall x, x <> cur -> fld n_e s' x = fld n_e s x) ->
  ut_chains s' = ut_chains s ->
  shrinks_but cur s s'.
Proof.
  intros Hlen Hl Ha He Hc. split.
  - exact Hlen.
  - intros x. apply Hl.
  - intros x n' Hne Hx. destruct (fld_back _ _ _ _ _ (Ha x Hne) Hx) as (n & Hn & Ea).
    exists n. split; [exact Hn |]. split.
    + apply core_apart; [exact Ea |]. apply (fld_eq_node _ _ _ _ _ _ (He x Hne) Hn Hx).
    + pose proof (f_equal n_refs Ea) as Er. simpl in Er. lia.
  - intros p. rewrite (in_table_chains s s' p Hc). auto.
Qed.

Lemma real_of_node s p n : node_at s p = Some n -> BTOR_REAL_ADDR_NODE p = p.
Proof.
  intros Hn. apply node_at_inv in Hn as (H0 & H3 & _ & _).
  rewrite <- (ptr_of_id_of_ptr p H3 ltac:(lia)). apply real_addr_ptr_of_id.
Qed.

Section Sweep.

Variable release : Btor -> Z -> option Btor.
Variable depth : Z.
Variable fuel : nat.
Hypothesis release_ok : releases_ok depth fuel release.

Lemma release_each_ok l : forall busy held s,
  heap_ok busy (l ++ held) s -> (forall b, b ∈ busy -> anchored busy s held b) ->
  rho_count busy s < depth -> 4 * live_count s < Z.of_nat fuel ->
  exists s', release_each release s l = Some s' /\ heap_ok busy held s'
             /\ shrinks s s' /\ sweep s l s'.
Proof.
  induction l as [| a l IH]; intros busy held s Hok Hb Hd Hf.
  - exists s. split; [reflexivity |]. split; [exact Hok |].
    split; [apply shrinks_refl | apply sweep_done].
  - cbn [release_each].
    destruct (release_ok busy (l ++ held) s a Hok) as (s1 & E1 & Hok1 & Sh1 & Sw1);
      [| exact Hd | exact Hf |].
    { intros b Hbb. apply anchored_app, Hb, Hbb. }
    rewrite E1. cbn [mbind option_bind].
    pose proof (rho_count_shrinks busy s s1 Sh1). pose proof (live_count_shrinks s s1 Sh1).
    destruct (IH busy held s1 Hok1 (anchored_after _ _ _ _ _ Sh1 Hok1 Hb)
                ltac:(lia) ltac:(lia)) as (s' & E' & Hok' & Sh' & Sw').
    exists s'. split; [exact E' |]. split; [exact Hok' |].
    split; [exact (shrinks_trans _ _ _ Sh1 Sh') |].
    exact (sweep_app s [a] s1 l s' Sw1 Sw').
Qed.

Lemma erase_ok busy held s cur n fs :
  heap_ok busy held s -> node_at s cur = Some n -> cur ∉ busy ->
  (forall b, b ∈ cur :: busy -> anchored (cur :: busy) s held b) ->
  ~ in_table s cur ->
  rho_count busy s <= depth -> 4 * live_count s < Z.of_nat fuel ->
  exists s1 n1,
    erase_local_data_exp release s cur fs
    = Some (store_node s1 cur (erase_fields n fs n1))
    /\ node_at s1 cur = Some n1 /\ core n1 = core n /\ n_refs n1 <= n_refs n
    /\ shrinks s s1
    /\ sweep s (if is_kind BTOR_LAMBDA_NODE n then rho_handles (n_static_rho n) else []) s1
    /\ heap_ok (cur :: busy) held (store_node s1 cur (erase_fields n fs n1)).
Proof.
  intros Hok Hn Hcb Hb' Hnot Hd Hf.
  rewrite (erase_unfold release s cur fs n Hn).
  pose proof (mask_ok busy held s cur n Hok Hn Hcb) as Hm.
  assert (Hnest : exists s1,
             erase_releases release s n = Some s1 /\ heap_ok (cur :: busy) held s1
             /\ shrinks s s1
             /\ sweep s (if is_kind BTOR_LAMBDA_NODE n
                         then rho_handles (n_static_rho n) else []) s1).
  { unfold erase_releases, is_kind.
    destruct (decide (n_kind n = BTOR_LAMBDA_NODE)) as [Hk | Hk].
    - rewrite Hk, bool_decide_eq_true_2 by reflexivity.
      destruct (n_static_rho n) as [entries |] eqn:Hr.
      + rewrite release_static_rho_each. apply release_each_ok; try assumption.
        rewrite (rho_count_mask busy s cur n Hn Hcb), Hr. lia.
      + exists s. split; [reflexivity |]. split; [exact Hm |].
        split; [apply shrinks_refl | apply sweep_done].
    - rewrite (bool_decide_eq_false_2 _ Hk).
      exists s. split; [destruct (n_kind n); try reflexivity; contradiction |].
      split; [exact (heap_ok_drop _ _ _ _ Hm) |].
      split; [apply shrinks_refl | apply sweep_done]. }
  destruct Hnest as (s1 & E1 & Hok1 & Sh1 & Sw1). rewrite E1. cbn [mbind option_bind].
  assert (Hch1 : anchored (cur :: busy) s1 held cur).
  { apply (anchored_shrinks (cur :: busy) s s1 held held Sh1 Hok1); [auto |].
    apply Hb'. left. }
  destruct (anchored_live _ _ _ _ Hok1 Hch1) as [n1 Hn1].
  rewrite Hn1. cbn [mbind option_bind].
  destruct (sh_nodes _ _ Sh1 cur n1 Hn1) as (n0 & Hn0 & Ec & Er).
  assert (n0 = n) by congruence. subst n0.
  exists s1, n1. split; [reflexivity |]. split; [exact Hn1 |].
  split; [exact Ec |]. split; [exact Er |]. split; [exact Sh1 |]. split; [exact Sw1 |].
  destruct (erase_fields_frame n fs n1) as (F1 & F2 & F3 & F4 & F5 & F6 & F7 & _).
  assert (Hkept : kept (cur :: busy) cur (erase_fields n fs n1) = kept (cur :: busy) cur n1).
  { unfold kept. rewrite F5. f_equal.
    rewrite (bool_decide_eq_true_2 (cur ∈ cur :: busy)) by left. reflexivity. }
  apply (heap_ok_store (cur :: busy) held held s1 cur n1); try assumption.
  - intros Hin. exfalso. apply Hnot. apply (sh_table _ _ Sh1). exact Hin.
  - intros x Hx. rewrite Hkept in Hx. apply (hk_kept _ _ _ Hok1 cur n1 x Hn1 Hx).
  - apply (hk_held _ _ _ Hok1).
  - intros c. rewrite Hkept, F6. destruct (decide (c = cur)); lia.
Qed.

Lemma release_node_unfold s cur n stack :
  node_at s cur = Some n ->
  release_node release s cur stack
  = s ← remove_from_nodes_unique_table_exp (store_node s cur (wr_simplified 0 n)) cur;
    s ← erase_local_data_exp release s cur true;
    s ← remove_from_hash_tables s cur false;
    s ← disconnect_children_exp s cur;
    s ← really_deallocate_exp s cur;
    Some (s, pushed n ++ stack).
Proof.
  intros Hn. unfold release_node, pushed. rewrite Hn. cbn [mbind option_bind].
  destruct (Z.eqb_spec (n_simplified n) 0) as [E | Hne].
  - rewrite (wr_simplified_same n 0 E), (store_node_same s cur n Hn). reflexivity.
  - rewrite (upd_node_live _ _ _ _ Hn). reflexivity.
Qed.

(** The sweep frees a node that has no other reference. *)
Lemma release_node_ok busy held s cur n stack :
  heap_ok busy (cur :: held) s -> node_at s cur = Some n -> n_refs n <= 1 ->
  (forall b, b ∈ busy -> anchored busy s held b) ->
  rho_count busy s <= depth -> 4 * live_count s < Z.of_nat fuel ->
  exists s2 s3 s',
    release_node release s cur stack = Some (s', pushed n ++ stack)
    /\ heap_ok busy (pushed n ++ held) s'
    /\ shrinks s s'
    /\ live_count s' <= live_count s - 1
    /\ n_refs n = 1 /\ n_parents n = 0
    /\ unhooks s cur s2
    /\ sweep s2 (if is_kind BTOR_LAMBDA_NODE n then rho_handles (n_static_rho n) else []) s3
    /\ drops s3 cur n s'.
Proof.
  intros Hok Hn Hrefs Hb Hd Hf.
  pose proof (real_of_node _ _ _ Hn) as Hreal.
  (* the node has one reference, that of the sweep *)
  pose proof (hk_refs _ _ _ Hok cur n Hn) as Hr. cbn [occurrences] in Hr.
  rewrite Hreal in Hr. destruct (decide (cur = cur)); [| contradiction].
  pose proof (kept_in_nonneg busy s cur) as Hk0.
  pose proof (occurrences_nonneg cur held) as Ho0.
  destruct (hk_parents _ _ _ Hok cur n Hn) as (l0 & _ & _ & Hpar0).
  assert (Hp0 : n_parents n = 0) by lia.
  assert (Hr1 : n_refs n = 1) by lia.
  assert (Hloose : ~ anchored busy s held cur).
  { intros H. pose proof (anchored_refs busy cur held s cur n Hok Hreal Hn H). lia. }
  assert (Hcb : cur ∉ busy) by (intros H; apply Hloose, Hb, H).
  assert (Hfull : forall j, (j < n_arity n)%nat -> get3 (n_e n) j <> 0).
  { intros j Hj. apply (hk_full _ _ _ Hok cur n j Hn Hj Hcb). }
  rewrite (release_node_unfold s cur n stack Hn).
  (* the forwarding is cleared *)
  set (simp := if n_simplified n =? 0 then [] else [n_simplified n]).
  set (s1 := store_node s cur (wr_simplified 0 n)).
  set (n1 := wr_simplified 0 n).
  pose proof (clear_simplified_ok' busy (cur :: held) s cur n Hok Hn) as Hok1.
  fold simp s1 in Hok1.
  assert (Hn1 : node_at s1 cur = Some n1) by apply (node_at_store_eq _ _ _ _ Hn).
  (* the node leaves the unique table *)
  destruct (remove_unique_ok busy _ s1 cur n1 Hok1 Hn1)
    as (s2 & E2 & Hok2 & Hnot2 & Htab2 & Hnodes2 & Hside2).
  rewrite E2. cbn [mbind option_bind].
  set (n2 := wr_unique false n1) in *.
  assert (Hn2 : node_at s2 cur = Some n2).
  { rewrite (node_at_table _ _ cur Hnodes2). apply (node_at_store_eq _ _ _ _ Hn1). }
  assert (Hother2 : forall x, x <> cur -> node_at s2 x = node_at s x).
  { intros x Hx. rewrite (node_at_table _ _ x Hnodes2).
    rewrite (node_at_store s1 cur x _ n1 Hn1). destruct (decide (x = cur)); [contradiction |].
    unfold s1. rewrite (node_at_store s cur x _ n Hn).
    destruct (decide (x = cur)); [contradiction | reflexivity]. }
  assert (Hlen2 : length (nodes_id_table s2) = length (nodes_id_table s)).
  { rewrite Hnodes2. unfold s1. rewrite !length_store_node. reflexivity. }
  assert (Hun : unhooks s cur s2).
  { split.
    - rewrite Hn2, Hn. reflexivity.
    - exact Hother2.
    - exact Hlen2.
    - intros p. rewrite Htab2. reflexivity.
    - exact (same_side_trans _ _ _ (same_side_store s cur n1) Hside2). }
  (* its local data is erased *)
  assert (Hocc : 1 <= occurrences cur (simp ++ cur :: held)).
  { rewrite occurrences_app. cbn [occurrences]. rewrite Hreal.
    destruct (decide (cur = cur)); [| contradiction].
    pose proof (occurrences_nonneg cur simp). lia. }
  assert (Hb2 : forall b, b ∈ cur :: busy ->
                     anchored (cur :: busy) s2 (simp ++ cur :: held) b).
  { intros b Hbb. apply elem_of_cons in Hbb as [-> | Hbb]; [apply anchored_held, Hocc |].
    apply (anchored_step busy (cur :: busy) s s2 held (simp ++ cur :: held));
      [| | apply Hb, Hbb].
    - intros x Hx. apply anchored_held. rewrite occurrences_app. cbn [occurrences].
      pose proof (occurrences_nonneg x simp). destruct (decide (x = _)); lia.
    - intros p x Ho Hsrc Hp. destruct (decide (p = cur)) as [-> | Hne];
        [contradiction |].
      apply (anchored_owned _ _ _ p x); [| exact Hp].
      destruct Ho as (m & Hm & Ho).
      apply (owns_same busy (cur :: busy) s s2 p m m x Hm);
        [rewrite (Hother2 p Hne); exact Hm | reflexivity | apply kept_other, Hne |].
      exists m. split; [exact Hm | exact Ho]. }
  assert (Hrho2 : rho_count busy s2 = rho_count busy s).
  { apply rho_count_views; [exact Hlen2 |]. intros x. unfold fld.
    destruct (decide (x = cur)) as [-> |]; [rewrite Hn2, Hn; reflexivity |].
    rewrite (Hother2 x); [reflexivity | assumption]. }
  assert (Hlive2 : live_count s2 <= live_count s).
  { apply live_count_le; [exact Hlen2 |]. intros x.
    destruct (decide (x = cur)) as [-> |]; [eauto |]. rewrite (Hother2 x); auto. }
  destruct (erase_ok busy _ s2 cur n2 true Hok2 Hn2 Hcb Hb2 Hnot2 ltac:(lia) ltac:(lia))
    as (s3 & n3 & E3 & Hn3 & Ec3 & Er3 & Sh3 & Sw3 & Hok3).
  rewrite E3. cbn [mbind option_bind].
  set (n3e := erase_fields n2 true n3) in *.
  set (s3e := store_node s3 cur n3e) in *.
  assert (Hn3e : node_at s3e cur = Some n3e) by apply (node_at_store_eq _ _ _ _ Hn3).
  destruct (erase_fields_frame n2 true n3) as (F1 & F2 & F3 & F4 & F5 & F6 & F7 & _).
  fold n3e in F1, F2, F3, F4, F5, F6, F7.
  assert (Hnot3 : ~ in_table s3e cur).
  { intros H. apply Hnot2. apply (sh_table _ _ Sh3). exact H. }
  (* it leaves the side tables *)
  destruct (remove_from_hash_tables_ok (cur :: busy) _ s3e cur n3e false Hok3 Hn3e Hnot3)
    as (s4 & E4 & Hok4 & Hnodes4 & Hch4 & V4 & L4 & U4 & Q4 & P4 & Y4).
  rewrite E4. cbn [mbind option_bind].
  assert (Hn4 : node_at s4 cur = Some n3e).
  { rewrite (node_at_table _ _ cur Hnodes4). exact Hn3e. }
  assert (Hnot4 : ~ in_table s4 cur).
  { rewrite (in_table_chains _ _ cur Hch4). exact Hnot3. }
  (* its edges are disconnected *)
  assert (He3 : n_e n3e = n_e n).
  { transitivity (n_e n3); [unfold wiring in F1; congruence | exact (f_equal n_e Ec3)]. }
  assert (Ha3 : n_arity n3e = n_arity n).
  { rewrite F3. exact (f_equal n_arity Ec3). }
  destruct (disconnect_children_ok (cur :: busy) _ s4 cur n3e Hok4 Hn4 ltac:(left) Hnot4)
    as (s5 & E5 & Hok5 & T5 & Len5 & Lv5 & A5 & Ee5 & Pv5 & n5 & Hn5 & Hz5 & Ea5).
  { intros j Hj. rewrite He3. apply Hfull. lia. }
  rewrite E5. cbn [mbind option_bind].
  assert (Hch3 : children n3e = children n).
  { unfold children. rewrite He3, Ha3. reflexivity. }
  rewrite Hch3 in Hok5, Pv5.
  (* and it is freed *)
  assert (Hr5 : n_refs n5 <= 1).
  { assert (H : n_refs n5 = n_refs n3e) by exact (f_equal n_refs Ea5).
    assert (H2 : n_refs n2 = n_refs n) by reflexivity. rewrite H, F6. lia. }
  assert (Hnot5 : ~ in_table s5 cur).
  { rewrite (in_table_same _ _ _ T5). exact Hnot4. }
  destruct (dealloc_ok busy (children n ++ simp ++ held) s5 cur n5) as [E6 Hok6];
    try assumption.
  { apply (heap_ok_perm (cur :: busy) (children n ++ simp ++ cur :: held)); [| exact Hok5].
    rewrite !app_assoc. symmetry. apply Permutation_middle. }
  rewrite E6. cbn [mbind option_bind].
  exists s2, s3, (free_node s5 cur). split; [reflexivity |].
  split.
  { apply (heap_ok_perm busy (children n ++ simp ++ held)); [| exact Hok6].
    unfold pushed. fold simp. rewrite !app_assoc. apply Permutation_app_tail.
    apply Permutation_app_comm. }
  assert (Hsb : shrinks_but cur s s5).
  { apply (shrinks_but_trans cur s s2).
    { apply (shrinks_but_trans cur s s1); [apply (shrinks_but_store cur s n _ Hn) |].
      apply (shrinks_but_trans cur s1 (store_node s1 cur n2));
        [apply (shrinks_but_store cur s1 n1 _ Hn1) |].
      apply shrinks_but_tables; [exact Hnodes2 |]. intros p Hp. apply Htab2 in Hp. tauto. }
    apply (shrinks_but_trans cur s2 s3); [apply shrinks_but_of, Sh3 |].
    apply (shrinks_but_trans cur s3 s3e); [apply (shrinks_but_store cur s3 n3 _ Hn3) |].
    apply (shrinks_but_trans cur s3e s4).
    { apply shrinks_but_tables; [exact Hnodes4 |]. intros p.
      rewrite (in_table_chains _ _ p Hch4). auto. }
    apply shrinks_but_views; try assumption. apply (same_tables_chains _ _ T5). }
  split; [exact (shrinks_free cur s s5 n5 Hsb Hn5) |].
  split.
  { rewrite (live_count_free s5 cur n5 Hn5).
    pose proof (live_count_le s s5 (sb_length _ _ _ Hsb) (sb_live _ _ _ Hsb)). lia. }
  split; [exact Hr1 |]. split; [exact Hp0 |]. split; [exact Hun |].
  split; [exact Sw3 |].
  (* what is left of the other nodes *)
  assert (Hfree : forall x, x <> cur -> node_at (free_node s5 cur) x = node_at s5 x).
  { intros x Hx. rewrite (node_at_free s5 cur n5 x Hn5).
    destruct (decide (x = cur)); [contradiction | reflexivity]. }
  assert (H34 : forall x, x <> cur -> node_at s4 x = node_at s3 x).
  { intros x Hx. rewrite (node_at_table _ _ x Hnodes4). unfold s3e.
    rewrite (node_at_store s3 cur x _ n3 Hn3). destruct (decide (x = cur)); [contradiction |].
    reflexivity. }
  split.
  - rewrite (node_at_free s5 cur n5 cur Hn5). destruct (decide (cur = cur)); [reflexivity |].
    contradiction.
  - rewrite length_free_node, Len5, Hnodes4. apply length_store_node.
  - intros x Hx. unfold fld. rewrite (Hfree x Hx), <- (H34 x Hx). apply (A5 x Hx).
  - intros x Hx. unfold fld. rewrite (Hfree x Hx), <- (H34 x Hx). apply (Ee5 x Hx).
  - intros x Hx. unfold fld. rewrite (Hfree x Hx), <- (H34 x Hx). apply (Pv5 x Hx).
  - cbn. rewrite (same_tables_chains _ _ T5), Hch4. reflexivity.
  - assert (Hk : n_kind n3e = n_kind n).
    { rewrite F7. exact (f_equal n_kind Ec3). }
    rewrite Hk in V4, L4, U4, Q4.
    unfold out_of_side_tables. unfold same_tables in T5. rewrite T5. cbn.
    auto 10.
Qed.

Lemma heap_ok_real_head busy top held s :
  heap_ok busy (top :: held) s -> heap_ok busy (BTOR_REAL_ADDR_NODE top :: held) s.
Proof.
  intros Hok. split.
  - apply (hk_arity _ _ _ Hok).
  - apply (hk_slots _ _ _ Hok).
  - apply (hk_child _ _ _ Hok).
  - apply (hk_full _ _ _ Hok).
  - apply (hk_parents _ _ _ Hok).
  - apply (hk_kept _ _ _ Hok).
  - intros x Hx. apply elem_of_cons in Hx as [-> | Hx].
    + rewrite real_node_real. apply (hk_held _ _ _ Hok). left.
    + apply (hk_held _ _ _ Hok). right. exact Hx.
  - intros c cn Hc. pose proof (hk_refs _ _ _ Hok c cn Hc) as H.
    cbn [occurrences] in *. rewrite real_addr_idem. exact H.
  - apply (hk_unique _ _ _ Hok).
  - apply (hk_bucket _ _ _ Hok).
  - apply (hk_chains _ _ _ Hok).
Qed.

Lemma pushed_length busy held s p n :
  heap_ok busy held s -> node_at s p = Some n -> (length (pushed n) <= 4)%nat.
Proof.
  intros Hok Hn. pose proof (hk_arity _ _ _ Hok p n Hn). unfold pushed, children.
  rewrite length_app, length_map, length_seq. destruct (n_simplified n =? 0); simpl; lia.
Qed.

Lemma shrinks_store_refs s p n r :
  node_at s p = Some n -> r <= n_refs n -> shrinks s (store_node s p (wr_refs r n)).
Proof.
  intros Hn Hr. split.
  - apply length_store_node.
  - intros x m. rewrite (node_at_store s p x _ n Hn). destruct (decide (x = p)) as [-> |].
    + intros [= <-]. exists n. split; [exact Hn |]. split; [reflexivity | exact Hr].
    + intros Hx. exists m. split; [exact Hx |]. split; [reflexivity | lia].
  - auto.
Qed.

(** The loop of the sweep empties its stack. *)
Lemma release_loop_ok k : forall busy held s stack,
  heap_ok busy (stack ++ held) s -> (forall b, b ∈ busy -> anchored busy s held b) ->
  rho_count busy s <= depth -> 4 * live_count s < Z.of_nat fuel ->
  4 * live_count s + Z.of_nat (length stack) <= Z.of_nat k ->
  exists s', release_loop release k s stack = Some s' /\ heap_ok busy held s'
             /\ shrinks s s' /\ sweep s stack s'.
Proof.
  induction k as [| k IH]; intros busy held s stack Hok Hb Hd Hf Hm;
    destruct stack as [| top rest].
  - exists s. split; [reflexivity |]. split; [exact Hok |].
    split; [apply shrinks_refl | apply sweep_done].
  - pose proof (live_count_nonneg s). cbn [length] in Hm. lia.
  - exists s. split; [reflexivity |]. split; [exact Hok |].
    split; [apply shrinks_refl | apply sweep_done].
  - cbn [release_loop]. cbn [app] in Hok.
    destruct (hk_held _ _ _ Hok top ltac:(left)) as [n Hn].
    unfold real_node in Hn. rewrite Hn. cbn [mbind option_bind].
    assert (Hb' : forall b, b ∈ busy -> anchored busy s (rest ++ held) b).
    { intros b Hbb. apply anchored_app, Hb, Hbb. }
    destruct (Z.ltb_spec 1 (n_refs n)) as [Hr | Hr].
    + (* another reference is left *)
      rewrite (upd_node_live _ _ _ _ Hn). cbn [mbind option_bind].
      pose proof (release_shared_ok busy top (rest ++ held) s n Hok Hn) as Hok1.
      set (s1 := store_node s (BTOR_REAL_ADDR_NODE top) (wr_refs (n_refs n - 1) n)) in *.
      pose proof (shrinks_store_refs s _ n (n_refs n - 1) Hn ltac:(lia)) as Sh1.
      fold s1 in Sh1.
      pose proof (rho_count_shrinks busy s s1 Sh1).
      pose proof (live_count_shrinks s s1 Sh1). cbn [length] in Hm.
      destruct (IH busy held s1 rest Hok1 (anchored_after _ _ _ _ _ Sh1 Hok1 Hb)
                  ltac:(lia) ltac:(lia) ltac:(lia))
        as (s' & E' & Hok' & Sh' & Sw').
      exists s'. split; [exact E' |]. split; [exact Hok' |].
      split; [exact (shrinks_trans _ _ _ Sh1 Sh') |].
      exact (sweep_shared s top rest n s' Hn Hr Sw').
    + (* the last reference *)
      destruct (release_node_ok busy (rest ++ held) s (BTOR_REAL_ADDR_NODE top) n rest
                  (heap_ok_real_head _ _ _ _ Hok) Hn Hr Hb' Hd Hf)
        as (s2 & s3 & s1 & E1 & Hok1 & Sh1 & Hl1 & Hr1 & Hp1 & Hun & Swn & Hdr).
      rewrite E1. cbn [mbind option_bind].
      pose proof (rho_count_shrinks busy s s1 Sh1).
      pose proof (pushed_length _ _ _ _ _ Hok Hn) as Hpl. cbn [length] in Hm.
      rewrite app_assoc in Hok1.
      destruct (IH busy held s1 (pushed n ++ rest) Hok1
                  (anchored_after _ _ _ _ _ Sh1 Hok1 Hb) ltac:(lia) ltac:(lia))
        as (s' & E' & Hok' & Sh' & Sw').
      { rewrite length_app. lia. }
      exists s'. split; [exact E' |]. split; [exact Hok' |].
      split; [exact (shrinks_trans _ _ _ Sh1 Sh') |].
      exact (sweep_last s top rest n s2 s3 s1 s' Hn Hr1 Hp1 Hun Swn Hdr Sw').
Qed.

End Sweep.

Lemma over_slots_bound f s :
  (forall p n, f p n <= 1) -> over_slots f s <= Z.of_nat (length (nodes_id_table s)).
Proof.
  intros Hf. rewrite over_slots_eq.
  assert (H : forall l, foldr Z.add 0 (map (fun i => at_node f s (ptr_of_id i)) l)
                        <= Z.of_nat (length l)).
  { induction l as [| a l IH]; cbn [map foldr length]; [lia |].
    assert (at_node f s (ptr_of_id a) <= 1); [| lia].
    unfold at_node. destruct (node_at s (ptr_of_id a)); simpl; [apply Hf | lia]. }
  pose proof (H (seq 0 (length (nodes_id_table s)))) as Hs. rewrite length_seq in Hs.
  exact Hs.
Qed.

Lemma rho_count_nonneg busy s : 0 <= rho_count busy s.
Proof.
  apply over_slots_nonneg. intros p n. destruct (bool_decide _); [lia |].
  destruct (n_static_rho n); lia.
Qed.

(** [btor_release_exp] with a nesting bound of [depth] releases a handle
    of a heap in which fewer than [depth] nodes own a static_rho. *)
Lemma btor_release_exp_rec_ok fuel depth :
  releases_ok (Z.of_nat depth) fuel (btor_release_exp_rec depth fuel).
Proof.
  induction depth as [| d IH]; intros busy held s x Hok Hb Hd Hf.
  - pose proof (rho_count_nonneg busy s). lia.
  - cbn [btor_release_exp_rec].
    destruct (hk_held _ _ _ Hok x ltac:(left)) as [n Hn].
    unfold real_node in Hn. rewrite Hn. cbn [mbind option_bind].
    destruct (Z.ltb_spec 1 (n_refs n)) as [Hr | Hr].
    + rewrite (upd_node_live _ _ _ _ Hn). eexists. split; [reflexivity |].
      split; [exact (release_shared_ok busy x held s n Hok Hn) |].
      split; [apply (shrinks_store_refs s _ n _ Hn); lia |].
      apply (sweep_shared s x [] n _ Hn Hr). apply sweep_done.
    + unfold recursively_release_exp.
      destruct (release_node_ok _ (Z.of_nat d) fuel IH busy held s (BTOR_REAL_ADDR_NODE x) n []
                  (heap_ok_real_head _ _ _ _ Hok) Hn Hr Hb ltac:(lia) Hf)
        as (s2 & s3 & s1 & E1 & Hok1 & Sh1 & Hl1 & Hr1 & Hp1 & Hun & Swn & Hdr).
      rewrite E1. cbn [mbind option_bind].
      pose proof (rho_count_shrinks busy s s1 Sh1).
      pose proof (pushed_length _ _ _ _ _ Hok Hn) as Hpl.
      rewrite app_nil_r.
      destruct (release_loop_ok _ (Z.of_nat d) fuel IH fuel busy held s1 (pushed n) Hok1
                  (anchored_after _ _ _ _ _ Sh1 Hok1 Hb) ltac:(lia) ltac:(lia) ltac:(lia))
        as (s' & E' & Hok' & Sh' & Sw').
      exists s'. split; [exact E' |]. split; [exact Hok' |].
      split; [exact (shrinks_trans _ _ _ Sh1 Sh') |].
      apply (sweep_last s x [] n s2 s3 s1 s' Hn Hr1 Hp1 Hun Swn Hdr).
      rewrite app_nil_r. exact Sw'.
Qed.

(** ** [btor_release_exp] *)

Lemma sweep_dead s l s' :
  sweep s l s' -> forall x, node_at s x = None -> node_at s' x = None.
Proof.
  induction 1 as [s | s top stack n s' Hn Hr _ IH
                 | s top stack n s2 s3 s4 s' Hn Hr Hp Hu _ IH1 Hd _ IH2]; intros x Hx.
  - exact Hx.
  - apply IH. unfold real_node in Hn. rewrite (node_at_store s _ x _ n Hn).
    destruct (decide (x = _)); [congruence | exact Hx].
  - apply IH2. destruct (decide (x = BTOR_REAL_ADDR_NODE top)) as [-> | Hne].
    + apply (dr_gone _ _ _ _ Hd).
    + assert (H3 : node_at s3 x = None).
      { apply IH1. rewrite (uh_nodes _ _ _ Hu x Hne). exact Hx. }
      pose proof (dr_apart _ _ _ _ Hd x Hne) as Ha. unfold fld in Ha. rewrite H3 in Ha.
      destruct (node_at s4 x); [discriminate | reflexivity].
Qed.

Lemma btor_release_exp_total busy held s x :
  heap_ok busy (x :: held) s -> (forall b, b ∈ busy -> anchored busy s held b) ->
  exists s', btor_release_exp s x = Some s' /\ heap_ok busy held s' /\ shrinks s s'
             /\ sweep s [x] s'.
Proof.
  intros Hok Hb. unfold btor_release_exp.
  apply (btor_release_exp_rec_ok (release_fuel s) (release_depth s) busy held s x Hok Hb).
  - pose proof (over_slots_bound
                  (fun p n => if bool_decide (p ∈ busy) then 0
                              else match n_static_rho n with Some _ => 1 | None => 0 end) s)
      as H.
    unfold rho_count, release_depth.
    assert (forall (p : Z) (n : BtorNode),
               (if bool_decide (p ∈ busy) then 0
                else match n_static_rho n with Some _ => 1 | None => 0 end) <= 1).
    { intros p n. destruct (bool_decide _); [lia |]. destruct (n_static_rho n); lia. }
    specialize (H ltac:(assumption)). lia.
  - pose proof (over_slots_bound (fun _ _ => 1) s ltac:(intros; lia)) as H.
    unfold live_count, release_fuel. lia.
Qed.

Lemma btor_release_exp_ok depth fuel : releases_ok depth fuel btor_release_exp.
Proof. intros busy held s x Hok Hb _ _. apply btor_release_exp_total; assumption. Qed.

(** More nesting does not change the result of a release. *)
Section Nesting.

Variables release release' : Btor -> Z -> option Btor.
Hypothesis release_le : forall s x r, release s x = Some r -> release' s x = Some r.

Lemma release_static_rho_mono entries : forall s r,
  release_static_rho release s entries = Some r ->
  release_static_rho release' s entries = Some r.
Proof.
  induction entries as [| [key data] entries IH]; intros s r; [auto |].
  cbn [release_static_rho].
  destruct (release s data) as [s1 |] eqn:E1; [| discriminate].
  rewrite (release_le _ _ _ E1). cbn [mbind option_bind].
  destruct (release s1 key) as [s2 |] eqn:E2; [| discriminate].
  rewrite (release_le _ _ _ E2). cbn [mbind option_bind]. apply IH.
Qed.

Lemma erase_local_data_exp_mono s cur fs r :
  erase_local_data_exp release s cur fs = Some r ->
  erase_local_data_exp release' s cur fs = Some r.
Proof.
  destruct (node_at s cur) as [n |] eqn:Hn;
    [| unfold erase_local_data_exp; rewrite Hn; discriminate].
  rewrite !(erase_unfold _ s cur fs n Hn). unfold erase_releases.
  destruct (n_kind n); try exact id.
  destruct (n_static_rho n) as [entries |]; [| exact id].
  destruct (release_static_rho release s entries) as [s1 |] eqn:E1; [| discriminate].
  rewrite (release_static_rho_mono _ _ _ E1). exact id.
Qed.

Lemma release_node_mono s cur stack r :
  release_node release s cur stack = Some r ->
  release_node release' s cur stack = Some r.
Proof.
  destruct (node_at s cur) as [n |] eqn:Hn;
    [| unfold release_node; rewrite Hn; discriminate].
  rewrite !(release_node_unfold _ s cur n stack Hn).
  destruct (remove_from_nodes_unique_table_exp _ cur) as [s1 |]; [| discriminate].
  cbn [mbind option_bind].
  destruct (erase_local_data_exp release s1 cur true) as [s2 |] eqn:E2; [| discriminate].
  rewrite (erase_local_data_exp_mono _ _ _ _ E2). exact id.
Qed.

Lemma release_loop_mono k : forall s stack r,
  release_loop release k s stack = Some r -> release_loop release' k s stack = Some r.
Proof.
  induction k as [| k IH]; intros s stack r; destruct stack as [| top rest]; try exact id.
  cbn [release_loop]. destruct (node_at s (BTOR_REAL_ADDR_NODE top)) as [n |];
    [| discriminate].
  cbn [mbind option_bind]. destruct (1 <? n_refs n).
  - destruct (upd_node s _ _) as [s1 |]; [| discriminate]. cbn [mbind option_bind].
    apply IH.
  - destruct (release_node release s _ rest) as [[s1 stack1] |] eqn:E1; [| discriminate].
    rewrite (release_node_mono _ _ _ _ E1). cbn [mbind option_bind]. apply IH.
Qed.

End Nesting.

Lemma btor_release_exp_rec_mono fuel d : forall d' s x r,
  (d <= d')%nat -> btor_release_exp_rec d fuel s x = Some r ->
  btor_release_exp_rec d' fuel s x = Some r.
Proof.
  induction d as [| d IH]; intros d' s x r Hd; [discriminate |].
  destruct d' as [| d']; [lia |]. cbn [btor_release_exp_rec].
  destruct (node_at s (BTOR_REAL_ADDR_NODE x)) as [n |]; [| discriminate].
  cbn [mbind option_bind]. destruct (1 <? n_refs n); [exact id |].
  unfold recursively_release_exp.
  assert (Hle : forall s0 x0 r0, btor_release_exp_rec d fuel s0 x0 = Some r0 ->
                  btor_release_exp_rec d' fuel s0 x0 = Some r0).
  { intros s0 x0 r0. apply IH. lia. }
  destruct (release_node (btor_release_exp_rec d fuel) s _ []) as [[s1 stack1] |] eqn:E1;
    [| discriminate].
  rewrite (release_node_mono _ _ Hle _ _ _ _ E1). cbn [mbind option_bind].
  apply (release_loop_mono _ _ Hle).
Qed.

(** C5.  The release of a handle of a well-formed heap, of which the caller
    holds the handles [root :: held]: [btor_release_exp] returns, and its
    effect is that of the sweep over the work stack [[root]].  A node with
    another reference only loses one, and the state is the old one with
    that one count decremented; a node without has no parent, is taken out
    of the unique table, dropped from the side tables, disconnected from
    its children and freed, and the sweep goes on with the target of its
    forwarding and its children.  What is left is a well-formed heap in
    which the caller holds [held], with the nodes that stay unchanged but
    for their counts and parent links.  The sweep over the children and
    the targets of forwardings is a loop, but the release is entered again
    for the entries of a static_rho: a nesting of one more than the number
    of nodes that own a static_rho is enough (and a chain of such tables
    needs as much, see [btor_release_exp_rec_nests]). *)
Theorem btor_release_exp_sweeps (s : Btor) (root : Z) (held : list Z) :
  heap_ok [] (root :: held) s ->
  exists s',
    btor_release_exp s root = Some s'
    /\ sweep s [root] s'
    /\ heap_ok [] held s'
    /\ shrinks s s'
    /\ (forall n, real_node s root = Some n -> 1 < n_refs n ->
          s' = store_node s (BTOR_REAL_ADDR_NODE root) (wr_refs (n_refs n - 1) n))
    /\ (forall n, real_node s root = Some n -> n_refs n <= 1 ->
          n_refs n = 1 /\ n_parents n = 0
          /\ node_at s' (BTOR_REAL_ADDR_NODE root) = None
          /\ ~ in_table s' (BTOR_REAL_ADDR_NODE root))
    /\ (forall depth, rho_count [] s < Z.of_nat depth ->
          btor_release_exp_rec depth (release_fuel s) s root = Some s').
Proof.
  intros Hok.
  assert (Hb : forall b : Z, b ∈ [] -> anchored [] s held b) by (intros b H; inversion H).
  destruct (btor_release_exp_total [] held s root Hok Hb) as (s' & E & Hok' & Sh & Sw).
  exists s'. split; [exact E |]. split; [exact Sw |]. split; [exact Hok' |].
  split; [exact Sh |]. split; [| split].
  - intros n Hn Hr. rewrite (btor_release_exp_shared s root n Hn Hr) in E. congruence.
  - intros n Hn Hr.
    inversion Sw as [| s0 top stack n0 s0' Hn0 Hr0 Hs0
                     | s0 top stack n0 s2 s3 s4 s0' Hn0 Hr0 Hp0 Hu Hs3 Hd Hs4]; subst.
    + assert (n0 = n) by congruence. subst n0. lia.
    + assert (n0 = n) by congruence. subst n0.
      split; [exact Hr0 |]. split; [exact Hp0 |].
      assert (Hgone : node_at s' (BTOR_REAL_ADDR_NODE root) = None).
      { apply (sweep_dead _ _ _ Hs4). apply (dr_gone _ _ _ _ Hd). }
      split; [exact Hgone |]. intros (b & chain & Hb0 & Hin).
      destruct (hk_bucket _ _ _ Hok' b chain _ Hb0 Hin) as (h & Hh & _).
      unfold raw_hash in Hh. rewrite Hgone in Hh. discriminate.
  - intros depth Hd.
    destruct (btor_release_exp_rec_ok (release_fuel s) depth [] held s root Hok Hb Hd)
      as (s'' & E'' & _).
    { pose proof (over_slots_bound (fun _ _ => 1) s ltac:(intros; lia)) as H.
      unfold live_count, release_fuel. lia. }
    unfold btor_release_exp in E.
    destruct (Nat.le_ge_cases depth (release_depth s)) as [Hle | Hge].
    + rewrite (btor_release_exp_rec_mono _ _ _ _ _ _ Hle E'') in E. congruence.
    + apply (btor_release_exp_rec_mono _ _ _ _ _ _ Hge E).
Qed.

(** ** The nesting of the releases *)

Lemma rho_linkedb_sound s k : forall l, rho_linkedb s k l = true -> rho_linked s k l.
Proof.
  induction k as [| k IH]; intros l H; [apply rho_linked_end |].
  cbn [rho_linkedb] in H.
  destruct (node_at s (BTOR_REAL_ADDR_NODE l)) as [n |] eqn:Hn; [| discriminate].
  apply andb_prop in H as [H H3]. apply andb_prop in H as [H1 H2].
  destruct (n_static_rho n) as [[| [key data] rest] |] eqn:Hr; try discriminate.
  apply (rho_linked_step s k l n key data rest Hn); [apply Z.leb_le, H1 | | exact Hr |].
  - unfold is_kind in H2. apply bool_decide_eq_true_1 in H2. exact H2.
  - apply IH, H3.
Qed.

Lemma rho_linked_frame s s' k : forall l,
  (forall x n, node_at s x = Some n ->
     exists n', node_at s' x = Some n' /\ n_refs n' = n_refs n /\ n_kind n' = n_kind n
                /\ n_static_rho n' = n_static_rho n) ->
  rho_linked s k l -> rho_linked s' k l.
Proof.
  intros l Hf H. induction H as [l | k l n key data rest Hn Hr Hk Hs _ IH].
  - apply rho_linked_end.
  - destruct (Hf _ n Hn) as (n' & Hn' & E1 & E2 & E3).
    apply (rho_linked_step s' k l n' key data rest Hn'); [lia | congruence | congruence |].
    exact IH.
Qed.

Lemma remove_unique_nodes s cur n s' :
  node_at s cur = Some n -> remove_from_nodes_unique_table_exp s cur = Some s' ->
  nodes_id_table s' = nodes_id_table (store_node s cur (wr_unique false n)).
Proof.
  intros Hn. unfold remove_from_nodes_unique_table_exp. rewrite Hn.
  cbn [mbind option_bind]. destruct (n_unique n) eqn:Hu; cbn [negb].
  - destruct (compute_hash_exp s cur (ut_size s)) as [h |]; [| discriminate].
    cbn [mbind option_bind].
    destruct (ut_chains s !! Z.to_nat h) as [chain |]; [| discriminate].
    cbn [mbind option_bind].
    destruct (remove_first cur chain) as [chain' |]; [| discriminate].
    cbn [mbind option_bind]. unfold upd_node.
    match goal with |- context [node_at ?a cur] =>
      change (node_at a cur) with (node_at s cur) end.
    rewrite Hn. cbn [mbind option_bind]. intros [= <-]. reflexivity.
  - intros [= <-]. rewrite (wr_unique_same n false Hu), (store_node_same s cur n Hn).
    reflexivity.
Qed.

(** The release does not finish within [k] nested calls where the
    static_rho tables chain [k] lambdas: every link of the chain is
    released by a call of [btor_release_exp] inside the call for the link
    before. *)
Lemma btor_release_exp_rec_nests fuel : forall depth s k l,
  rho_linked s k l -> (depth <= k)%nat -> btor_release_exp_rec depth fuel s l = None.
Proof.
  induction depth as [| d IH]; intros s k l Hl Hle; [reflexivity |].
  destruct Hl as [l | k l n key data rest Hn Hr Hk Hs Hnext]; [lia |].
  cbn [btor_release_exp_rec]. rewrite Hn. cbn [mbind option_bind].
  destruct (Z.ltb_spec 1 (n_refs n)) as [H | _]; [lia |].
  unfold recursively_release_exp.
  rewrite (release_node_unfold _ s _ n [] Hn).
  set (cur := BTOR_REAL_ADDR_NODE l) in *.
  set (n1 := wr_simplified 0 n).
  assert (Hn1 : node_at (store_node s cur n1) cur = Some n1)
    by apply (node_at_store_eq _ _ _ _ Hn).
  destruct (remove_from_nodes_unique_table_exp (store_node s cur n1) cur) as [s2 |] eqn:E2;
    [| reflexivity].
  cbn [mbind option_bind].
  pose proof (remove_unique_nodes _ _ _ _ Hn1 E2) as Hnodes. rewrite store_store in Hnodes.
  set (n2 := wr_unique false n1) in *.
  assert (Hat : forall x, node_at s2 x = if decide (x = cur) then Some n2 else node_at s x).
  { intros x. rewrite (node_at_table _ _ x Hnodes). apply (node_at_store s cur x n2 n Hn). }
  assert (Hn2 : node_at s2 cur = Some n2).
  { rewrite Hat. destruct (decide (cur = cur)); [reflexivity | contradiction]. }
  rewrite (erase_unfold _ s2 cur true n2 Hn2).
  unfold erase_releases.
  change (n_kind n2) with (n_kind n). change (n_static_rho n2) with (n_static_rho n).
  rewrite Hk, Hs. cbn [release_static_rho].
  rewrite (IH s2 k data); [reflexivity | | lia].
  apply (rho_linked_frame s s2 k data); [| exact Hnext].
  intros x m Hm. rewrite Hat. destruct (decide (x = cur)) as [-> | Hne].
  - assert (m = n) by congruence. subst m. exists n2. auto.
  - exists m. auto.
Qed.

(** ** The decided invariant is the invariant *)

Lemma all_slots_spec P s :
  all_slots P s = true -> forall p n, node_at s p = Some n -> P p n = true.
Proof.
  intros H p n Hp. pose proof (node_at_lt _ _ _ Hp) as Hlt.
  pose proof Hp as Hinv. apply node_at_inv in Hinv as (_ & _ & _ & Eq).
  pose proof (forallb_elem _ _ (id_of_ptr p) H) as Hi. cbv beta in Hi.
  rewrite Eq, Hp in Hi. apply Hi. apply elem_of_seq. lia.
Qed.

Lemma chainb_sound s l : forall prev, chainb s prev l = true -> is_parent_chain s prev l.
Proof.
  induction l as [| x l IH]; intros prev H; [exact I |].
  cbn [chainb] in H. apply andb_prop in H as [H H4]. apply andb_prop in H as [H H3].
  apply andb_prop in H as [H1 H2].
  split; [apply Nat.ltb_lt, H1 |]. split; [apply (bool_decide_eq_true_1 _ H2) |].
  split; [apply (bool_decide_eq_true_1 _ H3) | apply IH, H4].
Qed.

Lemma parent_listb_sound s c l : parent_listb s c l = true -> parent_list s c l.
Proof.
  unfold parent_listb. intros H. apply andb_prop in H as [H H4].
  apply andb_prop in H as [H H3]. apply andb_prop in H as [H1 H2].
  split; [apply Z.eqb_eq, H1 |]. split; [apply Z.eqb_eq, H2 |].
  split; [apply chainb_sound, H3 | apply (bool_decide_eq_true_1 _ H4)].
Qed.

Lemma edgeb_spec s x c : edgeb s x c = true <-> edge s x c.
Proof.
  unfold edgeb, edge. destruct (real_node s x) as [pn |]; split.
  - intros H. apply andb_prop in H as [H1 H2]. exists pn. split; [reflexivity |].
    split; [| apply Z.eqb_eq, H2]. intros E. rewrite E in H1. discriminate.
  - intros (pn' & [= <-] & Hne & Hc). apply andb_true_intro. split.
    + apply negb_true_iff, Z.eqb_neq, Hne.
    + apply Z.eqb_eq, Hc.
  - discriminate.
  - intros (pn' & [=] & _).
Qed.

Lemma in_tableb_spec s p : in_tableb s p = true <-> in_table s p.
Proof.
  split; [apply in_tableb_sound |]. intros H. apply in_table_entry in H as (b & Hb).
  unfold in_tableb. apply existsb_exists. exists (b, p).
  split; [apply list_elem_of_In, Hb | apply Z.eqb_refl].
Qed.

Lemma get3_ge a i : (3 <= i)%nat -> get3 a i = 0.
Proof. intros H. destruct i as [| [| [| i]]]; [lia | lia | lia | reflexivity]. Qed.

Lemma heap_okb_sound busy held s : heap_okb busy held s = true -> heap_ok busy held s.
Proof.
  unfold heap_okb. intros H. apply andb_prop in H as [H Hchains].
  apply andb_prop in H as [H Hbucket]. apply andb_prop in H as [Hnodes Hheld].
  pose proof (all_slots_spec _ _ Hnodes) as Hn. clear Hnodes.
  assert (Hnode : forall p n, node_at s p = Some n ->
            (n_arity n <= 3)%nat
            /\ forallb (fun i => implb (n_arity n <=? i)%nat (get3 (n_e n) i =? 0)) (seq 0 3)
               = true
            /\ forallb (fun i => (get3 (n_e n) i =? 0)
                         || bool_decide (is_Some (real_node s (get3 (n_e n) i)))) (seq 0 3)
               = true
            /\ (bool_decide (p ∈ busy)
                || forallb (fun i => implb (i <? n_arity n)%nat (negb (get3 (n_e n) i =? 0)))
                     (seq 0 3)) = true
            /\ parents_okb s p n = true
            /\ forallb (fun x => bool_decide (is_Some (real_node s x))) (kept busy p n) = true
            /\ n_parents n + kept_in busy s p + occurrences p held <= n_refs n
            /\ n_unique n = in_tableb s p).
  { intros p n Hp. pose proof (Hn p n Hp) as H. unfold node_okb in H.
    apply andb_prop in H as [H H8]. apply andb_prop in H as [H H7].
    apply andb_prop in H as [H H6]. apply andb_prop in H as [H H5].
    apply andb_prop in H as [H H4]. apply andb_prop in H as [H H3].
    apply andb_prop in H as [H1 H2].
    split; [apply Nat.leb_le, H1 |]. split; [exact H2 |]. split; [exact H3 |].
    split; [exact H4 |]. split; [exact H5 |]. split; [exact H6 |].
    split; [apply Z.leb_le, H7 | apply eqb_prop, H8]. }
  assert (Hseq : forall i, (i < 3)%nat -> i ∈ seq 0 3) by (intros i Hi; apply elem_of_seq; lia).
  split.
  - intros p n Hp. apply (Hnode p n Hp).
  - intros p n i Hp Hi. destruct (Nat.lt_ge_cases i 3) as [Hlt | Hge];
      [| apply get3_ge, Hge].
    destruct (Hnode p n Hp) as (_ & H2 & _).
    pose proof (forallb_elem _ _ i H2 (Hseq i Hlt)) as H. cbv beta in H.
    rewrite (proj2 (Nat.leb_le _ _) Hi) in H. apply Z.eqb_eq, H.
  - intros p n i Hp Hi. destruct (Hnode p n Hp) as (_ & _ & H3 & _).
    pose proof (forallb_elem _ _ i H3 (Hseq i (get3_nonzero _ _ Hi))) as H. cbv beta in H.
    apply orb_prop in H as [H | H]; [apply Z.eqb_eq in H; contradiction |].
    apply (bool_decide_eq_true_1 _ H).
  - intros p n i Hp Hi Hb. destruct (Hnode p n Hp) as (Ha & _ & _ & H4 & _).
    rewrite (bool_decide_eq_false_2 _ Hb) in H4. cbn [orb] in H4.
    pose proof (forallb_elem _ _ i H4 (Hseq i ltac:(lia))) as H. cbv beta in H.
    rewrite (proj2 (Nat.ltb_lt _ _) Hi) in H. cbn [implb] in H.
    apply negb_true_iff, Z.eqb_neq in H. exact H.
  - intros c cn Hc. destruct (Hnode c cn Hc) as (_ & _ & _ & _ & H5 & _).
    unfold parents_okb in H5.
    destruct (walk_parents _ s (n_first_parent cn)) as [l |]; [| discriminate].
    apply andb_prop in H5 as [H5 Hd]. apply andb_prop in H5 as [H5 Hc3].
    apply andb_prop in H5 as [Ha Hb].
    exists l. split; [apply parent_listb_sound, Ha |]. split; [| apply Z.eqb_eq, Hd].
    intros x. split.
    + intros Hx. apply edgeb_spec. apply (forallb_elem _ _ x Hb Hx).
    + intros Hx. destruct (edge_canonical _ _ _ Hx) as (_ & Hcanon & Htag).
      pose proof Hx as (pn & Hp & _).
      pose proof (all_slots_spec _ _ Hc3 _ pn Hp) as H. cbv beta in H.
      pose proof (forallb_elem _ _ _ H (Hseq _ Htag)) as Hi. cbv beta in Hi.
      rewrite Hcanon in Hi. rewrite (proj2 (edgeb_spec s x c) Hx) in Hi.
      apply (bool_decide_eq_true_1 _ Hi).
  - intros p n x Hp Hx. destruct (Hnode p n Hp) as (_ & _ & _ & _ & _ & H6 & _).
    apply (bool_decide_eq_true_1 _ (forallb_elem _ _ x H6 Hx)).
  - intros x Hx. apply (bool_decide_eq_true_1 _ (forallb_elem _ _ x Hheld Hx)).
  - intros c cn Hc. apply (Hnode c cn Hc).
  - intros p n Hp. destruct (Hnode p n Hp) as (_ & _ & _ & _ & _ & _ & _ & H8).
    rewrite H8. apply in_tableb_spec.
  - intros b chain p Hb Hp.
    assert (Hin : (b, p) ∈ table_entries s) by (apply table_entries_spec; eauto).
    pose proof (forallb_elem _ _ _ Hbucket Hin) as H. cbn [fst snd] in H.
    destruct (raw_hash s p) as [h |]; [| discriminate].
    exists h. split; [reflexivity | apply (bool_decide_eq_true_1 _ H)].
  - intros b chain Hb.
    apply (bool_decide_eq_true_1 _ (forallb_elem _ _ chain Hchains
                                      (list_elem_of_lookup_2 _ _ _ Hb))).
Qed.

(** ** [btor_set_to_proxy_exp] *)

Lemma erase_fields_data old fs n :
  (n_kind old = BTOR_BV_CONST_NODE ->
     n_bits (erase_fields old fs n) = None /\ n_invbits (erase_fields old fs n) = None)
  /\ (n_kind old = BTOR_LAMBDA_NODE \/ n_kind old = BTOR_UPDATE_NODE
      \/ n_kind old = BTOR_UF_NODE \/ btor_is_fun_cond_node_n old = true ->
      n_rho (erase_fields old fs n) = None).
Proof.
  unfold erase_fields, btor_is_fun_cond_node_n, is_kind.
  destruct (n_kind old) eqn:Hk; destruct (n_static_rho old), fs;
    cbn; (split; [intros; try discriminate; auto |]);
    try (intros [H | [H | [H | H]]]; try discriminate; auto);
    try (destruct (btor_is_fun_sort (n_sort_id old)); try discriminate; reflexivity).
Qed.

Lemma release_all_each s e : release_all s e = release_each btor_release_exp s e.
Proof.
  revert s. induction e as [| x e IH]; intros s; [reflexivity |].
  cbn [release_all release_each]. destruct (btor_release_exp s x); [| reflexivity].
  cbn [mbind option_bind]. apply IH.
Qed.

(** The node stops being busy as a proxy without children. *)
Lemma proxy_ok busy held s cur n :
  heap_ok (cur :: busy) held s -> node_at s cur = Some n -> cur ∉ busy ->
  (forall j, get3 (n_e n) j = 0) -> n_static_rho n = None -> ~ in_table s cur ->
  heap_ok busy held (store_node s cur (proxy_node n)).
Proof.
  intros Hok Hn Hcb Hz Hrho Hnot.
  assert (Hnode : forall p m, node_at (store_node s cur (proxy_node n)) p = Some m ->
            (p = cur /\ m = proxy_node n) \/ (p <> cur /\ node_at s p = Some m)).
  { intros p m. rewrite (node_at_store s cur p _ n Hn).
    destruct (decide (p = cur)); [intros [= <-]; auto | auto]. }
  assert (Hkc : kept busy cur (proxy_node n) = kept (cur :: busy) cur n).
  { unfold kept. cbn. rewrite Hrho, (bool_decide_eq_false_2 _ Hcb).
    rewrite (bool_decide_eq_true_2 (cur ∈ cur :: busy)) by left. reflexivity. }
  apply (heap_ok_frame (cur :: busy) held busy held s).
  - exact Hok.
  - intros x. apply (live_store _ _ _ _ _ Hn).
  - intros x. apply (fld_store_frame _ _ _ _ _ _ Hn). reflexivity.
  - intros x. apply (fld_store_frame _ _ _ _ _ _ Hn). reflexivity.
  - reflexivity.
  - intros p Hp. apply raw_hash_frame.
    + rewrite (fld_store _ _ _ _ hashed _ Hn). destruct (decide (p = cur)) as [-> |];
        [contradiction | reflexivity].
    + reflexivity.
    + intros m i _ _. apply (fld_store_frame _ _ _ _ _ _ Hn). reflexivity.
  - intros p m Hp. destruct (Hnode p m Hp) as [[-> ->] | [_ Hm]].
    + cbn. lia.
    + apply (hk_arity _ _ _ Hok p m Hm).
  - intros p m i Hp. destruct (Hnode p m Hp) as [[-> ->] | [_ Hm]].
    + intros _. apply Hz.
    + apply (hk_slots _ _ _ Hok p m i Hm).
  - intros p m i Hp. destruct (Hnode p m Hp) as [[-> ->] | [Hpc Hm]].
    + cbn. lia.
    + intros Hi Hb. apply (hk_full _ _ _ Hok p m i Hm Hi). intros H.
      apply elem_of_cons in H as [-> | H]; contradiction.
  - intros p m x Hp Hx. destruct (Hnode p m Hp) as [[-> ->] | [Hpc Hm]].
    + rewrite Hkc in Hx. apply (hk_kept _ _ _ Hok cur n x Hn Hx).
    + rewrite <- (kept_other busy cur p m Hpc) in Hx.
      apply (hk_kept _ _ _ Hok p m x Hm Hx).
  - apply (hk_held _ _ _ Hok).
  - intros c cn cn' Hc Hc'.
    assert (Hk : kept_in busy (store_node s cur (proxy_node n)) c
                 = kept_in (cur :: busy) s c).
    { apply over_slots_ext; [apply length_store_node |]. intros p. unfold at_node.
      rewrite (node_at_store s cur p _ n Hn). destruct (decide (p = cur)) as [-> | Hp].
      - rewrite Hn. cbn [fmap option_fmap option_map default]. rewrite Hkc. reflexivity.
      - destruct (node_at s p) as [m |]; cbn; [| reflexivity].
        rewrite (kept_other busy cur p m Hp). reflexivity. }
    rewrite Hk. destruct (Hnode c cn' Hc') as [[-> ->] | [_ Hm]].
    + assert (cn = n) by congruence. subst cn. cbn. lia.
    + assert (cn' = cn) by congruence. subst cn'. lia.
Qed.

(** C6.  The conversion of the node [n] at [X] to a proxy, in a well-formed
    heap in which [X] has been forwarded and the handles [held] of the
    caller keep [X] alive, through a handle of [X] or through a parent,
    a forwarding or a static_rho that refers to it:
    [btor_set_to_proxy_exp] returns.  [X] leaves the unique
    table; the entries of the static_rho of a lambda are released; the
    local data of [X] is erased, its sort stays, and [X] leaves the tables
    of its kind; its edges are disconnected and its children released,
    each by a sweep.  At the end [X] is a live proxy without children,
    with the disconnected and erased flags cleared, with the id, the sort
    and the forwarding that it had, and the target of the forwarding is
    live: a handle of [X] reaches it as before. *)
Theorem btor_set_to_proxy_exp_converts (s : Btor) (X : Z) (n : BtorNode)
    (held : list Z) :
  heap_ok [] held s -> anchored [] s held X ->
  node_at s X = Some n -> n_simplified n <> 0 ->
  (n_kind n <> BTOR_LAMBDA_NODE -> n_static_rho n = None) ->
  exists s2 s3 s5 s6 s' n',
    btor_set_to_proxy_exp s X = Some s'
    /\ nodes_id_table s2 = nodes_id_table (store_node s X (wr_unique false n))
    /\ (forall p, in_table s2 p <-> in_table s p /\ p <> X)
    /\ same_side s s2
    /\ sweep s2 (if is_kind BTOR_LAMBDA_NODE n then rho_handles (n_static_rho n) else []) s3
    /\ detaches s3 X n s5
    /\ sweep s5 (children n) s6
    /\ s' = store_node s6 X n'
    /\ node_at s' X = Some n'
    /\ ~ in_table s' X
    /\ n_kind n' = BTOR_PROXY_NODE
    /\ n_disconnected n' = false /\ n_erased n' = false
    /\ n_arity n' = 0%nat /\ (forall j, get3 (n_e n') j = 0)
    /\ n_parameterized n' = false
    /\ n_id n' = n_id n /\ n_sort_id n' = n_sort_id n
    /\ n_simplified n' = n_simplified n
    /\ is_Some (real_node s' (n_simplified n))
    /\ n_av n' = None /\ n_static_rho n' = None
    /\ (n_kind n = BTOR_BV_CONST_NODE -> n_bits n' = None /\ n_invbits n' = None)
    /\ (n_kind n = BTOR_LAMBDA_NODE \/ n_kind n = BTOR_UPDATE_NODE
        \/ n_kind n = BTOR_UF_NODE \/ btor_is_fun_cond_node_n n = true ->
        n_rho n' = None)
    /\ heap_ok [] held s'.
Proof.
  intros Hok HX Hn Hsimp Hrho.
  pose proof (real_of_node _ _ _ Hn) as Hreal.
  assert (Hfull : forall j, (j < n_arity n)%nat -> get3 (n_e n) j <> 0).
  { intros j Hj. apply (hk_full _ _ _ Hok X n j Hn Hj). apply not_elem_of_nil. }
  unfold btor_set_to_proxy_exp.
  (* out of the unique table *)
  destruct (remove_unique_ok [] _ s X n Hok Hn)
    as (s2 & E2 & Hok2 & Hnot2 & Htab2 & Hnodes2 & Hside2).
  rewrite E2. cbn [mbind option_bind].
  set (n2 := wr_unique false n) in *.
  assert (Hn2 : node_at s2 X = Some n2).
  { rewrite (node_at_table _ _ X Hnodes2). apply (node_at_store_eq _ _ _ _ Hn). }
  (* the local data *)
  assert (HX2 : anchored [X] s2 held X).
  { destruct (anchored_but X [] [X] s s2 held held) with (x := X) as [H | H];
      [| | exact HX | exact H | exact H].
    - intros x Hx. apply anchored_held, Hx.
    - intros p x Hne (m & Hm & Ho) Hp. apply (anchored_owned _ _ _ p x); [| exact Hp].
      apply (owns_same [] [X] s s2 p m m x Hm);
        [| reflexivity | apply kept_other, Hne | exists m; split; [exact Hm | exact Ho]].
      rewrite (node_at_table _ _ p Hnodes2), (node_at_store s X p _ n Hn).
      destruct (decide (p = X)); [contradiction | exact Hm]. }
  assert (Hb2 : forall b : Z, b ∈ [X] -> anchored [X] s2 held b).
  { intros b Hbb. apply list_elem_of_singleton in Hbb as ->. exact HX2. }
  pose proof (live_count_nonneg s2) as Hlc.
  destruct (erase_ok btor_release_exp (rho_count [] s2)
              (S (Z.to_nat (4 * live_count s2)))
              (btor_release_exp_ok _ _) [] _ s2 X n2 false Hok2 Hn2
              (not_elem_of_nil X) Hb2 Hnot2 ltac:(lia) ltac:(lia))
    as (s3 & n3 & E3 & Hn3 & Ec3 & Er3 & Sh3 & Sw3 & Hok3).
  rewrite E3. cbn [mbind option_bind].
  set (n3e := erase_fields n2 false n3) in *.
  set (s3e := store_node s3 X n3e) in *.
  assert (Hn3e : node_at s3e X = Some n3e) by apply (node_at_store_eq _ _ _ _ Hn3).
  rewrite Hn3e. cbn [mbind option_bind].
  destruct (erase_fields_frame n2 false n3)
    as (F1 & F2 & F3 & F4 & F5 & F6 & F7 & F8 & F9 & F10 & F11).
  destruct (erase_fields_data n2 false n3) as (D1 & D2).
  fold n3e in F1, F2, F3, F4, F5, F6, F7, F8, F9, F10, F11, D1, D2.
  assert (Hnot3 : ~ in_table s3e X).
  { intros H. apply Hnot2. apply (sh_table _ _ Sh3). exact H. }
  (* the tables of its kind *)
  destruct (remove_from_hash_tables_ok [X] _ s3e X n3e true Hok3 Hn3e Hnot3)
    as (s4 & E4 & Hok4 & Hnodes4 & Hch4 & V4 & L4 & U4 & Q4 & P4 & Y4).
  rewrite E4. cbn [mbind option_bind].
  assert (Hn4 : node_at s4 X = Some n3e).
  { rewrite (node_at_table _ _ X Hnodes4). exact Hn3e. }
  assert (Hnot4 : ~ in_table s4 X).
  { rewrite (in_table_chains _ _ X Hch4). exact Hnot3. }
  (* the edges *)
  assert (He3 : n_e n3e = n_e n).
  { transitivity (n_e n3); [unfold wiring in F1; congruence | exact (f_equal n_e Ec3)]. }
  assert (Ha3 : n_arity n3e = n_arity n).
  { rewrite F3. exact (f_equal n_arity Ec3). }
  assert (Hk3 : n_kind n3e = n_kind n).
  { rewrite F7. exact (f_equal n_kind Ec3). }
  destruct (disconnect_children_ok [X] _ s4 X n3e Hok4 Hn4 ltac:(left) Hnot4)
    as (s5 & E5 & Hok5 & T5 & Len5 & Lv5 & A5 & Ee5 & Pv5 & n5 & Hn5 & Hz5 & Ea5).
  { intros j Hj. rewrite He3. apply Hfull. lia. }
  rewrite E5. cbn [mbind option_bind].
  assert (Hch3 : children n3e = children n).
  { unfold children. rewrite He3, Ha3. reflexivity. }
  rewrite Hch3 in *.
  assert (Hnot5 : ~ in_table s5 X).
  { rewrite (in_table_same _ _ _ T5). exact Hnot4. }
  (* the children *)
  rewrite release_all_each.
  pose proof (live_count_nonneg s5) as Hlc5.
  assert (Hsb : shrinks_but X s2 s5).
  { apply (shrinks_but_trans X s2 s3); [apply shrinks_but_of, Sh3 |].
    apply (shrinks_but_trans X s3 s3e); [apply (shrinks_but_store X s3 n3 _ Hn3) |].
    apply (shrinks_but_trans X s3e s4).
    { apply shrinks_but_tables; [exact Hnodes4 |]. intros p.
      rewrite (in_table_chains _ _ p Hch4). auto. }
    apply shrinks_but_views; try assumption. apply (same_tables_chains _ _ T5). }
  assert (HX5 : anchored [X] s5 held X).
  { destruct (anchored_shrinks_but X [X] s2 s5 held held Hsb (heap_ok_drop _ _ _ _ Hok5))
      with (x := X) as [H | H]; [auto | exact HX2 | exact H | exact H]. }
  destruct (release_each_ok btor_release_exp (rho_count [X] s5 + 1)
              (S (Z.to_nat (4 * live_count s5)))
              (btor_release_exp_ok _ _) (children n) [X] held s5 Hok5)
    as (s6 & E6 & Hok6 & Sh6 & Sw6); [| lia | lia |].
  { intros b Hbb. apply list_elem_of_singleton in Hbb as ->. exact HX5. }
  rewrite E6. cbn [mbind option_bind].
  assert (HX6 : anchored [X] s6 held X).
  { apply (anchored_shrinks [X] s5 s6 held held Sh6 Hok6); [auto | exact HX5]. }
  destruct (anchored_live _ _ _ _ Hok6 HX6) as [n6 Hn6].
  rewrite (upd_node_live _ _ _ _ Hn6).
  destruct (sh_nodes _ _ Sh6 X n6 Hn6) as (n5' & Hn5' & Ec6 & _).
  assert (n5' = n5) by congruence. subst n5'.
  assert (Hnot6 : ~ in_table s6 X).
  { intros H. apply Hnot5. apply (sh_table _ _ Sh6). exact H. }
  (* the fields of the node at the end *)
  assert (Hz6 : forall j, get3 (n_e n6) j = 0).
  { intros j. rewrite (f_equal n_e Ec6 : n_e n6 = n_e n5). apply Hz5. }
  assert (Hid : n_id n6 = n_id n).
  { rewrite (f_equal n_id Ec6 : n_id n6 = n_id n5).
    rewrite (f_equal n_id Ea5 : n_id n5 = n_id n3e), F4.
    exact (f_equal n_id Ec3). }
  assert (Hsort : n_sort_id n6 = n_sort_id n).
  { rewrite (f_equal n_sort_id Ec6 : n_sort_id n6 = n_sort_id n5).
    rewrite (f_equal n_sort_id Ea5 : n_sort_id n5 = n_sort_id n3e), (F10 eq_refl).
    exact (f_equal n_sort_id Ec3). }
  assert (Hsim : n_simplified n6 = n_simplified n).
  { rewrite (f_equal n_simplified Ec6 : n_simplified n6 = n_simplified n5).
    rewrite (f_equal n_simplified Ea5 : n_simplified n5 = n_simplified n3e), F5.
    exact (f_equal n_simplified Ec3). }
  assert (Hav : n_av n6 = None).
  { rewrite (f_equal n_av Ec6 : n_av n6 = n_av n5).
    rewrite (f_equal n_av Ea5 : n_av n5 = n_av n3e). exact F9. }
  assert (Hsr : n_static_rho n6 = None).
  { rewrite (f_equal n_static_rho Ec6 : n_static_rho n6 = n_static_rho n5).
    rewrite (f_equal n_static_rho Ea5 : n_static_rho n5 = n_static_rho n3e).
    apply F11. destruct (decide (n_kind n = BTOR_LAMBDA_NODE)) as [Hk | Hk].
    - destruct (n_static_rho n) eqn:Hr.
      + right. split; [exact Hk |]. change (n_static_rho n2) with (n_static_rho n).
        congruence.
      + left. rewrite (f_equal n_static_rho Ec3 : n_static_rho n3 = n_static_rho n2).
        exact Hr.
    - left. rewrite (f_equal n_static_rho Ec3 : n_static_rho n3 = n_static_rho n2).
      apply Hrho, Hk. }
  pose proof (proxy_ok [] held s6 X n6 Hok6 Hn6 (not_elem_of_nil X) Hz6 Hsr Hnot6)
    as Hok'.
  set (s' := store_node s6 X (proxy_node n6)) in *.
  exists s2, s3, s5, s6, s', (proxy_node n6).
  split; [reflexivity |]. split; [exact Hnodes2 |]. split; [exact Htab2 |].
  split; [exact Hside2 |]. split; [exact Sw3 |].
  split.
  { (* what the erasing and the disconnecting leave *)
    assert (H34 : forall x, x <> X -> node_at s4 x = node_at s3 x).
    { intros x Hx. rewrite (node_at_table _ _ x Hnodes4). unfold s3e.
      rewrite (node_at_store s3 X x _ n3 Hn3). destruct (decide (x = X)); [contradiction |].
      reflexivity. }
    split.
    - exists n3, n5. split; [exact Hn3 |]. split; [exact Hn5 |]. split; [exact Ea5 |].
      exact Hz5.
    - rewrite Len5, Hnodes4. apply length_store_node.
    - intros x Hx. unfold fld. rewrite <- (H34 x Hx). apply (A5 x Hx).
    - intros x Hx. unfold fld. rewrite <- (H34 x Hx). apply (Ee5 x Hx).
    - intros x Hx. unfold fld. rewrite <- (H34 x Hx). apply (Pv5 x Hx).
    - rewrite (same_tables_chains _ _ T5), Hch4. reflexivity.
    - rewrite Hk3 in V4, L4, U4, Q4. unfold same_tables in T5. rewrite T5. cbn. auto.
    - destruct Y4 as [Y4 Y4']. unfold same_tables in T5. rewrite T5. cbn.
      split; [exact Y4 | exact Y4']. }
  split; [exact Sw6 |]. split; [reflexivity |].
  split; [apply (node_at_store_eq _ _ _ _ Hn6) |].
  split; [exact Hnot6 |].
  split; [reflexivity |]. split; [reflexivity |]. split; [reflexivity |].
  split; [reflexivity |]. split; [exact Hz6 |]. split; [reflexivity |].
  split; [exact Hid |]. split; [exact Hsort |]. split; [exact Hsim |].
  split.
  { apply (hk_kept _ _ _ Hok' X (proxy_node n6)); [apply (node_at_store_eq _ _ _ _ Hn6) |].
    unfold kept. cbn. rewrite Hsim, (eqb_false _ _ Hsimp). left. }
  split; [exact Hav |]. split; [exact Hsr |].
  split.
  { intros Hk. destruct (D1 Hk) as [B1 B2].
    split.
    - transitivity (n_bits n5); [exact (f_equal n_bits Ec6) |].
      transitivity (n_bits n3e); [exact (f_equal n_bits Ea5) | exact B1].
    - transitivity (n_invbits n5); [exact (f_equal n_invbits Ec6) |].
      transitivity (n_invbits n3e); [exact (f_equal n_invbits Ea5) | exact B2]. }
  split; [| exact Hok'].
  intros Hk. transitivity (n_rho n5); [exact (f_equal n_rho Ec6) |].
  transitivity (n_rho n3e); [exact (f_equal n_rho Ea5) |]. apply D2. exact Hk.
Qed.

(** ** Handles, references and ids *)

Lemma wr_refs_same n : wr_refs (n_refs n) n = n.
Proof. destruct n. reflexivity. Qed.

Lemma wr_refs_twice a b n : wr_refs a (wr_refs b n) = wr_refs a n.
Proof. reflexivity. Qed.

Lemma wr_ext_refs_same n : wr_ext_refs (n_ext_refs n) n = n.
Proof. destruct n. reflexivity. Qed.

Lemma real_node_store_same s h n n' :
  real_node s h = Some n ->
  real_node (store_node s (BTOR_REAL_ADDR_NODE h) n') h = Some n'.
Proof. intros Hn. unfold real_node in *. eapply node_at_store_eq. exact Hn. Qed.

(** A reference that has just been taken is given back. *)
Lemma release_after_inc s h n :
  real_node s h = Some n -> 1 <= n_refs n -> n_refs n < INT_MAX ->
  exists s1,
    inc_exp_ref_counter s h = Some s1
    /\ s1 = store_node s (BTOR_REAL_ADDR_NODE h) (wr_refs (n_refs n + 1) n)
    /\ btor_release_exp s1 h = Some s.
Proof.
  intros Hn H1 Hmax.
  exists (store_node s (BTOR_REAL_ADDR_NODE h) (wr_refs (n_refs n + 1) n)).
  split; [apply inc_exp_ref_counter_ok; assumption |]. split; [reflexivity |].
  rewrite (btor_release_exp_shared _ h (wr_refs (n_refs n + 1) n)).
  - rewrite store_store. simpl.
    replace (n_refs n + 1 - 1) with (n_refs n) by lia.
    rewrite wr_refs_twice, wr_refs_same.
    rewrite store_node_same; [reflexivity | exact Hn].
  - apply (real_node_store_same s h n). exact Hn.
  - simpl. lia.
Qed.

(** X1: a reference taken with [btor_copy_exp] is given back by
    [btor_release_exp]: the copy returns the handle it was given and adds
    one reference to its node, and the release of that handle restores the
    state exactly; no node is freed. *)
Theorem btor_release_exp_undoes_btor_copy_exp (s : Btor) (h : Z) (n : BtorNode) :
  real_node s h = Some n -> 1 <= n_refs n -> n_refs n < INT_MAX ->
  exists s1,
    btor_copy_exp s h = Some (s1, h)
    /\ real_node s1 h = Some (wr_refs (n_refs n + 1) n)
    /\ (forall x, BTOR_REAL_ADDR_NODE x <> BTOR_REAL_ADDR_NODE h ->
          real_node s1 x = real_node s x)
    /\ length (nodes_id_table s1) = length (nodes_id_table s)
    /\ btor_release_exp s1 h = Some s.
Proof.
  intros Hn H1 Hmax.
  destruct (release_after_inc s h n Hn H1 Hmax) as (s1 & E1 & -> & E2).
  eexists. split; [| split; [| split; [| split]]].
  - unfold btor_copy_exp. rewrite E1. reflexivity.
  - apply (real_node_store_same s h n). exact Hn.
  - intros x Hx. unfold real_node. apply node_at_store_ne; [intros E; apply Hx; symmetry; exact E |].
    unfold real_node in Hn. congruence.
  - apply length_store_node.
  - exact E2.
Qed.

Lemma wb_external_refs_same s : wb_external_refs (external_refs s) s = s.
Proof. destruct s. reflexivity. Qed.

Lemma node_at_wb_external_refs v s p : node_at (wb_external_refs v s) p = node_at s p.
Proof. reflexivity. Qed.

(** X2: [btor_dec_exp_ext_ref_counter] undoes
    [btor_inc_exp_ext_ref_counter]: the increment aborts when the external
    count of the node is [INT_MAX] (the count of the instance is not
    checked) and otherwise adds one to the external count of the node and
    to the count of the instance; the decrement restores the state.  The
    decrement checks nothing: it subtracts one from both counts, so that
    on a count of zero it stores [-1].  The counts are [int]s; the
    statement is about the counts that do not overflow. *)
Theorem btor_dec_exp_ext_ref_counter_undoes_inc (s : Btor) (h : Z) (n : BtorNode) :
  real_node s h = Some n ->
  (n_ext_refs n = INT_MAX -> btor_inc_exp_ext_ref_counter s h = None)
  /\ (n_ext_refs n < INT_MAX -> external_refs s < INT_MAX ->
      exists s1 n1,
        btor_inc_exp_ext_ref_counter s h = Some s1
        /\ real_node s1 h = Some n1
        /\ n_ext_refs n1 = n_ext_refs n + 1 /\ n_refs n1 = n_refs n
        /\ external_refs s1 = external_refs s + 1
        /\ btor_dec_exp_ext_ref_counter s1 h = Some s)
  /\ (INT_MIN < n_ext_refs n -> INT_MIN < external_refs s ->
      exists s2 n2,
        btor_dec_exp_ext_ref_counter s h = Some s2
        /\ real_node s2 h = Some n2
        /\ n_ext_refs n2 = n_ext_refs n - 1
        /\ external_refs s2 = external_refs s - 1).
Proof.
  intros Hn. pose proof Hn as Hn'. unfold real_node in Hn'.
  split; [| split].
  - intros E. unfold btor_inc_exp_ext_ref_counter. rewrite Hn'. simpl.
    rewrite E, Z.eqb_refl. reflexivity.
  - intros Hlt _. assert (Hne : n_ext_refs n <> INT_MAX) by lia.
    set (s0 := store_node s (BTOR_REAL_ADDR_NODE h) (wr_ext_refs (n_ext_refs n + 1) n)).
    exists (wb_external_refs (external_refs s + 1) s0), (wr_ext_refs (n_ext_refs n + 1) n).
    assert (Hs0 : node_at s0 (BTOR_REAL_ADDR_NODE h) = Some (wr_ext_refs (n_ext_refs n + 1) n)).
    { eapply node_at_store_eq. exact Hn'. }
    split; [| split; [exact Hs0 | split; [reflexivity | split; [reflexivity | split; [reflexivity |]]]]].
    + unfold btor_inc_exp_ext_ref_counter. rewrite Hn'. simpl.
      destruct (Z.eqb_spec (n_ext_refs n) INT_MAX); [contradiction | reflexivity].
    + unfold btor_dec_exp_ext_ref_counter.
      rewrite node_at_wb_external_refs, Hs0. simpl. f_equal.
      replace (n_ext_refs n + 1 - 1) with (n_ext_refs n) by lia.
      replace (wr_ext_refs (n_ext_refs n) (wr_ext_refs (n_ext_refs n + 1) n))
        with n by (destruct n; reflexivity).
      replace (external_refs s + 1 - 1) with (external_refs s) by lia.
      unfold s0, store_node. simpl.
      rewrite list_insert_insert_eq.
      apply node_at_inv in Hn' as (_ & _ & Hl & _).
      rewrite list_insert_id by exact Hl. destruct s. reflexivity.
  - intros _ _.
    exists (wb_external_refs (external_refs s - 1)
              (store_node s (BTOR_REAL_ADDR_NODE h) (wr_ext_refs (n_ext_refs n - 1) n))),
      (wr_ext_refs (n_ext_refs n - 1) n).
    split; [| split; [| split; reflexivity]].
    + unfold btor_dec_exp_ext_ref_counter. rewrite Hn'. reflexivity.
    + unfold real_node. rewrite node_at_wb_external_refs.
      eapply node_at_store_eq. exact Hn'.
Qed.

(** *** Handles and ids *)

Lemma handle_decompose h :
  is_handle h ->
  h = if BTOR_IS_INVERTED_NODE h then BTOR_INVERT_NODE (BTOR_REAL_ADDR_NODE h)
      else BTOR_REAL_ADDR_NODE h.
Proof.
  unfold is_handle, BTOR_IS_INVERTED_NODE. intros H1.
  destruct (Z.testbit h 0) eqn:H0; apply Z.bits_inj'; intros k Hk.
  - unfold BTOR_INVERT_NODE. rewrite Z.lxor_spec, testbit_1, testbit_real_addr.
    destruct (Z.eqb_spec k 0) as [-> | Hk0]; [rewrite H0; reflexivity |].
    destruct (Z.leb_spec 2 k); simpl; [reflexivity |].
    assert (k = 1) by lia. subst k. exact H1.
  - rewrite testbit_real_addr.
    destruct (Z.leb_spec 2 k); simpl; [reflexivity |].
    destruct (Z.eq_dec k 0) as [-> |]; [exact H0 |].
    assert (k = 1) by lia. subst k. exact H1.
Qed.

Lemma handle_eq a b :
  is_handle a -> is_handle b ->
  BTOR_REAL_ADDR_NODE a = BTOR_REAL_ADDR_NODE b ->
  BTOR_IS_INVERTED_NODE a = BTOR_IS_INVERTED_NODE b -> a = b.
Proof.
  intros Ha Hb Hr Hi. rewrite (handle_decompose a Ha), (handle_decompose b Hb), Hr, Hi.
  reflexivity.
Qed.

Lemma is_handle_invert h : is_handle h -> is_handle (BTOR_INVERT_NODE h).
Proof.
  unfold is_handle, BTOR_INVERT_NODE. intros H. rewrite Z.lxor_spec, testbit_1, H. reflexivity.
Qed.

Lemma is_handle_ptr_of_id i : is_handle (ptr_of_id i).
Proof. unfold is_handle. rewrite testbit_ptr_of_id. reflexivity. Qed.

Lemma ids_ok_real s h n :
  ids_ok s -> real_node s h = Some n ->
  n_id n = Z.of_nat (id_of_ptr (BTOR_REAL_ADDR_NODE h))
  /\ (0 < id_of_ptr (BTOR_REAL_ADDR_NODE h) < length (nodes_id_table s))%nat
  /\ nodes_id_table s !! id_of_ptr (BTOR_REAL_ADDR_NODE h) = Some (Some n)
  /\ ptr_of_id (id_of_ptr (BTOR_REAL_ADDR_NODE h)) = BTOR_REAL_ADDR_NODE h.
Proof.
  intros Hids Hn. unfold real_node in Hn. split; [apply Hids; exact Hn |].
  pose proof (node_at_id_pos _ _ _ Hn). pose proof (node_at_lt _ _ _ Hn).
  apply node_at_inv in Hn as (_ & _ & Hl & Hp). auto.
Qed.

Lemma ids_okb_sound s : ids_okb s = true -> ids_ok s.
Proof.
  intros H p n Hn. pose proof (all_slots_spec _ _ H p n Hn) as E.
  cbv beta in E. apply Z.eqb_eq in E. exact E.
Qed.

(** X3: [btor_get_node_by_id] is the inverse of [btor_exp_get_id]: the id of
    a live handle, which is negative for an inverted handle, names that
    handle again, and the id read back from the handle of a live id, an
    [int] other than [INT_MIN], is that id. *)
Theorem btor_get_node_by_id_inverts_btor_exp_get_id (s : Btor) :
  ids_ok s ->
  (forall h n, is_handle h -> real_node s h = Some n ->
     exists id, btor_exp_get_id s h = Some id /\ id <> 0
                /\ (id < 0 <-> BTOR_IS_INVERTED_NODE h = true)
                /\ btor_get_node_by_id s id = h)
  /\ (forall id n, INT_MIN < id <= INT_MAX -> id <> 0 ->
        nodes_id_table s !! Z.to_nat (Z.abs id) = Some (Some n) ->
        btor_exp_get_id s (btor_get_node_by_id s id) = Some id).
Proof.
  intros Hids. split.
  - intros h n Hh Hn.
    destruct (ids_ok_real s h n Hids Hn) as (Hid & Hrange & Hl & Hp).
    set (i := id_of_ptr (BTOR_REAL_ADDR_NODE h)) in *.
    exists (if BTOR_IS_INVERTED_NODE h then - n_id n else n_id n).
    split; [unfold btor_exp_get_id; rewrite Hn; reflexivity |].
    assert (Hget : forall id, Z.abs id = Z.of_nat i ->
              btor_get_node_by_id s id
              = if id <? 0 then BTOR_INVERT_NODE (BTOR_REAL_ADDR_NODE h)
                else BTOR_REAL_ADDR_NODE h).
    { intros id Ha. unfold btor_get_node_by_id, count_id_table. rewrite Ha.
      destruct (Z.leb_spec (Z.of_nat (length (nodes_id_table s))) (Z.of_nat i)); [lia |].
      rewrite (peek_id_table_live s i n Hl), Hp. reflexivity. }
    destruct (BTOR_IS_INVERTED_NODE h) eqn:Hinv.
    + split; [lia |]. split; [split; [reflexivity | lia] |].
      rewrite Hget by lia. destruct (Z.ltb_spec (- n_id n) 0); [| lia].
      rewrite (handle_decompose h Hh) at 2. rewrite Hinv. reflexivity.
    + split; [lia |]. split; [split; [lia | discriminate] |].
      rewrite Hget by lia. destruct (Z.ltb_spec (n_id n) 0); [lia |].
      rewrite (handle_decompose h Hh) at 2. rewrite Hinv. reflexivity.
  - intros id n _ Hid Hl.
    pose proof (lookup_lt_Some _ _ _ Hl) as Hlt.
    set (i := Z.to_nat (Z.abs id)) in *.
    assert (Hi : (0 < i)%nat) by (unfold i; lia).
    assert (Hnode : node_at s (ptr_of_id i) = Some n) by (apply node_at_intro; assumption).
    assert (Hidn : n_id n = Z.abs id).
    { rewrite (Hids _ _ Hnode), id_of_ptr_of_id. unfold i. lia. }
    unfold btor_get_node_by_id, count_id_table.
    destruct (Z.leb_spec (Z.of_nat (length (nodes_id_table s))) (Z.abs id)); [lia |].
    replace (Z.abs id) with (Z.of_nat i) by (unfold i; lia).
    rewrite (peek_id_table_live s i n Hl).
    unfold btor_exp_get_id, real_node.
    destruct (Z.ltb_spec id 0).
    + rewrite real_addr_invert, real_addr_ptr_of_id, Hnode. simpl.
      rewrite is_inverted_invert, is_regular_ptr_of_id. simpl. f_equal. lia.
    + rewrite real_addr_ptr_of_id, Hnode. simpl.
      rewrite is_regular_ptr_of_id. f_equal. lia.
Qed.

(** X4: the edges of [btor_get_node_by_id], for an id whose absolute
    value is an [int]: an id beyond the id table, of either sign, is
    answered by null; the id of a freed slot is answered by null when it is
    positive and by the inverted null pointer, which is not null, when it
    is negative. *)
Theorem btor_get_node_by_id_of_dead_id (s : Btor) (id : Z) :
  INT_MIN < id <= INT_MAX ->
  (count_id_table s <= Z.abs id -> btor_get_node_by_id s id = 0)
  /\ (Z.abs id < count_id_table s ->
      nodes_id_table s !! Z.to_nat (Z.abs id) = Some None ->
      btor_get_node_by_id s id = (if id <? 0 then 1 else 0)
      /\ real_node s (btor_get_node_by_id s id) = None).
Proof.
  intros _. unfold btor_get_node_by_id. split.
  - intros H. destruct (Z.leb_spec (count_id_table s) (Z.abs id)); [reflexivity | lia].
  - intros H Hl. destruct (Z.leb_spec (count_id_table s) (Z.abs id)); [lia |].
    rewrite (peek_id_table_freed s _ Hl).
    destruct (id <? 0); split; reflexivity.
Qed.

(** ** Symbols *)

(** X5: [btor_set_symbol_exp] with a symbol that is not in use names the
    node of the handle: the node, under either inversion tag, reads the
    symbol back, the symbol resolves to the regular pointer of the node, the
    name the node had before resolves to null, and no other name and no
    other node is affected; the nodes and the unique table are not touched. *)
Theorem btor_set_symbol_exp_names_the_node (s : Btor) (h : Z) (sym : string) :
  symbols s !! sym = None -> btor_get_symbol_exp s h <> Some sym ->
  let s' := btor_set_symbol_exp s h sym in
  btor_get_symbol_exp s' h = Some sym
  /\ btor_get_symbol_exp s' (BTOR_INVERT_NODE h) = Some sym
  /\ btor_get_node_by_symbol s' sym = BTOR_REAL_ADDR_NODE h
  /\ (forall old, btor_get_symbol_exp s h = Some old -> btor_get_node_by_symbol s' old = 0)
  /\ (forall other, other <> sym -> btor_get_symbol_exp s h <> Some other ->
        btor_get_node_by_symbol s' other = btor_get_node_by_symbol s other)
  /\ (forall x, BTOR_REAL_ADDR_NODE x <> BTOR_REAL_ADDR_NODE h ->
        btor_get_symbol_exp s' x = btor_get_symbol_exp s x)
  /\ nodes_id_table s' = nodes_id_table s /\ ut_chains s' = ut_chains s.
Proof.
  intros Hfree Hnew s'. unfold s', btor_set_symbol_exp, btor_get_symbol_exp,
    btor_get_node_by_symbol in *.
  rewrite real_addr_invert. cbn [node2symbol wb_symbols].
  destruct (node2symbol s !! BTOR_REAL_ADDR_NODE h) as [old |] eqn:Hold; cbn.
  - assert (Hne : old <> sym) by congruence.
    repeat split.
    + apply lookup_insert_eq.
    + apply lookup_insert_eq.
    + rewrite lookup_delete_ne by exact Hne. rewrite lookup_insert_eq. reflexivity.
    + intros old' [= <-]. rewrite lookup_delete_eq. reflexivity.
    + intros other Ho Hoth. rewrite lookup_delete_ne by congruence.
      rewrite lookup_insert_ne by congruence. reflexivity.
    + intros x Hx. rewrite lookup_insert_ne by congruence. reflexivity.
  - repeat split.
    + apply lookup_insert_eq.
    + apply lookup_insert_eq.
    + rewrite lookup_insert_eq. reflexivity.
    + intros old' [=].
    + intros other Ho _. rewrite lookup_insert_ne by congruence. reflexivity.
    + intros x Hx. rewrite lookup_insert_ne by congruence. reflexivity.
Qed.

(** ** Orders by id and pairs of expressions *)

Lemma signed_id_inj s a b na nb :
  ids_ok s -> is_handle a -> is_handle b ->
  real_node s a = Some na -> real_node s b = Some nb ->
  (if BTOR_IS_INVERTED_NODE a then - n_id na else n_id na)
  = (if BTOR_IS_INVERTED_NODE b then - n_id nb else n_id nb) ->
  a = b.
Proof.
  intros Hids Ha Hb Hna Hnb E.
  destruct (ids_ok_real s a na Hids Hna) as (Ia & Ra & _ & Pa).
  destruct (ids_ok_real s b nb Hids Hnb) as (Ib & Rb & _ & Pb).
  apply handle_eq; try assumption.
  - rewrite <- Pa, <- Pb. f_equal.
    destruct (BTOR_IS_INVERTED_NODE a), (BTOR_IS_INVERTED_NODE b); lia.
  - destruct (BTOR_IS_INVERTED_NODE a), (BTOR_IS_INVERTED_NODE b); try reflexivity; lia.
Qed.

(** X6: [btor_compare_exp_by_id] is a comparison of handles: on two live
    handles it is antisymmetric, zero exactly when the handles are the
    same handle, and it puts every inverted handle before every regular
    one, since the id of an inverted handle is negative. *)
Theorem btor_compare_exp_by_id_orders_handles (s : Btor) (a b : Z) (na nb : BtorNode) :
  ids_ok s -> is_handle a -> is_handle b ->
  real_node s a = Some na -> real_node s b = Some nb ->
  exists c c',
    btor_compare_exp_by_id s a b = Some c
    /\ btor_compare_exp_by_id s b a = Some c'
    /\ c' = - c /\ (c = -1 \/ c = 0 \/ c = 1)
    /\ (c = 0 <-> a = b)
    /\ (BTOR_IS_INVERTED_NODE a = true -> BTOR_IS_INVERTED_NODE b = false -> c = -1).
Proof.
  intros Hids Ha Hb Hna Hnb.
  destruct (ids_ok_real s a na Hids Hna) as (Ia & Ra & _ & _).
  destruct (ids_ok_real s b nb Hids Hnb) as (Ib & Rb & _ & _).
  unfold btor_compare_exp_by_id, btor_exp_get_id. rewrite Hna, Hnb. cbn [mbind option_bind].
  set (ia := if BTOR_IS_INVERTED_NODE a then - n_id na else n_id na).
  set (ib := if BTOR_IS_INVERTED_NODE b then - n_id nb else n_id nb).
  assert (Heq : ia = ib -> a = b).
  { intros E. apply (signed_id_inj s a b na nb); assumption. }
  assert (Hrefl : a = b -> ia = ib).
  { intros ->. unfold ia, ib. assert (na = nb) by congruence. subst. reflexivity. }
  eexists _, _. split; [reflexivity |]. split; [reflexivity |].
  assert (Hinv : BTOR_IS_INVERTED_NODE a = true -> BTOR_IS_INVERTED_NODE b = false -> ia < ib).
  { intros Hia Hib. unfold ia, ib. rewrite Hia, Hib. lia. }
  destruct (Z.ltb_spec ia ib), (Z.ltb_spec ib ia); try lia.
  - split; [lia |]. split; [lia |]. split.
    + split; [lia |]. intros E. apply Hrefl in E. lia.
    + intros Hia Hib. pose proof (Hinv Hia Hib). lia.
  - split; [lia |]. split; [lia |]. split.
    + split; [intros _; apply Heq; lia | reflexivity].
    + intros Hia Hib. pose proof (Hinv Hia Hib). lia.
Qed.

(** X7: the two [qsort] orders by id ignore the inversion tag and are
    mirror images: on live handles the descending order of [(p, q)] is the
    ascending order of [(q, p)] and the negation of the ascending order of
    [(p, q)], and both are zero exactly on two handles of one node, so a
    handle and its inverse compare equal. *)
Theorem btor_compare_exp_by_id_qsort_mirror (s : Btor) (p q : Z) (a b : BtorNode) :
  ids_ok s -> count_id_table s <= INT_MAX ->
  real_node s p = Some a -> real_node s q = Some b ->
  exists c,
    btor_compare_exp_by_id_qsort_asc s p q = Some c
    /\ btor_compare_exp_by_id_qsort_desc s p q = Some (- c)
    /\ btor_compare_exp_by_id_qsort_desc s q p = Some c
    /\ btor_compare_exp_by_id_qsort_asc s (BTOR_INVERT_NODE p) q = Some c
    /\ (c = 0 <-> BTOR_REAL_ADDR_NODE p = BTOR_REAL_ADDR_NODE q).
Proof.
  intros Hids Hcount Hp Hq.
  destruct (ids_ok_real s p a Hids Hp) as (Ia & Ra & _ & Pa).
  destruct (ids_ok_real s q b Hids Hq) as (Ib & Rb & _ & Pb).
  unfold count_id_table in Hcount.
  exists (n_id a - n_id b).
  unfold btor_compare_exp_by_id_qsort_asc, btor_compare_exp_by_id_qsort_desc.
  rewrite real_node_invert, Hp, Hq. cbn [mbind option_bind].
  unfold int_sub, INT_MIN.
  assert (H1 : 0 < n_id a <= INT_MAX) by lia.
  assert (H2 : 0 < n_id b <= INT_MAX) by lia.
  repeat match goal with
         | |- context [?x <=? ?y] => destruct (Z.leb_spec x y); try lia
         end.
  cbn [andb]. repeat split; try (f_equal; lia).
  - intros E. rewrite <- Pa, <- Pb. f_equal. lia.
  - intros E. rewrite E in Ia. lia.
Qed.

(** The increments of two reference counts commute. *)
Lemma store_node_commute s p q x y :
  id_of_ptr p <> id_of_ptr q ->
  store_node (store_node s p x) q y = store_node (store_node s q y) p x.
Proof.
  intros Hne. unfold store_node, wb_nodes_id_table. simpl.
  rewrite list_insert_insert_ne by (intros E; apply Hne; symmetry; exact E). reflexivity.
Qed.

Lemma inc_exp_ref_counter_commute s a b :
  (s1 ← inc_exp_ref_counter s a; inc_exp_ref_counter s1 b)
  = (s1 ← inc_exp_ref_counter s b; inc_exp_ref_counter s1 a).
Proof.
  destruct (decide (BTOR_REAL_ADDR_NODE a = BTOR_REAL_ADDR_NODE b)) as [E | Hne].
  { unfold inc_exp_ref_counter. rewrite E. reflexivity. }
  unfold inc_exp_ref_counter.
  destruct (node_at s (BTOR_REAL_ADDR_NODE a)) as [na |] eqn:Ha;
    destruct (node_at s (BTOR_REAL_ADDR_NODE b)) as [nb |] eqn:Hb; cbn [mbind option_bind].
  - destruct (n_refs na =? INT_MAX) eqn:Ea; destruct (n_refs nb =? INT_MAX) eqn:Eb;
      cbn [mbind option_bind];
      rewrite ?node_at_store_ne by congruence;
      rewrite ?Ha, ?Hb; cbn [mbind option_bind]; rewrite ?Ea, ?Eb; try reflexivity.
    f_equal. apply store_node_commute.
    apply node_at_inv in Ha as (_ & _ & _ & Pa). apply node_at_inv in Hb as (_ & _ & _ & Pb).
    intros E. apply Hne. rewrite <- Pa, <- Pb, E. reflexivity.
  - destruct (n_refs na =? INT_MAX); cbn [mbind option_bind]; [reflexivity |].
    rewrite node_at_store_ne by congruence. rewrite Hb. reflexivity.
  - destruct (n_refs nb =? INT_MAX); cbn [mbind option_bind]; [reflexivity |].
    rewrite node_at_store_ne by congruence. rewrite Ha. reflexivity.
  - reflexivity.
Qed.

Lemma btor_new_exp_pair_unfold s a b na nb :
  real_node s a = Some na -> real_node s b = Some nb ->
  let ia := if BTOR_IS_INVERTED_NODE a then - n_id na else n_id na in
  let ib := if BTOR_IS_INVERTED_NODE b then - n_id nb else n_id nb in
  btor_new_exp_pair s a b
  = if ib <? ia
    then s2 ← (s1 ← inc_exp_ref_counter s b; inc_exp_ref_counter s1 a); Some (s2, mkPair b a)
    else s2 ← (s1 ← inc_exp_ref_counter s a; inc_exp_ref_counter s1 b); Some (s2, mkPair a b).
Proof.
  intros Hna Hnb ia ib. unfold btor_new_exp_pair, btor_exp_get_id, btor_copy_exp.
  rewrite Hna, Hnb. cbn [mbind option_bind]. fold ia ib.
  destruct (ib <? ia).
  - destruct (inc_exp_ref_counter s b) as [s1 |]; cbn [mbind option_bind]; [| reflexivity].
    destruct (inc_exp_ref_counter s1 a); reflexivity.
  - destruct (inc_exp_ref_counter s a) as [s1 |]; cbn [mbind option_bind]; [| reflexivity].
    destruct (inc_exp_ref_counter s1 b); reflexivity.
Qed.

(** X8: a pair of expressions is unordered: [btor_new_exp_pair] of two live
    handles gives the same pair and the same state whichever handle comes
    first; the pair holds the two handles, the one of the smaller id first
    (an inverted handle has a negative id), and owns one reference to
    each. *)
Theorem btor_new_exp_pair_is_unordered (s : Btor) (a b : Z) (na nb : BtorNode) :
  ids_ok s -> is_handle a -> is_handle b ->
  real_node s a = Some na -> real_node s b = Some nb ->
  n_refs na + 1 < INT_MAX -> n_refs nb + 1 < INT_MAX ->
  exists s' pr i1 i2,
    btor_new_exp_pair s a b = Some (s', pr)
    /\ btor_new_exp_pair s b a = Some (s', pr)
    /\ (pr = mkPair a b \/ pr = mkPair b a)
    /\ btor_exp_get_id s (pair_exp1 pr) = Some i1
    /\ btor_exp_get_id s (pair_exp2 pr) = Some i2 /\ i1 <= i2
    /\ (s1 ← inc_exp_ref_counter s a; inc_exp_ref_counter s1 b) = Some s'.
Proof.
  intros Hids Ha Hb Hna Hnb Hra Hrb.
  set (ia := if BTOR_IS_INVERTED_NODE a then - n_id na else n_id na).
  set (ib := if BTOR_IS_INVERTED_NODE b then - n_id nb else n_id nb).
  assert (Hinc : exists s', (s1 ← inc_exp_ref_counter s a; inc_exp_ref_counter s1 b) = Some s').
  { rewrite (inc_exp_ref_counter_ok s a na Hna) by lia. cbn [mbind option_bind].
    destruct (decide (BTOR_REAL_ADDR_NODE a = BTOR_REAL_ADDR_NODE b)) as [E | Hne].
    - rewrite (inc_exp_ref_counter_ok _ b (wr_refs (n_refs na + 1) na)); [eauto | | simpl; lia].
      unfold real_node. rewrite <- E. eapply node_at_store_eq. exact Hna.
    - rewrite (inc_exp_ref_counter_ok _ b nb); [eauto | | lia].
      unfold real_node. rewrite node_at_store_ne; [exact Hnb | exact Hne |].
      unfold real_node in Hna. congruence. }
  destruct Hinc as [s' Hs'].
  pose proof Hs' as Hs''. rewrite inc_exp_ref_counter_commute in Hs''.
  assert (Hida : btor_exp_get_id s a = Some ia).
  { unfold btor_exp_get_id. rewrite Hna. reflexivity. }
  assert (Hidb : btor_exp_get_id s b = Some ib).
  { unfold btor_exp_get_id. rewrite Hnb. reflexivity. }
  rewrite (btor_new_exp_pair_unfold s a b na nb Hna Hnb).
  rewrite (btor_new_exp_pair_unfold s b a nb na Hnb Hna).
  cbv zeta. fold ia ib.
  destruct (Z.ltb_spec ib ia) as [Hlt | Hge].
  - destruct (Z.ltb_spec ia ib); [lia |].
    rewrite Hs''. cbn [mbind option_bind].
    exists s', (mkPair b a), ib, ia. repeat split; auto; simpl; try assumption; lia.
  - destruct (Z.ltb_spec ia ib) as [Hlt | Hge'].
    + rewrite Hs'. cbn [mbind option_bind].
      exists s', (mkPair a b), ia, ib. repeat split; auto; simpl; try assumption; lia.
    + assert (a = b).
      { apply (signed_id_inj s a b na nb); try assumption. fold ia ib. lia. }
      subst b. rewrite Hs'. cbn [mbind option_bind].
      exists s', (mkPair a a), ia, ia. repeat split; auto; simpl; try assumption; lia.
Qed.

(** X9: [btor_delete_exp_pair] undoes [btor_new_exp_pair]: the two
    references that the pair owns are given back and the state is the one
    before the pair was made; no node is freed. *)
Theorem btor_delete_exp_pair_undoes_new (s : Btor) (a b : Z) (na nb : BtorNode) :
  real_node s a = Some na -> real_node s b = Some nb ->
  1 <= n_refs na -> 1 <= n_refs nb ->
  n_refs na + 1 < INT_MAX -> n_refs nb + 1 < INT_MAX ->
  exists s' pr,
    btor_new_exp_pair s a b = Some (s', pr)
    /\ length (nodes_id_table s') = length (nodes_id_table s)
    /\ btor_delete_exp_pair s' pr = Some s.
Proof.
  intros Hna Hnb H1a H1b Hra Hrb.
  assert (Hround : forall x y nx ny,
            real_node s x = Some nx -> real_node s y = Some ny ->
            1 <= n_refs nx -> 1 <= n_refs ny ->
            n_refs nx + 1 < INT_MAX -> n_refs ny + 1 < INT_MAX ->
            exists s', (s1 ← inc_exp_ref_counter s x; inc_exp_ref_counter s1 y) = Some s'
                       /\ length (nodes_id_table s') = length (nodes_id_table s)
                       /\ btor_delete_exp_pair s' (mkPair x y) = Some s).
  { intros x y nx ny Hx Hy H1x H1y Hrx Hry.
    destruct (release_after_inc s y ny Hy H1y) as (sy & Ey & Hsy & Ry); [lia |].
    assert (Hx' : exists nx', real_node sy x = Some nx' /\ 1 <= n_refs nx'
                              /\ n_refs nx' < INT_MAX).
    { subst sy. unfold real_node.
      destruct (decide (BTOR_REAL_ADDR_NODE x = BTOR_REAL_ADDR_NODE y)) as [E | Hne].
      - rewrite E. erewrite node_at_store_eq by exact Hy.
        eexists. split; [reflexivity |]. simpl.
        assert (nx = ny) by (unfold real_node in *; congruence). subst. lia.
      - rewrite node_at_store_ne; [exists nx; split; [exact Hx | lia] | congruence |].
        unfold real_node in Hy. congruence. }
    destruct Hx' as (nx' & Hx' & H1x' & Hrx').
    destruct (release_after_inc sy x nx' Hx' H1x' Hrx') as (sxy & Ex & Hsxy & Rx).
    exists sxy. split; [| split].
    - rewrite inc_exp_ref_counter_commute, Ey. cbn [mbind option_bind]. exact Ex.
    - subst sxy sy. rewrite !length_store_node. reflexivity.
    - unfold btor_delete_exp_pair. cbn [pair_exp1 pair_exp2].
      rewrite Rx. cbn [mbind option_bind]. exact Ry. }
  rewrite (btor_new_exp_pair_unfold s a b na nb Hna Hnb). cbv zeta.
  destruct (_ <? _).
  - destruct (Hround b a nb na) as (s' & E & Hl & Hd); try assumption.
    rewrite E. cbn [mbind option_bind]. eauto.
  - destruct (Hround a b na nb) as (s' & E & Hl & Hd); try assumption.
    rewrite E. cbn [mbind option_bind]. eauto.
Qed.

(** ** Sharing of the nodes of the unique table *)

Lemma simplify_all_of_terminal s e :
  (forall c, c ∈ e -> exists n, real_node s c = Some n /\ n_simplified n = 0) ->
  simplify_all s e = Some e.
Proof.
  induction e as [| c e IH]; intros H; simpl; [reflexivity |].
  destruct (H c) as (n & Hn & Hs); [apply list_elem_of_here |].
  rewrite (btor_simplify_exp_terminal s c n Hn Hs). simpl.
  rewrite IH; [reflexivity |]. intros d Hd. apply H. apply list_elem_of_further. exact Hd.
Qed.

(** A node passes the lookup by its own kind and children. *)
Lemma bv_test_self n : find_bv_exp_test (n_kind n) (children n) n = true.
Proof.
  unfold find_bv_exp_test, is_kind.
  rewrite bool_decide_eq_true_2 by reflexivity.
  unfold children at 1. rewrite length_map, length_seq, Nat.eqb_refl. cbn [andb].
  match goal with |- (if ?c then _ else _) = _ => destruct c end; [reflexivity |].
  apply children_equal_spec. unfold children. rewrite length_map, length_seq. reflexivity.
Qed.

Lemma raw_hash_children s p n :
  node_at s p = Some n -> hashed_by_children (n_kind n) = true ->
  raw_hash s p = hash_bv_exp s (children n).
Proof.
  intros Hn Hk. unfold raw_hash. rewrite Hn. cbn [mbind option_bind].
  destruct (n_kind n); try discriminate Hk; reflexivity.
Qed.

(** The lookup by the kind and the children of a linked node finds it. *)
Lemma find_bv_exp_linked s p n :
  table_ok s -> in_table s p -> node_at s p = Some n ->
  hashed_by_children (n_kind n) = true ->
  is_sorted_bv_exp s (n_kind n) (children n) = Some true ->
  exists lk,
    find_bv_exp s (n_kind n) (children n) = Some (children n, lk)
    /\ deref_lookup s lk = p.
Proof.
  intros Hok Hp Hn Hk Hsorted.
  pose proof Hp as (b0 & chain0 & Hb0 & Hin0).
  destruct (tk_bucket s Hok b0 chain0 p Hb0 Hin0) as (h & Hh & ->).
  rewrite (raw_hash_children s p n Hn Hk) in Hh.
  set (T := fun (_ : Z) m => Some (find_bv_exp_test (n_kind n) (children n) m)).
  destruct (find_in_bucket_cases s h T Hok (bv_test_total s _ _ Hok))
    as (chain & r & Hbk & Hf & [(q & nq & Hq & Hnq & Haq & Hd & Hq0 & Hinq) | (-> & _ & Hrej)]).
  - assert (E : q = p).
    { symmetry. apply (tk_canon s Hok p q n nq); try assumption.
      unfold key_match. injection Haq as Haq. exact Haq. }
    rewrite E in Hd.
    exists (mkLookup (bucket_of (ut_size s) h) r). split; [| exact Hd].
    unfold find_bv_exp, sort_bv_exp. rewrite Hsorted. cbn [mbind option_bind].
    rewrite Hh. cbn [mbind option_bind]. fold T. rewrite Hf. reflexivity.
  - exfalso. assert (chain = chain0) by congruence. subst chain.
    destruct (Hrej p Hin0) as (m & Hm & Hfalse).
    assert (m = n) by congruence. subst m.
    unfold T in Hfalse. rewrite bv_test_self in Hfalse. discriminate.
Qed.



(** *** The order of the operands *)

Lemma sort_bv_exp_swap s kind a b na nb :
  btor_is_binary_commutative_node_kind kind = true -> opt_sort_exp s <> 0 ->
  real_node s a = Some na -> real_node s b = Some nb -> n_id na <> n_id nb ->
  sort_bv_exp s kind [b; a] = sort_bv_exp s kind [a; b]
  /\ exists e, sort_bv_exp s kind [a; b] = Some e.
Proof.
  intros Hk Hopt Ha Hb Hne.
  assert (Hab : a <> b) by (intros ->; congruence).
  assert (Hia : BTOR_INVERT_NODE a <> b).
  { intros <-. rewrite real_node_invert in Hb. congruence. }
  assert (Hib : BTOR_INVERT_NODE b <> a).
  { intros <-. rewrite real_node_invert in Ha. congruence. }
  unfold sort_bv_exp, is_sorted_bv_exp. cbn [nth].
  destruct (Z.eqb_spec (opt_sort_exp s) 0); [contradiction |].
  rewrite Hk. cbn [negb].
  destruct (Z.eqb_spec a b); [contradiction |].
  destruct (Z.eqb_spec b a); [congruence |].
  destruct (Z.eqb_spec (BTOR_INVERT_NODE a) b); [contradiction |].
  destruct (Z.eqb_spec (BTOR_INVERT_NODE b) a); [contradiction |].
  cbn [andb]. rewrite Ha, Hb. cbn [mbind option_bind].
  destruct (Z.leb_spec (n_id na) (n_id nb)), (Z.leb_spec (n_id nb) (n_id na));
    try lia; eauto.
Qed.

Lemma create_exp_swap s kind a b na nb :
  btor_is_binary_commutative_node_kind kind = true -> opt_sort_exp s <> 0 ->
  real_node s a = Some na -> real_node s b = Some nb ->
  n_simplified na = 0 -> n_simplified nb = 0 -> n_id na <> n_id nb ->
  create_exp s kind [b; a] = create_exp s kind [a; b].
Proof.
  intros Hk Hopt Ha Hb Hsa Hsb Hne.
  assert (Hnl : kind <> BTOR_LAMBDA_NODE) by (intros ->; discriminate Hk).
  unfold create_exp. cbn [simplify_all].
  rewrite (btor_simplify_exp_terminal s a na Ha Hsa), (btor_simplify_exp_terminal s b nb Hb Hsb).
  cbn [mbind option_bind].
  rewrite bool_decide_eq_false_2 by exact Hnl. cbn [mbind option_bind].
  unfold find_exp. rewrite bool_decide_eq_false_2 by exact Hnl.
  unfold find_bv_exp.
  destruct (sort_bv_exp_swap s kind a b na nb Hk Hopt Ha Hb Hne) as (-> & _).
  reflexivity.
Qed.

(** X11: the constructors of the commutative operators do not depend on
    the order of their operands: when operands are sorted (the default),
    [and], [add], [mul] and the equality of two operands that are
    different nodes return the same result, the same node in the same
    state, for [(a, b)] and for [(b, a)]. *)
Theorem commutative_constructors_ignore_the_order
    (s : Btor) (a b a' b' : Z) (na nb : BtorNode) :
  opt_sort_exp s <> 0 ->
  btor_simplify_exp s a = Some a' -> btor_simplify_exp s b = Some b' ->
  real_node s a' = Some na -> real_node s b' = Some nb -> n_id na <> n_id nb ->
  btor_and_exp_node s b a = btor_and_exp_node s a b
  /\ btor_add_exp_node s b a = btor_add_exp_node s a b
  /\ btor_mul_exp_node s b a = btor_mul_exp_node s a b
  /\ (btor_is_fun_node_n na = btor_is_fun_node_n nb ->
      btor_eq_exp_node s b a = btor_eq_exp_node s a b).
Proof.
  intros Hopt Hsa Hsb Ha Hb Hne.
  destruct (btor_simplify_exp_result _ _ _ Hsa) as (na0 & Hna0 & Hta).
  destruct (btor_simplify_exp_result _ _ _ Hsb) as (nb0 & Hnb0 & Htb).
  assert (na0 = na) by congruence. assert (nb0 = nb) by congruence. subst na0 nb0.
  assert (Hbin : forall kind, btor_is_binary_commutative_node_kind kind = true ->
            binary_exp_node kind s b a = binary_exp_node kind s a b).
  { intros kind Hk. unfold binary_exp_node. rewrite Hsa, Hsb. cbn [mbind option_bind].
    apply (create_exp_swap s kind a' b' na nb); assumption. }
  split; [apply Hbin; reflexivity |].
  split; [apply Hbin; reflexivity |].
  split; [apply Hbin; reflexivity |].
  intros Hfun. unfold btor_eq_exp_node. rewrite Hsa, Hsb. cbn [mbind option_bind].
  rewrite Ha, Hb. cbn [mbind option_bind]. rewrite Hfun.
  destruct (btor_is_fun_node_n nb);
    apply (create_exp_swap s _ a' b' na nb); try assumption; reflexivity.
Qed.

(** *** Slices *)

(** X12: with rewriting enabled a slice is stored for the regular operand
    only: the slice of an inverted handle is the inverted handle of the
    slice of the regular handle, the same node in the same state, found or
    allocated by the same lookup. *)
Theorem btor_slice_exp_node_of_inverted_handle
    (s : Btor) (x : Z) (n : BtorNode) (upper lower : Z) :
  0 < opt_rewrite_level s ->
  real_node s x = Some n -> n_simplified n = 0 -> BTOR_IS_INVERTED_NODE x = false ->
  btor_slice_exp_node s (BTOR_INVERT_NODE x) upper lower
  = (fun r : Btor * Z => (fst r, BTOR_INVERT_NODE (snd r)))
      <$> btor_slice_exp_node s x upper lower.
Proof.
  intros Hlevel Hn Hs Hreg.
  pose proof (btor_simplify_exp_terminal s x n Hn Hs) as Hx.
  pose proof (btor_simplify_exp_invert s x Hx) as Hix.
  unfold btor_slice_exp_node, unary_exp_slice_exp.
  rewrite Hx, Hix. cbn [mbind option_bind]. rewrite Hx, Hix. cbn [mbind option_bind].
  rewrite is_inverted_invert, Hreg, invert_invert.
  destruct (Z.ltb_spec 0 (opt_rewrite_level s)); [| lia]. cbn [andb negb].
  destruct (find_slice_exp s x upper lower) as [lk |]; cbn [mbind option_bind fmap option_fmap option_map];
    [| reflexivity].
  match goal with
  | |- (?m ≫= _) = _ => destruct m as [[s1 p1] |]; reflexivity
  end.
Qed.

(** X13: a slice that the unique table holds is shared: when a slice node
    of the operand [x] with the bounds [upper] and [lower] is linked,
    [btor_slice_exp_node] returns a linked slice node of that operand and
    those bounds with one more reference; it allocates no node and leaves
    the unique table as it is. *)
Theorem btor_slice_exp_node_shares
    (s : Btor) (x p : Z) (n nx : BtorNode) (upper lower : Z) :
  table_ok s ->
  (forall q nq, in_table s q -> node_at s q = Some nq -> n_refs nq < INT_MAX) ->
  in_table s p -> node_at s p = Some n -> n_kind n = BTOR_SLICE_NODE ->
  get3 (n_e n) 0 = x -> n_upper n = upper -> n_lower n = lower ->
  real_node s x = Some nx -> n_simplified nx = 0 ->
  (0 < opt_rewrite_level s -> BTOR_IS_INVERTED_NODE x = false) ->
  exists q nq,
    in_table s q /\ node_at s q = Some nq /\ n_kind nq = BTOR_SLICE_NODE
    /\ get3 (n_e nq) 0 = x /\ n_upper nq = upper /\ n_lower nq = lower
    /\ btor_slice_exp_node s x upper lower
       = Some (store_node s q (wr_refs (n_refs nq + 1) nq), q)
    /\ length (nodes_id_table (store_node s q (wr_refs (n_refs nq + 1) nq)))
       = length (nodes_id_table s).
Proof.
  intros Hok Hrefs Hp Hn Hk He Hu Hl Hx Hsx Hreg.
  pose proof (btor_simplify_exp_terminal s x nx Hx Hsx) as Hsimp.
  pose proof Hp as (b0 & chain0 & Hb0 & Hin0).
  destruct (tk_bucket s Hok b0 chain0 p Hb0 Hin0) as (h & Hh & ->).
  assert (Hhash : hash_slice_exp s x upper lower = Some h).
  { unfold raw_hash in Hh. rewrite Hn in Hh. cbn [mbind option_bind] in Hh.
    rewrite Hk, He, Hu, Hl in Hh. exact Hh. }
  set (T := fun (_ : Z) (m : BtorNode) =>
              Some (is_kind BTOR_SLICE_NODE m && (get3 (n_e m) 0 =? x)
                    && (n_upper m =? upper) && (n_lower m =? lower))).
  assert (Htot : total_on s T).
  { intros q Hq. destruct (tk_live s Hok q Hq) as [m Hm]. eauto. }
  assert (Hacc : T p n = Some true).
  { unfold T, is_kind. rewrite bool_decide_eq_true_2 by exact Hk.
    rewrite He, Hu, Hl, !Z.eqb_refl. reflexivity. }
  destruct (find_in_bucket_cases s h T Hok Htot)
    as (chain & r & Hbk & Hf & [(q & nq & Hq & Hnq & Haq & Hd & Hq0 & Hinq) | (-> & _ & Hrej)]).
  - injection Haq as Haq. unfold is_kind in Haq.
    apply andb_prop in Haq as [Haq Hlo]. apply andb_prop in Haq as [Haq Hup].
    apply andb_prop in Haq as [Hkq Heq].
    apply bool_decide_eq_true_1 in Hkq. apply Z.eqb_eq in Heq, Hup, Hlo.
    exists q, nq. repeat split; try assumption; [| apply length_store_node].
    unfold btor_slice_exp_node, unary_exp_slice_exp.
    rewrite Hsimp. cbn [mbind option_bind]. rewrite Hsimp. cbn [mbind option_bind].
    assert (Hbranch : (0 <? opt_rewrite_level s) && BTOR_IS_INVERTED_NODE x = false).
    { destruct (Z.ltb_spec 0 (opt_rewrite_level s)); [| reflexivity].
      rewrite Hreg by assumption. reflexivity. }
    rewrite Hbranch. unfold find_slice_exp. rewrite Hhash. cbn [mbind option_bind].
    fold T. rewrite Hf. cbn [mbind option_bind]. rewrite Hd.
    destruct (Z.eqb_spec q 0); [contradiction |].
    rewrite (inc_exp_ref_counter_ok s q nq).
    + rewrite (node_at_real_addr _ _ _ Hnq). cbn [mbind option_bind].
      rewrite (deref_lookup_ext s) by reflexivity. rewrite Hd. reflexivity.
    + unfold real_node. rewrite (node_at_real_addr _ _ _ Hnq). exact Hnq.
    + apply (Hrefs q nq Hinq Hnq).
  - exfalso. assert (chain = chain0) by congruence. subst chain.
    destruct (Hrej p Hin0) as (m & Hm & Hfalse). congruence.
Qed.

(** *** The pointer of a new node *)

Lemma setup_node_ptr s exp s1 p1 :
  setup_node_and_add_to_id_table s exp = Some (s1, p1) ->
  p1 = ptr_of_id (length (nodes_id_table s)).
Proof.
  unfold setup_node_and_add_to_id_table.
  destruct (count_id_table s =? INT_MAX); [discriminate |]. intros [= _ <-]. reflexivity.
Qed.

Lemma new_node_ptr s kind e s' p :
  new_node s kind e = Some (s', p) -> p = ptr_of_id (length (nodes_id_table s)).
Proof.
  unfold new_node.
  destruct (setup_node_and_add_to_id_table s _) as [[s1 p1] |] eqn:E;
    cbn [mbind option_bind]; [| discriminate].
  apply setup_node_ptr in E. subst p1.
  destruct (new_node_sort s1 kind e); cbn [mbind option_bind]; [| discriminate].
  destruct (upd_node s1 _ _); cbn [mbind option_bind]; [| discriminate].
  destruct (connect_children _ _ e 0); cbn [mbind option_bind]; [| discriminate].
  intros [= _ <-]. reflexivity.
Qed.

Lemma new_args_exp_node_ptr s e s' p :
  new_args_exp_node s e = Some (s', p) -> p = ptr_of_id (length (nodes_id_table s)).
Proof.
  unfold new_args_exp_node.
  destruct (setup_node_and_add_to_id_table s _) as [[s1 p1] |] eqn:E;
    cbn [mbind option_bind]; [| discriminate].
  apply setup_node_ptr in E. subst p1.
  destruct (connect_children s1 _ e 0) as [s2 |]; cbn [mbind option_bind]; [| discriminate].
  destruct (args_sorts s2 e); cbn [mbind option_bind]; [| discriminate].
  destruct (upd_node s2 _ _); cbn [mbind option_bind]; [| discriminate].
  intros [= _ <-]. reflexivity.
Qed.

Lemma enlarge_if_full_nodes {A : Type} s (found : A) find s1 r :
  enlarge_if_full s found find = Some (s1, r) ->
  nodes_id_table s1 = nodes_id_table s.
Proof.
  unfold enlarge_if_full. destruct (BTOR_FULL_UNIQUE_TABLE s).
  - unfold enlarge_nodes_unique_table.
    destruct (rehash_chains s _ _ _); cbn [mbind option_bind]; [| discriminate].
    destruct (find _); cbn [mbind option_bind]; [| discriminate].
    intros [= <- _]. reflexivity.
  - intros [= <- _]. reflexivity.
Qed.

Lemma inc_exp_ref_counter_chains s h s1 :
  inc_exp_ref_counter s h = Some s1 -> ut_chains s1 = ut_chains s.
Proof.
  unfold inc_exp_ref_counter.
  destruct (node_at s _); cbn [mbind option_bind]; [| discriminate].
  destruct (_ =? _); [discriminate |]. intros [= <-]. reflexivity.
Qed.

(** The result of [create_exp] is the node that the lookup finds, or the
    node of the next free id. *)
Lemma create_exp_result s kind e s' q :
  kind <> BTOR_LAMBDA_NODE -> simplify_all s e = Some e ->
  create_exp s kind e = Some (s', q) ->
  exists e' lk,
    find_bv_exp s kind e = Some (e', lk)
    /\ (deref_lookup s lk = q /\ q <> 0
        \/ deref_lookup s lk = 0 /\ q = ptr_of_id (length (nodes_id_table s))).
Proof.
  intros Hk Hsimp. unfold create_exp, find_exp. rewrite Hsimp. cbn [mbind option_bind].
  rewrite bool_decide_eq_false_2 by exact Hk. cbn [mbind option_bind].
  destruct (find_bv_exp s kind e) as [[e' lk] |]; cbn [mbind option_bind]; [| discriminate].
  intros H. exists e', lk. split; [reflexivity |].
  destruct (Z.eqb_spec (deref_lookup s lk) 0) as [E0 | Hne].
  - right. split; [exact E0 |].
    destruct (enlarge_if_full s _ _) as [[s1 [[[lk1 e1] h1] ps1]] |] eqn:Ee;
      cbn [mbind option_bind] in H; [| discriminate].
    apply enlarge_if_full_nodes in Ee. rewrite <- Ee.
    match type of H with
    | (?m ≫= _) = _ =>
        destruct m as [[s2 p2] |] eqn:En; cbn [mbind option_bind] in H; [| discriminate]
    end.
    assert (Hp2 : p2 = ptr_of_id (length (nodes_id_table s1))).
    { destruct kind; try contradiction;
        solve [eapply new_node_ptr; exact En | eapply new_args_exp_node_ptr; exact En]. }
    destruct (insert_unique s2 lk1 p2); cbn [mbind option_bind] in H; [| discriminate].
    injection H as _ <-. exact Hp2.
  - left. destruct (inc_exp_ref_counter s _) as [s1 |] eqn:Ei;
      cbn [mbind option_bind] in H; [| discriminate].
    injection H as _ <-.
    rewrite (deref_lookup_ext s s1 lk) by (eapply inc_exp_ref_counter_chains; exact Ei). auto.
Qed.

(** X14: the order of the operands is not normalised for a handle and its
    own complement: both [(x, not x)] and [(not x, x)] count as sorted, so
    for [and], [add] and [mul] the lookup of [(not x, x)] does not find the
    linked node of [(x, not x)], and [create_exp] never returns that node
    for [(not x, x)]. *)
Theorem complement_operands_are_not_reordered
    (kind : BtorNodeKind) (s : Btor) (x p : Z) (n nx : BtorNode) :
  kind = BTOR_AND_NODE \/ kind = BTOR_ADD_NODE \/ kind = BTOR_MUL_NODE ->
  table_ok s -> in_table s p -> node_at s p = Some n ->
  n_kind n = kind -> children n = [x; BTOR_INVERT_NODE x] ->
  real_node s x = Some nx -> n_simplified nx = 0 ->
  is_sorted_bv_exp s kind [x; BTOR_INVERT_NODE x] = Some true
  /\ is_sorted_bv_exp s kind [BTOR_INVERT_NODE x; x] = Some true
  /\ (exists lk, find_bv_exp s kind [BTOR_INVERT_NODE x; x]
                 = Some ([BTOR_INVERT_NODE x; x], lk)
                 /\ deref_lookup s lk <> p)
  /\ (forall s' q, create_exp s kind [BTOR_INVERT_NODE x; x] = Some (s', q) -> q <> p).
Proof.
  intros Hkind Hok Hp Hn Hk Hch Hx Hsx.
  assert (Hix : real_node s (BTOR_INVERT_NODE x) = Some nx).
  { rewrite real_node_invert. exact Hx. }
  assert (Hs1 : is_sorted_bv_exp s kind [x; BTOR_INVERT_NODE x] = Some true).
  { unfold is_sorted_bv_exp. cbn [nth]. rewrite Hx, Hix. cbn [mbind option_bind].
    rewrite Z.leb_refl. repeat match goal with |- context [if ?c then _ else _] => destruct c end;
      reflexivity. }
  assert (Hs2 : is_sorted_bv_exp s kind [BTOR_INVERT_NODE x; x] = Some true).
  { unfold is_sorted_bv_exp. cbn [nth]. rewrite Hx, Hix. cbn [mbind option_bind].
    rewrite Z.leb_refl. repeat match goal with |- context [if ?c then _ else _] => destruct c end;
      reflexivity. }
  assert (Hne : kind <> BTOR_BV_EQ_NODE) by (destruct Hkind as [-> | [-> | ->]]; discriminate).
  assert (Hnl : kind <> BTOR_LAMBDA_NODE) by (destruct Hkind as [-> | [-> | ->]]; discriminate).
  assert (Hfind : exists lk, find_bv_exp s kind [BTOR_INVERT_NODE x; x]
                             = Some ([BTOR_INVERT_NODE x; x], lk)
                             /\ deref_lookup s lk <> p).
  { destruct (hash_bv_exp_total s [BTOR_INVERT_NODE x; x]) as [h Hh]; [simpl; lia | |].
    { intros c Hc. apply elem_of_cons in Hc as [-> | Hc]; [eauto |].
      apply elem_of_cons in Hc as [-> | Hc]; [eauto |]. apply elem_of_nil in Hc. contradiction. }
    set (T := fun (_ : Z) m => Some (find_bv_exp_test kind [BTOR_INVERT_NODE x; x] m)).
    destruct (find_in_bucket_cases s h T Hok (bv_test_total s _ _ Hok))
      as (chain & r & Hbk & Hf & Hcase).
    exists (mkLookup (bucket_of (ut_size s) h) r). split.
    - unfold find_bv_exp, sort_bv_exp. rewrite Hs2. cbn [mbind option_bind].
      rewrite Hh. cbn [mbind option_bind]. fold T. rewrite Hf. reflexivity.
    - destruct Hcase as [(q & nq & Hq & Hnq & Haq & Hd & Hq0 & Hinq) | (-> & Hd & Hrej)].
      + rewrite Hd. intros ->. assert (nq = n) by congruence. subst nq.
        injection Haq as Haq. apply bv_test_accepts in Haq as (_ & Hch'); [| exact Hne].
        rewrite Hch in Hch'. injection Hch' as E _. symmetry in E.
        apply invert_neq in E. exact E.
      + rewrite Hd. apply node_at_inv in Hn. lia. }
  split; [exact Hs1 |]. split; [exact Hs2 |]. split; [exact Hfind |].
  intros s' q Hc.
  destruct (create_exp_result s kind [BTOR_INVERT_NODE x; x] s' q Hnl) as (e' & lk & Hf & Hcase); [| exact Hc |].
  { apply simplify_all_of_terminal. intros c Hc'.
    apply elem_of_cons in Hc' as [-> | Hc']; [eauto |].
    apply elem_of_cons in Hc' as [-> | Hc']; [eauto |]. apply elem_of_nil in Hc'. contradiction. }
  destruct Hfind as (lk0 & Hf0 & Hd0).
  assert (lk = lk0) by congruence. subst lk0.
  destruct Hcase as [(Hd & _) | (_ & ->)]; [congruence |].
  intros E. pose proof (node_at_lt _ _ _ Hn) as Hlt. rewrite <- E, id_of_ptr_of_id in Hlt. lia.
Qed.

(** ** The unique table as a whole *)

(** X15: [enlarge_nodes_unique_table] doubles the number of chains and
    links the same nodes again, each in the chain of its hash: the
    invariant of the table is kept, the nodes themselves and the count of
    elements are not touched, and the lookup by kind and children of a
    linked node finds that node in the enlarged table. *)
Theorem enlarge_nodes_unique_table_keeps_the_nodes (s : Btor) :
  table_ok s ->
  exists s',
    enlarge_nodes_unique_table s = Some s'
    /\ ut_size s' = 2 * ut_size s
    /\ nodes_id_table s' = nodes_id_table s
    /\ ut_num_elements s' = ut_num_elements s
    /\ (forall p, in_table s' p <-> in_table s p)
    /\ table_ok s'
    /\ (forall p n, in_table s p -> node_at s p = Some n ->
          hashed_by_children (n_kind n) = true ->
          is_sorted_bv_exp s (n_kind n) (children n) = Some true ->
          exists lk, find_bv_exp s' (n_kind n) (children n) = Some (children n, lk)
                     /\ deref_lookup s' lk = p).
Proof.
  intros Hok.
  destruct (enlarge_nodes_unique_table_spec s Hok) as (new & E & Hl & Hok').
  exists (wb_ut_chains new s).
  split; [exact E |].
  assert (Hsize : ut_size (wb_ut_chains new s) = 2 * ut_size s).
  { unfold enlarge_nodes_unique_table in E.
    pose proof (ut_size_pos s (tk_nonempty s Hok)) as Hpos.
    destruct (Z.eqb_spec (ut_size s) 0) as [E0 | _]; [lia |].
    destruct (rehash_chains_spec s (2 * ut_size s) (ut_chains s)
                (replicate (Z.to_nat (2 * ut_size s)) [])) as (new' & E' & (Hlen & _) & _).
    - lia.
    - split; [apply length_replicate |].
      intros b chain p Hb Hp. apply lookup_replicate in Hb as [-> _].
      apply elem_of_nil in Hp. contradiction.
    - intros p (b & chain & Hb & Hp).
      destruct (tk_bucket s Hok b chain p Hb Hp) as (h & Hh & _). eauto.
    - rewrite E' in E. cbn [mbind option_bind] in E. injection E as E.
      subst new'.
      unfold ut_size in *. cbn [ut_chains wb_ut_chains]. rewrite Hlen. lia. }
  split; [exact Hsize |]. split; [reflexivity |]. split; [reflexivity |].
  split; [exact Hl |]. split; [exact Hok' |].
  intros p n Hp Hn Hk Hsorted.
  apply (find_bv_exp_linked (wb_ut_chains new s) p n); try assumption.
  apply Hl. exact Hp.
Qed.

Lemma remove_from_table_count s cur n s' :
  node_at s cur = Some n ->
  remove_from_nodes_unique_table_exp s cur = Some s' ->
  ut_num_elements s' = ut_num_elements s - (if n_unique n then 1 else 0)
  /\ (n_unique n = false -> s' = s).
Proof.
  intros Hn. unfold remove_from_nodes_unique_table_exp. rewrite Hn. cbn [mbind option_bind].
  destruct (n_unique n); cbn [negb].
  - destruct (compute_hash_exp s cur (ut_size s)); cbn [mbind option_bind]; [| discriminate].
    destruct (ut_chains s !! _); cbn [mbind option_bind]; [| discriminate].
    destruct (remove_first cur _); cbn [mbind option_bind]; [| discriminate].
    unfold upd_node.
    match goal with |- (?m ≫= _) = _ -> _ => destruct m; cbn [mbind option_bind]; [| discriminate] end.
    intros [= <-]. split; [reflexivity | discriminate].
  - intros [= <-]. split; [lia | reflexivity].
Qed.

(** X16: [remove_from_nodes_unique_table_exp] unlinks exactly the node it
    is given: afterwards the node is not in the table and is not marked
    unique, every other node is linked as before, the count of elements is
    one less, and the invariant of the heap holds.  On a node that is not
    marked unique it does nothing. *)
Theorem remove_from_nodes_unique_table_exp_unlinks
    (busy held : list Z) (s : Btor) (cur : Z) (n : BtorNode) :
  heap_ok busy held s -> node_at s cur = Some n ->
  exists s',
    remove_from_nodes_unique_table_exp s cur = Some s'
    /\ ~ in_table s' cur
    /\ (forall p, in_table s' p <-> in_table s p /\ p <> cur)
    /\ node_at s' cur = Some (wr_unique false n)
    /\ (forall x, x <> cur -> node_at s' x = node_at s x)
    /\ ut_num_elements s' = ut_num_elements s - (if n_unique n then 1 else 0)
    /\ (n_unique n = false -> s' = s)
    /\ heap_ok busy held s'.
Proof.
  intros Hok Hn.
  destruct (remove_unique_ok busy held s cur n Hok Hn) as (s' & E & Hok' & Hout & Htab & Hnodes & _).
  destruct (remove_from_table_count s cur n s' Hn E) as (Hnum & Hnop).
  exists s'. split; [exact E |]. split; [exact Hout |]. split; [exact Htab |].
  split; [| split; [| split; [exact Hnum | split; [exact Hnop | exact Hok']]]].
  - rewrite (node_at_table (store_node s cur (wr_unique false n)) s' cur Hnodes).
    eapply node_at_store_eq. exact Hn.
  - intros x Hx.
    rewrite (node_at_table (store_node s cur (wr_unique false n)) s' x Hnodes).
    apply node_at_store_ne; [congruence | congruence].
Qed.

(** ** Names across a release *)

Lemma same_names_refl s : same_names s s.
Proof. split; [reflexivity |]. split; [reflexivity |]. intros x. reflexivity. Qed.

Lemma same_names_trans s1 s2 s3 :
  same_names s1 s2 -> same_names s2 s3 -> same_names s1 s3.
Proof.
  intros (A1 & B1 & C1) (A2 & B2 & C2). split; [congruence |]. split; [congruence |].
  intros x. rewrite C2. apply C1.
Qed.

Lemma upd_node_names s p f s' : upd_node s p f = Some s' -> same_names s s'.
Proof.
  unfold upd_node. destruct (node_at s p) as [n |] eqn:Hn; cbn [mbind option_bind];
    [| discriminate].
  intros [= <-]. split; [reflexivity |]. split; [reflexivity |].
  intros x. apply (live_store s p n). exact Hn.
Qed.

Lemma names_shrink_refl s : names_shrink s s.
Proof. split; auto. intros x sym H1 H2. congruence. Qed.

Lemma names_shrink_trans s1 s2 s3 :
  names_shrink s1 s2 -> names_shrink s2 s3 -> names_shrink s1 s3.
Proof.
  intros A B. split.
  - intros sym x H. apply (ns_symbols _ _ A), (ns_symbols _ _ B), H.
  - intros x sym H. apply (ns_nodes _ _ A), (ns_nodes _ _ B), H.
  - rewrite (ns_empty _ _ B). apply (ns_empty _ _ A).
  - intros x sym H1 H3 Hne.
    destruct (node2symbol s2 !! x) as [sym2 |] eqn:H2.
    + pose proof (ns_nodes _ _ A x sym2 H2) as E. assert (sym2 = sym) by congruence. subst.
      apply (ns_dropped _ _ B x sym H2 H3 Hne).
    + pose proof (ns_dropped _ _ A x sym H1 H2 Hne) as E.
      destruct (symbols s3 !! sym) as [y |] eqn:E3; [| reflexivity].
      apply (ns_symbols _ _ B) in E3. congruence.
  - intros x H. apply (ns_dead _ _ B), (ns_dead _ _ A), H.
  - intros H. apply (ns_live _ _ B), (ns_live _ _ A), H.
Qed.

Lemma same_names_shrink s s' : same_names s s' -> names_shrink s s'.
Proof.
  intros (A & B & C). split.
  - intros sym x. rewrite A. auto.
  - intros x sym. rewrite B. auto.
  - rewrite A. reflexivity.
  - intros x sym H1 H2. rewrite B in H2. congruence.
  - intros x H. destruct (node_at s' x) eqn:E; [| reflexivity].
    assert (Hs : is_Some (node_at s x)) by (apply C; eauto).
    rewrite H in Hs. destruct Hs. discriminate.
  - intros H x Hx. rewrite B. apply H.
    destruct (node_at s x) eqn:E; [| reflexivity].
    assert (Hs : is_Some (node_at s' x)) by (apply C; eauto).
    rewrite Hx in Hs. destruct Hs. discriminate.
Qed.

Ltac names_step H Hacc :=
  lazymatch type of H with
  | (node_at ?s ?p ≫= _) = Some _ =>
      destruct (node_at s p); cbn [mbind option_bind] in H; [| discriminate H]
  | (real_node ?s ?p ≫= _) = Some _ =>
      destruct (real_node s p); cbn [mbind option_bind] in H; [| discriminate H]
  | (upd_node ?s ?p ?f ≫= _) = Some _ =>
      let E := fresh "E" in
      destruct (upd_node s p f) eqn:E; cbn [mbind option_bind] in H;
      [apply upd_node_names in E; apply (same_names_trans _ _ _ Hacc) in E;
       clear Hacc; rename E into Hacc
      | discriminate H]
  | ((node_at ?s ?p ≫= _) ≫= _) = Some _ =>
      destruct (node_at s p); cbn [mbind option_bind] in H; [| discriminate H]
  | ((real_node ?s ?p ≫= _) ≫= _) = Some _ =>
      destruct (real_node s p); cbn [mbind option_bind] in H; [| discriminate H]
  | ((upd_node ?s ?p ?f ≫= _) ≫= _) = Some _ =>
      let E := fresh "E" in
      destruct (upd_node s p f) eqn:E; cbn [mbind option_bind] in H;
      [apply upd_node_names in E; apply (same_names_trans _ _ _ Hacc) in E;
       clear Hacc; rename E into Hacc
      | discriminate H]
  | ((if ?b then _ else _) ≫= _) = Some _ => destruct b
  | (Some _ ≫= _) = Some _ => cbn [mbind option_bind] in H
  | (if ?b then _ else _) = Some _ => destruct b
  | upd_node ?s ?p ?f = Some _ =>
      apply upd_node_names in H; apply (same_names_trans _ _ _ Hacc) in H
  | Some _ = Some _ => injection H as <-
  end.

Lemma disconnect_child_exp_names s parent pos s' :
  disconnect_child_exp s parent pos = Some s' -> same_names s s'.
Proof.
  intros H. pose proof (same_names_refl s) as Hacc. unfold disconnect_child_exp in H.
  repeat names_step H Hacc; assumption.
Qed.

Lemma disconnect_children_loop_names n : forall s exp i s',
  disconnect_children_loop s exp i n = Some s' -> same_names s s'.
Proof.
  induction n as [| n IH]; intros s exp i s'; cbn [disconnect_children_loop].
  - intros [= <-]. apply same_names_refl.
  - destruct (disconnect_child_exp s exp i) as [s1 |] eqn:E; cbn [mbind option_bind];
      [| discriminate].
    intros H. eapply same_names_trans; [eapply disconnect_child_exp_names; exact E |].
    eapply IH. exact H.
Qed.

Lemma disconnect_children_exp_names s exp s' :
  disconnect_children_exp s exp = Some s' -> same_names s s'.
Proof.
  unfold disconnect_children_exp.
  destruct (node_at s exp); cbn [mbind option_bind]; [| discriminate].
  destruct (disconnect_children_loop s exp 0 _) as [s1 |] eqn:E; cbn [mbind option_bind];
    [| discriminate].
  intros H. eapply same_names_trans; [eapply disconnect_children_loop_names; exact E |].
  eapply upd_node_names. exact H.
Qed.

Lemma remove_from_nodes_unique_table_exp_names s exp s' :
  remove_from_nodes_unique_table_exp s exp = Some s' -> same_names s s'.
Proof.
  unfold remove_from_nodes_unique_table_exp.
  destruct (node_at s exp); cbn [mbind option_bind]; [| discriminate].
  destruct (negb _); [intros [= <-]; apply same_names_refl |].
  destruct (compute_hash_exp s exp (ut_size s)); cbn [mbind option_bind]; [| discriminate].
  destruct (ut_chains s !! _); cbn [mbind option_bind]; [| discriminate].
  destruct (remove_first exp _); cbn [mbind option_bind]; [| discriminate].
  intros H. apply upd_node_names in H. exact H.
Qed.

Lemma remove_from_hash_tables_fields s exp s' :
  remove_from_hash_tables s exp false = Some s' ->
  nodes_id_table s' = nodes_id_table s
  /\ (forall x, node2symbol s' !! x
                = if decide (x = exp) then None else node2symbol s !! x)
  /\ symbols s'
     = match node2symbol s !! exp with
       | Some str => if bool_decide (str = EmptyString) then symbols s
                     else delete str (symbols s)
       | None => symbols s
       end.
Proof.
  unfold remove_from_hash_tables.
  destruct (node_at s exp) as [n |]; cbn [mbind option_bind]; [| discriminate].
  intros [= <-].
  destruct (n_kind n); cbn;
    (destruct (node2symbol s !! exp) as [str |] eqn:Hstr; cbn;
     [destruct (bool_decide (str = EmptyString)); cbn |];
     (split; [reflexivity |]; split; [| reflexivity]; intros x;
      destruct (decide (x = exp)) as [-> | Hne];
      [first [apply lookup_delete_eq | exact Hstr]
      | first [apply lookup_delete_ne; congruence | reflexivity]])).
Qed.

(** The side tables lose the node: its name goes from both maps, unless
    it is the empty name. *)
Lemma remove_from_hash_tables_names s exp s' :
  remove_from_hash_tables s exp false = Some s' ->
  names_shrink s s' /\ node2symbol s' !! exp = None
  /\ forall x, node_at s' x = node_at s x.
Proof.
  intros H. destruct (remove_from_hash_tables_fields s exp s' H) as (Hnodes & Hn2s & Hsym).
  assert (Hnode : forall x, node_at s' x = node_at s x).
  { intros x. unfold node_at. rewrite Hnodes. reflexivity. }
  split; [| split; [| exact Hnode]].
  - split.
    + intros sym x. rewrite Hsym.
      destruct (node2symbol s !! exp) as [str |]; [| auto].
      destruct (bool_decide (str = EmptyString)); [auto |].
      intros Hd. apply lookup_delete_Some in Hd as [_ Hd]. exact Hd.
    + intros x sym. rewrite Hn2s. destruct (decide (x = exp)); [discriminate | auto].
    + rewrite Hsym. destruct (node2symbol s !! exp) as [str |]; [| reflexivity].
      destruct (bool_decide_reflect (str = EmptyString)) as [E | Hne]; [reflexivity |].
      apply lookup_delete_ne. exact Hne.
    + intros x sym Hx Hd Hne. rewrite Hn2s in Hd.
      destruct (decide (x = exp)) as [-> | Hxe]; [| congruence].
      rewrite Hsym, Hx. rewrite bool_decide_eq_false_2 by exact Hne.
      apply lookup_delete_eq.
    + intros x. rewrite Hnode. auto.
    + intros Hl x Hx. rewrite Hn2s. destruct (decide (x = exp)); [reflexivity |].
      apply Hl. rewrite <- Hnode. exact Hx.
  - rewrite Hn2s. destruct (decide (exp = exp)); [reflexivity | contradiction].
Qed.

Lemma really_deallocate_exp_names s0 s cur s' :
  names_shrink s0 s -> node2symbol s !! cur = None ->
  really_deallocate_exp s cur = Some s' -> names_shrink s0 s'.
Proof.
  intros Hsh Hcur. unfold really_deallocate_exp.
  destruct (node_at s cur) as [n |] eqn:Hn; cbn [mbind option_bind]; [| discriminate].
  intros [= <-].
  assert (Hdead : forall x, node_at s x = None ->
            node_at (wb_nodes_id_table (<[id_of_ptr cur := None]> (nodes_id_table s)) s) x
            = None).
  { intros x Hx. unfold node_at in *. cbn [nodes_id_table wb_nodes_id_table].
    destruct ((0 <? x) && (Z.land 3 x =? 0)); [| reflexivity].
    destruct (decide (id_of_ptr x = id_of_ptr cur)) as [E | Hne].
    - rewrite E. destruct (lookup_lt_is_Some_2 (nodes_id_table s) (id_of_ptr cur)) as [y Hy].
      + apply node_at_lt in Hn. exact Hn.
      + rewrite list_lookup_insert_eq; [reflexivity |]. apply node_at_lt in Hn. exact Hn.
    - rewrite list_lookup_insert_ne by congruence. exact Hx. }
  split.
  - apply (ns_symbols _ _ Hsh).
  - apply (ns_nodes _ _ Hsh).
  - apply (ns_empty _ _ Hsh).
  - apply (ns_dropped _ _ Hsh).
  - intros x Hx. apply Hdead. apply (ns_dead _ _ Hsh). exact Hx.
  - intros Hl x Hx. cbn [node2symbol wb_nodes_id_table].
    destruct (node_at s x) as [m |] eqn:Hm; [| apply (ns_live _ _ Hsh Hl); exact Hm].
    assert (x = cur); [| subst; exact Hcur].
    destruct (decide (x = cur)) as [E | Hne]; [exact E | exfalso].
    assert (E : node_at (free_node s cur) x = node_at s x).
    { unfold free_node, node_at. cbn [nodes_id_table wb_nodes_id_table].
      destruct ((0 <? x) && (Z.land 3 x =? 0)) eqn:Eb; [| reflexivity].
      rewrite list_lookup_insert_ne; [reflexivity |].
      intros E. apply Hne. apply node_at_inv in Hm as (_ & _ & _ & <-).
      apply node_at_inv in Hn as (_ & _ & _ & <-). rewrite E. reflexivity. }
    unfold free_node in E. rewrite E in Hx. congruence.
Qed.

Section Names.

Variable release : Btor -> Z -> option Btor.
Hypothesis release_names : forall s x s', release s x = Some s' -> names_shrink s s'.

Lemma release_static_rho_names entries : forall s s',
  release_static_rho release s entries = Some s' -> names_shrink s s'.
Proof.
  induction entries as [| [key data] entries IH]; intros s s'; cbn [release_static_rho].
  - intros [= <-]. apply names_shrink_refl.
  - destruct (release s data) as [s1 |] eqn:E1; cbn [mbind option_bind]; [| discriminate].
    destruct (release s1 key) as [s2 |] eqn:E2; cbn [mbind option_bind]; [| discriminate].
    intros H. eapply names_shrink_trans; [apply (release_names _ _ _ E1) |].
    eapply names_shrink_trans; [apply (release_names _ _ _ E2) |]. apply IH. exact H.
Qed.

Lemma erase_local_data_exp_names s exp fs s' :
  erase_local_data_exp release s exp fs = Some s' -> names_shrink s s'.
Proof.
  unfold erase_local_data_exp.
  destruct (node_at s exp) as [n |]; cbn [mbind option_bind]; [| discriminate].
  match goal with
  | |- (?m ≫= _) = _ -> _ => destruct m as [s1 |] eqn:E1; cbn [mbind option_bind]; [| discriminate]
  end.
  assert (H1 : names_shrink s s1).
  { destruct (n_kind n);
      try (injection E1 as <-; apply names_shrink_refl);
      try (apply upd_node_names in E1; apply same_names_shrink; exact E1).
    - (* lambda *)
      match type of E1 with
      | (?m ≫= _) = _ => destruct m as [s0 |] eqn:E0; cbn [mbind option_bind] in E1; [| discriminate]
      end.
      apply upd_node_names, same_names_shrink in E1.
      eapply names_shrink_trans; [| exact E1].
      destruct (n_static_rho n) as [entries |].
      + destruct (release_static_rho release s entries) as [s00 |] eqn:E00;
          cbn [mbind option_bind] in E0; [| discriminate].
        apply upd_node_names, same_names_shrink in E0.
        eapply names_shrink_trans; [| exact E0].
        apply (release_static_rho_names _ _ _ E00).
      + injection E0 as <-. apply names_shrink_refl.
    - (* cond *)
      destruct (btor_is_fun_cond_node_n n).
      + apply upd_node_names in E1. apply same_names_shrink. exact E1.
      + injection E1 as <-. apply names_shrink_refl. }
  match goal with
  | |- (?m ≫= _) = _ -> _ => destruct m as [s2 |] eqn:E2; cbn [mbind option_bind]; [| discriminate]
  end.
  intros E3. apply upd_node_names, same_names_shrink in E3.
  eapply names_shrink_trans; [exact H1 |]. eapply names_shrink_trans; [| exact E3].
  destruct fs.
  - apply upd_node_names, same_names_shrink in E2. exact E2.
  - injection E2 as <-. apply names_shrink_refl.
Qed.

Lemma release_node_names s cur stack s' stack' :
  release_node release s cur stack = Some (s', stack') -> names_shrink s s'.
Proof.
  unfold release_node.
  destruct (node_at s cur) as [n |]; cbn [mbind option_bind]; [| discriminate].
  match goal with
  | |- (?m ≫= _) = _ -> _ =>
      destruct m as [[s1 st1] |] eqn:E1; cbn [mbind option_bind]; [| discriminate]
  end.
  assert (H1 : names_shrink s s1).
  { destruct (n_simplified n =? 0).
    - injection E1 as <- _. apply names_shrink_refl.
    - destruct (upd_node s cur _) as [s0 |] eqn:E0; cbn [mbind option_bind] in E1;
        [| discriminate].
      injection E1 as <- _. apply same_names_shrink. eapply upd_node_names. exact E0. }
  destruct (remove_from_nodes_unique_table_exp s1 cur) as [s2 |] eqn:E2;
    cbn [mbind option_bind]; [| discriminate].
  destruct (erase_local_data_exp release s2 cur true) as [s3 |] eqn:E3;
    cbn [mbind option_bind]; [| discriminate].
  destruct (remove_from_hash_tables s3 cur false) as [s4 |] eqn:E4;
    cbn [mbind option_bind]; [| discriminate].
  destruct (disconnect_children_exp s4 cur) as [s5 |] eqn:E5;
    cbn [mbind option_bind]; [| discriminate].
  destruct (really_deallocate_exp s5 cur) as [s6 |] eqn:E6;
    cbn [mbind option_bind]; [| discriminate].
  intros [= <- _].
  apply remove_from_nodes_unique_table_exp_names, same_names_shrink in E2.
  apply erase_local_data_exp_names in E3.
  apply remove_from_hash_tables_names in E4 as (E4 & Hcur & _).
  apply disconnect_children_exp_names in E5.
  apply (really_deallocate_exp_names s s5 cur s6); [| | exact E6].
  - eapply names_shrink_trans; [exact H1 |]. eapply names_shrink_trans; [exact E2 |].
    eapply names_shrink_trans; [exact E3 |]. eapply names_shrink_trans; [exact E4 |].
    apply same_names_shrink. exact E5.
  - destruct E5 as (_ & -> & _). exact Hcur.
Qed.

Lemma release_loop_names fuel : forall s stack s',
  release_loop release fuel s stack = Some s' -> names_shrink s s'.
Proof.
  induction fuel as [| fuel IH]; intros s stack s'.
  - destruct stack; cbn [release_loop]; [| discriminate].
    intros [= <-]. apply names_shrink_refl.
  - destruct stack as [| top stack]; cbn [release_loop].
    + intros [= <-]. apply names_shrink_refl.
    + destruct (node_at s (BTOR_REAL_ADDR_NODE top)) as [n |]; cbn [mbind option_bind];
        [| discriminate].
      destruct (1 <? n_refs n).
      * destruct (upd_node s _ _) as [s1 |] eqn:E1; cbn [mbind option_bind]; [| discriminate].
        intros H. eapply names_shrink_trans; [| apply (IH _ _ _ H)].
        apply same_names_shrink. eapply upd_node_names. exact E1.
      * destruct (release_node release s _ stack) as [[s1 st1] |] eqn:E1;
          cbn [mbind option_bind]; [| discriminate].
        intros H. eapply names_shrink_trans; [| apply (IH _ _ _ H)].
        eapply release_node_names. exact E1.
Qed.

Lemma recursively_release_exp_names fuel s root s' :
  recursively_release_exp release fuel s root = Some s' -> names_shrink s s'.
Proof.
  unfold recursively_release_exp.
  destruct (release_node release s root []) as [[s1 st1] |] eqn:E1;
    cbn [mbind option_bind]; [| discriminate].
  intros H. eapply names_shrink_trans; [eapply release_node_names; exact E1 |].
  eapply release_loop_names. exact H.
Qed.

End Names.

Lemma btor_release_exp_rec_names depth : forall fuel s root s',
  btor_release_exp_rec depth fuel s root = Some s' -> names_shrink s s'.
Proof.
  induction depth as [| depth IH]; intros fuel s root s'; cbn [btor_release_exp_rec];
    [discriminate |].
  destruct (node_at s (BTOR_REAL_ADDR_NODE root)) as [n |]; cbn [mbind option_bind];
    [| discriminate].
  destruct (1 <? n_refs n).
  - intros H. apply same_names_shrink. eapply upd_node_names. exact H.
  - apply recursively_release_exp_names. intros s0 x s0'. apply IH.
Qed.

Lemma names_liveb_sound s : names_liveb s = true -> names_live s.
Proof.
  intros H x Hx. destruct (node2symbol s !! x) as [sym |] eqn:E; [| reflexivity].
  apply elem_of_map_to_list in E.
  pose proof (forallb_elem _ _ _ H E) as Hb. cbn [fst] in Hb.
  apply bool_decide_eq_true_1 in Hb. rewrite Hx in Hb. destruct Hb. discriminate.
Qed.

(** X17: what [btor_release_exp] does to the names.  A release adds no
    name; a node that it frees loses its name, and the name no longer
    resolves, unless the name is the empty string: the empty name is
    never taken out of [symbols], so when its node is freed it keeps
    resolving to the freed slot, and [btor_match_node_by_symbol] of the
    empty name then dereferences freed storage. *)
Theorem btor_release_exp_keeps_the_empty_symbol (s : Btor) (root : Z) (held : list Z) :
  heap_ok [] (root :: held) s -> names_live s ->
  exists s',
    btor_release_exp s root = Some s'
    /\ (forall sym x, symbols s' !! sym = Some x -> symbols s !! sym = Some x)
    /\ (forall x sym, node2symbol s !! x = Some sym -> node_at s' x = None ->
          node2symbol s' !! x = None
          /\ (sym <> EmptyString -> btor_get_node_by_symbol s' sym = 0))
    /\ btor_get_node_by_symbol s' EmptyString = btor_get_node_by_symbol s EmptyString
    /\ (forall x, symbols s !! EmptyString = Some x -> is_Some (node_at s x) ->
          node_at s' x = None ->
          btor_get_node_by_symbol s' EmptyString = x
          /\ btor_match_node_by_symbol s' EmptyString = None).
Proof.
  intros Hok Hl.
  destruct (btor_release_exp_total [] held s root Hok) as (s' & E & _ & _ & _).
  { intros b Hb. apply elem_of_nil in Hb. contradiction. }
  pose proof (btor_release_exp_rec_names _ _ _ _ _ E) as Hsh.
  exists s'. split; [exact E |]. split; [apply (ns_symbols _ _ Hsh) |].
  assert (Hempty : btor_get_node_by_symbol s' EmptyString
                   = btor_get_node_by_symbol s EmptyString).
  { unfold btor_get_node_by_symbol. rewrite (ns_empty _ _ Hsh). reflexivity. }
  split; [| split; [exact Hempty |]].
  - intros x sym Hx Hdead.
    pose proof (ns_live _ _ Hsh Hl x Hdead) as Hnone.
    split; [exact Hnone |]. intros Hne.
    unfold btor_get_node_by_symbol. rewrite (ns_dropped _ _ Hsh x sym Hx Hnone Hne). reflexivity.
  - intros x Hx [np Hnp] Hdead.
    assert (Hget : btor_get_node_by_symbol s' EmptyString = x).
    { rewrite Hempty. unfold btor_get_node_by_symbol. rewrite Hx. reflexivity. }
    split; [exact Hget |].
    unfold btor_match_node_by_symbol, btor_copy_exp, inc_exp_ref_counter.
    rewrite Hget, (node_at_real_addr _ _ _ Hnp), Hdead. reflexivity.
Qed.

(** ** Ids *)



(** ** Sharing of lambdas *)

(** A lookup that ends on a node ends on a node that its test accepts. *)
Lemma find_in_bucket_hit s h T lk q :
  find_in_bucket s h T = Some lk -> deref_lookup s lk = q -> q <> 0 ->
  exists n, node_at s q = Some n /\ T q n = Some true /\ in_table s q.
Proof.
  unfold find_in_bucket, deref_lookup.
  destruct (ut_chains s !! bucket_of (ut_size s) h) as [chain |] eqn:Hb;
    cbn [mbind option_bind]; [| discriminate].
  destruct (find_chain s T chain 0) as [r |] eqn:Hr; cbn [mbind option_bind]; [| discriminate].
  intros [= <-]. cbn [lk_bucket lk_pos]. rewrite Hb.
  destruct (chain !! r) as [q' |] eqn:Hq; [| intros <-; contradiction].
  intros -> Hq0.
  destruct (find_chain_result _ _ _ _ _ Hr) as (_ & _ & Hat).
  rewrite Nat.sub_0_r in Hat. destruct (Hat q Hq) as (n & Hn & Hacc).
  exists n. split; [exact Hn |]. split; [exact Hacc |].
  eapply in_table_lookup; eassumption.
Qed.

Lemma find_lambda_exp_hit s p b params cmp lk h ps q :
  find_lambda_exp s p b params cmp = Some (lk, h, ps) ->
  deref_lookup s lk = q -> q <> 0 ->
  exists nq,
    node_at s q = Some nq /\ in_table s q /\ n_kind nq = BTOR_LAMBDA_NODE
    /\ ((get3 (n_e nq) 0 = p /\ get3 (n_e nq) 1 = b)
        \/ (cmp = true /\ n_parameterized nq = false
            /\ compare_lambda_exp s p b q = Some true)).
Proof.
  unfold find_lambda_exp, find_lambda_exp_with.
  destruct (hash_lambda_exp s p b params) as [[hash ps'] |]; cbn [mbind option_bind];
    [| discriminate].
  match goal with
  | |- (find_in_bucket s hash ?T ≫= _) = _ -> _ =>
      destruct (find_in_bucket s hash T) as [lk' |] eqn:Hf; cbn [mbind option_bind];
      [| discriminate]
  end.
  intros [= <- <- <-] Hd Hq0.
  destruct (find_in_bucket_hit _ _ _ _ _ Hf Hd Hq0) as (nq & Hnq & Hacc & Hin).
  exists nq. split; [exact Hnq |]. split; [exact Hin |].
  unfold is_kind in Hacc.
  destruct (bool_decide_reflect (n_kind nq = BTOR_LAMBDA_NODE)) as [Hk | Hk]; [| discriminate].
  split; [exact Hk |].
  destruct (Z.eqb_spec p (get3 (n_e nq) 0)) as [E0 | _]; cbn [andb] in Hacc.
  - destruct (Z.eqb_spec b (get3 (n_e nq) 1)) as [E1 | _]; [left; auto |].
    right. destruct (n_parameterized nq); [discriminate |].
    destruct cmp; [auto | discriminate].
  - right. destruct (n_parameterized nq); [discriminate |].
    destruct cmp; [auto | discriminate].
Qed.

(** X19: what the constructor of lambdas shares.  When the lookup of
    [find_lambda_exp] for the parameter [p] and the body [b] ends on a
    node, the node is a linked lambda that either has this very parameter
    and body or is not parameterized and is accepted by
    [compare_lambda_exp]; [create_exp] then takes a reference to that
    lambda and returns it, and allocates nothing. *)
Theorem lambda_constructor_shares_what_the_comparison_accepts
    (s : Btor) (p b : Z) (nb : BtorNode) (lk : lookup) (h : Z) (ps : option (gset Z))
    (q : Z) :
  simplify_all s [p; b] = Some [p; b] -> real_node s b = Some nb ->
  find_lambda_exp s p b (if is_kind BTOR_LAMBDA_NODE nb then None else Some ∅) true
  = Some (lk, h, ps) ->
  deref_lookup s lk = q -> q <> 0 ->
  exists nq,
    node_at s q = Some nq /\ in_table s q /\ n_kind nq = BTOR_LAMBDA_NODE
    /\ ((get3 (n_e nq) 0 = p /\ get3 (n_e nq) 1 = b)
        \/ (n_parameterized nq = false /\ compare_lambda_exp s p b q = Some true))
    /\ (n_refs nq < INT_MAX ->
        create_exp s BTOR_LAMBDA_NODE [p; b]
        = Some (store_node s q (wr_refs (n_refs nq + 1) nq), q)).
Proof.
  intros Hsimp Hb Hf Hd Hq0.
  destruct (find_lambda_exp_hit _ _ _ _ _ _ _ _ _ Hf Hd Hq0) as (nq & Hnq & Hin & Hk & Hcase).
  exists nq. split; [exact Hnq |]. split; [exact Hin |]. split; [exact Hk |]. split.
  - destruct Hcase as [H | (_ & H)]; [left | right]; exact H.
  - intros Hr. unfold create_exp. rewrite Hsimp. cbn [mbind option_bind].
    rewrite bool_decide_eq_true_2 by reflexivity. cbn [nth].
    rewrite Hb. cbn [mbind option_bind].
    unfold find_exp. rewrite bool_decide_eq_true_2 by reflexivity. cbn [nth].
    rewrite Hf. cbn [mbind option_bind]. rewrite Hd.
    destruct (Z.eqb_spec q 0); [contradiction |].
    rewrite (inc_exp_ref_counter_ok s q nq).
    + rewrite (node_at_real_addr _ _ _ Hnq). cbn [mbind option_bind].
      rewrite (deref_lookup_ext s) by reflexivity. rewrite Hd. reflexivity.
    + unfold real_node. rewrite (node_at_real_addr _ _ _ Hnq). exact Hnq.
    + exact Hr.
Qed.

Ltac bind_step :=
  match goal with
  | |- (?m ≫= _) = Some _ -> _ =>
      let x := fresh "x" in
      destruct m as [x |]; cbn [mbind option_bind]; [try destruct x | discriminate]
  | |- (if ?c then _ else _) = Some _ -> _ => destruct c
  | |- match ?m with Some _ => _ | None => _ end = Some _ -> _ => destruct m
  end.

Lemma new_lambda_exp_node_ptr s e_param e_exp s' p :
  new_lambda_exp_node s e_param e_exp = Some (s', p) ->
  p = ptr_of_id (length (nodes_id_table s)).
Proof.
  unfold new_lambda_exp_node.
  destruct (setup_node_and_add_to_id_table s _) as [[s1 p1] |] eqn:E;
    cbn [mbind option_bind]; [| discriminate].
  apply setup_node_ptr in E. subst p1.
  repeat bind_step; try discriminate; intros [= _ <-]; reflexivity.
Qed.

(** X20: a parameterized lambda is shared only with the construction from
    its own parameter and body: the lookup for any other parameter or
    body, alpha-equivalent or not, never ends on it, and [create_exp]
    never returns it; the comparison of [compare_lambda_exp] is not even
    tried on it. *)
Theorem parameterized_lambda_is_not_shared
    (s : Btor) (p b L : Z) (nl : BtorNode) :
  node_at s L = Some nl -> n_parameterized nl = true ->
  get3 (n_e nl) 0 <> p \/ get3 (n_e nl) 1 <> b ->
  (forall params cmp lk h ps,
     find_lambda_exp s p b params cmp = Some (lk, h, ps) -> deref_lookup s lk <> L)
  /\ (forall s' q, simplify_all s [p; b] = Some [p; b] ->
        create_exp s BTOR_LAMBDA_NODE [p; b] = Some (s', q) -> q <> L).
Proof.
  intros Hl Hpar Hdiff.
  assert (Hfind : forall params cmp lk h ps,
            find_lambda_exp s p b params cmp = Some (lk, h, ps) -> deref_lookup s lk <> L).
  { intros params cmp lk h ps Hf Hd.
    assert (HL0 : L <> 0) by (apply node_at_inv in Hl; lia).
    destruct (find_lambda_exp_hit _ _ _ _ _ _ _ _ _ Hf Hd HL0) as (nq & Hnq & _ & _ & Hcase).
    assert (nq = nl) by congruence. subst nq.
    destruct Hcase as [(E0 & E1) | (_ & Hnp & _)]; [| congruence].
    destruct Hdiff; contradiction. }
  split; [exact Hfind |].
  intros s' q Hsimp. unfold create_exp. rewrite Hsimp. cbn [mbind option_bind].
  rewrite bool_decide_eq_true_2 by reflexivity. cbn [nth].
  destruct (real_node s b) as [nb |]; cbn [mbind option_bind]; [| discriminate].
  unfold find_exp. rewrite bool_decide_eq_true_2 by reflexivity. cbn [nth].
  destruct (find_lambda_exp s p b _ true) as [[[lk h] ps] |] eqn:Hf;
    cbn [mbind option_bind]; [| discriminate].
  pose proof (Hfind _ _ _ _ _ Hf) as Hne.
  destruct (Z.eqb_spec (deref_lookup s lk) 0) as [E0 | Hn0].
  - destruct (enlarge_if_full s _ _) as [[s1 [[[lk1 e1] h1] ps1]] |] eqn:Ee;
      cbn [mbind option_bind]; [| discriminate].
    apply enlarge_if_full_nodes in Ee.
    destruct (new_lambda_exp_node s1 _ _) as [[s2 p2] |] eqn:En;
      cbn [mbind option_bind]; [| discriminate].
    apply new_lambda_exp_node_ptr in En. rewrite Ee in En.
    intros H.
    assert (q = p2).
    { destruct ps as [pset |]; [destruct (bool_decide (pset = ∅)) |];
        cbn [mbind option_bind] in H;
        repeat match type of H with
               | ((?m ≫= _) ≫= _) = Some _ =>
                   destruct m; cbn [mbind option_bind] in H; [| discriminate H]
               | (?m ≫= _) = Some _ =>
                   destruct m; cbn [mbind option_bind] in H; [| discriminate H]
               end;
        injection H as _ <-; reflexivity. }
    subst q p2. intros E. pose proof (node_at_lt _ _ _ Hl) as Hlt.
    rewrite <- E, id_of_ptr_of_id in Hlt. lia.
  - destruct (inc_exp_ref_counter s _) as [s1 |] eqn:Ei; cbn [mbind option_bind];
      [| discriminate].
    intros [= _ <-].
    rewrite (deref_lookup_ext s s1 lk) by (eapply inc_exp_ref_counter_chains; exact Ei).
    exact Hne.
Qed.

(** ** The constants zero and ones *)

(** X21: the constants zero and all-ones of a width are one node: zero is
    the regular handle of the constant node of the value zero, which is
    looked up or allocated, and all-ones, built next, is the inverted
    handle of that node and allocates nothing.  For the width one these
    are the Boolean constants: [btor_true_exp] is the inverted handle of
    [btor_false_exp]. *)
Theorem ones_is_the_inverted_handle_of_zero (s : Btor) (width : Z) :
  table_ok s -> 1 <= count_id_table s -> count_id_table s < INT_MAX ->
  (forall p n, in_table s p -> node_at s p = Some n -> n_refs n + 1 < INT_MAX) ->
  0 < width ->
  exists s1 z s2 n,
    btor_zero_exp s (btor_bitvec_sort width) = Some (s1, z)
    /\ btor_ones_exp s1 (btor_bitvec_sort width) = Some (s2, BTOR_INVERT_NODE z)
    /\ BTOR_IS_INVERTED_NODE z = false
    /\ node_at s2 z = Some n
    /\ n_kind n = BTOR_BV_CONST_NODE /\ n_bits n = Some (btor_new_bv width)
    /\ length (nodes_id_table s2) = length (nodes_id_table s1)
    /\ (length (nodes_id_table s1) <= S (length (nodes_id_table s)))%nat
    /\ (width = 1 ->
        btor_false_exp s = Some (s1, z)
        /\ btor_true_exp s1 = Some (s2, BTOR_INVERT_NODE z)).
Proof.
  intros Hok Hc1 Hmax Hrefs Hw.
  set (zero := btor_new_bv width).
  destruct (const_node_spec s zero Hok Hc1 Hmax Hrefs)
    as (s1 & p & n & lk & E1 & Hn & Hk & Hbits & Hr & Hf & Hd & Hp0 & Hlen & Hok1 & Hext).
  pose proof (const_node_hit s1 zero lk p n Hf Hd Hp0 Hn Hr) as E2.
  set (s2 := store_node s1 p (wr_refs (n_refs n + 1) n)) in *.
  assert (Hz : btor_zero_exp s (btor_bitvec_sort width) = Some (s1, p)).
  { unfold btor_zero_exp. cbn [btor_bitvec_sort btor_get_width_bitvec_sort mbind option_bind].
    rewrite btor_const_exp_unfold. fold zero.
    change (btor_get_bit_bv zero 0) with false. cbv iota. rewrite E1. reflexivity. }
  assert (Hones_lsb : btor_get_bit_bv (btor_ones_bv width) 0 = true).
  { unfold btor_get_bit_bv, btor_ones_bv. cbn [bv_bits]. apply Z.ones_spec_low. lia. }
  assert (Hnot : btor_not_bv (btor_ones_bv width) = zero).
  { unfold btor_not_bv, btor_ones_bv, zero, btor_new_bv. cbn [bv_bits bv_width].
    rewrite Z.lxor_nilpotent. reflexivity. }
  assert (Ho : btor_ones_exp s1 (btor_bitvec_sort width) = Some (s2, BTOR_INVERT_NODE p)).
  { unfold btor_ones_exp. cbn [btor_bitvec_sort btor_get_width_bitvec_sort mbind option_bind].
    rewrite btor_const_exp_unfold, Hones_lsb, Hnot, E2. reflexivity. }
  exists s1, p, s2, (wr_refs (n_refs n + 1) n).
  split; [exact Hz |]. split; [exact Ho |].
  split; [apply (node_at_regular _ _ _ Hn) |].
  split; [eapply node_at_store_eq; exact Hn |].
  split; [exact Hk |]. split; [exact Hbits |].
  split; [apply length_store_node |]. split; [lia |].
  intros ->. split.
  - exact Hz.
  - unfold btor_true_exp, btor_one_exp.
    cbn [btor_bitvec_sort btor_get_width_bitvec_sort mbind option_bind].
    unfold btor_ones_exp in Ho.
    cbn [btor_bitvec_sort btor_get_width_bitvec_sort mbind option_bind] in Ho.
    exact Ho.
Qed.

(** ** Disconnecting *)

(** X22: [disconnect_child_exp] takes the parent edge [(parent, pos)] out
    of the parent list of the child: the list [l1 ++ (parent, pos) :: l2]
    becomes [l1 ++ l2], the parent count of the child drops by one, slot
    [pos] of the parent and its two links are cleared, and the other
    slots stay.  The reference count of the child is not touched: the
    reference of the edge is left to the caller to release. *)
Theorem disconnect_child_exp_unsplices
    (s : Btor) (parent : Z) (pos : nat) (pn cn : BtorNode) (l1 l2 : list Z) :
  node_at s parent = Some pn -> (pos < 3)%nat ->
  real_node s (get3 (n_e pn) pos) = Some cn ->
  parent_list s cn (l1 ++ BTOR_TAG_NODE parent pos :: l2) ->
  exists s' pn' cn',
    disconnect_child_exp s parent pos = Some s'
    /\ node_at s' parent = Some pn'
    /\ real_node s' (get3 (n_e pn) pos) = Some cn'
    /\ parent_list s' cn' (l1 ++ l2)
    /\ n_parents cn' = n_parents cn - 1 /\ n_refs cn' = n_refs cn
    /\ n_e pn' = set3 (n_e pn) pos 0 /\ get3 (n_e pn') pos = 0
    /\ next_link s' (BTOR_TAG_NODE parent pos) = Some 0
    /\ prev_link s' (BTOR_TAG_NODE parent pos) = Some 0
    /\ length (nodes_id_table s') = length (nodes_id_table s)
    /\ ut_chains s' = ut_chains s.
Proof.
  intros Hp Hpos Hc Hl.
  destruct (disconnect_child_exp_spec s parent pos pn cn l1 l2 Hp Hpos Hc Hl)
    as (s' & Es & Ts & Len & Lv & Ap & Ee & Pa & Lm & Fi & La & Nt & Pt & Nl & Nf & Pl & Pf).
  set (rc := BTOR_REAL_ADDR_NODE (get3 (n_e pn) pos)) in *.
  set (tagged := BTOR_TAG_NODE parent pos) in *.
  destruct (proj2 (Lv parent)) as [pn' Hp']; [eauto |].
  destruct (proj2 (Lv rc)) as [cn' Hc']; [unfold real_node in Hc; eauto |].
  destruct Hl as (Hfirst & Hlast & Hchain & Hnd).
  destruct (NoDup_remove_mid _ _ _ Hnd) as [Hnd' Htn].
  exists s', pn', cn'. split; [exact Es |]. split; [exact Hp' |]. split; [exact Hc' |].
  pose proof (fld_of_node n_first_parent _ _ _ Hc') as F'. rewrite Fi in F'.
  pose proof (fld_of_node n_last_parent _ _ _ Hc') as L'. rewrite La in L'.
  pose proof (fld_of_node n_parents _ _ _ Hc') as P'. rewrite Pa in P'.
  pose proof (fld_of_node n_e _ _ _ Hp') as E'. rewrite Ee in E'.
  destruct (decide (rc = rc)) as [_ |]; [| contradiction].
  destruct (decide (parent = parent)) as [_ |]; [| contradiction].
  injection F' as F'. injection L' as L'. injection P' as P'. injection E' as E'.
  split; [| split; [symmetry; exact P' | split]].
  - split; [symmetry; exact F' |]. split; [symmetry; exact L' |]. split; [| exact Hnd'].
    apply (chain_remove s s' 0 l1 tagged l2 Hchain Hnd).
    + exact Pl.
    + intros x Hx Hxh. apply Pf; [exact Hxh |]. intros ->. contradiction.
    + exact Nl.
    + intros x Hx Hxl. apply Nf; [exact Hxl |]. intros ->. contradiction.
  - unfold real_node in Hc. fold rc in Hc.
    exact (f_equal n_refs (fld_eq_node apart s s' rc cn cn' (Ap rc) Hc Hc')).
  - split; [symmetry; exact E' |]. split.
    + rewrite <- E', get3_set3 by exact Hpos.
      destruct (decide (pos = pos)); [reflexivity | contradiction].
    + split; [exact Nt |]. split; [exact Pt |]. split; [exact Len |].
      apply same_tables_chains. exact Ts.
Qed.

(** ** Copies of a static_rho *)

Lemma copy_static_rho_each s entries :
  copy_static_rho s entries = inc_each s (rho_handles (Some entries)).
Proof.
  revert s. induction entries as [| [key data] entries IH]; intros s; [reflexivity |].
  cbn [copy_static_rho rho_handles flat_map fst snd app inc_each]. unfold btor_copy_exp.
  destruct (inc_exp_ref_counter s data) as [s1 |]; cbn [mbind option_bind]; [| reflexivity].
  destruct (inc_exp_ref_counter s1 key) as [s2 |]; cbn [mbind option_bind]; [| reflexivity].
  apply IH.
Qed.

(** The first increment can be made last. *)
Lemma inc_each_last hs : forall s h,
  (s1 ← inc_exp_ref_counter s h; inc_each s1 hs)
  = (s1 ← inc_each s hs; inc_exp_ref_counter s1 h).
Proof.
  induction hs as [| x hs IH]; intros s h; cbn [inc_each].
  - cbn [mbind option_bind]. destruct (inc_exp_ref_counter s h); reflexivity.
  - transitivity (s2 ← (s1 ← inc_exp_ref_counter s h; inc_exp_ref_counter s1 x); inc_each s2 hs).
    { destruct (inc_exp_ref_counter s h); reflexivity. }
    rewrite inc_exp_ref_counter_commute.
    destruct (inc_exp_ref_counter s x) as [s1 |]; cbn [mbind option_bind]; [| reflexivity].
    apply IH.
Qed.

(** The references taken for a list of handles are given back by the
    releases of the handles. *)
Lemma release_each_after_inc_each hs : forall s,
  (forall h, h ∈ hs -> exists n, real_node s h = Some n /\ 1 <= n_refs n
       /\ n_refs n + occurrences (BTOR_REAL_ADDR_NODE h) hs < INT_MAX + 1) ->
  exists s1,
    inc_each s hs = Some s1
    /\ length (nodes_id_table s1) = length (nodes_id_table s)
    /\ (forall x n, node_at s x = Some n ->
          node_at s1 x = Some (wr_refs (n_refs n + occurrences x hs) n))
    /\ release_each btor_release_exp s1 hs = Some s.
Proof.
  induction hs as [| h hs IH]; intros s Hall.
  - exists s. split; [reflexivity |]. split; [reflexivity |]. split; [| reflexivity].
    intros x n Hx. cbn [occurrences]. rewrite Z.add_0_r, wr_refs_same. exact Hx.
  - destruct (Hall h) as (nh & Hnh & H1h & Hbh); [apply list_elem_of_here |].
    cbn [occurrences] in Hbh.
    destruct (decide (BTOR_REAL_ADDR_NODE h = BTOR_REAL_ADDR_NODE h)) as [_ |]; [| contradiction].
    destruct (IH s) as (st & Et & Lt & Nt & Rt).
    { intros x Hx. destruct (Hall x) as (nx & Hnx & H1x & Hbx); [apply list_elem_of_further, Hx |].
      exists nx. split; [exact Hnx |]. split; [exact H1x |]. cbn [occurrences] in Hbx.
      destruct (decide _); lia. }
    pose proof (Nt _ _ Hnh) as Hht.
    pose proof (occurrences_nonneg (BTOR_REAL_ADDR_NODE h) hs) as Hnn.
    destruct (release_after_inc st h (wr_refs (n_refs nh + occurrences (BTOR_REAL_ADDR_NODE h) hs) nh))
      as (s1 & E1 & Hs1 & R1); [exact Hht | simpl; lia | simpl; lia |].
    exists s1. split; [| split; [| split]].
    + cbn [inc_each]. rewrite inc_each_last, Et. cbn [mbind option_bind]. exact E1.
    + rewrite Hs1, length_store_node. exact Lt.
    + intros x n Hx. rewrite Hs1. cbn [occurrences].
      destruct (decide (x = BTOR_REAL_ADDR_NODE h)) as [-> | Hne].
      * assert (n = nh) by (unfold real_node in Hnh; congruence). subst n.
        erewrite node_at_store_eq by exact Hht. rewrite wr_refs_twice. simpl n_refs.
        destruct (decide (BTOR_REAL_ADDR_NODE h = BTOR_REAL_ADDR_NODE h)); [| contradiction].
        f_equal. f_equal. lia.
      * rewrite node_at_store_ne; [| congruence | unfold real_node in Hht; congruence].
        rewrite (Nt x n Hx). destruct (decide (x = BTOR_REAL_ADDR_NODE h)); [contradiction |].
        f_equal.
    + cbn [release_each]. rewrite R1. cbn [mbind option_bind]. exact Rt.
Qed.

(** Taking a reference and installing a static_rho commute. *)
Lemma inc_exp_ref_counter_set_rho s other r h :
  (s0 ← btor_lambda_set_static_rho s other r; inc_exp_ref_counter s0 h)
  = (s1 ← inc_exp_ref_counter s h; btor_lambda_set_static_rho s1 other r).
Proof.
  unfold btor_lambda_set_static_rho, upd_node, inc_exp_ref_counter.
  set (q := BTOR_REAL_ADDR_NODE h).
  destruct (node_at s other) as [m |] eqn:Hm; cbn [mbind option_bind].
  - destruct (decide (q = other)) as [E | Hne].
    + rewrite E. erewrite node_at_store_eq by exact Hm. rewrite Hm.
      cbn [mbind option_bind]. simpl n_refs.
      destruct (n_refs m =? INT_MAX); cbn [mbind option_bind]; [reflexivity |].
      erewrite node_at_store_eq by exact Hm. cbn [mbind option_bind].
      rewrite !store_store. reflexivity.
    + rewrite node_at_store_ne; [| congruence | congruence].
      destruct (node_at s q) as [nq |] eqn:Hq; cbn [mbind option_bind]; [| reflexivity].
      destruct (n_refs nq =? INT_MAX); cbn [mbind option_bind]; [reflexivity |].
      rewrite node_at_store_ne; [| congruence | congruence].
      rewrite Hm. cbn [mbind option_bind]. f_equal. apply store_node_commute.
      apply node_at_inv in Hm as (_ & _ & _ & Pm). apply node_at_inv in Hq as (_ & _ & _ & Pq).
      intros E. apply Hne. rewrite <- Pm, <- Pq, E. reflexivity.
  - destruct (node_at s q) as [nq |] eqn:Hq; cbn [mbind option_bind]; [| reflexivity].
    destruct (n_refs nq =? INT_MAX); cbn [mbind option_bind]; [reflexivity |].
    destruct (decide (other = q)) as [E | Hne]; [congruence |].
    rewrite node_at_store_ne; [| congruence | congruence]. rewrite Hm. reflexivity.
Qed.

Lemma inc_each_set_rho hs : forall s other r,
  (s0 ← btor_lambda_set_static_rho s other r; inc_each s0 hs)
  = (s1 ← inc_each s hs; btor_lambda_set_static_rho s1 other r).
Proof.
  induction hs as [| h hs IH]; intros s other r; cbn [inc_each].
  - cbn [mbind option_bind]. destruct (btor_lambda_set_static_rho s other r); reflexivity.
  - transitivity (s2 ← (s0 ← btor_lambda_set_static_rho s other r; inc_exp_ref_counter s0 h);
                  inc_each s2 hs).
    { destruct (btor_lambda_set_static_rho s other r); reflexivity. }
    rewrite inc_exp_ref_counter_set_rho.
    destruct (inc_exp_ref_counter s h) as [s1 |]; cbn [mbind option_bind]; [| reflexivity].
    apply IH.
Qed.

(** The bounds on the reference counts of a list of handles, decided. *)
Lemma refs_room_sound s hs :
  forallb (fun h => match real_node s h with
                    | Some nh =>
                        (1 <=? n_refs nh)
                        && (n_refs nh + occurrences (BTOR_REAL_ADDR_NODE h) hs <? INT_MAX + 1)
                    | None => false
                    end) hs = true ->
  forall h, h ∈ hs ->
    exists nh, real_node s h = Some nh /\ 1 <= n_refs nh
      /\ n_refs nh + occurrences (BTOR_REAL_ADDR_NODE h) hs < INT_MAX + 1.
Proof.
  intros H h Hh. pose proof (forallb_elem _ _ _ H Hh) as Hb. cbv beta in Hb.
  destruct (real_node s h) as [nh |]; [| discriminate].
  apply andb_prop in Hb as [H1 H2]. exists nh. split; [reflexivity |]. lia.
Qed.

(** X23: [btor_lambda_delete_static_rho] undoes
    [btor_lambda_copy_static_rho]: the copy has the entries of the
    static_rho of the lambda and takes one reference for every key and
    value; when the copy is installed in a lambda that has none and
    deleted there, every reference is given back and the state is the one
    before the copy. *)
Theorem btor_lambda_delete_static_rho_undoes_copy
    (s : Btor) (lambda other : Z) (n m : BtorNode) (entries : list (Z * Z)) :
  node_at s lambda = Some n -> n_static_rho n = Some entries ->
  node_at s other = Some m -> n_static_rho m = None ->
  (forall h, h ∈ rho_handles (Some entries) ->
     exists nh, real_node s h = Some nh /\ 1 <= n_refs nh
       /\ n_refs nh + occurrences (BTOR_REAL_ADDR_NODE h) (rho_handles (Some entries))
          < INT_MAX + 1) ->
  exists s1 s2,
    btor_lambda_copy_static_rho s lambda = Some (s1, entries)
    /\ (forall x nx, node_at s x = Some nx ->
          node_at s1 x
          = Some (wr_refs (n_refs nx + occurrences x (rho_handles (Some entries))) nx))
    /\ btor_lambda_set_static_rho s1 other (Some entries) = Some s2
    /\ btor_lambda_get_static_rho s2 other = Some (Some entries)
    /\ btor_lambda_delete_static_rho s2 other = Some s.
Proof.
  intros Hn Hrho Hm Hnone Hall.
  set (hs := rho_handles (Some entries)) in *.
  destruct (release_each_after_inc_each _ s Hall) as (s1 & E1 & L1 & N1 & _).
  pose proof (N1 _ _ Hm) as Hm1.
  set (m1 := wr_refs (n_refs m + occurrences other hs) m) in *.
  set (s' := store_node s other (wr_static_rho (Some entries) m)).
  destruct (release_each_after_inc_each hs s') as (s2 & E2 & _ & N2 & R2).
  { intros h Hh. destruct (Hall h Hh) as (nh & Hnh & H1 & Hb). unfold real_node in *.
    destruct (decide (BTOR_REAL_ADDR_NODE h = other)) as [E | Hne].
    - exists (wr_static_rho (Some entries) m). rewrite E in *. unfold s'.
      erewrite node_at_store_eq by exact Hm.
      assert (nh = m) by congruence. subst nh. simpl. auto.
    - exists nh. unfold s'. rewrite node_at_store_ne; [auto | congruence | congruence]. }
  pose proof (inc_each_set_rho hs s other (Some entries)) as Hc.
  unfold btor_lambda_set_static_rho in Hc at 1.
  rewrite (upd_node_live _ _ _ _ Hm) in Hc. cbn [mbind option_bind] in Hc.
  fold s' in Hc. rewrite E1, E2 in Hc. cbn [mbind option_bind] in Hc.
  exists s1, s2.
  split; [| split; [exact N1 | split; [symmetry; exact Hc | split]]].
  - unfold btor_lambda_copy_static_rho. rewrite Hn. cbn [mbind option_bind].
    rewrite Hrho. cbn [mbind option_bind]. rewrite copy_static_rho_each. fold hs.
    rewrite E1. reflexivity.
  - unfold btor_lambda_get_static_rho.
    erewrite N2 by (unfold s'; eapply node_at_store_eq; exact Hm). reflexivity.
  - unfold btor_lambda_delete_static_rho.
    erewrite N2 by (unfold s'; eapply node_at_store_eq; exact Hm).
    cbn [mbind option_bind]. simpl n_static_rho. cbv beta iota.
    rewrite release_static_rho_each. fold hs. rewrite R2. cbn [mbind option_bind].
    unfold btor_lambda_set_static_rho, s'.
    erewrite upd_node_live by (eapply node_at_store_eq; exact Hm).
    rewrite store_store. f_equal.
    replace (wr_static_rho None (wr_static_rho (Some entries) m)) with m.
    + apply store_node_same. exact Hm.
    + destruct m. simpl in *. subst. reflexivity.
Qed.

(** ** Short argument lists *)

(** X24: one to three arguments fit in one args node: [btor_args_exp]
    returns what [create_exp] returns for the args node of the forwarded
    arguments, without a chain: a node of the unique table whose children
    are the arguments in their order; at most one node is allocated and
    the invariant of the state is kept. *)
Theorem btor_args_exp_of_few_arguments (bound : Z) (s : Btor) (args e : list Z) :
  state_ok bound s -> count_id_table s < INT_MAX -> bound + 3 < INT_MAX ->
  args <> [] -> (length args <= 3)%nat ->
  simplify_all s args = Some e -> (forall c, c ∈ e -> arg_ok s c) ->
  exists s1 p n,
    btor_args_exp s args = Some (s1, p)
    /\ create_exp s BTOR_ARGS_NODE e = Some (s1, p)
    /\ state_ok (bound + 3) s1
    /\ in_table s1 p /\ node_at s1 p = Some n
    /\ n_kind n = BTOR_ARGS_NODE /\ children n = e
    /\ (length (nodes_id_table s) <= length (nodes_id_table s1)
        <= S (length (nodes_id_table s)))%nat.
Proof.
  intros Hso Hc Hb Hne Hlen Hsimp Hargs.
  assert (Hle : length e = length args).
  { clear - Hsimp. revert e Hsimp. induction args as [| a l IH]; intros e H.
    - injection H as <-. reflexivity.
    - destruct e as [| x e].
      + simpl in H. destruct (btor_simplify_exp s a); simpl in H; [| discriminate].
        destruct (simplify_all s l); simpl in H; discriminate.
      + apply simplify_all_cons_inv in H as [_ H]. simpl. f_equal. apply IH. exact H. }
  destruct (create_exp_args_spec bound s e Hso Hc Hb) as
    (s1 & p & n & E & Hso1 & _ & Hin & Hn & Hk & Hch & _ & Hl & _);
    [destruct e, args; simpl in *; congruence | lia | exact Hargs |].
  exists s1, p, n. split; [| tauto].
  destruct args as [| a0 [| a1 [| a2 [| a3 l]]]]; [contradiction | | | | simpl in Hlen; lia].
  - destruct e as [| e0 [| ? ?]]; try discriminate Hle.
    apply simplify_all_cons_inv in Hsimp as [H0 _].
    unfold btor_args_exp. cbn [length rev app Nat.leb ARGS_MAX_NUM_CHILDREN].
    change (Z.of_nat 1 - 1) with 0.
    rewrite (btor_args_loop_create s a0 e0) by exact H0.
    change (map _ (seq 0 1)) with [e0]. rewrite E. reflexivity.
  - destruct e as [| e0 [| e1 [| ? ?]]]; try discriminate Hle.
    apply simplify_all_cons_inv in Hsimp as [H0 Hsimp].
    apply simplify_all_cons_inv in Hsimp as [H1 _].
    unfold btor_args_exp. cbn [length rev app Nat.leb ARGS_MAX_NUM_CHILDREN].
    change (Z.of_nat 2 - 1) with 1.
    rewrite (btor_args_loop_store s a1 e1) by (assumption || lia).
    rewrite (btor_args_loop_create s a0 e0) by exact H0.
    change (map _ (seq 0 2)) with [e0; e1]. rewrite E. reflexivity.
  - destruct e as [| e0 [| e1 [| e2 [| ? ?]]]]; try discriminate Hle.
    apply simplify_all_cons_inv in Hsimp as [H0 Hsimp].
    apply simplify_all_cons_inv in Hsimp as [H1 Hsimp].
    apply simplify_all_cons_inv in Hsimp as [H2 _].
    unfold btor_args_exp. cbn [length rev app Nat.leb ARGS_MAX_NUM_CHILDREN].
    change (Z.of_nat 3 - 1) with 2.
    rewrite (btor_args_loop_first s a2 a1 a0 e2 e1 e0) by assumption.
    rewrite E. reflexivity.
Qed.

(** ** The command line of synthebtor *)

Lemma arguments_files_ok can_read can_write argv : forall st,
  Synthebtor.files_ok st ->
  Synthebtor.files_ok (fst (Synthebtor.arguments can_read can_write st argv)).
Proof.
  induction argv as [| a argv IH]; intros st Hst; [exact Hst |].
  cbn [Synthebtor.arguments].
  destruct (String.eqb a "-h"); [exact Hst |].
  destruct (String.eqb a "-v").
  { apply IH. destruct Hst as [H | [H | H]]; [left | right; left | right; right]; exact H. }
  destruct (Synthebtor.starts_with_dash a); [exact Hst |].
  destruct (Synthebtor.close_output st) eqn:Eo; [exact Hst |].
  destruct (Synthebtor.close_input st) eqn:Ei.
  - destruct (String.eqb_spec a (Synthebtor.input_name st)) as [| Hne]; [exact Hst |].
    destruct (can_write a); [| exact Hst]. apply IH.
    destruct Hst as [H | [H | H]]; [destruct H; congruence | | destruct H as (_ & ? & _); congruence].
    destruct H as (_ & _ & Hop & _). right. right. cbn. rewrite Hop.
    repeat split; congruence.
  - destruct (can_read a); [| exact Hst]. apply IH.
    destruct Hst as [H | [H | H]]; [| destruct H; congruence | destruct H; congruence].
    destruct H as (_ & _ & Hop & _ & Hout). right. left. cbn. rewrite Hop.
    repeat split; assumption.
Qed.

Lemma arguments_accepted can_read can_write argv : forall st,
  snd (Synthebtor.arguments can_read can_write st argv) = None ->
  let st' := fst (Synthebtor.arguments can_read can_write st argv) in
  Synthebtor.verbosity st'
  = Synthebtor.verbosity st + Z.of_nat (length (filter (fun a => a = "-v"%string) argv))
  /\ Synthebtor.opened st'
     = Synthebtor.opened st
       ++ zip (filter (fun a => Synthebtor.starts_with_dash a = false) argv)
              (if Synthebtor.close_input st then ["w"%string] else ["r"%string; "w"%string])
  /\ (length (filter (fun a => Synthebtor.starts_with_dash a = false) argv)
      <= (if Synthebtor.close_output st then 0
          else if Synthebtor.close_input st then 1 else 2))%nat
  /\ Forall (fun a => a = "-v"%string \/ Synthebtor.starts_with_dash a = false) argv
  /\ Forall (fun a => can_read a = true)
       (if Synthebtor.close_input st then []
        else take 1 (filter (fun a => Synthebtor.starts_with_dash a = false) argv))
  /\ Forall (fun a => can_write a = true)
       (if Synthebtor.close_input st
        then filter (fun a => Synthebtor.starts_with_dash a = false) argv
        else drop 1 (filter (fun a => Synthebtor.starts_with_dash a = false) argv)).
Proof.
  induction argv as [| a argv IH]; intros st.
  - intros _. cbn. rewrite app_nil_r.
    split; [lia |]. split; [reflexivity |].
    split; [destruct (Synthebtor.close_output st), (Synthebtor.close_input st); lia |].
    split; [constructor |].
    destruct (Synthebtor.close_input st); split; constructor.
  - cbn [Synthebtor.arguments].
    destruct (String.eqb_spec a "-h") as [| Hh]; [discriminate |].
    destruct (String.eqb_spec a "-v") as [-> | Hv].
    { intros H. specialize (IH _ H). cbn [fst] in *. cbn in IH.
      destruct IH as (Hverb & Hop & Hlen & Hall & Hr & Hw).
      rewrite filter_cons_True by reflexivity.
      rewrite filter_cons_False by (cbn; discriminate).
      split; [rewrite Hverb; cbn [length]; lia |].
      split; [exact Hop |]. split; [exact Hlen |].
      split; [constructor; [left; reflexivity | exact Hall] |].
      split; [exact Hr | exact Hw]. }
    destruct (Synthebtor.starts_with_dash a) eqn:Ed; [discriminate |].
    destruct (Synthebtor.close_output st) eqn:Eo; [discriminate |].
    rewrite (filter_cons_False _ a) by exact Hv.
    rewrite (filter_cons_True _ a) by exact Ed.
    destruct (Synthebtor.close_input st) eqn:Ei.
    + destruct (String.eqb a (Synthebtor.input_name st)); [discriminate |].
      destruct (can_write a) eqn:Ew; [| discriminate]. cbn [negb].
      intros H. specialize (IH _ H). cbn [fst] in *. cbn in IH.
      destruct IH as (Hverb & Hop & Hlen & Hall & _ & _).
      assert (Hnil : filter (fun a => Synthebtor.starts_with_dash a = false) argv = [])
        by (apply nil_length_inv; lia).
      rewrite Hnil in *. cbn in Hop. rewrite app_nil_r in Hop.
      split; [exact Hverb |]. split; [rewrite Hop; reflexivity |].
      split; [cbn; lia |]. split; [constructor; [right; exact Ed | exact Hall] |].
      split; [constructor |]. constructor; [assumption | constructor].
    + destruct (can_read a) eqn:Er; [| discriminate]. cbn [negb].
      intros H. specialize (IH _ H). cbn [fst] in *. cbn in IH.
      destruct IH as (Hverb & Hop & Hlen & Hall & _ & Hw).
      split; [exact Hverb |].
      split; [rewrite Hop, <- app_assoc; reflexivity |].
      split; [cbn [length]; lia |]. split; [constructor; [right; exact Ed | exact Hall] |].
      split; [| exact Hw]. cbn. constructor; [assumption | constructor].
Qed.

(** X25: whatever the arguments and the file system, and however the loop
    ends, [synthebtor] has opened no file, or its input for reading, or its
    input for reading and then its output for writing, and the two under
    different names: it never opens for writing the name it reads from. *)
Theorem synthebtor_never_writes_its_input
    (can_read can_write : string -> bool) (argv : list string) :
  Synthebtor.files_ok
    (fst (Synthebtor.arguments can_read can_write Synthebtor.initial argv)).
Proof.
  apply arguments_files_ok. left. repeat split; reflexivity.
Qed.

(** X26: when the loop over the arguments ends without leaving the
    program, every argument is the option -v or a name that does not start
    with a dash; the verbosity is the number of -v's; there are at most two
    names, and they have been opened in their order, the first for reading
    and the second for writing. *)
Theorem synthebtor_accepted_arguments
    (can_read can_write : string -> bool) (argv : list string) :
  snd (Synthebtor.arguments can_read can_write Synthebtor.initial argv) = None ->
  let st := fst (Synthebtor.arguments can_read can_write Synthebtor.initial argv) in
  let names := filter (fun a => Synthebtor.starts_with_dash a = false) argv in
  Forall (fun a => a = "-v"%string \/ Synthebtor.starts_with_dash a = false) argv
  /\ Synthebtor.verbosity st = Z.of_nat (length (filter (fun a => a = "-v"%string) argv))
  /\ (length names <= 2)%nat
  /\ Synthebtor.opened st = zip names ["r"%string; "w"%string]
  /\ Forall (fun a => can_read a = true) (take 1 names)
  /\ Forall (fun a => can_write a = true) (drop 1 names).
Proof.
  intros H st names.
  destruct (arguments_accepted can_read can_write argv _ H)
    as (Hverb & Hop & Hlen & Hall & Hr & Hw).
  fold st in Hverb, Hop. cbn in Hverb, Hop, Hlen, Hr, Hw.
  fold names in Hop, Hlen, Hr, Hw. tauto.
Qed.

(** ** Allocation of a binary operator *)

Lemma binary_bv_kind_facts kind :
  binary_bv_kind kind = true ->
  kind <> BTOR_LAMBDA_NODE /\ kind <> BTOR_ARGS_NODE /\ kind <> BTOR_BV_EQ_NODE
  /\ kind <> BTOR_FUN_EQ_NODE /\ kind <> BTOR_APPLY_NODE
  /\ kind <> BTOR_BV_CONST_NODE /\ hashed_by_children kind = true.
Proof.
  destruct kind; intros H; try discriminate H; repeat split; discriminate || reflexivity.
Qed.

Lemma extends_sort_id s s' x v :
  extends s s' -> btor_exp_get_sort_id s x = Some v -> btor_exp_get_sort_id s' x = Some v.
Proof.
  intros Hext. unfold btor_exp_get_sort_id.
  destruct (real_node s x) as [n |] eqn:Hn; [| discriminate].
  destruct (extends_real_node _ _ _ _ Hext Hn) as (n' & Hn' & E).
  rewrite Hn'. stable_fields E. congruence.
Qed.

Lemma extends_width s s' x v :
  extends s s' -> btor_get_exp_width s x = Some v -> btor_get_exp_width s' x = Some v.
Proof.
  intros Hext. unfold btor_get_exp_width.
  destruct (real_node s x) as [n |] eqn:Hn; [| discriminate].
  destruct (extends_real_node _ _ _ _ Hext Hn) as (n' & Hn' & E).
  rewrite Hn'. stable_fields E. congruence.
Qed.

Lemma new_node_sort_extends s s' kind e srt :
  extends s s' -> new_node_sort s kind e = Some srt -> new_node_sort s' kind e = Some srt.
Proof.
  intros Hext. unfold new_node_sort.
  destruct kind; try (apply extends_sort_id; exact Hext); try (intros H; exact H).
  - destruct (btor_get_exp_width s (nth 0 e 0)) as [w0 |] eqn:E0; [| discriminate].
    destruct (btor_get_exp_width s (nth 1 e 0)) as [w1 |] eqn:E1; [| discriminate].
    rewrite (extends_width _ _ _ _ Hext E0), (extends_width _ _ _ _ Hext E1). trivial.
  - destruct (btor_exp_get_sort_id s (nth 0 e 0)) as [v |] eqn:E0; [| discriminate].
    rewrite (extends_sort_id _ _ _ _ Hext E0). trivial.
Qed.

Lemma new_node_unfold s kind e srt :
  binary_bv_kind kind = true ->
  (0 < length (nodes_id_table s))%nat -> count_id_table s <> INT_MAX ->
  new_node_sort s kind e = Some srt ->
  new_node s kind e
  = (s1 ← connect_children (alloc_node s (new_bv_node s kind e srt))
            (ptr_of_id (length (nodes_id_table s))) e 0;
     Some (s1, ptr_of_id (length (nodes_id_table s)))).
Proof.
  intros Hk Hpos Hc Hs. unfold new_node. rewrite setup_alloc by exact Hc.
  cbn [mbind option_bind].
  set (n0 := wr_id (count_id_table s)
               (wr_refs 1 (wr_arity (length e) (set_kind kind calloc_node)))).
  assert (E0 : (if is_kind BTOR_APPLY_NODE n0 then wr_apply_below true n0 else n0) = n0).
  { unfold is_kind. rewrite bool_decide_eq_false_2; [reflexivity |].
    simpl. apply binary_bv_kind_facts. exact Hk. }
  cbv zeta. fold n0. rewrite E0.
  rewrite (new_node_sort_extends s (alloc_node s n0) kind e srt (extends_alloc s n0) Hs).
  cbn [mbind option_bind]. rewrite upd_alloc by exact Hpos. cbn [mbind option_bind].
  change (wr_sort_id srt n0) with (new_bv_node s kind e srt).
  destruct (connect_children _ _ e 0) as [s1 |]; cbn [mbind option_bind]; [| reflexivity].
  rewrite bool_decide_eq_false_2 by (apply binary_bv_kind_facts; exact Hk). reflexivity.
Qed.

(** The new node has the operands as its children; the nodes of the
    operands gain a reference for each slot that names them, and nothing
    else changes in the stable part of the old nodes. *)
Lemma new_node_spec bound s kind e srt :
  binary_bv_kind kind = true ->
  1 <= count_id_table s -> count_id_table s < INT_MAX ->
  links_live s -> refs_within bound s -> bound + 3 < INT_MAX ->
  (length e <= 3)%nat -> (forall c, c ∈ e -> is_Some (real_node s c)) ->
  new_node_sort s kind e = Some srt ->
  let p' := ptr_of_id (length (nodes_id_table s)) in
  exists s_n n',
    new_node s kind e = Some (s_n, p')
    /\ node_at s_n p' = Some n'
    /\ n_kind n' = kind /\ children n' = e /\ n_simplified n' = 0
    /\ n_refs n' = 1 /\ n_sort_id n' = srt
    /\ same_tables s s_n
    /\ (forall x n, node_at s x = Some n ->
          exists m, node_at s_n x = Some m /\ stable m = stable n
                    /\ n_refs m = n_refs n + occurrences x e)
    /\ (forall x m, node_at s_n x = Some m -> x = p' \/ is_Some (node_at s x))
    /\ links_live s_n
    /\ length (nodes_id_table s_n) = S (length (nodes_id_table s)).
Proof.
  intros Hkind Hc1 Hmax HLL Hrefs Hb Hlen Hargs Hsort p'.
  assert (Hpos : (0 < length (nodes_id_table s))%nat) by (unfold count_id_table in Hc1; lia).
  set (n0 := new_bv_node s kind e srt).
  set (s_a := alloc_node s n0).
  assert (Hp0 : node_at s_a p' = Some n0) by (apply node_at_alloc_new; exact Hpos).
  assert (Hfresh : node_at s p' = None) by apply node_at_beyond.
  destruct (connect_children_frame (Z.max bound 1) s_a p' e 0 n0 Hp0)
    as (s_c & Ec & Tc & Lc & Sc & Shc & Nec & Rc & LLc).
  { simpl. exact Hlen. }
  { apply links_live_alloc; [exact Hpos | reflexivity | exact HLL]. }
  { intros c Hc. destruct (Hargs c Hc) as [n Hn].
    exists n. apply node_at_alloc_old. exact Hn. }
  { intros x n Hx. apply node_at_alloc_inv in Hx as [(-> & ->) | Hx]; [| | exact Hpos].
    - simpl. lia.
    - pose proof (Hrefs x n Hx). lia. }
  { unfold INT_MAX in *. lia. }
  destruct (fld_some _ _ _ _ Nec) as (pc & Hpc & Hec).
  assert (Hshape : shape pc = shape n0).
  { specialize (Shc p'). rewrite (fld_of_node _ _ _ _ Hpc), (fld_of_node _ _ _ _ Hp0) in Shc.
    congruence. }
  assert (Hrpc : n_refs pc = 1).
  { specialize (Rc p'). rewrite (fld_of_node _ _ _ _ Hpc), (fld_of_node _ _ _ _ Hp0) in Rc.
    simpl in Rc. injection Rc as Rc. rewrite Rc.
    rewrite (occurrences_fresh s p' e Hfresh) by exact Hargs.
    lia. }
  exists s_c, pc.
  split.
  { rewrite (new_node_unfold s kind e srt Hkind Hpos) by (exact Hsort || lia).
    fold n0. fold s_a. fold p'. rewrite Ec. reflexivity. }
  split; [exact Hpc |].
  pose proof (f_equal n_kind Hshape) as Hk. pose proof (f_equal n_arity Hshape) as Ha.
  pose proof (f_equal n_simplified Hshape) as Hs.
  pose proof (f_equal n_sort_id Hshape) as Hso. simpl in Hk, Ha, Hs, Hso.
  split; [exact Hk |].
  split.
  { unfold children. rewrite Ha, Hec. apply children_fill3. exact Hlen. }
  split; [exact Hs |]. split; [exact Hrpc |]. split; [exact Hso |].
  split.
  { eapply same_tables_trans; [| exact Tc].
    unfold same_tables, s_a, alloc_node. destruct s. reflexivity. }
  split.
  { intros x n Hx.
    assert (Hne : x <> p') by (intros ->; congruence).
    pose proof (node_at_alloc_old s n0 x n Hx) as Hxa.
    specialize (Sc x Hne). specialize (Rc x).
    rewrite (fld_of_node _ _ _ _ Hxa) in Sc. rewrite (fld_of_node _ _ _ _ Hxa) in Rc.
    apply fld_some in Sc as (m & Hm & E). rewrite (fld_of_node _ _ _ _ Hm) in Rc.
    exists m. split; [exact Hm |]. split; [exact E |]. simpl in Rc. congruence. }
  split.
  { intros x m Hx. destruct (decide (x = p')) as [-> | Hne]; [auto |]. right.
    assert (Hl : is_Some (node_at s_a x)) by (apply Lc; eauto).
    destruct Hl as [m0 Hm0]. apply node_at_alloc_inv in Hm0 as [(-> & _) | Hm0];
      [contradiction | eauto | exact Hpos]. }
  split; [exact LLc |].
  rewrite (connect_children_length _ _ _ _ _ Ec).
  unfold s_a. simpl. rewrite length_app. simpl. lia.
Qed.

Lemma find_bv_exp_sorted s kind e h :
  is_sorted_bv_exp s kind e = Some true -> hash_bv_exp s e = Some h ->
  find_bv_exp s kind e
  = lk ← find_in_bucket s h (fun _ n => Some (find_bv_exp_test kind e n));
    Some (e, lk).
Proof.
  intros Hs H. unfold find_bv_exp, sort_bv_exp. rewrite Hs.
  cbn [mbind option_bind]. rewrite H. reflexivity.
Qed.

Lemma find_exp_sorted s kind e h params :
  kind <> BTOR_LAMBDA_NODE ->
  is_sorted_bv_exp s kind e = Some true -> hash_bv_exp s e = Some h ->
  find_exp s kind e params
  = lk ← find_in_bucket s h (fun _ n => Some (find_bv_exp_test kind e n));
    Some (lk, e, 0, params).
Proof.
  intros Hk Hs H. unfold find_exp. rewrite bool_decide_eq_false_2 by exact Hk.
  rewrite (find_bv_exp_sorted s kind e h Hs H).
  destruct (find_in_bucket s h _); reflexivity.
Qed.

Lemma create_exp_binary_unfold s kind e :
  binary_bv_kind kind = true -> simplify_all s e = Some e ->
  create_exp s kind e
  = '(lk, simp_e, lambda_hash, params) ← find_exp s kind e None;
    if deref_lookup s lk =? 0 then
      '(s, (lk, simp_e, lambda_hash, _)) ←
        enlarge_if_full s (lk, simp_e, lambda_hash, params)
          (fun s => find_exp s kind simp_e None);
      '(s, p) ← new_node s kind simp_e;
      s ← insert_unique s lk p;
      Some (s, p)
    else
      s ← inc_exp_ref_counter s (deref_lookup s lk);
      Some (s, deref_lookup s lk).
Proof.
  intros Hk H. unfold create_exp. rewrite H. cbn [mbind option_bind].
  destruct kind; try discriminate Hk; reflexivity.
Qed.

(** [create_exp] for a binary operator whose operands are in order: the
    node of the operands is found in the table and shared, or allocated
    and linked.  The invariant of the state is kept with a bound on the
    reference counts that is larger by the number of child slots. *)
Lemma create_exp_binary_spec bound s kind e srt :
  binary_bv_kind kind = true ->
  state_ok bound s -> count_id_table s < INT_MAX -> bound + 3 < INT_MAX ->
  e <> [] -> (length e <= 3)%nat ->
  (forall c, c ∈ e -> exists n, real_node s c = Some n /\ n_simplified n = 0) ->
  is_sorted_bv_exp s kind e = Some true ->
  new_node_sort s kind e = Some srt ->
  exists s1 p n,
    create_exp s kind e = Some (s1, p)
    /\ state_ok (bound + 3) s1 /\ extends s s1
    /\ in_table s1 p /\ node_at s1 p = Some n
    /\ n_kind n = kind /\ children n = e
    /\ (forall x, in_table s1 x <-> x = p \/ in_table s x)
    /\ (length (nodes_id_table s) <= length (nodes_id_table s1)
        <= S (length (nodes_id_table s)))%nat
    /\ opt_sort_exp s1 = opt_sort_exp s
    /\ ((exists n0, in_table s p /\ node_at s p = Some n0
                   /\ s1 = store_node s p (wr_refs (n_refs n0 + 1) n0))
        \/ (node_at s p = None /\ p = ptr_of_id (length (nodes_id_table s))
            /\ n_refs n = 1 /\ n_sort_id n = srt
            /\ length (nodes_id_table s1) = S (length (nodes_id_table s))
            /\ forall x m, node_at s x = Some m ->
                 exists m1, node_at s1 x = Some m1 /\ stable m1 = stable m
                            /\ n_refs m1 = n_refs m + occurrences x e)).
Proof.
  intros Hkind [Hok HLL Hrefs Hc1] Hmax Hb Hne Hlen Hargs Hsorted Hsort.
  destruct (binary_bv_kind_facts kind Hkind)
    as (HkL & HkA & HkE & HkF & HkP & HkC & Hhashed).
  pose proof (simplify_all_of_terminal s e Hargs) as Hsimp.
  assert (Hlive : forall c, c ∈ e -> is_Some (real_node s c)).
  { intros c Hc. destruct (Hargs c Hc) as (n & Hn & _). eauto. }
  destruct (hash_bv_exp_total s e Hlen Hlive) as [h Hh].
  set (T := fun (_ : Z) m => Some (find_bv_exp_test kind e m)).
  assert (Htot : total_on s T) by (apply bv_test_total; exact Hok).
  destruct (find_in_bucket_cases s h T Hok Htot)
    as (chain & r & Hbk & Hf & [(q & nq & Hq & Hnq & Haq & Hd & Hq0 & Hinq) | (-> & Hd & Hrej)]).
  - (* found *)
    injection Haq as Haq. apply bv_test_accepts in Haq as (Hk & Hch); [| exact HkE].
    pose proof (Hrefs q nq Hnq) as Hrq.
    set (s1 := store_node s q (wr_refs (n_refs nq + 1) nq)).
    assert (Hext : extends s s1) by (eapply extends_store; [exact Hnq | reflexivity]).
    exists s1, q, (wr_refs (n_refs nq + 1) nq).
    split.
    { apply (create_exp_hit s kind e e
               (mkLookup (bucket_of (ut_size s) h) r) q nq); try assumption.
      - rewrite (find_bv_exp_sorted s kind e h Hsorted Hh). fold T. rewrite Hf. reflexivity.
      - lia. }
    split.
    { split.
      - apply (table_ok_extends s); [exact Hok | exact Hext | reflexivity | reflexivity].
      - eapply links_live_store; [exact Hnq | reflexivity | reflexivity | exact HLL].
      - intros x n Hx. unfold s1 in Hx. rewrite (node_at_store _ _ _ _ _ Hnq) in Hx.
        destruct (decide (x = q)) as [-> |].
        + injection Hx as <-. simpl. lia.
        + pose proof (Hrefs x n Hx). lia.
      - unfold count_id_table, s1 in *. rewrite length_store_node. exact Hc1. }
    split; [exact Hext |].
    split; [exact Hinq |].
    split; [eapply node_at_store_eq; exact Hnq |].
    split; [exact Hk |]. split; [exact Hch |].
    split.
    { intros x. change (in_table s1 x) with (in_table s x). split; [auto |].
      intros [-> | H]; assumption. }
    split; [unfold s1; rewrite length_store_node; lia |].
    split; [reflexivity |].
    left. exists nq. split; [exact Hinq |]. split; [exact Hnq | reflexivity].
  - (* not found *)
    assert (Hglob : rejects_all s T).
    { apply (miss_is_global s h T chain); try assumption.
      apply bv_test_keyed; [exact HkE | exact Hhashed | exact Hh]. }
    destruct (enlarge_if_full_spec s
                (mkLookup (bucket_of (ut_size s) h) (length chain), e, 0, @None (gset Z))
                (fun s => find_exp s kind e None)
                (fun s' r => exists chain',
                   ut_chains s' !! bucket_of (ut_size s') h = Some chain'
                   /\ r = (mkLookup (bucket_of (ut_size s') h) (length chain'), e, 0, None))
                Hok)
      as (new & r_e & Eenl & (chain' & Hb' & ->) & Hok_e & Hl).
    { exists chain. auto. }
    { intros new Hok' Hl'.
      destruct (find_in_bucket_rejected (wb_ut_chains new s) h T Hok') as (c & Hc & Hfc).
      - intros q Hq. apply Hl' in Hq. apply Hglob. exact Hq.
      - rewrite (find_exp_sorted _ kind e h).
        + fold T. rewrite Hfc. eexists. split; [reflexivity |]. exists c. auto.
        + exact HkL.
        + exact Hsorted.
        + apply (extends_hash_bv_exp s); [apply extends_rechain | exact Hh]. }
    set (s_e := wb_ut_chains new s) in *.
    set (p' := ptr_of_id (length (nodes_id_table s_e))).
    destruct (new_node_spec bound s_e kind e srt)
      as (s_n & n' & Enew & Hp' & Hk' & Hch' & Hs' & Hr' & Hso' & Tn & Hold & Hinv & LLn
          & Hlenn);
      try assumption.
    fold p' in Enew, Hp', Hinv.
    assert (Hfresh : node_at s p' = None) by apply (node_at_beyond s_e).
    assert (Hext_n : extends s_e s_n).
    { intros x n Hx. destruct (Hold x n Hx) as (m & Hm & E & _). eauto. }
    assert (Hglob_e : rejects_all s_e T).
    { intros q Hq. apply Hl in Hq. apply Hglob. exact Hq. }
    destruct (insert_unique_spec s_e s_n p' n'
                (bucket_of (ut_size s_e) h) chain' h)
      as (Hins & Hok1 & Hin1 & Hext1); try assumption; try reflexivity.
    { apply same_tables_lambdas. exact Tn. }
    { apply same_tables_chains. exact Tn. }
    { rewrite (raw_hash_children s_n p' n' Hp') by (rewrite Hk'; exact Hhashed).
      rewrite Hch'.
      apply (extends_hash_bv_exp s); [| exact Hh].
      eapply extends_trans; [apply (extends_rechain s new) | exact Hext_n]. }
    { intros E. congruence. }
    { intros q nq Hq Hnq _.
      destruct (Hglob_e q Hq) as (m & Hm & Hrj). injection Hrj as Hrj.
      destruct (Hext_n q m Hm) as (m' & Hm' & E). assert (m' = nq) by congruence. subst m'.
      assert (H1 : key_match n' nq = false).
      { unfold key_match. rewrite Hk', Hch'. rewrite <- Hrj.
        apply (f_equal (fun o => match o with Some b => b | None => false end)
                 (bv_test_stable kind e q m nq E)). }
      split; [exact H1 |].
      destruct (key_match nq n') eqn:H2; [| reflexivity].
      assert (Hkq : n_kind nq <> BTOR_BV_EQ_NODE).
      { apply key_match_kind in H2. congruence. }
      apply key_match_sym in H2; [congruence | exact Hkq]. }
    match type of Hins with _ = Some ?x => set (s1 := x) in * end.
    assert (Hp1 : node_at s1 p' = Some (wr_unique true n')).
    { eapply node_at_store_eq. exact Hp'. }
    assert (Hext_s1 : extends s s1).
    { eapply extends_trans; [apply (extends_rechain s new) |].
      eapply extends_trans; [exact Hext_n | exact Hext1]. }
    assert (Hb1 : 1 <= bound).
    { destruct e as [| c e]; [contradiction |].
      destruct (Hargs c) as (n & Hn & _); [apply list_elem_of_here |].
      pose proof (Hrefs _ _ Hn). lia. }
    assert (Hnode1 : forall x m, node_at s1 x = Some m ->
              x = p' /\ m = wr_unique true n'
              \/ x <> p' /\ exists n0, node_at s x = Some n0
                   /\ stable m = stable n0
                   /\ n_refs m = n_refs n0 + occurrences x e).
    { intros x m Hx. unfold s1 in Hx.
      match type of Hx with
      | node_at (store_node ?S _ _) _ = _ => rewrite (node_at_store S p' x _ n' Hp') in Hx
      end.
      destruct (decide (x = p')) as [-> | Hnx]; [left; split; congruence |].
      right. split; [exact Hnx |].
      change (node_at s_n x = Some m) in Hx.
      destruct (Hinv x m Hx) as [-> | [n0 Hn0]]; [contradiction |].
      exists n0. split; [exact Hn0 |].
      destruct (Hold x n0 Hn0) as (m' & Hm' & E & Hrm). split; congruence. }
    exists s1, p', (wr_unique true n').
    split.
    { rewrite (create_exp_binary_unfold s kind e Hkind Hsimp),
        (find_exp_sorted s kind e h None HkL Hsorted Hh).
      fold T. rewrite Hf. cbn [mbind option_bind]. rewrite Hd. cbn [Z.eqb].
      rewrite Eenl. cbn [mbind option_bind]. fold s_e. rewrite Enew.
      cbn [mbind option_bind]. rewrite Hins. reflexivity. }
    split.
    { split.
      - exact Hok1.
      - unfold s1. eapply links_live_store; [exact Hp' | reflexivity | reflexivity | exact LLn].
      - intros x m Hx. destruct (Hnode1 x m Hx) as [(-> & ->) | (_ & n0 & Hn0 & _ & Hrm)].
        + simpl. lia.
        + pose proof (Hrefs x n0 Hn0). pose proof (occurrences_bounds x e). lia.
      - unfold count_id_table, s1. rewrite length_store_node.
        change (1 <= Z.of_nat (length (nodes_id_table s_n))). lia. }
    split; [exact Hext_s1 |].
    split; [apply Hin1; left; reflexivity |].
    split; [exact Hp1 |]. split; [exact Hk' |]. split; [exact Hch' |].
    split.
    { intros x. rewrite Hin1. unfold in_table at 1. simpl. rewrite Hl. reflexivity. }
    split.
    { unfold s1. rewrite length_store_node.
      change (length (nodes_id_table s) <= length (nodes_id_table s_n)
              <= S (length (nodes_id_table s)))%nat.
      rewrite Hlenn. simpl. lia. }
    split.
    { unfold s1. simpl. rewrite Tn. reflexivity. }
    right. split; [exact Hfresh |]. split; [reflexivity |]. split; [exact Hr' |].
    split; [exact Hso' |].
    split.
    { unfold s1. rewrite length_store_node.
      change (length (nodes_id_table s_n) = S (length (nodes_id_table s))).
      rewrite Hlenn. reflexivity. }
    intros x m Hx. destruct (Hext_s1 x m Hx) as (m1 & Hm1 & _).
    exists m1. split; [exact Hm1 |].
    destruct (Hnode1 x m1 Hm1) as [(-> & _) | (_ & n0 & Hn0 & E & Hrm)]; [congruence |].
    assert (n0 = m) by congruence. subst n0. split; assumption.
Qed.

Lemma is_sorted_bv_exp_extends s s' kind e v :
  extends s s' -> opt_sort_exp s' = opt_sort_exp s ->
  is_sorted_bv_exp s kind e = Some v -> is_sorted_bv_exp s' kind e = Some v.
Proof.
  intros Hext Hopt. unfold is_sorted_bv_exp. rewrite Hopt.
  destruct (opt_sort_exp s =? 0); [trivial |].
  destruct (negb (btor_is_binary_commutative_node_kind kind)); [trivial |].
  cbv zeta. destruct (nth 0 e 0 =? nth 1 e 0); [trivial |].
  destruct ((BTOR_INVERT_NODE (nth 0 e 0) =? nth 1 e 0) && BTOR_IS_INVERTED_NODE (nth 1 e 0));
    [trivial |].
  destruct (real_node s (nth 0 e 0)) as [n0 |] eqn:E0; [| discriminate].
  destruct (real_node s (nth 1 e 0)) as [n1 |] eqn:E1; [| discriminate].
  destruct (extends_real_node _ _ _ _ Hext E0) as (m0 & Hm0 & S0).
  destruct (extends_real_node _ _ _ _ Hext E1) as (m1 & Hm1 & S1).
  rewrite Hm0, Hm1. cbn [mbind option_bind].
  pose proof (f_equal n_id S0) as I0. pose proof (f_equal n_id S1) as I1.
  simpl in I0, I1. rewrite I0, I1. trivial.
Qed.

(** X27: the binary operators are hash consed.  For operands that are
    live, not forwarded and in order, a constructor of a binary
    bit-vector operator ([and], [add], [mul], [ult], [sll], [srl], [udiv],
    [urem], [concat]) returns a linked node of that kind with these two
    children: the node of the table that has them, with one more
    reference, or a new node with the next id, one reference and the
    sort of the operator, which takes a reference to each operand.  The
    same call made again returns the same node with one more reference
    and changes nothing else. *)
Theorem binary_operator_is_hash_consed
    (bound : Z) (s : Btor) (kind : BtorNodeKind) (a b : Z) (na nb : BtorNode)
    (srt : BtorSortId) :
  binary_bv_kind kind = true ->
  state_ok bound s -> count_id_table s < INT_MAX -> bound + 3 < INT_MAX ->
  real_node s a = Some na -> n_simplified na = 0 ->
  real_node s b = Some nb -> n_simplified nb = 0 ->
  is_sorted_bv_exp s kind [a; b] = Some true ->
  new_node_sort s kind [a; b] = Some srt ->
  exists s1 p n,
    binary_exp_node kind s a b = Some (s1, p)
    /\ in_table s1 p /\ node_at s1 p = Some n
    /\ n_kind n = kind /\ children n = [a; b]
    /\ ((exists n0, in_table s p /\ node_at s p = Some n0
                   /\ s1 = store_node s p (wr_refs (n_refs n0 + 1) n0))
        \/ (node_at s p = None /\ p = ptr_of_id (length (nodes_id_table s))
            /\ n_refs n = 1 /\ n_sort_id n = srt
            /\ length (nodes_id_table s1) = S (length (nodes_id_table s))
            /\ forall x m, node_at s x = Some m ->
                 exists m1, node_at s1 x = Some m1 /\ stable m1 = stable m
                            /\ n_refs m1 = n_refs m + occurrences x [a; b]))
    /\ state_ok (bound + 3) s1
    /\ binary_exp_node kind s1 a b
       = Some (store_node s1 p (wr_refs (n_refs n + 1) n), p).
Proof.
  intros Hkind Hso Hmax Hb Hna Hsa Hnb Hsb Hsorted Hsort.
  destruct (binary_bv_kind_facts kind Hkind)
    as (HkL & HkA & HkE & HkF & HkP & HkC & Hhashed).
  assert (Hargs : forall c, c ∈ [a; b] ->
            exists n, real_node s c = Some n /\ n_simplified n = 0).
  { intros c Hc. apply list_elem_of_In in Hc. destruct Hc as [<- | [<- | []]]; eauto. }
  destruct (create_exp_binary_spec bound s kind [a; b] srt Hkind Hso Hmax Hb)
    as (s1 & p & n & E & Hso1 & Hext & Hin & Hn & Hk & Hch & _ & _ & Hopt & Hcases);
    [discriminate | simpl; lia | exact Hargs | exact Hsorted | exact Hsort |].
  assert (Hargs1 : forall c, c ∈ [a; b] ->
            exists n, real_node s1 c = Some n /\ n_simplified n = 0).
  { intros c Hc. destruct (Hargs c Hc) as (nc & Hnc & Hsc).
    destruct (extends_real_node _ _ _ _ Hext Hnc) as (m & Hm & Est).
    exists m. split; [exact Hm |]. stable_fields Est. congruence. }
  exists s1, p, n.
  split.
  { unfold binary_exp_node.
    rewrite (btor_simplify_exp_terminal s a na Hna Hsa),
      (btor_simplify_exp_terminal s b nb Hnb Hsb). exact E. }
  split; [exact Hin |]. split; [exact Hn |]. split; [exact Hk |]. split; [exact Hch |].
  split; [exact Hcases |]. split; [exact Hso1 |].
  destruct (Hargs1 a) as (ma & Hma & Hsma); [apply list_elem_of_here |].
  destruct (Hargs1 b) as (mb & Hmb & Hsmb);
    [apply list_elem_of_further, list_elem_of_here |].
  unfold binary_exp_node.
  rewrite (btor_simplify_exp_terminal s1 a ma Hma Hsma),
    (btor_simplify_exp_terminal s1 b mb Hmb Hsmb). cbn [mbind option_bind].
  destruct Hso1 as [Hok1 _ Hrefs1 _].
  destruct (find_bv_exp_linked s1 p n Hok1 Hin Hn) as (lk & Hfind & Hd).
  { rewrite Hk. exact Hhashed. }
  { rewrite Hk, Hch. apply (is_sorted_bv_exp_extends s); assumption. }
  rewrite Hk, Hch in Hfind.
  apply (create_exp_hit s1 kind [a; b] [a; b] lk p n); try assumption.
  - apply simplify_all_of_terminal. exact Hargs1.
  - apply (in_table_live s1); assumption.
  - pose proof (Hrefs1 p n Hn). lia.
Qed.

End Properties.

(** * The properties on the example runs *)

Lemma match_of_freed_id_or_unknown_symbol_faults_witness :
  btor_match_node_by_id example_x_released 1 = None
  /\ btor_get_node_by_id example_x_released 1 = 0
  /\ btor_match_node_by_symbol example_x_released "x" = None
  /\ btor_get_node_by_symbol example_x_released "x" = 0.
Proof.
  apply (match_of_freed_id_or_unknown_symbol_faults example_x_released 1 "x").
  - vm_compute. split; reflexivity.
  - vm_compute. reflexivity.
  - vm_compute. reflexivity.
Defined.





Lemma connect_child_exp_splices_witness :
  let s := example_and_x in
  let l := [BTOR_TAG_NODE and_ptr 0] in
  exists s' pn' cn',
    connect_child_exp s and_ptr x_ptr 1 = Some s'
    /\ node_at s' and_ptr = Some pn' /\ real_node s' x_ptr = Some cn'
    /\ parent_list s' cn' (BTOR_TAG_NODE and_ptr 1 :: l)
    /\ n_parents cn' = 2 /\ n_refs cn' = 3
    /\ get3 (n_e pn') 1 = x_ptr
    /\ n_parameterized pn' = false
    /\ n_is_array pn' = false
    /\ n_lambda_below pn' = false
    /\ n_apply_below pn' = false.
Proof.
  apply (connect_child_exp_splices example_and_x and_ptr x_ptr 1
           (node_of example_and_x and_ptr) (node_of example_and_x x_ptr)
           [BTOR_TAG_NODE and_ptr 0]).
  - vm_compute. reflexivity.
  - vm_compute. reflexivity.
  - lia.
  - vm_compute. reflexivity.
  - vm_compute. reflexivity.
  - vm_compute. repeat split; try reflexivity; try lia.
    + constructor; [| constructor]. intros H. inversion H.
  - vm_compute. intros H. inversion H; subst. inversion H2.
  - vm_compute. reflexivity.
Defined.

Lemma btor_const_exp_shares_the_complement_witness :
  let stored := example_bits in
  exists s1 p1 s2 p2 n,
    btor_const_exp example_hash_bv btor_new_btor example_bits = Some (s1, p1)
    /\ btor_const_exp example_hash_bv s1 (btor_not_bv example_bits) = Some (s2, p2)
    /\ BTOR_REAL_ADDR_NODE p1 = BTOR_REAL_ADDR_NODE p2
    /\ p2 = BTOR_INVERT_NODE p1
    /\ BTOR_IS_INVERTED_NODE p1 = false
    /\ BTOR_IS_INVERTED_NODE p2 = true
    /\ real_node s2 p1 = Some n
    /\ n_kind n = BTOR_BV_CONST_NODE /\ n_bits n = Some stored
    /\ btor_get_bit_bv stored 0 = false
    /\ length (nodes_id_table s2) = length (nodes_id_table s1)
    /\ (length (nodes_id_table s1) <= S (length (nodes_id_table btor_new_btor)))%nat.
Proof.
  apply (btor_const_exp_shares_the_complement example_hash_bv btor_new_btor example_bits).
  - apply table_okb_sound. vm_compute. reflexivity.
  - vm_compute. discriminate.
  - vm_compute. reflexivity.
  - apply refs_of_empty_table. vm_compute. reflexivity.
  - vm_compute. reflexivity.
Defined.


Lemma btor_args_exp_of_seven_arguments_witness :
  exists s1 s2 r m t nr nm nt,
    btor_args_exp example_hash_bv example_vars7 vars7 = Some (s1, r)
    /\ btor_args_exp example_hash_bv s1 vars7 = Some (s2, r)
    /\ node_at s1 r = Some nr /\ n_kind nr = BTOR_ARGS_NODE
    /\ children nr = [ptr_of_id 1; ptr_of_id 2; m]
    /\ node_at s1 m = Some nm /\ n_kind nm = BTOR_ARGS_NODE
    /\ children nm = [ptr_of_id 3; ptr_of_id 4; t]
    /\ node_at s1 t = Some nt /\ n_kind nt = BTOR_ARGS_NODE
    /\ children nt = [ptr_of_id 5; ptr_of_id 6; ptr_of_id 7]
    /\ r <> m /\ m <> t /\ r <> t.
Proof.
  apply (btor_args_exp_of_seven_arguments example_hash_bv 1 example_vars7
           (ptr_of_id 1) (ptr_of_id 2) (ptr_of_id 3) (ptr_of_id 4)
           (ptr_of_id 5) (ptr_of_id 6) (ptr_of_id 7)).
  - apply state_okb_sound. vm_compute. reflexivity.
  - apply dagb_sound. vm_compute. reflexivity.
  - vm_compute. reflexivity.
  - vm_compute. reflexivity.
  - vm_compute. reflexivity.
  - apply arg_okb_sound. vm_compute. reflexivity.
Defined.

(** C1, as stated, fails on seven variables: the terminal node of the chain
    holds three arguments, not one, and each node before it holds two
    arguments and the next node, not three arguments. *)
Lemma btor_args_exp_seven_is_2_2_3 :
  let run := btor_args_exp example_hash_bv example_vars7 vars7 in
  let s := run_state run in
  let r := run_handle run in
  let m := ptr_of_id 9 in
  let t := ptr_of_id 8 in
  r = ptr_of_id 10
  /\ fld n_kind s r = Some BTOR_ARGS_NODE
  /\ fld children s r = Some [ptr_of_id 1; ptr_of_id 2; m]
  /\ fld n_kind s m = Some BTOR_ARGS_NODE
  /\ fld children s m = Some [ptr_of_id 3; ptr_of_id 4; t]
  /\ fld n_kind s t = Some BTOR_ARGS_NODE
  /\ fld children s t = Some [ptr_of_id 5; ptr_of_id 6; ptr_of_id 7]
  /\ fld n_arity s t = Some 3%nat
  /\ fld n_arity s t <> Some (7 mod 2 + 1)%nat.
Proof.
  vm_compute. repeat split; try reflexivity. discriminate.
Qed.

Lemma btor_release_exp_sweeps_witness :
  exists s',
    btor_release_exp example_hash_bv example_eq eq_ptr = Some s'
    /\ sweep example_eq [eq_ptr] s'
    /\ heap_ok example_hash_bv [] [x_ptr; y_ptr] s'
    /\ shrinks example_eq s'
    /\ (forall n, real_node example_eq eq_ptr = Some n -> 1 < n_refs n ->
          s' = store_node example_eq (BTOR_REAL_ADDR_NODE eq_ptr)
                 (wr_refs (n_refs n - 1) n))
    /\ (forall n, real_node example_eq eq_ptr = Some n -> n_refs n <= 1 ->
          n_refs n = 1 /\ n_parents n = 0
          /\ node_at s' (BTOR_REAL_ADDR_NODE eq_ptr) = None
          /\ ~ in_table s' (BTOR_REAL_ADDR_NODE eq_ptr))
    /\ (forall depth, rho_count [] example_eq < Z.of_nat depth ->
          btor_release_exp_rec example_hash_bv depth (release_fuel example_eq)
            example_eq eq_ptr = Some s').
Proof.
  apply (btor_release_exp_sweeps example_hash_bv example_eq eq_ptr [x_ptr; y_ptr]).
  apply heap_okb_sound. vm_compute. reflexivity.
Defined.

(** The release nests along a chain of static_rho tables.  In the
    well-formed heap of [S k] lambdas, each but the first held only by the
    static_rho of the one before, [k] tables are chained from the first
    lambda on and the release of the first lambda does not finish within
    [k] nested calls of [btor_release_exp]; it needs [S k], for [k] from 0
    to 4, and then leaves a well-formed heap with the one node [x]. *)
Lemma btor_release_exp_nests_along_static_rho :
  Forall (fun k =>
            let s := run_state (rho_chain k) in
            let l := run_handle (rho_chain k) in
            heap_ok example_hash_bv [] [l; x_ptr] s
            /\ rho_linked s k l
            /\ rho_count [] s = Z.of_nat k
            /\ release_rho_chain k k = None
            /\ release_rho_chain k (S k) = btor_release_exp example_hash_bv s l
            /\ match release_rho_chain k (S k) with
               | Some s' => heap_okb example_hash_bv [] [x_ptr] s' && (live_count s' =? 1)
               | None => false
               end = true)
    [0; 1; 2; 3; 4]%nat.
Proof.
  repeat (apply List.Forall_cons || apply List.Forall_nil); cbv beta zeta.
  all: split; [apply heap_okb_sound; vm_compute; reflexivity |].
  all: split; [apply rho_linkedb_sound; vm_compute; reflexivity |].
  all: split; [vm_compute; reflexivity |]; split; [vm_compute; reflexivity |].
  all: split; vm_compute; reflexivity.
Qed.

(** C4: alpha-equivalent lambdas are not always shared.  The body
    [(~(p * x) + y) & ((p * x) / y)] is built over a parameter [p1] and
    made a lambda; the same body is then built over a second parameter
    [p2] of the same sort, with the quotient made before the sum, so that
    the two children of the conjunction, which are sorted by id, come in
    the other order.  [compare_lambda_exp] accepts the
    second parameter and body for the first lambda.  But [hash_lambda_exp]
    now meets the product first through the complemented edge and subtracts
    its kind, where it added it for the first lambda: the hashes 43 and 25
    name two buckets of the table of size 16, so the lookup never tries the
    first lambda and the constructor allocates a second lambda, with
    another id.  With the sum made first, as for the first lambda, the
    hash is 43 again and the constructor returns the first lambda. *)
Theorem alpha_equivalent_lambda_is_not_shared :
  let l1 := run_handle example_alpha in
  let s := body_state example_alpha_swapped in
  let p2 := body_param example_alpha_swapped in
  let b2 := body_handle example_alpha_swapped in
  let s' := body_state example_alpha_again in
  let p2' := body_param example_alpha_again in
  let b2' := body_handle example_alpha_again in
  let r := btor_lambda_exp_node example_hash_bv s p2 b2 in
  let r' := btor_lambda_exp_node example_hash_bv s' p2' b2' in
  l1 = ptr_of_id 8
  /\ opt_sort_exp s = 1
  /\ fld n_kind s l1 = Some BTOR_LAMBDA_NODE
  /\ fld children s l1 = Some [ptr_of_id 3; ptr_of_id 7]
  /\ fld children s (ptr_of_id 7) = Some [ptr_of_id 5; ptr_of_id 6]
  /\ p2 = ptr_of_id 9 /\ b2 = ptr_of_id 13
  /\ fld children s b2 = Some [ptr_of_id 11; ptr_of_id 12]
  /\ fld n_sort_id s p2 = fld n_sort_id s (ptr_of_id 3)
  /\ compare_lambda_exp s p2 b2 l1 = Some true
  /\ lambdas s !! l1 = Some 43
  /\ fst <$> hash_lambda_exp s p2 b2 (Some ∅) = Some 25
  /\ ut_size s = 16
  /\ r = Some (run_state r, ptr_of_id 14)
  /\ fld n_kind (run_state r) (ptr_of_id 14) = Some BTOR_LAMBDA_NODE
  /\ fld n_id (run_state r) (ptr_of_id 14) = Some 14
  /\ fld n_id (run_state r) l1 = Some 8
  /\ fst <$> hash_lambda_exp s' p2' b2' (Some ∅) = Some 43
  /\ r' = Some (run_state r', l1).
Proof.
  cbv zeta. repeat (apply conj; [vm_compute; reflexivity |]). vm_compute. reflexivity.
Qed.

Lemma btor_set_to_proxy_exp_converts_witness :
  let s := example_eq_in_parent in
  let n := node_of example_eq_in_parent eq_ptr in
  exists s2 s3 s5 s6 s' n',
    btor_set_to_proxy_exp example_hash_bv s eq_ptr = Some s'
    /\ nodes_id_table s2 = nodes_id_table (store_node s eq_ptr (wr_unique false n))
    /\ (forall p, in_table s2 p <-> in_table s p /\ p <> eq_ptr)
    /\ same_side s s2
    /\ sweep s2 (if is_kind BTOR_LAMBDA_NODE n then rho_handles (n_static_rho n) else []) s3
    /\ detaches s3 eq_ptr n s5
    /\ sweep s5 (children n) s6
    /\ s' = store_node s6 eq_ptr n'
    /\ node_at s' eq_ptr = Some n'
    /\ ~ in_table s' eq_ptr
    /\ n_kind n' = BTOR_PROXY_NODE
    /\ n_disconnected n' = false /\ n_erased n' = false
    /\ n_arity n' = 0%nat /\ (forall j, get3 (n_e n') j = 0)
    /\ n_parameterized n' = false
    /\ n_id n' = n_id n /\ n_sort_id n' = n_sort_id n
    /\ n_simplified n' = n_simplified n
    /\ is_Some (real_node s' (n_simplified n))
    /\ n_av n' = None /\ n_static_rho n' = None
    /\ (n_kind n = BTOR_BV_CONST_NODE -> n_bits n' = None /\ n_invbits n' = None)
    /\ (n_kind n = BTOR_LAMBDA_NODE \/ n_kind n = BTOR_UPDATE_NODE
        \/ n_kind n = BTOR_UF_NODE \/ btor_is_fun_cond_node_n n = true ->
        n_rho n' = None)
    /\ heap_ok example_hash_bv [] [ptr_of_id 5; x_ptr; y_ptr; z_ptr] s'.
Proof.
  apply (btor_set_to_proxy_exp_converts example_hash_bv example_eq_in_parent eq_ptr
           (node_of example_eq_in_parent eq_ptr) [ptr_of_id 5; x_ptr; y_ptr; z_ptr]).
  - apply heap_okb_sound. vm_compute. reflexivity.
  - apply (anchoredb_sound 1). vm_compute. reflexivity.
  - vm_compute. reflexivity.
  - vm_compute. lia.
  - intros _. vm_compute. reflexivity.
Defined.

(** * The further properties on the example runs *)

Section ExampleRuns.

Local Abbreviation compute_hash_exp := (compute_hash_exp example_hash_bv).
Local Abbreviation remove_from_nodes_unique_table_exp := (remove_from_nodes_unique_table_exp example_hash_bv).
Local Abbreviation rehash_chain := (rehash_chain example_hash_bv).
Local Abbreviation rehash_chains := (rehash_chains example_hash_bv).
Local Abbreviation enlarge_nodes_unique_table := (enlarge_nodes_unique_table example_hash_bv).
Local Abbreviation find_const_exp := (find_const_exp example_hash_bv).
Local Abbreviation enlarge_if_full := (enlarge_if_full example_hash_bv).
Local Abbreviation create_exp := (create_exp example_hash_bv).
Local Abbreviation btor_const_exp := (btor_const_exp example_hash_bv).
Local Abbreviation unary_exp_slice_exp := (unary_exp_slice_exp example_hash_bv).
Local Abbreviation btor_slice_exp_node := (btor_slice_exp_node example_hash_bv).
Local Abbreviation binary_exp_node := (binary_exp_node example_hash_bv).
Local Abbreviation btor_and_exp_node := (btor_and_exp_node example_hash_bv).
Local Abbreviation btor_add_exp_node := (btor_add_exp_node example_hash_bv).
Local Abbreviation btor_mul_exp_node := (btor_mul_exp_node example_hash_bv).
Local Abbreviation btor_ult_exp_node := (btor_ult_exp_node example_hash_bv).
Local Abbreviation btor_sll_exp_node := (btor_sll_exp_node example_hash_bv).
Local Abbreviation btor_srl_exp_node := (btor_srl_exp_node example_hash_bv).
Local Abbreviation btor_udiv_exp_node := (btor_udiv_exp_node example_hash_bv).
Local Abbreviation btor_urem_exp_node := (btor_urem_exp_node example_hash_bv).
Local Abbreviation btor_concat_exp_node := (btor_concat_exp_node example_hash_bv).
Local Abbreviation btor_lambda_exp_node := (btor_lambda_exp_node example_hash_bv).
Local Abbreviation btor_eq_exp_node := (btor_eq_exp_node example_hash_bv).
Local Abbreviation release_node := (release_node example_hash_bv).
Local Abbreviation release_loop := (release_loop example_hash_bv).
Local Abbreviation recursively_release_exp := (recursively_release_exp example_hash_bv).
Local Abbreviation btor_release_exp_rec := (btor_release_exp_rec example_hash_bv).
Local Abbreviation btor_release_exp := (btor_release_exp example_hash_bv).
Local Abbreviation release_all := (release_all example_hash_bv).
Local Abbreviation btor_set_to_proxy_exp := (btor_set_to_proxy_exp example_hash_bv).
Local Abbreviation btor_args_loop := (btor_args_loop example_hash_bv).
Local Abbreviation btor_args_exp := (btor_args_exp example_hash_bv).
Local Abbreviation raw_hash := (raw_hash example_hash_bv).
Local Abbreviation placed := (placed example_hash_bv).
Local Abbreviation table_ok := (table_ok example_hash_bv).
Local Abbreviation keyed := (keyed example_hash_bv).
Local Abbreviation const_node := (const_node example_hash_bv).
Local Abbreviation state_ok := (state_ok example_hash_bv).
Local Abbreviation entry_okb := (entry_okb example_hash_bv).
Local Abbreviation table_okb := (table_okb example_hash_bv).
Local Abbreviation state_okb := (state_okb example_hash_bv).
Local Abbreviation heap_ok := (heap_ok example_hash_bv).
Local Abbreviation releases_ok := (releases_ok example_hash_bv).
Local Abbreviation heap_okb := (heap_okb example_hash_bv).
Local Abbreviation btor_delete_exp_pair := (btor_delete_exp_pair example_hash_bv).
Local Abbreviation int_min_exp := (int_min_exp example_hash_bv).
Local Abbreviation btor_zero_exp := (btor_zero_exp example_hash_bv).
Local Abbreviation btor_ones_exp := (btor_ones_exp example_hash_bv).
Local Abbreviation btor_one_exp := (btor_one_exp example_hash_bv).
Local Abbreviation btor_true_exp := (btor_true_exp example_hash_bv).
Local Abbreviation btor_false_exp := (btor_false_exp example_hash_bv).
Local Abbreviation btor_lambda_delete_static_rho := (btor_lambda_delete_static_rho example_hash_bv).
Local Abbreviation tk_nonempty := (tk_nonempty example_hash_bv).
Local Abbreviation tk_live := (tk_live example_hash_bv).
Local Abbreviation tk_terminal := (tk_terminal example_hash_bv).
Local Abbreviation tk_const := (tk_const example_hash_bv).
Local Abbreviation tk_bucket := (tk_bucket example_hash_bv).
Local Abbreviation tk_canon := (tk_canon example_hash_bv).
Local Abbreviation so_table := (so_table example_hash_bv).
Local Abbreviation so_links := (so_links example_hash_bv).
Local Abbreviation so_refs := (so_refs example_hash_bv).
Local Abbreviation so_count := (so_count example_hash_bv).
Local Abbreviation hk_arity := (hk_arity example_hash_bv).
Local Abbreviation hk_slots := (hk_slots example_hash_bv).
Local Abbreviation hk_child := (hk_child example_hash_bv).
Local Abbreviation hk_full := (hk_full example_hash_bv).
Local Abbreviation hk_parents := (hk_parents example_hash_bv).
Local Abbreviation hk_kept := (hk_kept example_hash_bv).
Local Abbreviation hk_held := (hk_held example_hash_bv).
Local Abbreviation hk_refs := (hk_refs example_hash_bv).
Local Abbreviation hk_unique := (hk_unique example_hash_bv).
Local Abbreviation hk_bucket := (hk_bucket example_hash_bv).
Local Abbreviation hk_chains := (hk_chains example_hash_bv).

Lemma btor_release_exp_undoes_btor_copy_exp_witness :
  let s := example_xy in
  let h := x_ptr in
  let n := node_of example_xy x_ptr in
  exists s1,
    btor_copy_exp s h = Some (s1, h)
    /\ real_node s1 h = Some (wr_refs (n_refs n + 1) n)
    /\ (forall x, BTOR_REAL_ADDR_NODE x <> BTOR_REAL_ADDR_NODE h ->
          real_node s1 x = real_node s x)
    /\ length (nodes_id_table s1) = length (nodes_id_table s)
    /\ btor_release_exp s1 h = Some s.
Proof.
  cbv zeta. apply (btor_release_exp_undoes_btor_copy_exp example_hash_bv example_xy
           x_ptr (node_of example_xy x_ptr)).
  - vm_compute; first [reflexivity | lia | discriminate].
  - vm_compute; first [reflexivity | lia | discriminate].
  - vm_compute; first [reflexivity | lia | discriminate].
Defined.

Lemma btor_dec_exp_ext_ref_counter_undoes_inc_witness :
  let s := example_xy in
  let h := x_ptr in
  let n := node_of example_xy x_ptr in
  (n_ext_refs n = INT_MAX -> btor_inc_exp_ext_ref_counter s h = None)
  /\ (n_ext_refs n < INT_MAX -> external_refs s < INT_MAX ->
      exists s1 n1,
        btor_inc_exp_ext_ref_counter s h = Some s1
        /\ real_node s1 h = Some n1
        /\ n_ext_refs n1 = n_ext_refs n + 1 /\ n_refs n1 = n_refs n
        /\ external_refs s1 = external_refs s + 1
        /\ btor_dec_exp_ext_ref_counter s1 h = Some s)
  /\ (INT_MIN < n_ext_refs n -> INT_MIN < external_refs s ->
      exists s2 n2,
        btor_dec_exp_ext_ref_counter s h = Some s2
        /\ real_node s2 h = Some n2
        /\ n_ext_refs n2 = n_ext_refs n - 1
        /\ external_refs s2 = external_refs s - 1).
Proof.
  cbv zeta. apply (btor_dec_exp_ext_ref_counter_undoes_inc example_xy x_ptr
           (node_of example_xy x_ptr)).
  - vm_compute; first [reflexivity | lia | discriminate].
Defined.

Lemma btor_get_node_by_id_inverts_btor_exp_get_id_witness :
  let s := example_xy in
  (forall h n, is_handle h -> real_node s h = Some n ->
     exists id, btor_exp_get_id s h = Some id /\ id <> 0
                /\ (id < 0 <-> BTOR_IS_INVERTED_NODE h = true)
                /\ btor_get_node_by_id s id = h)
  /\ (forall id n, INT_MIN < id <= INT_MAX -> id <> 0 ->
        nodes_id_table s !! Z.to_nat (Z.abs id) = Some (Some n) ->
        btor_exp_get_id s (btor_get_node_by_id s id) = Some id).
Proof.
  cbv zeta. apply (btor_get_node_by_id_inverts_btor_exp_get_id example_xy).
  - apply ids_okb_sound; vm_compute; reflexivity.
Defined.

Lemma btor_get_node_by_id_of_dead_id_witness :
  let s := example_x_released in
  let id := (-1) in
  (count_id_table s <= Z.abs id -> btor_get_node_by_id s id = 0)
  /\ (Z.abs id < count_id_table s ->
      nodes_id_table s !! Z.to_nat (Z.abs id) = Some None ->
      btor_get_node_by_id s id = (if id <? 0 then 1 else 0)
      /\ real_node s (btor_get_node_by_id s id) = None).
Proof.
  cbv zeta. apply (btor_get_node_by_id_of_dead_id example_x_released ((-1))).
  - unfold INT_MIN, INT_MAX; lia.
Defined.

Lemma btor_set_symbol_exp_names_the_node_witness :
  let s := example_xy in
  let h := x_ptr in
  let sym := "z"%string in
  let s' := btor_set_symbol_exp s h sym in
  btor_get_symbol_exp s' h = Some sym
  /\ btor_get_symbol_exp s' (BTOR_INVERT_NODE h) = Some sym
  /\ btor_get_node_by_symbol s' sym = BTOR_REAL_ADDR_NODE h
  /\ (forall old, btor_get_symbol_exp s h = Some old -> btor_get_node_by_symbol s' old = 0)
  /\ (forall other, other <> sym -> btor_get_symbol_exp s h <> Some other ->
        btor_get_node_by_symbol s' other = btor_get_node_by_symbol s other)
  /\ (forall x, BTOR_REAL_ADDR_NODE x <> BTOR_REAL_ADDR_NODE h ->
        btor_get_symbol_exp s' x = btor_get_symbol_exp s x)
  /\ nodes_id_table s' = nodes_id_table s /\ ut_chains s' = ut_chains s.
Proof.
  cbv zeta. apply (btor_set_symbol_exp_names_the_node example_xy x_ptr ("z"%string)).
  - vm_compute; first [reflexivity | lia | discriminate].
  - vm_compute; first [reflexivity | lia | discriminate].
Defined.

Lemma btor_compare_exp_by_id_orders_handles_witness :
  let s := example_xy in
  let a := x_ptr in
  let b := BTOR_INVERT_NODE y_ptr in
  let na := node_of example_xy x_ptr in
  let nb := node_of example_xy y_ptr in
  exists c c',
    btor_compare_exp_by_id s a b = Some c
    /\ btor_compare_exp_by_id s b a = Some c'
    /\ c' = - c /\ (c = -1 \/ c = 0 \/ c = 1)
    /\ (c = 0 <-> a = b)
    /\ (BTOR_IS_INVERTED_NODE a = true -> BTOR_IS_INVERTED_NODE b = false -> c = -1).
Proof.
  cbv zeta. apply (btor_compare_exp_by_id_orders_handles example_xy x_ptr
           (BTOR_INVERT_NODE y_ptr) (node_of example_xy x_ptr)
           (node_of example_xy y_ptr)).
  - apply ids_okb_sound; vm_compute; reflexivity.
  - vm_compute; first [reflexivity | lia | discriminate].
  - vm_compute; first [reflexivity | lia | discriminate].
  - vm_compute; first [reflexivity | lia | discriminate].
  - vm_compute; first [reflexivity | lia | discriminate].
Defined.

Lemma btor_compare_exp_by_id_qsort_mirror_witness :
  let s := example_xy in
  let p := x_ptr in
  let q := y_ptr in
  let a := node_of example_xy x_ptr in
  let b := node_of example_xy y_ptr in
  exists c,
    btor_compare_exp_by_id_qsort_asc s p q = Some c
    /\ btor_compare_exp_by_id_qsort_desc s p q = Some (- c)
    /\ btor_compare_exp_by_id_qsort_desc s q p = Some c
    /\ btor_compare_exp_by_id_qsort_asc s (BTOR_INVERT_NODE p) q = Some c
    /\ (c = 0 <-> BTOR_REAL_ADDR_NODE p = BTOR_REAL_ADDR_NODE q).
Proof.
  cbv zeta. apply (btor_compare_exp_by_id_qsort_mirror example_xy x_ptr y_ptr
           (node_of example_xy x_ptr) (node_of example_xy y_ptr)).
  - apply ids_okb_sound; vm_compute; reflexivity.
  - vm_compute; first [reflexivity | lia | discriminate].
  - vm_compute; first [reflexivity | lia | discriminate].
  - vm_compute; first [reflexivity | lia | discriminate].
Defined.

Lemma btor_new_exp_pair_is_unordered_witness :
  let s := example_xy in
  let a := x_ptr in
  let b := BTOR_INVERT_NODE y_ptr in
  let na := node_of example_xy x_ptr in
  let nb := node_of example_xy y_ptr in
  exists s' pr i1 i2,
    btor_new_exp_pair s a b = Some (s', pr)
    /\ btor_new_exp_pair s b a = Some (s', pr)
    /\ (pr = mkPair a b \/ pr = mkPair b a)
    /\ btor_exp_get_id s (pair_exp1 pr) = Some i1
    /\ btor_exp_get_id s (pair_exp2 pr) = Some i2 /\ i1 <= i2
    /\ (s1 ← inc_exp_ref_counter s a; inc_exp_ref_counter s1 b) = Some s'.
Proof.
  cbv zeta. apply (btor_new_exp_pair_is_unordered example_xy x_ptr
           (BTOR_INVERT_NODE y_ptr) (node_of example_xy x_ptr)
           (node_of example_xy y_ptr)).
  - apply ids_okb_sound; vm_compute; reflexivity.
  - vm_compute; first [reflexivity | lia | discriminate].
  - vm_compute; first [reflexivity | lia | discriminate].
  - vm_compute; first [reflexivity | lia | discriminate].
  - vm_compute; first [reflexivity | lia | discriminate].
  - vm_compute; first [reflexivity | lia | discriminate].
  - vm_compute; first [reflexivity | lia | discriminate].
Defined.

Lemma btor_delete_exp_pair_undoes_new_witness :
  let s := example_xy in
  let a := x_ptr in
  let b := y_ptr in
  let na := node_of example_xy x_ptr in
  let nb := node_of example_xy y_ptr in
  exists s' pr,
    btor_new_exp_pair s a b = Some (s', pr)
    /\ length (nodes_id_table s') = length (nodes_id_table s)
    /\ btor_delete_exp_pair s' pr = Some s.
Proof.
  cbv zeta. apply (btor_delete_exp_pair_undoes_new example_hash_bv example_xy x_ptr
           y_ptr (node_of example_xy x_ptr) (node_of example_xy y_ptr)).
  - vm_compute; first [reflexivity | lia | discriminate].
  - vm_compute; first [reflexivity | lia | discriminate].
  - vm_compute; first [reflexivity | lia | discriminate].
  - vm_compute; first [reflexivity | lia | discriminate].
  - vm_compute; first [reflexivity | lia | discriminate].
  - vm_compute; first [reflexivity | lia | discriminate].
Defined.


Lemma commutative_constructors_ignore_the_order_witness :
  let s := example_xy in
  let a := x_ptr in
  let b := y_ptr in
  let a' := x_ptr in
  let b' := y_ptr in
  let na := node_of example_xy x_ptr in
  let nb := node_of example_xy y_ptr in
  btor_and_exp_node s b a = btor_and_exp_node s a b
  /\ btor_add_exp_node s b a = btor_add_exp_node s a b
  /\ btor_mul_exp_node s b a = btor_mul_exp_node s a b
  /\ (btor_is_fun_node_n na = btor_is_fun_node_n nb ->
      btor_eq_exp_node s b a = btor_eq_exp_node s a b).
Proof.
  cbv zeta. apply (commutative_constructors_ignore_the_order example_hash_bv example_xy
           x_ptr y_ptr x_ptr y_ptr (node_of example_xy x_ptr) (node_of example_xy y_ptr)).
  - vm_compute; first [reflexivity | lia | discriminate].
  - vm_compute; first [reflexivity | lia | discriminate].
  - vm_compute; first [reflexivity | lia | discriminate].
  - vm_compute; first [reflexivity | lia | discriminate].
  - vm_compute; first [reflexivity | lia | discriminate].
  - vm_compute; first [reflexivity | lia | discriminate].
Defined.

Lemma btor_slice_exp_node_of_inverted_handle_witness :
  let s := wb_opt_rewrite_level 1 example_x in
  let x := x_ptr in
  let n := node_of example_x x_ptr in
  let upper := 3 in
  let lower := 0 in
  btor_slice_exp_node s (BTOR_INVERT_NODE x) upper lower
  = (fun r : Btor * Z => (fst r, BTOR_INVERT_NODE (snd r)))
      <$> btor_slice_exp_node s x upper lower.
Proof.
  cbv zeta. apply (btor_slice_exp_node_of_inverted_handle example_hash_bv
           (wb_opt_rewrite_level 1 example_x) x_ptr (node_of example_x x_ptr) 3 0).
  - vm_compute; first [reflexivity | lia | discriminate].
  - vm_compute; first [reflexivity | lia | discriminate].
  - vm_compute; first [reflexivity | lia | discriminate].
  - vm_compute; first [reflexivity | lia | discriminate].
Defined.

Lemma btor_slice_exp_node_shares_witness :
  let s := example_slice in
  let x := x_ptr in
  let p := slice_ptr in
  let n := node_of example_slice slice_ptr in
  let nx := node_of example_slice x_ptr in
  let upper := 3 in
  let lower := 0 in
  exists q nq,
    in_table s q /\ node_at s q = Some nq /\ n_kind nq = BTOR_SLICE_NODE
    /\ get3 (n_e nq) 0 = x /\ n_upper nq = upper /\ n_lower nq = lower
    /\ btor_slice_exp_node s x upper lower
       = Some (store_node s q (wr_refs (n_refs nq + 1) nq), q)
    /\ length (nodes_id_table (store_node s q (wr_refs (n_refs nq + 1) nq)))
       = length (nodes_id_table s).
Proof.
  cbv zeta. apply (btor_slice_exp_node_shares example_hash_bv example_slice x_ptr
           slice_ptr (node_of example_slice slice_ptr) (node_of example_slice x_ptr) 3 0).
  - apply table_okb_sound; vm_compute; reflexivity.
  - intros q nq _ Hq; assert (Hso : state_ok 10 example_slice) by (apply
    state_okb_sound; vm_compute; reflexivity); pose proof (so_refs _ _ Hso q nq Hq) as
    Hr; unfold INT_MAX; lia.
  - apply in_tableb_sound; vm_compute; reflexivity.
  - vm_compute; first [reflexivity | lia | discriminate].
  - vm_compute; first [reflexivity | lia | discriminate].
  - vm_compute; first [reflexivity | lia | discriminate].
  - vm_compute; first [reflexivity | lia | discriminate].
  - vm_compute; first [reflexivity | lia | discriminate].
  - vm_compute; first [reflexivity | lia | discriminate].
  - vm_compute; first [reflexivity | lia | discriminate].
  - intros _; vm_compute; reflexivity.
Defined.

Lemma complement_operands_are_not_reordered_witness :
  let kind := BTOR_AND_NODE in
  let s := example_and_not in
  let x := x_ptr in
  let p := ptr_of_id 3 in
  let n := node_of example_and_not (ptr_of_id 3) in
  let nx := node_of example_and_not x_ptr in
  is_sorted_bv_exp s kind [x; BTOR_INVERT_NODE x] = Some true
  /\ is_sorted_bv_exp s kind [BTOR_INVERT_NODE x; x] = Some true
  /\ (exists lk, find_bv_exp s kind [BTOR_INVERT_NODE x; x]
                 = Some ([BTOR_INVERT_NODE x; x], lk)
                 /\ deref_lookup s lk <> p)
  /\ (forall s' q, create_exp s kind [BTOR_INVERT_NODE x; x] = Some (s', q) -> q <> p).
Proof.
  cbv zeta. apply (complement_operands_are_not_reordered example_hash_bv BTOR_AND_NODE
           example_and_not x_ptr (ptr_of_id 3) (node_of example_and_not (ptr_of_id 3))
           (node_of example_and_not x_ptr)).
  - left; reflexivity.
  - apply table_okb_sound; vm_compute; reflexivity.
  - apply in_tableb_sound; vm_compute; reflexivity.
  - vm_compute; first [reflexivity | lia | discriminate].
  - vm_compute; first [reflexivity | lia | discriminate].
  - vm_compute; first [reflexivity | lia | discriminate].
  - vm_compute; first [reflexivity | lia | discriminate].
  - vm_compute; first [reflexivity | lia | discriminate].
Defined.

Lemma enlarge_nodes_unique_table_keeps_the_nodes_witness :
  let s := example_eq in
  exists s',
    enlarge_nodes_unique_table s = Some s'
    /\ ut_size s' = 2 * ut_size s
    /\ nodes_id_table s' = nodes_id_table s
    /\ ut_num_elements s' = ut_num_elements s
    /\ (forall p, in_table s' p <-> in_table s p)
    /\ table_ok s'
    /\ (forall p n, in_table s p -> node_at s p = Some n ->
          hashed_by_children (n_kind n) = true ->
          is_sorted_bv_exp s (n_kind n) (children n) = Some true ->
          exists lk, find_bv_exp s' (n_kind n) (children n) = Some (children n, lk)
                     /\ deref_lookup s' lk = p).
Proof.
  cbv zeta. apply (enlarge_nodes_unique_table_keeps_the_nodes example_hash_bv example_eq).
  - apply table_okb_sound; vm_compute; reflexivity.
Defined.

Lemma remove_from_nodes_unique_table_exp_unlinks_witness :
  let busy := @nil Z in
  let held := [eq_ptr; x_ptr; y_ptr] in
  let s := example_eq in
  let cur := eq_ptr in
  let n := node_of example_eq eq_ptr in
  exists s',
    remove_from_nodes_unique_table_exp s cur = Some s'
    /\ ~ in_table s' cur
    /\ (forall p, in_table s' p <-> in_table s p /\ p <> cur)
    /\ node_at s' cur = Some (wr_unique false n)
    /\ (forall x, x <> cur -> node_at s' x = node_at s x)
    /\ ut_num_elements s' = ut_num_elements s - (if n_unique n then 1 else 0)
    /\ (n_unique n = false -> s' = s)
    /\ heap_ok busy held s'.
Proof.
  cbv zeta. apply (remove_from_nodes_unique_table_exp_unlinks example_hash_bv (@nil Z)
           ([eq_ptr; x_ptr; y_ptr]) example_eq eq_ptr (node_of example_eq eq_ptr)).
  - apply heap_okb_sound; vm_compute; reflexivity.
  - vm_compute; first [reflexivity | lia | discriminate].
Defined.

Lemma btor_release_exp_keeps_the_empty_symbol_witness :
  let s := example_anonymous in
  let root := x_ptr in
  let held := @nil Z in
  exists s',
    btor_release_exp s root = Some s'
    /\ (forall sym x, symbols s' !! sym = Some x -> symbols s !! sym = Some x)
    /\ (forall x sym, node2symbol s !! x = Some sym -> node_at s' x = None ->
          node2symbol s' !! x = None
          /\ (sym <> EmptyString -> btor_get_node_by_symbol s' sym = 0))
    /\ btor_get_node_by_symbol s' EmptyString = btor_get_node_by_symbol s EmptyString
    /\ (forall x, symbols s !! EmptyString = Some x -> is_Some (node_at s x) ->
          node_at s' x = None ->
          btor_get_node_by_symbol s' EmptyString = x
          /\ btor_match_node_by_symbol s' EmptyString = None).
Proof.
  cbv zeta. apply (btor_release_exp_keeps_the_empty_symbol example_hash_bv
           example_anonymous x_ptr (@nil Z)).
  - apply heap_okb_sound; vm_compute; reflexivity.
  - apply names_liveb_sound; vm_compute; reflexivity.
Defined.


Lemma lambda_constructor_shares_what_the_comparison_accepts_witness :
  let s := example_variant in
  let p := ptr_of_id 6 in
  let b := ptr_of_id 7 in
  let nb := node_of example_variant (ptr_of_id 7) in
  let lk := fst (fst example_variant_lookup) in
  let h := snd (fst example_variant_lookup) in
  let ps := snd example_variant_lookup in
  let q := ptr_of_id 5 in
  exists nq,
    node_at s q = Some nq /\ in_table s q /\ n_kind nq = BTOR_LAMBDA_NODE
    /\ ((get3 (n_e nq) 0 = p /\ get3 (n_e nq) 1 = b)
        \/ (n_parameterized nq = false /\ compare_lambda_exp s p b q = Some true))
    /\ (n_refs nq < INT_MAX ->
        create_exp s BTOR_LAMBDA_NODE [p; b]
        = Some (store_node s q (wr_refs (n_refs nq + 1) nq), q)).
Proof.
  cbv zeta. apply (lambda_constructor_shares_what_the_comparison_accepts example_hash_bv
           example_variant (ptr_of_id 6) (ptr_of_id 7)
           (node_of example_variant (ptr_of_id 7)) (fst (fst example_variant_lookup))
           (snd (fst example_variant_lookup)) (snd example_variant_lookup) (ptr_of_id 5)).
  - vm_compute; first [reflexivity | lia | discriminate].
  - vm_compute; first [reflexivity | lia | discriminate].
  - vm_compute; first [reflexivity | lia | discriminate].
  - vm_compute; first [reflexivity | lia | discriminate].
  - vm_compute; first [reflexivity | lia | discriminate].
Defined.

Lemma parameterized_lambda_is_not_shared_witness :
  let s := example_open in
  let p := ptr_of_id 5 in
  let b := ptr_of_id 6 in
  let L := ptr_of_id 4 in
  let nl := node_of example_open (ptr_of_id 4) in
  (forall params cmp lk h ps,
     find_lambda_exp s p b params cmp = Some (lk, h, ps) -> deref_lookup s lk <> L)
  /\ (forall s' q, simplify_all s [p; b] = Some [p; b] ->
        create_exp s BTOR_LAMBDA_NODE [p; b] = Some (s', q) -> q <> L).
Proof.
  cbv zeta. apply (parameterized_lambda_is_not_shared example_hash_bv example_open
           (ptr_of_id 5) (ptr_of_id 6) (ptr_of_id 4)
           (node_of example_open (ptr_of_id 4))).
  - vm_compute; first [reflexivity | lia | discriminate].
  - vm_compute; first [reflexivity | lia | discriminate].
  - left; vm_compute; discriminate.
Defined.

Lemma ones_is_the_inverted_handle_of_zero_witness :
  let s := btor_new_btor in
  let width := 8 in
  exists s1 z s2 n,
    btor_zero_exp s (btor_bitvec_sort width) = Some (s1, z)
    /\ btor_ones_exp s1 (btor_bitvec_sort width) = Some (s2, BTOR_INVERT_NODE z)
    /\ BTOR_IS_INVERTED_NODE z = false
    /\ node_at s2 z = Some n
    /\ n_kind n = BTOR_BV_CONST_NODE /\ n_bits n = Some (btor_new_bv width)
    /\ length (nodes_id_table s2) = length (nodes_id_table s1)
    /\ (length (nodes_id_table s1) <= S (length (nodes_id_table s)))%nat
    /\ (width = 1 ->
        btor_false_exp s = Some (s1, z)
        /\ btor_true_exp s1 = Some (s2, BTOR_INVERT_NODE z)).
Proof.
  cbv zeta. apply (ones_is_the_inverted_handle_of_zero example_hash_bv btor_new_btor 8).
  - apply table_okb_sound; vm_compute; reflexivity.
  - vm_compute; first [reflexivity | lia | discriminate].
  - vm_compute; first [reflexivity | lia | discriminate].
  - apply refs_of_empty_table; vm_compute; reflexivity.
  - vm_compute; first [reflexivity | lia | discriminate].
Defined.

Lemma disconnect_child_exp_unsplices_witness :
  let s := example_and_x in
  let parent := and_ptr in
  let pos := 0%nat in
  let pn := node_of example_and_x and_ptr in
  let cn := node_of example_and_x x_ptr in
  let l1 := @nil Z in
  let l2 := @nil Z in
  exists s' pn' cn',
    disconnect_child_exp s parent pos = Some s'
    /\ node_at s' parent = Some pn'
    /\ real_node s' (get3 (n_e pn) pos) = Some cn'
    /\ parent_list s' cn' (l1 ++ l2)
    /\ n_parents cn' = n_parents cn - 1 /\ n_refs cn' = n_refs cn
    /\ n_e pn' = set3 (n_e pn) pos 0 /\ get3 (n_e pn') pos = 0
    /\ next_link s' (BTOR_TAG_NODE parent pos) = Some 0
    /\ prev_link s' (BTOR_TAG_NODE parent pos) = Some 0
    /\ length (nodes_id_table s') = length (nodes_id_table s)
    /\ ut_chains s' = ut_chains s.
Proof.
  cbv zeta. apply (disconnect_child_exp_unsplices example_and_x and_ptr (0%nat)
           (node_of example_and_x and_ptr) (node_of example_and_x x_ptr) (@nil Z)
           (@nil Z)).
  - vm_compute; first [reflexivity | lia | discriminate].
  - lia.
  - vm_compute; first [reflexivity | lia | discriminate].
  - apply parent_listb_sound; vm_compute; reflexivity.
Defined.

Lemma btor_lambda_delete_static_rho_undoes_copy_witness :
  let s := example_two_lambdas in
  let lambda := ptr_of_id 5 in
  let other := ptr_of_id 8 in
  let n := node_of example_two_lambdas (ptr_of_id 5) in
  let m := node_of example_two_lambdas (ptr_of_id 8) in
  let entries := [(x_ptr, y_ptr)] in
  exists s1 s2,
    btor_lambda_copy_static_rho s lambda = Some (s1, entries)
    /\ (forall x nx, node_at s x = Some nx ->
          node_at s1 x
          = Some (wr_refs (n_refs nx + occurrences x (rho_handles (Some entries))) nx))
    /\ btor_lambda_set_static_rho s1 other (Some entries) = Some s2
    /\ btor_lambda_get_static_rho s2 other = Some (Some entries)
    /\ btor_lambda_delete_static_rho s2 other = Some s.
Proof.
  cbv zeta. apply (btor_lambda_delete_static_rho_undoes_copy example_hash_bv
           example_two_lambdas (ptr_of_id 5) (ptr_of_id 8)
           (node_of example_two_lambdas (ptr_of_id 5))
           (node_of example_two_lambdas (ptr_of_id 8)) ([(x_ptr, y_ptr)])).
  - vm_compute; first [reflexivity | lia | discriminate].
  - vm_compute; first [reflexivity | lia | discriminate].
  - vm_compute; first [reflexivity | lia | discriminate].
  - vm_compute; first [reflexivity | lia | discriminate].
  - apply refs_room_sound; vm_compute; reflexivity.
Defined.

Lemma btor_args_exp_of_few_arguments_witness :
  let bound := 1 in
  let s := example_vars7 in
  let args := [ptr_of_id 1; ptr_of_id 2; ptr_of_id 3] in
  let e := [ptr_of_id 1; ptr_of_id 2; ptr_of_id 3] in
  exists s1 p n,
    btor_args_exp s args = Some (s1, p)
    /\ create_exp s BTOR_ARGS_NODE e = Some (s1, p)
    /\ state_ok (bound + 3) s1
    /\ in_table s1 p /\ node_at s1 p = Some n
    /\ n_kind n = BTOR_ARGS_NODE /\ children n = e
    /\ (length (nodes_id_table s) <= length (nodes_id_table s1)
        <= S (length (nodes_id_table s)))%nat.
Proof.
  cbv zeta. apply (btor_args_exp_of_few_arguments example_hash_bv 1 example_vars7
           ([ptr_of_id 1; ptr_of_id 2; ptr_of_id 3])
           ([ptr_of_id 1; ptr_of_id 2; ptr_of_id 3])).
  - apply state_okb_sound; vm_compute; reflexivity.
  - vm_compute; first [reflexivity | lia | discriminate].
  - vm_compute; first [reflexivity | lia | discriminate].
  - vm_compute; first [reflexivity | lia | discriminate].
  - simpl; lia.
  - vm_compute; first [reflexivity | lia | discriminate].
  - apply arg_okb_sound; vm_compute; reflexivity.
Defined.

Lemma binary_operator_is_hash_consed_witness :
  let bound := 1 in
  let s := example_xy in
  let kind := BTOR_AND_NODE in
  let a := x_ptr in
  let b := y_ptr in
  let na := node_of example_xy x_ptr in
  let nb := node_of example_xy y_ptr in
  let srt := btor_bitvec_sort 8 in
  exists s1 p n,
    binary_exp_node kind s a b = Some (s1, p)
    /\ in_table s1 p /\ node_at s1 p = Some n
    /\ n_kind n = kind /\ children n = [a; b]
    /\ ((exists n0, in_table s p /\ node_at s p = Some n0
                   /\ s1 = store_node s p (wr_refs (n_refs n0 + 1) n0))
        \/ (node_at s p = None /\ p = ptr_of_id (length (nodes_id_table s))
            /\ n_refs n = 1 /\ n_sort_id n = srt
            /\ length (nodes_id_table s1) = S (length (nodes_id_table s))
            /\ forall x m, node_at s x = Some m ->
                 exists m1, node_at s1 x = Some m1 /\ stable m1 = stable m
                            /\ n_refs m1 = n_refs m + occurrences x [a; b]))
    /\ state_ok (bound + 3) s1
    /\ binary_exp_node kind s1 a b
       = Some (store_node s1 p (wr_refs (n_refs n + 1) n), p).
Proof.
  cbv zeta. apply (binary_operator_is_hash_consed example_hash_bv 1 example_xy
           BTOR_AND_NODE x_ptr y_ptr (node_of example_xy x_ptr)
           (node_of example_xy y_ptr) (btor_bitvec_sort 8)).
  - vm_compute; first [reflexivity | lia | discriminate].
  - apply state_okb_sound; vm_compute; reflexivity.
  - vm_compute; first [reflexivity | lia | discriminate].
  - vm_compute; first [reflexivity | lia | discriminate].
  - vm_compute; first [reflexivity | lia | discriminate].
  - vm_compute; first [reflexivity | lia | discriminate].
  - vm_compute; first [reflexivity | lia | discriminate].
  - vm_compute; first [reflexivity | lia | discriminate].
  - vm_compute; first [reflexivity | lia | discriminate].
  - vm_compute; first [reflexivity | lia | discriminate].
Defined.

Lemma synthebtor_accepted_arguments_witness :
  let can_read := fun _ : string => true in
  let can_write := fun _ : string => true in
  let argv := ["-v"; "in.btor"; "-v"; "out.aig"]%string in
  let st := fst (Synthebtor.arguments can_read can_write Synthebtor.initial argv) in
  let names := filter (fun a => Synthebtor.starts_with_dash a = false) argv in
  Forall (fun a => a = "-v"%string \/ Synthebtor.starts_with_dash a = false) argv
  /\ Synthebtor.verbosity st = Z.of_nat (length (filter (fun a => a = "-v"%string) argv))
  /\ (length names <= 2)%nat
  /\ Synthebtor.opened st = zip names ["r"%string; "w"%string]
  /\ Forall (fun a => can_read a = true) (take 1 names)
  /\ Forall (fun a => can_write a = true) (drop 1 names).
Proof.
  cbv zeta. apply (synthebtor_accepted_arguments (fun _ : string => true)
           (fun _ : string => true) (["-v"; "in.btor"; "-v"; "out.aig"]%string)).
  - vm_compute; first [reflexivity | lia | discriminate].
Defined.

End ExampleRuns.
